(* ===== verification/_CoqProject ===== *)
-Q . S2P
Prelude.v
RustInt.v
Scale.v
Types.v
Interfaces.v
Reference.v
Difficulty.v
Entropy.v
Pow.v
Selection.v
Rewards.v
Pallet.v
Calls.v
Runtime.v
Slashing.v
Safety.v
Staking.v
Consensus.v
Miner.v
Mining.v
Hooks.v
Chain.v
Blocks.v
Progress.v
Accounting.v
Halting.v
Misuse.v
Template.v
Assembly.v
Apis.v
Authors.v
Weights.v
ToolApis.v
Benchmarking.v
Service.v
Command.v
Node.v
Tests.v
