(* ===== verification/Prelude.v ===== *)
(** * Ghost blockchain: verification library

    A model, checked by the kernel, of the Ghost blockchain: the FRAME pallet
    [pallet-ghost-consensus] (hybrid proof of work and proof of stake), the runtime
    that assembles it with the template pallet and the library's pallets, its
    configuration, presets and APIs, and the node: its miner, service, RPC,
    benchmark extrinsics and command line; and the theorems that say what this
    code does and keeps true.

    ** The program

    A runtime block runs [on_initialize], the dispatched calls and [on_finalize].
    The pallet moves through three phases: in [PowMining] a signed
    [submit_block] stores a header whose double BLAKE2 hash meets the difficulty
    the header claims; in [PosValidation] the staker that a stake-weighted draw
    selects calls [validate_block], which signs the header and pays the block
    reward, 40% to the miner and 60% to the stakers; in [Finalization] the next
    [on_finalize] returns to mining.  [stake] and [unstake] move balances to and
    from an escrow account; [report_misbehavior] and, every tenth block,
    [check_downtime_slashing] lower stakes; every hundredth block
    [adjust_difficulty] retargets by the entropy of the last hundred producers.

    The node imports and authors blocks through the runtime's APIs.  It reaches
    consensus by Aura and GRANDPA, which [new_full] starts; the hybrid consensus
    lives in the runtime's storage only.  The default command runs a node, the
    others prepare a client or print.

    ** Files, and what they model

    - Prelude.v: tactics, the panic and dispatch monads with their symbolic
      execution, sums over lists and finite maps.
    - RustInt.v: machine integers at their width.  A plain operator is a function
      to [option]: out of range it panics when the build checks overflow and
      wraps when it does not ([Build] carries the choice, and the feature [std]).
    - Scale.v, Types.v: the SCALE codecs as records with a round-trip contract;
      types.rs with the derived codec of the header.
    - Interfaces.v: the crates that are not in the repository, as classes:
      [Hashing], [Pqc], [Frame], [Currency].  [FrameOk] and [CurrencyOk] state
      their documented contracts.  Reference.v instantiates all of them with
      executable functions, and proves the contracts for the instance.
    - Difficulty.v, Entropy.v, Pow.v, Selection.v, Rewards.v: functions.rs, and the
      mining loop of consensus.rs.
    - Pallet.v: lib.rs. [State] has a field per storage item and the parts of
      frame_system and pallet_balances that the pallet touches; every
      dispatchable, helper and hook is one definition of the same name.
      [dispatch] adds the storage layer that reverts a failed call.
    - Calls.v: when each call succeeds and what it then leaves.
    - Slashing.v, Safety.v, Staking.v, Consensus.v, Hooks.v: the properties of
      the calls and hooks one by one.
    - Chain.v: calls, hooks and the rest of the runtime as a labelled transition
      system, and the properties of all reachable states.
    - Blocks.v: traces that are blocks, and what one block can do.
    - Progress.v: blocks that complete a round, for any number of blocks.
    - Accounting.v: the books of a run: stakes, slashes, the escrow account and the
      log of events.
    - Halting.v: what the reports of one signer do to the stakes.  Misuse.v: stakes
      that lose their backing, and blocks that are rewarded again.
    - Miner.v: node/src/miner.rs as interleavings of the threads' atomic accesses.
      Mining.v: that its search ends with a solution, and its unit test.
    - Runtime.v: constants of runtime/src/lib.rs, the configurations of the consensus
      pallet in the runtime and in the mock, genesis_config_presets.rs.
    - Template.v: pallets/template.
    - Assembly.v: the pallets of runtime/src/lib.rs, their calls and hooks.  The
      library's pallets are the class [Library], the promises of frame_executive
      the class [ExecutiveOk], which a definition of the executive satisfies.
    - Apis.v: the configurations of the library's pallets (configs/mod.rs), the
      version, and the functions of apis.rs that drive and query a chain.
    - Authors.v: the blocks of Progress.v, built by the calls of the APIs next to the
      inherents and under the fees of the library.
    - Weights.v: the weights of the calls (weights.rs of the template pallet, the
      attributes of both pallets) and the limits of a block.
    - ToolApis.v: the rest of apis.rs, for the genesis builder, offchain workers,
      benchmarks and try-runtime, the session keys and benchmarks.rs.
    - Benchmarking.v: node/src/benchmarking.rs and the template pallet's benchmarks.
    - Service.v: node/src/service.rs as computations whose state is the trace of the
      library calls made so far; [Answers] says what the library answers to a
      call after a trace.
    - Command.v: cli.rs, command.rs, chain_spec.rs and main.rs, over the service and
      the miner, with the lines they print.
    - Node.v: the seal and the API of primitives/ghost-pow, rpc.rs and consensus.rs
      of the pallet, and node/src/rpc.rs.
    - Tests.v: the unit tests of the pallets, evaluated on the model; those that
      depend on hash values with the values for which they pass.

    ** What the theorems show

    - Calls (Consensus.v, Staking.v, Slashing.v): every outcome of every call,
      errors in the order of the code's checks, success with its exact effect;
      an error changes nothing.  A block that the mining worker finds is accepted.
      The validation pays exactly, in proportion to the stakes.
    - Chain (Chain.v): the type invariant of the storage; refinement of the
      three-phase machine by every interleaving, so that submissions and
      validations alternate; the escrow account covers the stakes up to the dust
      that an existential deposit above 1 can lose, and without loss when it holds
      one existential deposit on top of them; every validation creates at
      most one block reward; the target never grows.
    - Progress (Progress.v, Authors.v): in a release build, from a state with a
      header, a positive stake and keys, any number of blocks can each be submitted
      and validated, as long as puzzles have solutions; they can be
      built through the runtime APIs as long as the miner and the stakers can pay
      and the library's own pallets, given their inherents, do not panic.
    - Accounts (Accounting.v): along every run each stake is what its owner put in,
      less what he took out and was slashed; slashed tokens stay in the escrow
      account; the events replay to the difficulty and the producers.
    - Blocks (Blocks.v, Apis.v, ToolApis.v): importing blocks through the APIs is a run of that
      transition system, with at most one round of the consensus per block, so
      [k] blocks create at most [k] rewards; a chain from whatever genesis configuration
      never pays a reward; the configurations fit together.
    - Node (Service.v, Command.v, Benchmarking.v, Node.v): what a node starts, in
      which order and with which options; that every error of a library call ends the
      start, which got through a prefix of the startup until then;
      that only the default command starts one; what the Ghost commands print and
      that it agrees with the runtime; that benchmark extrinsics are well signed;
      when the RPC module exists and what it serves.
    - Safety (Safety.v): no call and no hook panics in a release build.
    - Miner (Miner.v, Mining.v): under every interleaving a returned nonce is a
      solution; a search that is not stopped ends with one, and does end, once the
      thread of a solution has run often enough; the threads leave within five steps
      of a stop, and they test disjoint nonces.
    - Functions (Difficulty.v to Rewards.v): ranges, monotonicity, exact values,
      order independence of the entropy, fairness of the selection,
      conservation of the reward, soundness and completeness of the search.

    Some theorems state what the code does although its comments intend something
    else: a chain from the runtime's genesis has no first header and never accepts
    a block; the effective target is twice the stored one; a block can be rewarded
    again and again; anybody can slash anybody, and one signer can take every stake, after
    which nobody can be selected; dust can leave a stake without backing; the total
    weight can overflow; the retarget saturates before it divides; the weight of
    [on_initialize] does not depend on the number of slashes that it makes.

    ** Bounds and fuel

    All recursion is structural. [mine_loop] runs on the million attempts that the
    code allows. Executions of the miner are finite schedules; that the threads
    finish is proved for every schedule that runs each of them five times after
    the stop, or the thread of the [k]-th nonce [3 k + 6] times before the others
    run four times.  [chain_makes_progress] and [authors_keep_mining] hold for any
    number of blocks below 2^32, the range of block numbers.  Traces of a node grow
    by one call at a time.  The entropy is computed exactly below 2^32 producers,
    and the pallet's window never holds more than a hundred.

    ** Assumptions

    Signatures, hashes and codecs are parameters: no property rests on a collision
    not existing; the binding of the proof of work says that two different headers
    with one hash are a collision.  Nobody signs for the escrow account, and the
    rest of the runtime neither takes from it nor creates money.  Over blocks this
    is [ordinary]: it excludes [sudo] calls that act as the escrow account or set
    balances.  Balances are [u128] and block numbers [u32], as in the runtime.
    The library's calls answer as they like, except for the documented promises in
    [FrameOk], [CurrencyOk], [CurrencyReaps], [CurrencyBooks], [LibraryOk], [ExecutiveOk], [ToolsOk],
    [TxLibraryOk] and [RpcLibraryOk], each with an instance.  Progress assumes that
    every header of a target above a floor has a nonce ([puzzles_solvable], met by
    the hash of its witness) and that every account but the escrow's can sign; in
    the runtime, that the library lets in the calls of those that can pay, which is
    a function of the state, and that its hooks and inherents do not panic when
    each block carries its inherents ([punctual], met by a library that keeps the
    time as pallet_timestamp does).  Otherwise the library may panic in every hook
    and call.

    ** Not modelled

    What happens inside the library: networking, Aura and GRANDPA, the executive,
    fees and signature checks, the commands of sc_cli, the conversion of presets to
    and from JSON, the expansion of its macros.  The types of runtime/src/lib.rs
    that only name a library type.  Build scripts.

    ** Order of work

    Modelled first: the pallet's functions, then its calls and hooks, then the
    chain as a transition system, the miner, the assembled runtime and its APIs,
    the service and the command line, then progress, accounts, weights and the
    remaining APIs, and last the progress of the runtime.  Next in order: the
    issuance of the runtime with a funded escrow account, where no dust is lost; how
    often each staker is selected over many blocks, for a hash that is given. *)

From stdpp Require Export base tactics numbers list gmap sorting.
From Stdlib Require Export ZArith Lia.

Declare Scope ghost_scope.
Delimit Scope ghost_scope with ghost.

(** ** Hint databases and tactics *)

Create Rewrite HintDb dispatch.
Create HintDb ghost discriminated.
#[export] Hint Constants Opaque : ghost.

(** Case analysis on every [match] and [if] of the goal or of a hypothesis,
    closing the contradictory branches. *)
Ltac split_cases :=
  repeat (case_match || case_decide || case_bool_decide); simplify_eq/=.

(** Turn boolean comparisons on [Z] in the context into propositions. *)
Ltac zbool :=
  repeat match goal with
  | H : context [Z.ltb ?a ?b] |- _ => destruct (Z.ltb_spec a b)
  | H : context [Z.leb ?a ?b] |- _ => destruct (Z.leb_spec a b)
  | H : context [Z.eqb ?a ?b] |- _ => destruct (Z.eqb_spec a b)
  | |- context [Z.ltb ?a ?b] => destruct (Z.ltb_spec a b)
  | |- context [Z.leb ?a ?b] => destruct (Z.leb_spec a b)
  | |- context [Z.eqb ?a ?b] => destruct (Z.eqb_spec a b)
  end.

(** Remember the bounds of a Euclidean quotient before calling [nia]. *)
Ltac div_bounds a b :=
  let q := fresh "q" in
  let H := fresh "Hdiv" in
  pose proof (Z.div_mod a b ltac:(lia)) as H;
  pose proof (Z.mod_pos_bound a b ltac:(lia));
  set (q := Z.div a b) in *.

(** ** Panicking computations

    A Rust expression that can panic is an [option]: [None] is the panic. *)

Section FoldM.
Context {A B : Type}.

(** A [for] loop over [l] whose body can panic. *)
Fixpoint foldM (f : B → A → option B) (acc : B) (l : list A) : option B :=
  match l with
  | [] => Some acc
  | x :: l' => acc' ← f acc x; foldM f acc' l'
  end.

Lemma foldM_app f acc l1 l2 :
  foldM f acc (l1 ++ l2) = foldM f acc l1 ≫= λ acc', foldM f acc' l2.
Proof.
  revert acc; induction l1 as [|x l1 IH]; intros acc; [done|].
  simpl. destruct (f acc x); [apply IH|done].
Qed.

(** A loop whose body never panics from an invariant state. *)
Lemma foldM_total (P : B → Prop) (f : B → A → option B) acc l :
  P acc →
  (∀ b x, P b → x ∈ l → ∃ b', f b x = Some b' ∧ P b') →
  ∃ b, foldM f acc l = Some b ∧ P b.
Proof.
  revert acc; induction l as [|x l IH]; intros acc Hacc Hf; [by eexists|].
  destruct (Hf acc x Hacc) as (b' & Hb & HP); [left|].
  simpl. rewrite Hb. apply IH; [done|]. intros b y Hb' Hy. apply Hf; [done|by right].
Qed.
End FoldM.

(** ** The dispatch monad

    A dispatchable runs on the chain state [S] and returns, fails with an
    error of type [E], or panics.  The state reached at an error is kept: what
    happens to it is decided by the storage layer around the call. *)

Inductive result (E A : Type) :=
  | Ok (a : A)
  | Err (e : E)
  | Panicked.
Arguments Ok {E A} a.
Arguments Err {E A} e.
Arguments Panicked {E A}.

Definition dispatch_m (S E A : Type) : Type := S → result E A * S.

#[export] Instance dispatch_ret {S E} : MRet (dispatch_m S E) := λ _ a s, (Ok a, s).
#[export] Instance dispatch_bind {S E} : MBind (dispatch_m S E) := λ A B k m s,
  match m s with
  | (Ok a, s') => k a s'
  | (Err e, s') => (Err e, s')
  | (Panicked, s') => (Panicked, s')
  end.

Section Dispatch.
Context {S E : Type}.
Local Abbreviation M := (dispatch_m S E).

Definition gets {A} (f : S → A) : M A := λ s, (Ok (f s), s).
Definition modify (f : S → S) : M unit := λ s, (Ok tt, f s).
Definition throw {A} (e : E) : M A := λ s, (Err e, s).
(** [ensure!(b, e)] *)
Definition ensure (b : bool) (e : E) : M unit := if b then mret tt else throw e.
(** [o.ok_or(e)?] *)
Definition ok_or {A} (o : option A) (e : E) : M A :=
  match o with Some a => mret a | None => throw e end.
(** an expression that can panic *)
Definition may_panic {A} (o : option A) : M A :=
  λ s, match o with Some a => (Ok a, s) | None => (Panicked, s) end.
(** a [for] loop over a list *)
Fixpoint for_each {A} (l : list A) (body : A → M unit) : M unit :=
  match l with
  | [] => mret tt
  | x :: l' => body x ;; for_each l' body
  end.

Lemma bind_ok {A B} (m : M A) (k : A → M B) s b s' :
  (m ≫= k) s = (Ok b, s') ↔ ∃ a s1, m s = (Ok a, s1) ∧ k a s1 = (Ok b, s').
Proof.
  unfold mbind, dispatch_bind. split.
  - destruct (m s) as [[a|e|] s1]; [|done..]. by exists a, s1.
  - by intros (a & s1 & -> & ?).
Qed.

Lemma bind_run {A B} (m : M A) (k : A → M B) s a s1 :
  m s = (Ok a, s1) → (m ≫= k) s = k a s1.
Proof. unfold mbind, dispatch_bind. by intros ->. Qed.

Lemma bind_err {A B} (m : M A) (k : A → M B) s e s1 :
  m s = (Err e, s1) → (m ≫= k) s = (Err e, s1).
Proof. unfold mbind, dispatch_bind. by intros ->. Qed.

Lemma bind_panic {A B} (m : M A) (k : A → M B) s s1 :
  m s = (Panicked, s1) → (m ≫= k) s = (Panicked, s1).
Proof. unfold mbind, dispatch_bind. by intros ->. Qed.

Lemma gets_run {A} (f : S → A) s : gets f s = (Ok (f s), s).
Proof. done. Qed.
Lemma modify_run (f : S → S) s : modify f s = (Ok tt, f s).
Proof. done. Qed.
Lemma ensure_ok b e s u s' : ensure b e s = (Ok u, s') ↔ b = true ∧ s' = s ∧ u = tt.
Proof. destruct b, u; cbv; split; intros; destruct_and?; simplify_eq; done. Qed.
Lemma ok_or_ok {A} (o : option A) e s a s' :
  ok_or o e s = (Ok a, s') ↔ o = Some a ∧ s' = s.
Proof. destruct o; cbv; split; intros; destruct_and?; simplify_eq; done. Qed.
Lemma may_panic_ok {A} (o : option A) s a s' :
  may_panic o s = (Ok a, s') ↔ o = Some a ∧ s' = s.
Proof. destruct o; cbv; split; intros; destruct_and?; simplify_eq; done. Qed.

(** Loop rule: an invariant of the body is an invariant of the loop. *)
Lemma for_each_inv {A} (P : list A → S → Prop) (l : list A) (body : A → M unit) s u s' :
  (∀ x l' t u t', P (x :: l') t → body x t = (Ok u, t') → P l' t') →
  P l s → for_each l body s = (Ok u, s') → P [] s'.
Proof.
  intros Hbody. revert s u s'; induction l as [|x l IH]; intros s u s' HP; simpl.
  - by intros [= <- <-].
  - rewrite bind_ok. intros (u1 & s1 & H1 & H2). eapply IH; [|done]. by eapply Hbody.
Qed.
End Dispatch.

(** A run whose result evaluates to a success. *)
Definition is_ok {E A} (r : result E A) : bool :=
  match r with Ok _ => true | _ => false end.
Lemma run_ok {S E} (p : result E unit * S) : is_ok p.1 = true → p = (Ok tt, p.2).
Proof. by destruct p as [[[]|e|] s]. Qed.
Lemma run_ok_value {S E A} (p : result E A * S) :
  is_ok p.1 = true → ∃ a, p = (Ok a, p.2).
Proof. destruct p as [[a|e|] s]; [by exists a|done..]. Qed.

Lemma some_default {A} (d : A) (o : option A) :
  match o with Some _ => true | None => false end = true → o = Some (default d o).
Proof. by destruct o. Qed.

(** Decompose a successful run of a dispatchable into its steps. *)
Ltac inv_run :=
  repeat match goal with
  | H : (_ ≫= _) _ = (Ok _, _) |- _ =>
      apply bind_ok in H; destruct H as (? & ? & ? & H)
  | H : gets _ _ = (Ok _, _) |- _ => cbv [gets] in H; simplify_eq
  | H : modify _ _ = (Ok _, _) |- _ => cbv [modify] in H; simplify_eq
  | H : throw _ _ = (Ok _, _) |- _ => cbv [throw] in H; discriminate
  | H : mret _ _ = (Ok _, _) |- _ => cbv [mret dispatch_ret] in H; simplify_eq
  | H : ensure _ _ _ = (Ok _, _) |- _ => apply ensure_ok in H; destruct H as (? & ? & ?)
  | H : ok_or _ _ _ = (Ok _, _) |- _ => apply ok_or_ok in H; destruct H as (? & ?)
  | H : may_panic _ _ = (Ok _, _) |- _ => apply may_panic_ok in H; destruct H as (? & ?)
  | H : bool_decide _ = true |- _ => apply bool_decide_eq_true in H
  end; subst.

(** Symbolic execution: one equation per primitive. *)
Section Run.
Context {S E A B : Type}.
Implicit Types (s : S) (e : E).

Lemma bind_gets (f : S → A) (k : A → dispatch_m S E B) s : (gets f ≫= k) s = k (f s) s.
Proof. done. Qed.
Lemma bind_modify (f : S → S) (k : unit → dispatch_m S E B) s :
  (modify f ≫= k) s = k tt (f s).
Proof. done. Qed.
Lemma bind_mret (a : A) (k : A → dispatch_m S E B) s : (mret a ≫= k) s = k a s.
Proof. done. Qed.
Lemma bind_throw e (k : A → dispatch_m S E B) s : (throw e ≫= k) s = (Err e, s).
Proof. done. Qed.
Lemma bind_bind {C} (m : dispatch_m S E A) (f : A → dispatch_m S E B)
    (g : B → dispatch_m S E C) s :
  ((m ≫= f) ≫= g) s = (m ≫= λ a, f a ≫= g) s.
Proof. unfold mbind, dispatch_bind. by destruct (m s) as [[]]. Qed.
Lemma ensure_true e : ensure (S := S) true e = mret tt.
Proof. done. Qed.
Lemma ensure_false e : ensure (S := S) false e = throw e.
Proof. done. Qed.
Lemma ok_or_Some (a : A) e : ok_or (S := S) (Some a) e = mret a.
Proof. done. Qed.
Lemma ok_or_None e : ok_or (S := S) (A := A) None e = throw e.
Proof. done. Qed.
Lemma may_panic_Some (a : A) : may_panic (S := S) (E := E) (Some a) = mret a.
Proof. done. Qed.
Lemma bind_may_panic_None (k : A → dispatch_m S E B) s :
  (may_panic None ≫= k) s = (Panicked, s).
Proof. done. Qed.
End Run.

#[export] Hint Rewrite @bind_gets @bind_modify @bind_mret @bind_throw @bind_bind @ensure_true
  @ensure_false @ok_or_Some @ok_or_None @may_panic_Some @bind_may_panic_None : dispatch.

(** Run a dispatchable as far as the rewriting of its tests allows. *)
Ltac run := repeat first [ progress (autorewrite with dispatch) | progress (cbv beta zeta) ].

(** ** Computations that extend a trace

    The state of the node's computations is the trace of what they did. *)

(** On every path the computation only appends, and each event it appends
    satisfies [Q]. *)
Definition extends {T E A} (Q : T → Prop) (m : dispatch_m (list T) E A) : Prop :=
  ∀ tr, ∃ l, (m tr).2 = tr ++ l ∧ Forall Q l.

Section Extends.
Context {T E A B : Type}.
Implicit Types (Q : T → Prop) (tr : list T).

Lemma extends_ret Q (a : A) : extends (E := E) Q (mret a).
Proof. intros tr. exists []. by rewrite app_nil_r. Qed.
Lemma extends_throw Q (e : E) : extends (A := A) Q (throw e).
Proof. intros tr. exists []. by rewrite app_nil_r. Qed.
Lemma extends_may_panic Q (o : option A) : extends (E := E) Q (may_panic o).
Proof. intros tr. exists []. rewrite app_nil_r. by destruct o. Qed.
Lemma extends_bind Q (m : dispatch_m (list T) E A) (k : A → dispatch_m (list T) E B) :
  extends Q m → (∀ a, extends Q (k a)) → extends Q (m ≫= k).
Proof.
  intros Hm Hk tr. destruct (Hm tr) as (l & Heq & Hl). unfold mbind, dispatch_bind.
  destruct (m tr) as [[a|e|] tr1]; simpl in Heq; subst; [|by exists l..].
  destruct (Hk a (tr ++ l)) as (l' & -> & Hl').
  exists (l ++ l'). by rewrite app_assoc, Forall_app.
Qed.
Lemma extends_weaken Q Q' (m : dispatch_m (list T) E A) :
  extends Q m → (∀ x, Q x → Q' x) → extends Q' m.
Proof.
  intros Hm HQ tr. destruct (Hm tr) as (l & Heq & Hl). exists l.
  split; [done|]. by eapply Forall_impl.
Qed.
End Extends.

(** ** Absence of panics *)

Definition no_panic {S E A} (m : dispatch_m S E A) : Prop := ∀ s, (m s).1 ≠ Panicked.

Create HintDb no_panic discriminated.
#[export] Hint Constants Opaque : no_panic.

Section NoPanic.
Context {S E A B : Type}.

Lemma no_panic_ret (a : A) : no_panic (S := S) (E := E) (mret a).
Proof. by intros s. Qed.
Lemma no_panic_gets (f : S → A) : no_panic (E := E) (gets f).
Proof. by intros s. Qed.
Lemma no_panic_modify (f : S → S) : no_panic (E := E) (modify f).
Proof. by intros s. Qed.
Lemma no_panic_throw (e : E) : no_panic (S := S) (throw (A := A) e).
Proof. by intros s. Qed.
Lemma no_panic_ensure b (e : E) : no_panic (S := S) (ensure b e).
Proof. by intros s; destruct b. Qed.
Lemma no_panic_ok_or (o : option A) (e : E) : no_panic (S := S) (ok_or o e).
Proof. by intros s; destruct o. Qed.
Lemma no_panic_may_panic (o : option A) : is_Some o → no_panic (S := S) (E := E) (may_panic o).
Proof. by intros [a ->] s. Qed.
Lemma no_panic_bind (m : dispatch_m S E A) (k : A → dispatch_m S E B) :
  no_panic m → (∀ a, no_panic (k a)) → no_panic (m ≫= k).
Proof.
  intros Hm Hk s. specialize (Hm s). unfold mbind, dispatch_bind.
  destruct (m s) as [[a|e|] s1]; [apply Hk|done|done].
Qed.
(** a continuation may rely on what was read *)
Lemma no_panic_bind_gets (f : S → A) (k : A → dispatch_m S E B) :
  (∀ s, (k (f s) s).1 ≠ Panicked) → no_panic (gets f ≫= k).
Proof. intros Hk s. apply Hk. Qed.
Lemma no_panic_for_each (l : list A) (body : A → dispatch_m S E unit) :
  (∀ x, x ∈ l → no_panic (body x)) → no_panic (for_each l body).
Proof.
  induction l as [|x l IH]; intros Hb; [by intros s|]. simpl.
  intros s. pose proof (Hb x ltac:(left) s) as Hx. unfold mbind, dispatch_bind.
  destruct (body x s) as [[a|e|] s1]; [|done|done].
  apply IH. intros y Hy. apply Hb. by right.
Qed.
End NoPanic.

#[export] Hint Resolve no_panic_ret no_panic_gets no_panic_modify no_panic_throw no_panic_ensure
  no_panic_ok_or
  no_panic_may_panic : no_panic.

(** Split a dispatchable into its primitives. *)
Ltac no_panic :=
  repeat first
    [ progress intros
    | apply no_panic_bind
  | apply no_panic_for_each
    | solve [eauto 4 with no_panic]
    | match goal with |- no_panic (match ?x with _ => _ end) => destruct x end
    | progress cbv zeta ].

(** ** Absence of errors

    The hooks of a pallet have no error to return. *)

Definition no_error {S E A} (m : dispatch_m S E A) : Prop := ∀ s e, (m s).1 ≠ Err e.

Create HintDb no_error discriminated.
#[export] Hint Constants Opaque : no_error.

Section NoError.
Context {S E A B : Type}.

Lemma no_error_ret (a : A) : no_error (S := S) (E := E) (mret a).
Proof. by intros s e. Qed.
Lemma no_error_gets (f : S → A) : no_error (E := E) (gets f).
Proof. by intros s e. Qed.
Lemma no_error_modify (f : S → S) : no_error (E := E) (modify f).
Proof. by intros s e. Qed.
Lemma no_error_may_panic (o : option A) : no_error (S := S) (E := E) (may_panic o).
Proof. by intros s e; destruct o. Qed.
Lemma no_error_bind (m : dispatch_m S E A) (k : A → dispatch_m S E B) :
  no_error m → (∀ a, no_error (k a)) → no_error (m ≫= k).
Proof.
  intros Hm Hk s e. specialize (Hm s e). unfold mbind, dispatch_bind.
  destruct (m s) as [[a|e'|] s1]; [apply Hk| |done].
  intros [= ->]. by apply Hm.
Qed.
End NoError.

Lemma no_error_for_each {S E A} (l : list A) (body : A → dispatch_m S E unit) :
  (∀ x, no_error (body x)) → no_error (for_each l body).
Proof.
  intros Hb. induction l as [|x l IH]; [by intros s e|]. simpl.
  apply no_error_bind; [apply Hb|intros _; exact IH].
Qed.

#[export] Hint Resolve no_error_ret no_error_gets no_error_modify no_error_may_panic : no_error.

(** Split a hook into its primitives. *)
Ltac no_error :=
  repeat first
    [ progress intros
    | apply no_error_bind
    | apply no_error_for_each
    | solve [eauto 4 with no_error]
    | match goal with |- no_error (match ?x with _ => _ end) => destruct x end
    | progress cbv zeta ].

(** ** Filters *)

Lemma filter_all {A} (P : A → Prop) `{!∀ x, Decision (P x)} (l : list A) :
  (∀ x, x ∈ l → P x) → filter P l = l.
Proof.
  induction l as [|x l IH]; intros Hl; [done|].
  rewrite filter_cons_True by (apply Hl; left). f_equal. apply IH. intros; apply Hl; by right.
Qed.

Lemma filter_none {A} (P : A → Prop) `{!∀ x, Decision (P x)} (l : list A) :
  (∀ x, x ∈ l → ¬ P x) → filter P l = [].
Proof.
  induction l as [|x l IH]; intros Hl; [done|].
  rewrite filter_cons_False by (apply Hl; left). apply IH. intros; apply Hl; by right.
Qed.

(** A key without duplicates identifies a position. *)
Lemma NoDup_key_split {A B} (f : A → B) (l1 l1' : list A) x x' l2 l2' :
  NoDup (f <$> (l1 ++ x :: l2)) → l1 ++ x :: l2 = l1' ++ x' :: l2' → f x = f x' →
  l1 = l1' ∧ x = x'.
Proof.
  revert l1'; induction l1 as [|y l1 IH]; intros [|y' l1'] Hnd Heq Hf; simplify_eq/=; [done|..];
    apply NoDup_cons in Hnd as [Hnot Hnd].
  - destruct Hnot. rewrite Hf, fmap_app, fmap_cons. apply elem_of_app. right. left.
  - destruct Hnot. rewrite <-Hf, fmap_app, fmap_cons. apply elem_of_app. right. left.
  - by destruct (IH l1' Hnd) as [-> ->].
Qed.

(** The number of integers of [0, n) in an interval of length [w]. *)
Lemma count_interval (P : Z → Prop) `{!∀ x, Decision (P x)} a w n :
  (0 ≤ a → 0 ≤ w → a + w ≤ n → (∀ r, 0 ≤ r < n → P r ↔ a ≤ r < a + w) →
  length (filter P (seqZ 0 n)) = Z.to_nat w)%Z.
Proof.
  intros Ha Hw Hn HP. replace n with (a + (w + (n - a - w)))%Z by lia.
  rewrite !seqZ_app, !filter_app by lia.
  rewrite (filter_none P (seqZ 0 a)), (filter_all P (seqZ (0 + a) w)),
    (filter_none P (seqZ (0 + a + w) _));
    try (intros x Hx%elem_of_seqZ; rewrite HP; lia).
  by rewrite app_nil_l, app_nil_r, length_seqZ.
Qed.

(** ** Sums over lists *)

Definition sumZ (l : list Z) : Z := foldr Z.add 0%Z l.

Section SumZ.
Local Open Scope Z_scope.

Lemma sumZ_app l1 l2 : sumZ (l1 ++ l2) = sumZ l1 + sumZ l2.
Proof. induction l1 as [|x l1 IH]; simpl; [done|]. rewrite IH; lia. Qed.

Lemma sumZ_nonneg l : Forall (λ x, 0 ≤ x) l → 0 ≤ sumZ l.
Proof. induction 1; simpl; lia. Qed.

Lemma sumZ_elem_le l x : Forall (λ x, 0 ≤ x) l → x ∈ l → x ≤ sumZ l.
Proof.
  induction 1 as [|y l Hy Hl IH]; simpl; [by intros ?%elem_of_nil|].
  pose proof (sumZ_nonneg l Hl).
  intros [->|Hx]%elem_of_cons; [lia|]. specialize (IH Hx). lia.
Qed.

Lemma sumZ_le {A} (f g : A → Z) l :
  (∀ x, x ∈ l → f x ≤ g x) → sumZ (f <$> l) ≤ sumZ (g <$> l).
Proof.
  induction l as [|x l IH]; intros H; csimpl; [done|].
  assert (f x ≤ g x) by (apply H; left).
  assert (sumZ (f <$> l) ≤ sumZ (g <$> l)) by (apply IH; intros; apply H; by right). lia.
Qed.

Lemma sumZ_mul_l c l : sumZ ((λ x, c * x) <$> l) = c * sumZ l.
Proof. induction l as [|x l IH]; csimpl; [lia|]. rewrite IH; lia. Qed.

(** Rounding each summand down loses less than [d] per summand. *)
Lemma sumZ_div_le d l : 0 < d → d * sumZ ((λ x, x / d) <$> l) ≤ sumZ l.
Proof.
  intros Hd. induction l as [|x l IH]; csimpl; [lia|].
  pose proof (Z.mul_div_le x d Hd). lia.
Qed.

Lemma sumZ_div_gt d l :
  0 < d → sumZ l ≤ d * sumZ ((λ x, x / d) <$> l) + (d - 1) * Z.of_nat (length l).
Proof.
  intros Hd. induction l as [|x l IH]; csimpl; [lia|].
  pose proof (Z.div_mod x d ltac:(lia)). pose proof (Z.mod_pos_bound x d Hd).
  rewrite Nat2Z.inj_succ. lia.
Qed.

#[export] Instance sumZ_perm : Proper (Permutation ==> eq) sumZ.
Proof.
  intros l1 l2; induction 1 as [|x l1 l2 _ IH|x y l|l1 l2 l3 _ IH1 _ IH2]; simpl; [done|lia|lia|].
  by rewrite IH1.
Qed.

(** The sum of the values of a finite map. *)
Definition map_sum `{Countable K} (m : gmap K Z) : Z := sumZ (map_to_list m).*2.

Context `{Countable K}.
Implicit Types (m : gmap K Z).

Lemma map_sum_empty : map_sum (∅ : gmap K Z) = 0.
Proof. unfold map_sum. by rewrite map_to_list_empty. Qed.

Lemma map_sum_insert_fresh m i x : m !! i = None → map_sum (<[i := x]> m) = x + map_sum m.
Proof. intros Hi. unfold map_sum. by rewrite map_to_list_insert by done. Qed.

Lemma map_sum_delete m i x : m !! i = Some x → map_sum m = x + map_sum (delete i m).
Proof.
  intros Hi. rewrite <-(insert_delete_id m i x Hi) at 1.
  by rewrite map_sum_insert_fresh by apply lookup_delete_eq.
Qed.

Lemma map_sum_insert m i x : map_sum (<[i := x]> m) = map_sum m - default 0 (m !! i) + x.
Proof.
  destruct (m !! i) as [y|] eqn:Hi; simpl.
  - rewrite (map_sum_delete m i y Hi), (map_sum_delete (<[i := x]> m) i x).
    + rewrite delete_insert_eq. lia.
    + apply lookup_insert_eq.
  - rewrite map_sum_insert_fresh by done. lia.
Qed.

Lemma map_sum_nonneg m : map_Forall (λ _ x, 0 ≤ x) m → 0 ≤ map_sum m.
Proof.
  intros Hm. apply sumZ_nonneg, Forall_fmap, Forall_forall.
  intros [k x] Hx%elem_of_map_to_list. by eapply Hm.
Qed.

Lemma map_sum_lookup_le m i x :
  map_Forall (λ _ x, 0 ≤ x) m → m !! i = Some x → x ≤ map_sum m.
Proof.
  intros Hm Hi. rewrite (map_sum_delete m i x Hi).
  pose proof (map_sum_nonneg (delete i m) (map_Forall_delete _ _ _ Hm)). lia.
Qed.
End SumZ.
