(* ===== verification/RustInt.v ===== *)
(** * Rust machine integers and byte arrays

    The unsigned integers of the program ([u8], [u32], [u64], [u128]) as [Z],
    with the overflow behaviour of Rust's operators written out: the plain
    operators panic when the build has overflow checks (the debug profile) and
    wrap modulo 2^w when it has not (the release profile); the [checked_],
    [saturating_] and [wrapping_] methods behave the same in every build.
    [array n] is Rust's [[u8; n]]. *)

From S2P Require Import Prelude.
Local Open Scope Z_scope.

(** The build settings the program's meaning depends on: the compiler's
    overflow checks and the crate feature [std]. *)
Class Build := {
  overflow_checks : bool;
  feature_std : bool;
}.

Definition modulus (w : Z) : Z := 2 ^ w.
Definition max_value (w : Z) : Z := 2 ^ w - 1.
Definition in_uint (w x : Z) : Prop := 0 ≤ x < 2 ^ w.
#[export] Instance in_uint_dec w x : Decision (in_uint w x).
Proof. unfold in_uint. apply _. Defined.

Abbreviation U8 := 8 (only parsing).
Abbreviation U32 := 32 (only parsing).
Abbreviation U64 := 64 (only parsing).
Abbreviation U128 := 128 (only parsing).

(** ** The operators *)

Section Ops.
Context `{!Build}.

(** The result of an operator whose mathematical value is [x]. *)
Definition arith (w x : Z) : option Z :=
  if bool_decide (in_uint w x) then Some x
  else if overflow_checks then None else Some (x mod modulus w).

Definition add (w x y : Z) : option Z := arith w (x + y).
Definition sub (w x y : Z) : option Z := arith w (x - y).
Definition mul (w x y : Z) : option Z := arith w (x * y).
(** Division and remainder by zero panic in every build. *)
Definition div (x y : Z) : option Z := if decide (y = 0) then None else Some (x / y).
Definition rem (x y : Z) : option Z := if decide (y = 0) then None else Some (x mod y).

(** [Iterator::sum] on an unsigned type: the operator [+] folded from 0. *)
Definition sum (w : Z) (l : list Z) : option Z := foldM (add w) 0 l.
End Ops.

Arguments arith {_} w x : simpl never.
Arguments add {_} w x y : simpl never.
Arguments sub {_} w x y : simpl never.
Arguments mul {_} w x y : simpl never.
Arguments div x y : simpl never.
Arguments rem x y : simpl never.
Arguments sum {_} w l : simpl never.

Definition saturate (w x : Z) : Z := Z.max 0 (Z.min x (max_value w)).
Definition saturating_add (w x y : Z) : Z := saturate w (x + y).
Definition saturating_sub (w x y : Z) : Z := saturate w (x - y).
Definition saturating_mul (w x y : Z) : Z := saturate w (x * y).
Definition wrapping_add (w x y : Z) : Z := (x + y) mod modulus w.
Definition checked_sub (x y : Z) : option Z := if decide (x < y) then None else Some (x - y).
Definition checked_add (w x y : Z) : option Z :=
  if decide (x + y < modulus w) then Some (x + y) else None.

(** [u64::leading_zeros] of a non-zero value, and of zero. *)
Definition leading_zeros (w x : Z) : Z := if decide (x = 0) then w else w - 1 - Z.log2 x.

(** [u64::from_be_bytes] on a slice of bytes. *)
Definition from_be_bytes (l : list Byte.byte) : Z :=
  foldl (λ acc b, acc * 256 + Z.of_N (Byte.to_N b)) 0 l.

(** ** Byte arrays: [[u8; n]] *)

Record array (n : nat) := Array {
  array_bytes : list Byte.byte;
  array_len : (length array_bytes =? n)%nat = true;
}.
Arguments Array {n} _ _.
Arguments array_bytes {n} _.

Lemma array_eq {n} (a b : array n) : array_bytes a = array_bytes b → a = b.
Proof. destruct a, b; simpl; intros ->. f_equal. apply proof_irrel. Qed.

#[export] Instance byte_eq_dec : EqDecision Byte.byte := Byte.byte_eq_dec.
#[export] Instance array_eq_dec n : EqDecision (array n).
Proof.
  intros a b. destruct (decide (array_bytes a = array_bytes b)) as [H|H].
  - left. by apply array_eq.
  - right. by intros ->.
Defined.

(** [TryFrom<&[u8]> for [u8; n]]: fails unless the lengths agree. *)
Definition try_into (n : nat) (l : list Byte.byte) : option (array n) :=
  match Bool.bool_dec (length l =? n)%nat true with
  | left H => Some (Array l H)
  | right _ => None
  end.

Lemma length_array {n} (a : array n) : length (array_bytes a) = n.
Proof. destruct a as [l H]. by apply Nat.eqb_eq. Qed.

Lemma try_into_bytes {n} (a : array n) : try_into n (array_bytes a) = Some a.
Proof.
  unfold try_into. destruct (Bool.bool_dec _ _) as [H|H].
  - f_equal. by apply array_eq.
  - destruct H. apply array_len.
Qed.

Lemma try_into_Some n l a : try_into n l = Some a → array_bytes a = l.
Proof. unfold try_into. case_match; by intros [= <-]. Qed.

(** [[0u8; n]] *)
Lemma replicate_len n : (length (replicate n Byte.x00) =? n)%nat = true.
Proof. rewrite length_replicate. apply Nat.eqb_refl. Defined.
Definition zeros (n : nat) : array n := Array (replicate n Byte.x00) (replicate_len n).

(** ** Lemmas *)

Lemma in_uint_mono w w' x : w ≤ w' → in_uint w x → in_uint w' x.
Proof.
  unfold in_uint. intros Hw Hx. pose proof (Z.pow_le_mono_r 2 w w' ltac:(lia) Hw). lia.
Qed.

Lemma in_uint_mod w x : 0 ≤ w → in_uint w (x mod modulus w).
Proof. intros Hw. apply Z.mod_pos_bound. unfold modulus. by apply Z.pow_pos_nonneg. Qed.

Lemma saturate_range w x : 0 ≤ w → in_uint w (saturate w x).
Proof.
  intros Hw. unfold in_uint, saturate, max_value.
  pose proof (Z.pow_pos_nonneg 2 w ltac:(lia) Hw). lia.
Qed.

Lemma saturate_id w x : in_uint w x → saturate w x = x.
Proof. unfold in_uint, saturate, max_value. lia. Qed.

Lemma saturating_sub_le w x y : in_uint w x → 0 ≤ y → saturating_sub w x y = Z.max 0 (x - y).
Proof. unfold saturating_sub, saturate, in_uint, max_value. lia. Qed.

Section OpsLemmas.
Context `{!Build}.

Lemma arith_fits w x : in_uint w x → arith w x = Some x.
Proof. intros Hx. unfold arith. by rewrite bool_decide_eq_true_2. Qed.

Lemma arith_range w x y : 0 ≤ w → arith w x = Some y → in_uint w y.
Proof.
  intros Hw. unfold arith. case_bool_decide; [by intros [= <-]|].
  case_match; intros [= <-]. by apply in_uint_mod.
Qed.

Lemma arith_overflow_panics w x : overflow_checks = true → ¬ in_uint w x → arith w x = None.
Proof. intros Hc Hx. unfold arith. rewrite bool_decide_eq_false_2 by done. by rewrite Hc. Qed.

(** Whatever the build, an operator that returns never exceeds the
    mathematical value of a non-negative expression. *)
Lemma arith_le w x y : 0 ≤ w → 0 ≤ x → arith w x = Some y → y ≤ x.
Proof.
  intros Hw Hx. unfold arith. case_bool_decide; [intros [= <-]; lia|].
  case_match; intros [= <-]. apply Z.mod_le; [lia|].
  by apply Z.pow_pos_nonneg.
Qed.

Lemma add_fits w x y : in_uint w (x + y) → add w x y = Some (x + y).
Proof. apply arith_fits. Qed.
Lemma add_overflow_panics w x y :
  overflow_checks = true → ¬ in_uint w (x + y) → add w x y = None.
Proof. apply arith_overflow_panics. Qed.
Lemma sub_fits w x y : in_uint w (x - y) → sub w x y = Some (x - y).
Proof. apply arith_fits. Qed.
Lemma mul_fits w x y : in_uint w (x * y) → mul w x y = Some (x * y).
Proof. apply arith_fits. Qed.
Lemma div_nz x y : y ≠ 0 → div x y = Some (x / y).
Proof. intros Hy. unfold div. by rewrite decide_False. Qed.
Lemma rem_nz x y : y ≠ 0 → rem x y = Some (x mod y).
Proof. intros Hy. unfold rem. by rewrite decide_False. Qed.

(** Folding [+] over non-negative values whose sum fits is exact. *)
Lemma foldM_add_fits w acc l :
  0 ≤ acc → Forall (λ x, 0 ≤ x) l → acc + sumZ l < 2 ^ w →
  foldM (add w) acc l = Some (acc + sumZ l).
Proof.
  revert acc; induction l as [|x l IH]; intros acc Hacc Hl Hsum; simpl in *.
  - by rewrite Z.add_0_r.
  - apply Forall_cons in Hl as [Hx Hl]. pose proof (sumZ_nonneg l Hl).
    rewrite add_fits by (unfold in_uint; lia). simpl.
    rewrite IH by (done || lia). f_equal. lia.
Qed.

Lemma sum_fits w l :
  Forall (λ x, 0 ≤ x) l → sumZ l < 2 ^ w → sum w l = Some (sumZ l).
Proof. intros. unfold sum. by rewrite foldM_add_fits. Qed.

(** A sum that returned is exact when it fits or when the build checks. *)
Lemma foldM_add_exact w acc l t :
  0 ≤ acc → Forall (λ x, 0 ≤ x) l → overflow_checks = true ∨ acc + sumZ l < 2 ^ w →
  foldM (add w) acc l = Some t → t = acc + sumZ l.
Proof.
  intros Hacc Hl. revert acc Hacc; induction Hl as [|x l Hx Hl IH]; intros acc Hacc Hor; simpl.
  { intros [= <-]. lia. }
  pose proof (sumZ_nonneg l Hl). simpl in Hor.
  destruct (decide (in_uint w (acc + x))) as [Hin|Hin].
  - rewrite add_fits by done. simpl. intros Ht%IH; [lia|lia|].
    destruct Hor; [by left|right; lia].
  - destruct Hor as [Hc|?]; [|unfold in_uint in Hin; lia].
    by rewrite add_overflow_panics.
Qed.

(** A sum that returned is not negative, even when it wrapped. *)
Lemma foldM_add_nonneg w acc l t :
  0 ≤ w → 0 ≤ acc → foldM (add w) acc l = Some t → 0 ≤ t.
Proof.
  intros Hw. revert acc; induction l as [|x l IH]; intros acc Hacc; simpl.
  { by intros [= <-]. }
  destruct (add w acc x) as [y|] eqn:Hy; [|done]. simpl. apply IH.
  by apply (arith_range w (acc + x)).
Qed.

(** With overflow checks a sum that does not fit panics. *)
Lemma sum_overflow_panics w l :
  0 ≤ w → overflow_checks = true → Forall (λ x, 0 ≤ x) l → 2 ^ w ≤ sumZ l → sum w l = None.
Proof.
  intros Hw Hc Hl. unfold sum.
  assert (Hacc : in_uint w 0) by (split; [lia|by apply Z.pow_pos_nonneg]).
  replace (sumZ l) with (0 + sumZ l) by lia. revert Hacc. generalize 0 as acc.
  induction Hl as [|x l Hx Hl IH]; intros acc Hacc Hs; simpl in *.
  - unfold in_uint in Hacc. lia.
  - destruct (decide (in_uint w (acc + x))) as [Hin|Hin].
    + rewrite add_fits by done. simpl. apply IH; [done|lia].
    + by rewrite add_overflow_panics.
Qed.

(** Without overflow checks a sum is the sum modulo 2^w. *)
Lemma arith_wraps w x : overflow_checks = false → 0 ≤ x → arith w x = Some (x mod 2 ^ w).
Proof.
  intros Hc Hx. unfold arith. case_bool_decide as Hin; [|by rewrite Hc].
  rewrite Z.mod_small by done. done.
Qed.

Lemma add_wraps w x y :
  overflow_checks = false → 0 ≤ x + y → add w x y = Some ((x + y) mod 2 ^ w).
Proof. apply arith_wraps. Qed.

Lemma sum_wraps w l :
  0 ≤ w → overflow_checks = false → Forall (λ x, 0 ≤ x) l → sum w l = Some (sumZ l mod 2 ^ w).
Proof.
  intros Hw Hc Hl. unfold sum. assert (Hp : 0 < 2 ^ w) by (by apply Z.pow_pos_nonneg).
  replace (sumZ l) with (0 + sumZ l) by lia.
  replace (Some ((0 + sumZ l) mod 2 ^ w)) with (Some ((0 mod 2 ^ w + sumZ l) mod 2 ^ w))
    by (by rewrite Z.mod_0_l by lia).
  replace (foldM (add w) 0 l) with (foldM (add w) (0 mod 2 ^ w) l)
    by (by rewrite Z.mod_0_l by lia).
  generalize 0 as acc. induction Hl as [|x l Hx Hl IH]; intros acc; simpl.
  - by rewrite Z.add_0_r, Z.mod_mod by lia.
  - pose proof (Z.mod_pos_bound acc (2 ^ w) Hp).
    rewrite add_wraps by (done || lia). simpl. rewrite IH. f_equal.
    rewrite Z.add_mod_idemp_l by lia.
    replace (acc mod 2 ^ w + x + sumZ l) with (acc mod 2 ^ w + (x + sumZ l)) by lia. done.
Qed.
End OpsLemmas.

Lemma from_be_bytes_bound l : in_uint (8 * Z.of_nat (length l)) (from_be_bytes l).
Proof.
  unfold from_be_bytes. induction l as [|b l IH] using rev_ind; [by vm_compute|].
  rewrite foldl_app, length_app. simpl.
  set (v := foldl _ 0 l) in *. unfold in_uint in *.
  assert (0 ≤ Z.of_N (Byte.to_N b) < 256) by (destruct b; by vm_compute).
  rewrite Nat2Z.inj_add, Z.mul_add_distr_l, Z.pow_add_r by lia. simpl. lia.
Qed.

#[export] Hint Resolve in_uint_mod saturate_range : ghost.
