(* ===== verification/Scale.v ===== *)
(** * SCALE codecs

    The program's types derive [Encode] and [Decode] of parity-scale-codec.
    The codecs of the primitive types (integers, byte arrays, [Option]) are
    that library's: they are the fields of the class [ScalePrims], with the
    library's documented round-trip contract as [ScalePrimsOk].  The codec of a
    struct or of a tuple is the concatenation of the codecs of its fields in
    declaration order; [codec_pair] and [codec_iso] build those codecs for the
    field orders that the source declares. *)

From S2P Require Import Prelude RustInt.
Local Open Scope Z_scope.

Record codec (A : Type) := Codec {
  dom : A → Prop;
  enc : A → list Byte.byte;
  dec : list Byte.byte → option (A * list Byte.byte);
}.
Arguments Codec {A} dom enc dec.
Arguments dom {A} c _.
Arguments enc {A} c _.
Arguments dec {A} c _.

(** A decoder reads back what the encoder wrote and leaves the rest. *)
Definition codec_ok {A} (c : codec A) : Prop :=
  ∀ x rest, dom c x → dec c (enc c x ++ rest) = Some (x, rest).

Definition codec_pair {A B} (ca : codec A) (cb : codec B) : codec (A * B) :=
  {| dom p := dom ca p.1 ∧ dom cb p.2;
     enc p := enc ca p.1 ++ enc cb p.2;
     dec l := '(a, l) ← dec ca l; '(b, l) ← dec cb l; Some ((a, b), l) |}.

Definition codec_iso {A B} (f : A → B) (g : B → A) (c : codec A) : codec B :=
  {| dom b := dom c (g b);
     enc b := enc c (g b);
     dec l := '(a, l) ← dec c l; Some (f a, l) |}.

Infix "⊗" := codec_pair (at level 40, left associativity) : ghost_scope.

(** The codecs of the library. *)
Class ScalePrims := {
  scale_u32 : codec Z;
  scale_u64 : codec Z;
  scale_array : ∀ n, codec (array n);
  scale_option : ∀ {A}, codec A → codec (option A);
}.

Class ScalePrimsOk `{!ScalePrims} : Prop := {
  scale_u32_ok : codec_ok scale_u32;
  scale_u32_dom x : in_uint U32 x → dom scale_u32 x;
  scale_u64_ok : codec_ok scale_u64;
  scale_u64_dom x : in_uint U64 x → dom scale_u64 x;
  scale_array_ok n : codec_ok (scale_array n);
  scale_array_dom n x : dom (scale_array n) x;
  scale_option_ok {A} (c : codec A) : codec_ok c → codec_ok (scale_option c);
  scale_option_dom {A} (c : codec A) x :
    (∀ y, x = Some y → dom c y) → dom (scale_option c) x;
}.

Lemma codec_pair_ok {A B} (ca : codec A) (cb : codec B) :
  codec_ok ca → codec_ok cb → codec_ok (codec_pair ca cb).
Proof.
  intros Ha Hb [a b] rest [Hda Hdb]; simpl in *.
  rewrite <-app_assoc, Ha by done. simpl. by rewrite Hb.
Qed.

Lemma codec_iso_ok {A B} (f : A → B) (g : B → A) (c : codec A) :
  (∀ b, f (g b) = b) → codec_ok c → codec_ok (codec_iso f g c).
Proof. intros Hfg Hc b rest Hd; simpl in *. rewrite Hc by done. simpl. by rewrite Hfg. Qed.

(** A lawful codec is injective on its domain, even with trailing bytes. *)
Lemma codec_ok_inj {A} (c : codec A) x y r1 r2 :
  codec_ok c → dom c x → dom c y → enc c x ++ r1 = enc c y ++ r2 → x = y ∧ r1 = r2.
Proof.
  intros Hc Hx Hy Heq. pose proof (Hc x r1 Hx) as H1.
  rewrite Heq, (Hc y r2 Hy) in H1. by simplify_eq.
Qed.

#[export] Hint Resolve codec_pair_ok codec_iso_ok scale_u32_ok scale_u64_ok
  scale_array_ok scale_option_ok scale_u32_dom scale_u64_dom scale_array_dom : ghost.
