(* ===== verification/Types.v ===== *)
(** * The data types of the pallet

    The structs and enums of pallets/pallet-ghost-consensus/src/types.rs, and
    the SCALE codec of the block header that their [Encode]/[Decode] derives
    define. *)

From S2P Require Import Prelude RustInt Scale.
Local Open Scope Z_scope.
Local Open Scope ghost_scope.

Abbreviation H256 := (array 32).

(** The lengths of the Dilithium5 signatures and keys. *)
Definition pqc_signature_len : nat := Z.to_nat 4627.
Definition pqc_public_key_len : nat := Z.to_nat 2592.

(** PQC signature for Crystal-Dilithium: [PqcSignature(pub [u8; 4627])]. *)
Definition PqcSignature : Type := array pqc_signature_len.
(** [impl Default for PqcSignature] *)
Definition PqcSignature_default : PqcSignature := zeros pqc_signature_len.

Record GhostBlockHeader := {
  number : Z; (* u32 *)
  parent_hash : H256;
  state_root : H256;
  extrinsics_root : H256;
  nonce : Z; (* u64 *)
  difficulty : Z; (* u64 *)
  validator_signature : option H256;
  pqc_signature : option PqcSignature;
}.

Record DifficultyAdjustment := {
  current : Z; (* u64 *)
  target_block_time : Z; (* u64 *)
  adjustment_factor : Z; (* u64 *)
}.

Record ValidatorStake (AccountId : Type) := {
  account : AccountId;
  stake : Z; (* Balance *)
  weight : Z; (* u64 *)
}.
Arguments Build_ValidatorStake {AccountId}.
Arguments account {AccountId} _.
Arguments stake {AccountId} _.
Arguments weight {AccountId} _.

Record PowResult := {
  pow_nonce : Z; (* u64 *)
  pow_hash : H256;
  pow_difficulty : Z; (* u64 *)
}.

Record PosSelection (AccountId : Type) := {
  selected_validator : AccountId;
  selected_weight : Z; (* u64 *)
  selected_round : Z; (* u64 *)
}.
Arguments Build_PosSelection {AccountId}.
Arguments selected_validator {AccountId} _.
Arguments selected_weight {AccountId} _.
Arguments selected_round {AccountId} _.

Record BlockReward := {
  total : Z; (* Balance *)
  miner_reward : Z; (* Balance *)
  stakers_reward : Z; (* Balance *)
}.

Inductive ConsensusPhase := PowMining | PosValidation | Finalization.
(** [impl Default for ConsensusPhase] *)
Definition ConsensusPhase_default : ConsensusPhase := PowMining.

Inductive BlockValidationStatus := Valid | Invalid | Pending.

Inductive SlashingReason := DoubleSigning | InvalidBlock | Downtime | Other.

#[export] Instance ConsensusPhase_eq_dec : EqDecision ConsensusPhase.
Proof. solve_decision. Defined.
#[export] Instance SlashingReason_eq_dec : EqDecision SlashingReason.
Proof. solve_decision. Defined.
#[export] Instance GhostBlockHeader_eq_dec : EqDecision GhostBlockHeader.
Proof. solve_decision. Defined.

#[export] Instance PosSelection_eq_dec `{EqDecision A} : EqDecision (PosSelection A).
Proof. solve_decision. Defined.

(** The integers of a header are of their declared widths. *)
Record header_wf (h : GhostBlockHeader) : Prop := {
  wf_number : in_uint U32 (number h);
  wf_nonce : in_uint U64 (nonce h);
  wf_difficulty : in_uint U64 (difficulty h);
}.

(** ** The derived codec of the header *)

Section HeaderCodec.
Context `{!ScalePrims}.

Definition header_fields (h : GhostBlockHeader) :=
  (number h, parent_hash h, state_root h, extrinsics_root h, nonce h, difficulty h,
   validator_signature h, pqc_signature h).

Definition header_of_fields
    (f : Z * H256 * H256 * H256 * Z * Z * option H256 * option PqcSignature) :=
  let '(n, p, s, e, no, d, v, q) := f in
  {| number := n; parent_hash := p; state_root := s; extrinsics_root := e;
     nonce := no; difficulty := d; validator_signature := v; pqc_signature := q |}.

(** [#[derive(Encode, Decode)] struct GhostBlockHeader] *)
Definition scale_header : codec GhostBlockHeader :=
  codec_iso header_of_fields header_fields
    (scale_u32 ⊗ scale_array 32 ⊗ scale_array 32 ⊗ scale_array 32 ⊗ scale_u64 ⊗
     scale_u64 ⊗ scale_option (scale_array 32) ⊗ scale_option (scale_array pqc_signature_len)).

Lemma header_of_fields_fields h : header_of_fields (header_fields h) = h.
Proof. by destruct h. Qed.

Context `{!ScalePrimsOk}.

Lemma scale_header_ok : codec_ok scale_header.
Proof. apply codec_iso_ok; [apply header_of_fields_fields|]. auto 20 with ghost. Qed.

Lemma scale_header_dom h : header_wf h → dom scale_header h.
Proof.
  intros [Hn Hno Hd]. simpl.
  repeat split; auto with ghost; apply scale_option_dom; intros; apply scale_array_dom.
Qed.
End HeaderCodec.

#[export] Hint Resolve scale_header_ok scale_header_dom : ghost.
