(* ===== verification/Interfaces.v ===== *)
(** * What the pallet relies on

    The crates the pallet calls and that are not in the repository, as classes:
    the hash functions of [sp_core], the Dilithium library, FRAME's origins,
    account derivation and storage iteration, and the [Currency] interface of
    [pallet_balances].  The classes whose documented contract a theorem uses
    have a second class, suffixed [Ok], with that contract. *)

From S2P Require Import Prelude RustInt Scale Types.
Local Open Scope Z_scope.

(** ** Hashing: [sp_core] *)

Class Hashing := {
  blake2_256 : list Byte.byte → H256;
  sha2_256 : list Byte.byte → H256;
  keccak_256 : list Byte.byte → H256;
}.

(** [BlakeTwo256::hash_of(&x)]: the hash of the SCALE encoding of [x]. *)
Definition hash_of `{!Hashing} {A} (c : codec A) (x : A) : H256 := blake2_256 (enc c x).

(** Two different byte strings with the same hash. *)
Definition blake2_collision `{!Hashing} (x y : list Byte.byte) : Prop :=
  x ≠ y ∧ blake2_256 x = blake2_256 y.

(** ** Dilithium5: [pqcrypto_dilithium] *)

Class Pqc := {
  DetachedSignature : Type;
  PublicKey : Type;
  signature_from_bytes : list Byte.byte → option DetachedSignature;
  public_key_from_bytes : list Byte.byte → option PublicKey;
  verify_detached_signature : DetachedSignature → list Byte.byte → PublicKey → bool;
}.

(** ** FRAME *)

Class Frame (AccountId : Type) `{Countable AccountId} := {
  OriginFor : Type;
  (** [ensure_signed]: the signer, or [None] for [BadOrigin] *)
  ensure_signed_origin : OriginFor → option AccountId;
  (** [PalletId::into_account_truncating] *)
  into_account_truncating : array 8 → AccountId;
  (** [StorageMap::iter]: the entries in the order of the hashed keys *)
  storage_iter : ∀ {V}, gmap AccountId V → list (AccountId * V);
  (** the codec of [AccountId] *)
  scale_account : codec AccountId;
  (** the storage layer that [#[pallet::call]] puts around a dispatchable *)
  in_storage_layer : ∀ {S E A}, dispatch_m S E A → dispatch_m S E A;
}.

Class FrameOk (AccountId : Type) `{Frame AccountId} : Prop := {
  (** a storage layer commits a success and reverts an error *)
  storage_layer_commits {S E A} (m : dispatch_m S E A) s a s' :
    m s = (Ok a, s') → in_storage_layer m s = (Ok a, s');
  storage_layer_reverts {S E A} (m : dispatch_m S E A) s e s' :
    m s = (Err e, s') → in_storage_layer m s = (Err e, s);
  storage_layer_panics {S E A} (m : dispatch_m S E A) s s' :
    m s = (Panicked, s') → (in_storage_layer m s).1 = Panicked;
  (** iteration visits every entry exactly once *)
  storage_iter_perm {V} (m : gmap AccountId V) : storage_iter m ≡ₚ map_to_list m;
}.

(** ** [Currency] of [pallet_balances] *)

Inductive ExistenceRequirement := KeepAlive | AllowDeath.

Class Currency (AccountId : Type) := {
  Balances : Type;
  BalancesError : Type;
  free_balance : AccountId → Balances → Z;
  total_issuance : Balances → Z;
  existential_deposit : Z;
  transfer : AccountId → AccountId → Z → ExistenceRequirement →
             Balances → BalancesError + Balances;
  (** the new balances and the value of the positive imbalance *)
  deposit_creating : AccountId → Z → Balances → Balances * Z;
}.

Class CurrencyOk (AccountId : Type) `{Currency AccountId} : Prop := {
  free_balance_range a b : in_uint U128 (free_balance a b);
  (** a transfer moves the amount; [AllowDeath] lets the sender be reaped, in
      which case the remainder below the existential deposit is lost *)
  transfer_to from to v er b b' :
    transfer from to v er b = inr b' → from ≠ to →
    free_balance to b' = free_balance to b + v;
  transfer_from from to v er b b' :
    transfer from to v er b = inr b' → from ≠ to →
    v ≤ free_balance from b ∧
    (free_balance from b' = free_balance from b - v ∨
     er = AllowDeath ∧ free_balance from b - v < existential_deposit ∧
     free_balance from b' = 0);
  transfer_other from to v er b b' a :
    transfer from to v er b = inr b' → a ≠ from → a ≠ to →
    free_balance a b' = free_balance a b;
  transfer_self a v er b b' c :
    transfer a a v er b = inr b' → free_balance c b' = free_balance c b;
  transfer_issuance from to v er b b' :
    transfer from to v er b = inr b' → total_issuance b' ≤ total_issuance b;
  (** a deposit adds up to the amount to one account and to the issuance *)
  deposit_bounds a v b b' imb :
    deposit_creating a v b = (b', imb) → 0 ≤ v → 0 ≤ imb ≤ v;
  deposit_account a v b b' imb :
    deposit_creating a v b = (b', imb) → free_balance a b' = free_balance a b + imb;
  deposit_other a v b b' imb c :
    deposit_creating a v b = (b', imb) → c ≠ a → free_balance c b' = free_balance c b;
  deposit_issuance a v b b' imb :
    deposit_creating a v b = (b', imb) → total_issuance b' ≤ total_issuance b + imb;
  (** the deposit is the whole amount when the account exists or the amount
      can create it, and the balance does not overflow *)
  deposit_exact a v b b' imb :
    deposit_creating a v b = (b', imb) →
    0 ≤ v → 0 < free_balance a b ∨ existential_deposit ≤ v →
    free_balance a b + v < 2 ^ 128 → imb = v;
}.

(** A sender without reserved funds that is left below the existential deposit is
    reaped, and keeps nothing. *)
Class CurrencyReaps (AccountId : Type) `{Currency AccountId} : Prop := {
  transfer_reaps from to v b b' :
    transfer from to v AllowDeath b = inr b' → from ≠ to → 0 < v →
    free_balance from b - v < existential_deposit → free_balance from b' = 0;
}.

(** The issuance is the sum of all balances, so no account holds more. *)
Class CurrencyBooks (AccountId : Type) `{Currency AccountId} : Prop := {
  free_balance_issued a b : free_balance a b ≤ total_issuance b;
}.
