(* ===== verification/Reference.v ===== *)
(** * A concrete platform

    Executable instances of the classes of Interfaces.v, used to evaluate the
    model and to show that the contracts can be met: accounts are numbers, the
    balances are a finite map, SCALE integers are little-endian bytes, and the
    hash is a small checksum.  None of this models code of the repository. *)

From S2P Require Import Prelude RustInt Scale Types Interfaces.
Local Open Scope Z_scope.

Definition AccountId : Type := Z.
#[export] Instance AccountId_eq_dec : EqDecision AccountId := Z.eq_dec.
#[export] Instance AccountId_countable : Countable AccountId := _.

(** ** Codecs *)

Definition byte_of_Z (x : Z) : Byte.byte :=
  default Byte.x00 (Byte.of_N (Z.to_N (x mod 256))).
Definition Z_of_byte (b : Byte.byte) : Z := Z.of_N (Byte.to_N b).

Fixpoint le_bytes (n : nat) (x : Z) : list Byte.byte :=
  match n with O => [] | S n => byte_of_Z x :: le_bytes n (x / 256) end.
Fixpoint le_value (n : nat) (l : list Byte.byte) : option (Z * list Byte.byte) :=
  match n, l with
  | O, _ => Some (0, l)
  | S n, b :: l => '(v, l) ← le_value n l; Some (Z_of_byte b + 256 * v, l)
  | S n, [] => None
  end.

Definition le_codec (n : nat) : codec Z :=
  {| dom x := 0 ≤ x < 256 ^ Z.of_nat n; enc := le_bytes n; dec := le_value n |}.

Lemma Z_of_byte_of_Z x : Z_of_byte (byte_of_Z x) = x mod 256.
Proof.
  unfold Z_of_byte, byte_of_Z. pose proof (Z.mod_pos_bound x 256 ltac:(lia)) as Hb.
  destruct (Byte.of_N (Z.to_N (x mod 256))) as [b|] eqn:E; simpl.
  - apply Byte.to_of_N in E. rewrite E. lia.
  - apply Byte.of_N_None_iff in E. lia.
Qed.

Lemma le_codec_ok n : codec_ok (le_codec n).
Proof.
  intros x rest; simpl. revert x; induction n as [|n IH]; intros x Hx.
  - simpl in *. do 2 f_equal. lia.
  - rewrite Nat2Z.inj_succ, Z.pow_succ_r in Hx by lia. simpl.
    rewrite IH by (split; [apply Z.div_pos; lia|apply Z.div_lt_upper_bound; lia]). simpl.
    rewrite Z_of_byte_of_Z. do 2 f_equal. pose proof (Z.div_mod x 256). lia.
Qed.

Definition array_codec (n : nat) : codec (array n) :=
  {| dom _ := True; enc := array_bytes;
     dec l := a ← try_into n (take n l); Some (a, drop n l) |}.

Lemma array_codec_ok n : codec_ok (array_codec n).
Proof.
  intros a rest _; simpl. pose proof (length_array a) as Hl.
  rewrite take_app_length', drop_app_length' by done. by rewrite try_into_bytes.
Qed.

Definition option_codec {A} (c : codec A) : codec (option A) :=
  {| dom o := ∀ y, o = Some y → dom c y;
     enc o := match o with None => [Byte.x00] | Some x => Byte.x01 :: enc c x end;
     dec l := match l with
              | Byte.x00 :: l => Some (None, l)
              | Byte.x01 :: l => '(x, l) ← dec c l; Some (Some x, l)
              | _ => None
              end |}.

Lemma option_codec_ok {A} (c : codec A) : codec_ok c → codec_ok (option_codec c).
Proof. intros Hc [x|] rest Hd; simpl; [|done]. by rewrite Hc by (by apply Hd). Qed.

#[export] Instance ref_scale : ScalePrims :=
  {| scale_u32 := le_codec 4; scale_u64 := le_codec 8;
     scale_array := array_codec; scale_option := @option_codec |}.
#[export] Instance ref_scale_ok : ScalePrimsOk.
Proof.
  split; simpl; try done; intros.
  - apply le_codec_ok.
  - apply le_codec_ok.
  - apply array_codec_ok.
  - by apply option_codec_ok.
Qed.

(** ** Hashing: a checksum placed in the first bytes *)

Definition checksum (l : list Byte.byte) : Z :=
  foldl (λ acc b, (acc * 31 + Z_of_byte b + 7) mod 2 ^ 64) 1 l.

Lemma toy_hash_len l :
  (length (le_bytes 8 (checksum l) ++ replicate 24 Byte.x00) =? 32)%nat = true.
Proof. by rewrite length_app, length_replicate. Defined.
Definition toy_hash (l : list Byte.byte) : H256 :=
  Array (le_bytes 8 (checksum l) ++ replicate 24 Byte.x00) (toy_hash_len l).

#[export] Instance ref_hashing : Hashing :=
  {| blake2_256 := toy_hash; sha2_256 := toy_hash; keccak_256 := toy_hash |}.

(** ** Dilithium: a signature is accepted when it starts with the key's byte *)

#[export] Instance ref_pqc : Pqc :=
  {| DetachedSignature := list Byte.byte; PublicKey := list Byte.byte;
     signature_from_bytes l := Some l; public_key_from_bytes l := Some l;
     verify_detached_signature s _ k := bool_decide (head s = head k) |}.

(** ** FRAME *)

#[export] Instance ref_frame : Frame AccountId :=
  {| OriginFor := option AccountId; ensure_signed_origin o := o;
     into_account_truncating id := Z_of_byte (default Byte.x00 (head (array_bytes id)));
     storage_iter V m := map_to_list m; scale_account := le_codec 8;
     in_storage_layer S E A m s :=
       match m s with (Ok a, s') => (Ok a, s') | (r, _) => (r, s) end |}.
#[export] Instance ref_frame_ok : FrameOk AccountId.
Proof. split; simpl; try done; intros S E A m s; intros; by case_match; simplify_eq. Qed.

(** The origin of a call signed by [a]. *)
Definition signed (a : AccountId) : @OriginFor AccountId _ _ ref_frame := Some a.

(** ** Balances *)

Record ledger := Ledger { accounts : gmap AccountId Z; issuance : Z }.

Definition ledger_free (a : AccountId) (b : ledger) : Z :=
  saturate U128 (default 0 (accounts b !! a)).

Definition ledger_transfer (ed : Z) (from to : AccountId) (v : Z)
    (er : ExistenceRequirement) (b : ledger) : unit + ledger :=
  let left_over := ledger_free from b - v in
  let received := ledger_free to b + v in
  if decide (from = to ∨ v = 0) then inr b
  else if decide (v < 0 ∨ left_over < 0 ∨ received < ed ∨ 2 ^ 128 ≤ received) then inl tt
  else if decide (ed ≤ left_over) then
    inr (Ledger (<[to := received]> (<[from := left_over]> (accounts b))) (issuance b))
  else match er with
       | KeepAlive => inl tt
       | AllowDeath =>
           inr (Ledger (<[to := received]> (delete from (accounts b)))
                       (issuance b - left_over))
       end.

Definition ledger_deposit (ed : Z) (a : AccountId) (v : Z) (b : ledger) : ledger * Z :=
  let new := ledger_free a b + v in
  if decide (v < 0 ∨ 2 ^ 128 ≤ new ∨ ledger_free a b = 0 ∧ v < ed) then (b, 0)
  else (Ledger (<[a := new]> (accounts b)) (issuance b + v), v).

Definition ref_currency (ed : Z) : Currency AccountId :=
  {| Balances := ledger; BalancesError := unit; free_balance := ledger_free;
     total_issuance := issuance; existential_deposit := ed;
     transfer := ledger_transfer ed; deposit_creating := ledger_deposit ed |}.

Lemma ledger_free_range a b : in_uint U128 (ledger_free a b).
Proof. by apply saturate_range. Qed.

Lemma ledger_free_insert a c v m i :
  in_uint U128 v →
  ledger_free c (Ledger (<[a := v]> m) i) =
    if decide (a = c) then v else ledger_free c (Ledger m i).
Proof.
  intros Hv. unfold ledger_free; simpl. rewrite lookup_insert.
  case_decide; [by apply saturate_id|done].
Qed.

Lemma ledger_free_delete a c m i :
  ledger_free c (Ledger (delete a m) i) =
    if decide (a = c) then 0 else ledger_free c (Ledger m i).
Proof. unfold ledger_free; simpl. rewrite lookup_delete. by case_decide. Qed.

Lemma ledger_free_issuance c b i : ledger_free c (Ledger (accounts b) i) = ledger_free c b.
Proof. done. Qed.

(** Evaluate a ledger operation that succeeded. *)
Ltac ledger_cases :=
  simpl in *; unfold ledger_transfer, ledger_deposit in *;
  repeat (case_decide || case_match); destruct_or?; simplify_eq/=;
  repeat first
    [ rewrite ledger_free_insert by (unfold in_uint in *; lia)
    | rewrite ledger_free_delete
    | rewrite ledger_free_issuance ];
  repeat case_decide; simplify_eq/=.

Lemma ref_currency_ok ed : 0 ≤ ed → CurrencyOk (H := ref_currency ed) AccountId.
Proof.
  intros Hed. split; simpl.
  - intros a b. apply ledger_free_range.
  - intros from to v er b b' Ht Hne. pose proof (ledger_free_range from b) as [??].
    ledger_cases; lia.
  - intros from to v er b b' Ht Hne. pose proof (ledger_free_range from b) as [??].
    ledger_cases; try lia; (split; [lia|]); first [left; lia | right; by repeat split; lia].
  - intros from to v er b b' a Ht H1 H2. pose proof (ledger_free_range from b) as [??].
    ledger_cases; try done; lia.
  - intros a v er b b' c Ht. ledger_cases; solve [done | exfalso; tauto].
  - intros from to v er b b' Ht. ledger_cases; lia.
  - intros a v b b' imb Hd Hv. ledger_cases; lia.
  - intros a v b b' imb Hd. pose proof (ledger_free_range a b) as [??]. ledger_cases; lia.
  - intros a v b b' imb c Hd Hne. pose proof (ledger_free_range a b) as [??].
    ledger_cases; try done; lia.
  - intros a v b b' imb Hd. ledger_cases; lia.
  - intros a v b b' imb Hd Hv Hex Hof. pose proof (ledger_free_range a b) as [??].
    ledger_cases; lia.
Qed.

Lemma ref_currency_reaps ed : CurrencyReaps (H := ref_currency ed) AccountId.
Proof.
  split. simpl. intros from to v b b' Ht Hne Hv Hed.
  pose proof (ledger_free_range from b) as [??]. ledger_cases; lia.
Qed.

(** ** Balances whose issuance is computed *)

(** The same ledger without a stored issuance: it is the sum of the balances. *)
Definition sum_ledger (m : gmap AccountId Z) : ledger := Ledger m 0.
Definition sum_issuance (m : gmap AccountId Z) : Z := map_sum (saturate U128 <$> m).

Definition sum_currency (ed : Z) : Currency AccountId :=
  {| Balances := gmap AccountId Z; BalancesError := unit;
     free_balance a m := ledger_free a (sum_ledger m); total_issuance := sum_issuance;
     existential_deposit := ed;
     transfer from to v er m :=
       match ledger_transfer ed from to v er (sum_ledger m) with
       | inl e => inl e
       | inr b => inr (accounts b)
       end;
     deposit_creating a v m :=
       let '(b, imb) := ledger_deposit ed a v (sum_ledger m) in (accounts b, imb) |}.

Lemma ledger_free_accounts a b : ledger_free a (sum_ledger (accounts b)) = ledger_free a b.
Proof. done. Qed.

Lemma sum_issuance_insert a v m :
  in_uint U128 v →
  sum_issuance (<[a := v]> m) = sum_issuance m - ledger_free a (sum_ledger m) + v.
Proof.
  intros Hv. unfold sum_issuance, ledger_free. rewrite fmap_insert, map_sum_insert, lookup_fmap.
  rewrite (saturate_id U128 v) by done. simpl. destruct (m !! a); simpl; [lia|].
  rewrite saturate_id by (by vm_compute). lia.
Qed.

Lemma sum_issuance_delete a m :
  sum_issuance (delete a m) = sum_issuance m - ledger_free a (sum_ledger m).
Proof.
  unfold sum_issuance, ledger_free. rewrite fmap_delete. simpl.
  destruct (m !! a) as [v|] eqn:Hv; simpl.
  - rewrite (map_sum_delete (saturate U128 <$> m) a (saturate U128 v));
      [lia|by rewrite lookup_fmap, Hv].
  - rewrite delete_id by (by rewrite lookup_fmap, Hv).
    rewrite saturate_id by (by vm_compute). lia.
Qed.

Lemma sum_free_insert a c v m :
  in_uint U128 v →
  ledger_free c (sum_ledger (<[a := v]> m)) =
    if decide (a = c) then v else ledger_free c (sum_ledger m).
Proof. apply ledger_free_insert. Qed.

Lemma sum_free_delete a c m :
  ledger_free c (sum_ledger (delete a m)) =
    if decide (a = c) then 0 else ledger_free c (sum_ledger m).
Proof. apply ledger_free_delete. Qed.

Lemma sum_transfer_issuance ed from to v er m b :
  ledger_transfer ed from to v er (sum_ledger m) = inr b →
  sum_issuance (accounts b) ≤ sum_issuance m.
Proof.
  unfold ledger_transfer. pose proof (ledger_free_range from (sum_ledger m)) as [? ?].
  pose proof (ledger_free_range to (sum_ledger m)) as [? ?].
  repeat (case_decide || case_match); destruct_or?; intros; simplify_eq/=; try lia;
    rewrite sum_issuance_insert by (unfold in_uint in *; lia).
  - rewrite sum_issuance_insert by (unfold in_uint in *; lia).
    rewrite sum_free_insert by (unfold in_uint in *; lia).
    rewrite decide_False by tauto. lia.
  - rewrite sum_issuance_delete, sum_free_delete, decide_False by tauto. lia.
Qed.

Lemma sum_deposit_issuance ed a v m b imb :
  ledger_deposit ed a v (sum_ledger m) = (b, imb) →
  sum_issuance (accounts b) ≤ sum_issuance m + imb.
Proof.
  unfold ledger_deposit. pose proof (ledger_free_range a (sum_ledger m)) as [? ?].
  case_decide; intros; simplify_eq/=; [lia|].
  rewrite sum_issuance_insert by (unfold in_uint; lia). lia.
Qed.

Lemma sum_currency_ok ed : 0 ≤ ed → CurrencyOk (H := sum_currency ed) AccountId.
Proof.
  intros Hed. pose proof (ref_currency_ok ed Hed) as Hok.
  assert (Ht : ∀ from to v er m m',
    @transfer _ (sum_currency ed) from to v er m = inr m' →
    ∃ b, ledger_transfer ed from to v er (sum_ledger m) = inr b ∧ m' = accounts b).
  { simpl. intros from to v er m m'. destruct (ledger_transfer _ _ _ _ _ _) as [|b]; [done|].
    intros [= <-]. by exists b. }
  assert (Hd : ∀ a v m m' imb,
    @deposit_creating _ (sum_currency ed) a v m = (m', imb) →
    ∃ b, ledger_deposit ed a v (sum_ledger m) = (b, imb) ∧ m' = accounts b).
  { simpl. intros a v m m' imb. destruct (ledger_deposit _ _ _ _) as [b i].
    intros [= <- <-]. by exists b. }
  split.
  - intros a b. apply ledger_free_range.
  - intros from to v er m m' (b & Hb & ->)%Ht. apply (transfer_to (CurrencyOk := Hok) _ _ _ _ _ _ Hb).
  - intros from to v er m m' (b & Hb & ->)%Ht. apply (transfer_from (CurrencyOk := Hok) _ _ _ _ _ _ Hb).
  - intros from to v er m m' a (b & Hb & ->)%Ht. apply (transfer_other (CurrencyOk := Hok) _ _ _ _ _ _ _ Hb).
  - intros a v er m m' c (b & Hb & ->)%Ht. apply (transfer_self (CurrencyOk := Hok) _ _ _ _ _ _ Hb).
  - intros from to v er m m' (b & Hb & ->)%Ht. by eapply sum_transfer_issuance.
  - intros a v m m' imb (b & Hb & ->)%Hd. apply (deposit_bounds (CurrencyOk := Hok) _ _ _ _ _ Hb).
  - intros a v m m' imb (b & Hb & ->)%Hd. apply (deposit_account (CurrencyOk := Hok) _ _ _ _ _ Hb).
  - intros a v m m' imb c (b & Hb & ->)%Hd. apply (deposit_other (CurrencyOk := Hok) _ _ _ _ _ _ Hb).
  - intros a v m m' imb (b & Hb & ->)%Hd. by eapply sum_deposit_issuance.
  - intros a v m m' imb (b & Hb & ->)%Hd. apply (deposit_exact (CurrencyOk := Hok) _ _ _ _ _ Hb).
Qed.

Lemma sum_currency_books ed : CurrencyBooks (H := sum_currency ed) AccountId.
Proof.
  split. simpl. intros a m. unfold sum_issuance, ledger_free. simpl.
  assert (Hnn : map_Forall (λ _ x, 0 ≤ x) (saturate U128 <$> m)).
  { intros k x (y & <- & _)%lookup_fmap_Some. by apply saturate_range. }
  destruct (m !! a) as [v|] eqn:Hv; simpl.
  - apply (map_sum_lookup_le _ a); [done|]. apply lookup_fmap_Some. by exists v.
  - rewrite saturate_id by (by vm_compute). by apply map_sum_nonneg.
Qed.
