(* ===== verification/Difficulty.v ===== *)
(** * Difficulty adjustment

    [calculate_difficulty_adjustment] of
    pallets/pallet-ghost-consensus/src/functions.rs: the retarget by block time
    followed by the entropy steering.  All its operators saturate or divide by
    a non-zero value, so it is a total function. *)

From S2P Require Import Prelude RustInt.
Local Open Scope Z_scope.

Definition entropy_threshold : Z := 4000000.

Definition calculate_difficulty_adjustment
    (current_difficulty actual_block_time target_block_time entropy : Z) : Z :=
  if (actual_block_time =? 0) || (target_block_time =? 0) then
    Z.max (current_difficulty / 2) 1
  else
    let new_target :=
      if actual_block_time <? target_block_time then
        saturating_mul U64 current_difficulty actual_block_time / target_block_time
      else
        saturating_mul U64 current_difficulty actual_block_time / target_block_time in
    let new_target := Z.max new_target 1 in
    if entropy <? entropy_threshold then
      let entropy_factor := saturating_add U64 entropy_threshold entropy in
      let new_target :=
        saturating_mul U64 new_target entropy_factor
          / saturating_mul U64 entropy_threshold 2 in
      Z.max new_target 1
    else new_target.

(** ** The two stages *)

(** The retarget by block time. *)
Definition time_target (cur actual target : Z) : Z :=
  Z.max (saturating_mul U64 cur actual / target) 1.

(** The entropy steering: a factor in [1/2, 1) below the threshold. *)
Definition entropy_target (t entropy : Z) : Z :=
  if entropy <? entropy_threshold then
    Z.max (saturating_mul U64 t (entropy_threshold + entropy) / 8000000) 1
  else t.

Lemma difficulty_stages cur actual target e :
  in_uint U64 e → actual ≠ 0 → target ≠ 0 →
  calculate_difficulty_adjustment cur actual target e =
    entropy_target (time_target cur actual target) e.
Proof.
  intros He Ha Ht. unfold calculate_difficulty_adjustment, entropy_target, time_target.
  rewrite (proj2 (Z.eqb_neq _ _) Ha), (proj2 (Z.eqb_neq _ _) Ht); simpl.
  replace (if actual <? target then _ else _)
    with (saturating_mul U64 cur actual / target) by (by case_match).
  destruct (Z.ltb_spec e entropy_threshold) as [Hlt|]; [|done].
  replace (saturating_mul U64 entropy_threshold 2) with 8000000 by reflexivity.
  unfold saturating_add. rewrite saturate_id; [done|].
  unfold in_uint, entropy_threshold in *. lia.
Qed.

(** ** Monotonicity of the operators *)

Lemma saturate_mono w x y : x ≤ y → saturate w x ≤ saturate w y.
Proof. unfold saturate. lia. Qed.

Lemma saturating_mul_mono w a b c d :
  0 ≤ a ≤ c → 0 ≤ b ≤ d → saturating_mul w a b ≤ saturating_mul w c d.
Proof. intros. apply saturate_mono. nia. Qed.

Lemma saturating_mul_range w a b : 0 ≤ w → in_uint w (saturating_mul w a b).
Proof. apply saturate_range. Qed.

Lemma saturating_mul_le w a b : 0 ≤ a → 0 ≤ b → saturating_mul w a b ≤ a * b.
Proof. intros. unfold saturating_mul, saturate. nia. Qed.

Lemma saturating_mul_fits w a b : in_uint w (a * b) → saturating_mul w a b = a * b.
Proof. apply saturate_id. Qed.

Lemma time_target_mono cur cur' actual actual' target :
  0 ≤ cur ≤ cur' → 0 ≤ actual ≤ actual' → 0 < target →
  time_target cur actual target ≤ time_target cur' actual' target.
Proof.
  intros Hc Ha Ht. unfold time_target.
  pose proof (Z.div_le_mono _ _ target Ht
    (saturating_mul_mono U64 cur actual cur' actual' Hc Ha)). lia.
Qed.

Lemma time_target_range cur actual target :
  0 < target → 1 ≤ time_target cur actual target < 2 ^ 64.
Proof.
  intros Ht. unfold time_target.
  pose proof (saturating_mul_range U64 cur actual ltac:(lia)) as [??].
  assert (saturating_mul U64 cur actual / target ≤ saturating_mul U64 cur actual)
    by (apply Z.div_le_upper_bound; nia).
  lia.
Qed.

Lemma entropy_target_mono t t' e e' :
  0 ≤ t ≤ t' → 0 ≤ e ≤ e' → entropy_target t e ≤ Z.max (entropy_target t' e') 1.
Proof.
  intros Ht He. unfold entropy_target.
  destruct (Z.ltb_spec e entropy_threshold) as [H1|H1];
    destruct (Z.ltb_spec e' entropy_threshold) as [H2|H2]; try lia.
  - pose proof (Z.div_le_mono _ _ 8000000 ltac:(lia)
      (saturating_mul_mono U64 t (entropy_threshold + e) t' (entropy_threshold + e')
         Ht ltac:(unfold entropy_threshold in *; lia))). lia.
  - assert (saturating_mul U64 t (entropy_threshold + e) / 8000000 ≤ t'); [|lia].
    apply Z.div_le_upper_bound; [lia|].
    pose proof (saturating_mul_le U64 t (entropy_threshold + e) ltac:(lia)
      ltac:(unfold entropy_threshold; lia)). unfold entropy_threshold in *. nia.
Qed.

Lemma entropy_target_le t e : 1 ≤ t → 0 ≤ e → entropy_target t e ≤ t.
Proof.
  intros Ht He. pose proof (entropy_target_mono t t e (Z.max e entropy_threshold)
    ltac:(lia) ltac:(lia)) as H.
  unfold entropy_target in H at 2. destruct (Z.ltb_spec (Z.max e entropy_threshold) entropy_threshold); lia.
Qed.

Lemma entropy_target_range t e : 1 ≤ t < 2 ^ 64 → 0 ≤ e → 1 ≤ entropy_target t e < 2 ^ 64.
Proof.
  intros Ht He. pose proof (entropy_target_le t e ltac:(lia) He).
  unfold entropy_target in *. case_match; lia.
Qed.

#[export] Hint Resolve time_target_range : ghost.

(** ** Properties *)

(** The adjusted target is a [u64] and never 0, whatever the inputs: the zero
    target, which only the all-zero hash prefix meets, is never chosen. *)
Theorem difficulty_adjustment_range cur actual target e :
  in_uint U64 cur → in_uint U64 actual → in_uint U64 target → in_uint U64 e →
  1 ≤ calculate_difficulty_adjustment cur actual target e < 2 ^ 64.
Proof.
  intros Hc Ha Ht He.
  destruct (decide (actual = 0 ∨ target = 0)) as [H0|H0].
  - unfold calculate_difficulty_adjustment.
    replace ((actual =? 0) || (target =? 0)) with true
      by (destruct H0 as [-> | ->]; simpl; by rewrite ?orb_true_r).
    unfold in_uint in Hc. div_bounds cur 2. lia.
  - rewrite difficulty_stages by (done || tauto).
    unfold in_uint in *. apply entropy_target_range; [apply time_target_range; lia|lia].
Qed.

(** The adjustment is monotone in the current target, in the measured block
    time and in the entropy of the recent producers: a slower chain or a more
    decentralised one never gets a harder target. *)
Theorem difficulty_adjustment_monotone cur cur' actual actual' target e e' :
  0 ≤ cur ≤ cur' → 1 ≤ actual ≤ actual' → 1 ≤ target → 0 ≤ e ≤ e' → in_uint U64 e' →
  calculate_difficulty_adjustment cur actual target e
    ≤ calculate_difficulty_adjustment cur' actual' target e'.
Proof.
  intros Hc Ha Ht He He'. unfold in_uint in He'.
  rewrite !difficulty_stages by (unfold in_uint; lia).
  pose proof (time_target_mono cur cur' actual actual' target ltac:(lia) ltac:(lia) ltac:(lia)).
  pose proof (time_target_range cur actual target ltac:(lia)).
  pose proof (time_target_range cur' actual' target ltac:(lia)).
  pose proof (entropy_target_mono (time_target cur actual target) (time_target cur' actual' target) e e' ltac:(lia) He) as H2.
  pose proof (entropy_target_range (time_target cur' actual' target) e' ltac:(lia) ltac:(lia)).
  rewrite Z.max_l in H2 by lia. eapply Z.le_trans; [exact H2|lia].
Qed.

(** With the block time on target and no saturation the adjustment is the
    entropy steering alone: the identity from the threshold 4,000,000 on, and
    the factor (4,000,000 + e) / 8,000,000 below it. *)
Theorem difficulty_on_target_exact cur time e :
  1 ≤ cur → 1 ≤ time → cur * time < 2 ^ 64 → cur * 8000000 < 2 ^ 64 → in_uint U64 e →
  calculate_difficulty_adjustment cur time time e =
    if e <? 4000000 then Z.max (cur * (4000000 + e) / 8000000) 1 else cur.
Proof.
  intros Hc Ht Hct Hc8 He. rewrite difficulty_stages by (done || lia).
  unfold time_target, entropy_target.
  rewrite (saturating_mul_fits _ cur time) by (unfold in_uint; nia).
  rewrite Z.div_mul by lia. replace (Z.max cur 1) with cur by lia.
  change entropy_threshold with 4000000. unfold in_uint in He.
  destruct (Z.ltb_spec e 4000000); [|done].
  rewrite saturating_mul_fits by (unfold in_uint; nia). done.
Qed.

(** Blocks that are on time or too fast never raise the target; the largest
    target it can leave is the current one (or 1). *)
Lemma difficulty_not_raised cur actual target e :
  0 ≤ cur → 1 ≤ actual ≤ target → in_uint U64 e →
  calculate_difficulty_adjustment cur actual target e ≤ Z.max cur 1.
Proof.
  intros Hc Ha He. rewrite difficulty_stages by (done || lia). unfold in_uint in He.
  assert (Htt : time_target cur actual target ≤ Z.max cur 1).
  { unfold time_target.
    assert (saturating_mul U64 cur actual / target ≤ cur); [|lia].
    apply Z.div_le_upper_bound; [lia|].
    pose proof (saturating_mul_le U64 cur actual ltac:(lia) ltac:(lia)). nia. }
  pose proof (time_target_range cur actual target ltac:(lia)).
  pose proof (entropy_target_le (time_target cur actual target) e ltac:(lia) ltac:(lia)). lia.
Qed.

(** C37. Below the entropy threshold the adjusted target never exceeds
    2,305,843,009,213: the product saturates at [u64::MAX] before the division
    by 8,000,000, so every larger target collapses to that ceiling instead of
    being scaled by the steering factor. *)
Theorem difficulty_entropy_ceiling cur actual target e :
  in_uint U64 e → 1 ≤ actual → 1 ≤ target → e < 4000000 →
  calculate_difficulty_adjustment cur actual target e ≤ 2305843009213.
Proof.
  intros He Ha Ht Hlow. rewrite difficulty_stages by (done || lia).
  unfold entropy_target. change entropy_threshold with 4000000.
  destruct (Z.ltb_spec e 4000000); [|lia].
  pose proof (saturating_mul_range U64 (time_target cur actual target) (4000000 + e)
    ltac:(lia)) as [??].
  pose proof (Z.div_le_mono (saturating_mul U64 (time_target cur actual target) (4000000 + e))
    (2 ^ 64 - 1) 8000000 ltac:(lia) ltac:(lia)) as Hd.
  change ((2 ^ 64 - 1) / 8000000) with 2305843009213 in Hd. lia.
Qed.

(** ** Evaluation *)

Lemma difficulty_adjustment_range_witness :
  in_uint U64 1000000 ∧ 1 ≤ calculate_difficulty_adjustment 1000000 3 5 4000000 < 2 ^ 64.
Proof.
  split; [by vm_compute|].
  apply (difficulty_adjustment_range 1000000 3 5 4000000); by vm_compute.
Defined.

Lemma difficulty_adjustment_monotone_witness :
  calculate_difficulty_adjustment 1000000 3 5 4000000
    ≤ calculate_difficulty_adjustment 1000000 10 5 4000000.
Proof.
  apply (difficulty_adjustment_monotone 1000000 1000000 3 10 5 4000000 4000000); by vm_compute.
Defined.

Lemma difficulty_on_target_exact_witness :
  calculate_difficulty_adjustment 1000000000000 5 5 1000000
    = (if 1000000 <? 4000000 then Z.max (1000000000000 * 5000000 / 8000000) 1
       else 1000000000000).
Proof. apply (difficulty_on_target_exact 1000000000000 5 1000000); by vm_compute. Defined.

Lemma difficulty_entropy_ceiling_witness :
  calculate_difficulty_adjustment (2 ^ 64 - 1) 5 5 0 ≤ 2305843009213.
Proof. apply (difficulty_entropy_ceiling (2 ^ 64 - 1) 5 5 0); by vm_compute. Defined.

(** The values of the unit tests of the pallet. *)
Example difficulty_test_too_fast : calculate_difficulty_adjustment 1000000 3 5 4000000 = 600000.
Proof. reflexivity. Qed.
Example difficulty_test_too_slow : calculate_difficulty_adjustment 1000000 10 5 4000000 = 2000000.
Proof. reflexivity. Qed.
(** On-time blocks shrink the largest target to a fifth: the product saturates. *)
Example difficulty_saturates_on_time :
  calculate_difficulty_adjustment (2 ^ 64 - 1) 5 5 4000000 = (2 ^ 64 - 1) / 5.
Proof. reflexivity. Qed.
