(* ===== verification/Entropy.v ===== *)
(** * Producer entropy

    [integer_log2_scaled] and [calculate_entropy] of
    pallets/pallet-ghost-consensus/src/functions.rs.  The plain operators of the
    source are kept, so both can panic ([None]); the theorems show that they do
    not on the windows of block producers that the pallet keeps. *)

From S2P Require Import Prelude RustInt.
Local Open Scope Z_scope.

Definition scaling_factor : Z := 1000000.

Section Entropy.
Context `{!Build}.

Definition integer_log2_scaled (x : Z) : option Z :=
  if decide (x = 0) then Some 0
  else
    let lz := leading_zeros U64 x in
    integer_part ← sub U32 63 lz;
    let rem := Z.lxor x (Z.shiftl 1 integer_part) in
    scaled_rem ← mul U64 rem scaling_factor;
    fractional_part ← div scaled_rem (Z.shiftl 1 integer_part);
    scaled_integer ← mul U64 integer_part scaling_factor;
    add U64 scaled_integer fractional_part.

Context {AccountId : Type} `{Countable AccountId}.

(** [*counts.entry(producer).or_insert(0u64) += 1] *)
Definition count_producer (counts : gmap AccountId Z) (producer : AccountId)
    : option (gmap AccountId Z) :=
  n ← add U64 (default 0 (counts !! producer)) 1;
  Some (<[producer := n]> counts).

(** one turn of the loop over [counts.values()] *)
Definition add_term (total_count log2_total : Z) (total_entropy count : Z) : option Z :=
  log2_count ← integer_log2_scaled count;
  weighted ← mul U64 count (saturating_sub U64 log2_total log2_count);
  term ← div weighted total_count;
  Some (saturating_add U64 total_entropy term).

Definition calculate_entropy (producers : list AccountId) : option Z :=
  let total_count := Z.of_nat (length producers) in
  if decide (total_count = 0) then Some 0
  else
    counts ← foldM count_producer ∅ producers;
    log2_total ← integer_log2_scaled total_count;
    foldM (add_term total_count log2_total) 0 (map_to_list counts).*2.
End Entropy.

(** ** The mathematical values *)

(** The piecewise-linear approximation of 1,000,000 * log2. *)
Definition log2_scaled (x : Z) : Z :=
  if decide (x = 0) then 0
  else Z.log2 x * 1000000 + (x - 2 ^ Z.log2 x) * 1000000 / 2 ^ Z.log2 x.

(** The contribution of a producer with [c] of [n] blocks. *)
Definition entropy_term (n c : Z) : Z := c * (log2_scaled n - log2_scaled c) / n.

(** The number of occurrences of each producer. *)
Definition occurrences {A} `{Countable A} (l : list A) : gmap A Z :=
  foldl (λ m a, <[a := default 0 (m !! a) + 1]> m) ∅ l.

Definition entropy_spec {A} `{Countable A} (l : list A) : Z :=
  sumZ (entropy_term (Z.of_nat (length l)) <$> (map_to_list (occurrences l)).*2).

(** *** The logarithm *)

(** Clearing the top bit subtracts it. *)
Lemma lxor_top_bit x : 0 < x → Z.lxor x (Z.shiftl 1 (Z.log2 x)) = x - 2 ^ Z.log2 x.
Proof.
  intros Hx. pose proof (Z.log2_nonneg x) as Hk. pose proof (Z.log2_spec x Hx) as [Hlo Hhi].
  rewrite Z.shiftl_mul_pow2, Z.mul_1_l by done.
  rewrite Z.pow_succ_r in Hhi by done. set (k := Z.log2 x) in *.
  assert (Hland : Z.land (x - 2 ^ k) (2 ^ k) = 0).
  { apply Z.bits_inj'. intros i Hi. rewrite Z.land_spec, Z.bits_0, Z.pow2_bits_eqb by done.
    destruct (Z.eqb_spec k i) as [<-|]; [|by rewrite andb_false_r].
    rewrite andb_true_r. destruct (Z.eq_dec (x - 2 ^ k) 0) as [->|]; [apply Z.bits_0|].
    apply Z.bits_above_log2; [lia|]. apply Z.log2_lt_pow2; lia. }
  replace x with (Z.lxor (x - 2 ^ k) (2 ^ k)) at 1
    by (rewrite <-Z.add_nocarry_lxor by done; lia).
  by rewrite Z.lxor_assoc, Z.lxor_nilpotent, Z.lxor_0_r.
Qed.

Lemma log2_scaled_bounds x :
  0 < x → Z.log2 x * 1000000 ≤ log2_scaled x < (Z.log2 x + 1) * 1000000.
Proof.
  intros Hx. pose proof (Z.log2_nonneg x) as Hk. pose proof (Z.log2_spec x Hx) as [Hlo Hhi].
  rewrite Z.pow_succ_r in Hhi by done.
  assert (0 < 2 ^ Z.log2 x) by (apply Z.pow_pos_nonneg; lia).
  unfold log2_scaled. rewrite decide_False by lia.
  set (p := 2 ^ Z.log2 x) in *.
  pose proof (Z.div_pos ((x - p) * 1000000) p ltac:(lia) ltac:(lia)).
  pose proof (Z.div_lt_upper_bound ((x - p) * 1000000) p 1000000 ltac:(lia) ltac:(lia)). lia.
Qed.

Lemma log2_scaled_mono x y : 0 ≤ x ≤ y → log2_scaled x ≤ log2_scaled y.
Proof.
  intros [Hx Hxy].
  destruct (Z.eq_dec x 0) as [->|].
  { unfold log2_scaled at 1. rewrite decide_True by done.
    destruct (Z.eq_dec y 0) as [->|]; [done|].
    pose proof (log2_scaled_bounds y ltac:(lia)). pose proof (Z.log2_nonneg y). lia. }
  pose proof (Z.log2_le_mono x y Hxy) as Hl.
  destruct (Z.eq_dec (Z.log2 x) (Z.log2 y)) as [He|].
  - unfold log2_scaled. rewrite !decide_False by lia. rewrite He.
    apply Z.add_le_mono_l, Z.div_le_mono; [apply Z.pow_pos_nonneg; [lia|apply Z.log2_nonneg]|lia].
  - pose proof (log2_scaled_bounds x ltac:(lia)). pose proof (log2_scaled_bounds y ltac:(lia)). lia.
Qed.

Lemma integer_log2_scaled_eq `{!Build} x :
  0 ≤ x < 2 ^ 44 → integer_log2_scaled x = Some (log2_scaled x).
Proof.
  intros Hx. unfold integer_log2_scaled, log2_scaled. case_decide; [done|].
  pose proof (Z.log2_nonneg x) as Hk. pose proof (Z.log2_spec x ltac:(lia)) as [Hlo Hhi].
  assert (Hk44 : Z.log2 x < 44) by (apply Z.log2_lt_pow2; lia).
  assert (Hp : 0 < 2 ^ Z.log2 x) by (apply Z.pow_pos_nonneg; lia).
  rewrite Z.pow_succ_r in Hhi by done.
  unfold leading_zeros. rewrite decide_False by done.
  rewrite sub_fits by (unfold in_uint; lia). simpl.
  replace (63 - (64 - 1 - Z.log2 x)) with (Z.log2 x) by lia.
  rewrite lxor_top_bit, Z.shiftl_mul_pow2, Z.mul_1_l by lia. unfold scaling_factor.
  rewrite !mul_fits by (unfold in_uint; lia). simpl. rewrite div_nz by lia. simpl.
  pose proof (log2_scaled_bounds x ltac:(lia)) as Hb. unfold log2_scaled in Hb.
  rewrite decide_False in Hb by done.
  by rewrite add_fits by (unfold in_uint; lia).
Qed.

(** *** The counts *)

Section Counts.
Context {A : Type} `{Countable A}.
Implicit Types (l : list A) (a : A).

Definition count_of a l : Z := Z.of_nat (length (filter (a =.) l)).

Lemma count_of_snoc a b l :
  count_of a (l ++ [b]) = count_of a l + if decide (a = b) then 1 else 0.
Proof.
  unfold count_of. rewrite filter_app, length_app. cbn.
  case_decide; simpl; lia.
Qed.

Lemma count_of_le a l : 0 ≤ count_of a l ≤ Z.of_nat (length l).
Proof. unfold count_of. pose proof (length_filter (a =.) l). lia. Qed.

#[export] Instance count_of_perm a : Proper (Permutation ==> eq) (count_of a).
Proof. intros l1 l2 Hp. unfold count_of. by rewrite Hp. Qed.

Lemma occurrences_snoc l a :
  occurrences (l ++ [a]) = <[a := default 0 (occurrences l !! a) + 1]> (occurrences l).
Proof. unfold occurrences. by rewrite foldl_app. Qed.

Lemma occurrences_lookup l a :
  occurrences l !! a = if decide (count_of a l = 0) then None else Some (count_of a l).
Proof.
  induction l as [|b l IH] using rev_ind; [done|].
  rewrite occurrences_snoc, count_of_snoc, lookup_insert.
  pose proof (count_of_le a l). destruct (decide (b = a)) as [->|Hne].
  - rewrite IH, (decide_True (P := a = a)) by done.
    repeat case_decide; simpl; (lia || f_equal; lia).
  - rewrite IH, (decide_False (P := a = b)) by done. by rewrite Z.add_0_r.
Qed.

Lemma occurrences_default l a : default 0 (occurrences l !! a) = count_of a l.
Proof. rewrite occurrences_lookup. by case_decide. Qed.

Lemma occurrences_perm l1 l2 : l1 ≡ₚ l2 → occurrences l1 = occurrences l2.
Proof. intros Hp. apply map_eq. intros a. by rewrite !occurrences_lookup, (count_of_perm a _ _ Hp). Qed.

Lemma occurrences_sum l : map_sum (occurrences l) = Z.of_nat (length l).
Proof.
  induction l as [|b l IH] using rev_ind; [done|].
  rewrite occurrences_snoc, map_sum_insert, IH, length_app. simpl. lia.
Qed.

Lemma occurrences_values l c :
  c ∈ (map_to_list (occurrences l)).*2 → 1 ≤ c ≤ Z.of_nat (length l).
Proof.
  intros ([a c'] & -> & Hc%elem_of_map_to_list)%list_elem_of_fmap. simpl in *.
  rewrite occurrences_lookup in Hc. pose proof (count_of_le a l).
  case_decide; simplify_eq. lia.
Qed.

Lemma count_producers_eq `{!Build} l :
  Z.of_nat (length l) < 2 ^ 64 → foldM count_producer ∅ l = Some (occurrences l).
Proof.
  induction l as [|a l IH] using rev_ind; [done|]. rewrite length_app. simpl. intros Hl.
  rewrite foldM_app, IH by lia. simpl. unfold count_producer.
  rewrite occurrences_default. pose proof (count_of_le a l).
  rewrite add_fits by (unfold in_uint; lia). simpl.
  by rewrite occurrences_snoc, occurrences_default.
Qed.
End Counts.

(** *** The terms *)

Lemma log2_scaled_nonneg x : 0 ≤ x → 0 ≤ log2_scaled x.
Proof. intros Hx. apply (log2_scaled_mono 0 x). lia. Qed.

Lemma log2_scaled_u64 x : 0 ≤ x < 2 ^ 44 → 0 ≤ log2_scaled x ≤ 44000000.
Proof.
  intros Hx. split; [apply log2_scaled_nonneg; lia|].
  transitivity (log2_scaled (2 ^ 44)); [apply log2_scaled_mono; lia|by vm_compute].
Qed.

Lemma entropy_term_nonneg n c : 1 ≤ c ≤ n → 0 ≤ entropy_term n c.
Proof.
  intros Hc. unfold entropy_term. pose proof (log2_scaled_mono c n ltac:(lia)).
  apply Z.div_pos; nia.
Qed.

Lemma sum_terms_nonneg n vals :
  Forall (λ c, 1 ≤ c ≤ n) vals → 0 ≤ sumZ (entropy_term n <$> vals).
Proof.
  intros Hv. apply sumZ_nonneg, Forall_fmap. eapply Forall_impl; [exact Hv|].
  intros c. apply entropy_term_nonneg.
Qed.

Lemma add_term_eq `{!Build} n c acc :
  n < 2 ^ 32 → 1 ≤ c ≤ n → 0 ≤ acc → acc + entropy_term n c < 2 ^ 64 →
  add_term n (log2_scaled n) acc c = Some (acc + entropy_term n c).
Proof.
  intros Hn Hc Hacc Hsum. pose proof (entropy_term_nonneg n c Hc).
  pose proof (log2_scaled_u64 n ltac:(lia)). pose proof (log2_scaled_u64 c ltac:(lia)).
  pose proof (log2_scaled_mono c n ltac:(lia)).
  unfold add_term. rewrite integer_log2_scaled_eq by lia. simpl.
  rewrite saturating_sub_le by (unfold in_uint; lia). rewrite Z.max_r by lia.
  rewrite mul_fits by (unfold in_uint; nia). simpl. rewrite div_nz by lia. simpl.
  fold (entropy_term n c). unfold saturating_add. by rewrite saturate_id by (unfold in_uint; lia).
Qed.

(** The loop over the counts computes the sum of the terms, whatever the order
    in which it visits them. *)
Lemma add_terms_eq `{!Build} n vals acc :
  n < 2 ^ 32 → Forall (λ c, 1 ≤ c ≤ n) vals → 0 ≤ acc →
  acc + sumZ (entropy_term n <$> vals) < 2 ^ 64 →
  foldM (add_term n (log2_scaled n)) acc vals
    = Some (acc + sumZ (entropy_term n <$> vals)).
Proof.
  intros Hn Hv. revert acc. induction Hv as [|c vals Hc Hv IH]; intros acc Hacc Hsum.
  { simpl. by rewrite Z.add_0_r. }
  rewrite fmap_cons in *. simpl in Hsum |- *.
  pose proof (sum_terms_nonneg n vals Hv). pose proof (entropy_term_nonneg n c Hc).
  rewrite add_term_eq by lia. simpl. rewrite IH by lia. f_equal. lia.
Qed.

(** The entropy is at most the logarithm of the window. *)
Lemma entropy_spec_bounds {A} `{Countable A} (l : list A) :
  0 ≤ entropy_spec l ≤ log2_scaled (Z.of_nat (length l)).
Proof.
  unfold entropy_spec. set (n := Z.of_nat (length l)).
  set (vals := (map_to_list (occurrences l)).*2).
  assert (Hv : Forall (λ c, 1 ≤ c ≤ n) vals).
  { apply Forall_forall. intros c Hc. by eapply occurrences_values. }
  split; [by apply sum_terms_nonneg|].
  destruct (decide (n = 0)) as [Hn|Hn].
  { destruct l; [by vm_compute|subst n; simpl in Hn; lia]. }
  assert (Hsum : sumZ vals = n) by apply occurrences_sum.
  set (L := log2_scaled n).
  assert (Hle : sumZ (entropy_term n <$> vals) ≤ sumZ ((λ c, c * L / n) <$> vals)).
  { apply sumZ_le. intros c Hc. rewrite Forall_forall in Hv. specialize (Hv c Hc).
    unfold entropy_term. apply Z.div_le_mono; [lia|].
    pose proof (log2_scaled_nonneg c ltac:(lia)). nia. }
  etransitivity; [exact Hle|].
  pose proof (sumZ_div_le n ((λ c, L * c) <$> vals) ltac:(lia)) as Hd.
  rewrite sumZ_mul_l, Hsum in Hd. rewrite <-list_fmap_compose in Hd. unfold compose in Hd.
  rewrite (list_fmap_ext (λ c, c * L / n) (λ c, L * c / n)) by (intros; f_equal; lia). nia.
Qed.

(** The program computes the specification on every window below 2^32. *)
Lemma calculate_entropy_eq {A} `{!Build} `{Countable A} (l : list A) :
  Z.of_nat (length l) < 2 ^ 32 → calculate_entropy l = Some (entropy_spec l).
Proof.
  intros Hl. unfold calculate_entropy. case_decide as Hn.
  { by destruct l. }
  rewrite count_producers_eq by lia. simpl. rewrite integer_log2_scaled_eq by lia. simpl.
  pose proof (entropy_spec_bounds l) as Hb. unfold entropy_spec in *.
  pose proof (log2_scaled_u64 (Z.of_nat (length l)) ltac:(lia)).
  rewrite add_terms_eq; [done|lia| |lia|lia].
  apply Forall_forall. intros c Hc. by eapply occurrences_values.
Qed.

(** *** Concentration *)

Lemma log2_scaled_double c : 0 < c → log2_scaled (2 * c) = log2_scaled c + 1000000.
Proof.
  intros Hc. unfold log2_scaled. rewrite !decide_False by lia.
  pose proof (Z.log2_nonneg c). rewrite Z.log2_double, Z.pow_succ_r by lia.
  assert (0 < 2 ^ Z.log2 c) by (apply Z.pow_pos_nonneg; lia).
  replace ((2 * c - 2 * 2 ^ Z.log2 c) * 1000000) with (2 * ((c - 2 ^ Z.log2 c) * 1000000)) by lia.
  rewrite Z.div_mul_cancel_l by lia. lia.
Qed.

Lemma count_of_two {A} `{Countable A} (a b : A) l :
  a ≠ b → count_of a l + count_of b l ≤ Z.of_nat (length l).
Proof.
  intros Hne. induction l as [|c l IH] using rev_ind; [done|].
  rewrite !count_of_snoc, length_app. simpl. repeat case_decide; simplify_eq; lia.
Qed.

Lemma count_of_pos {A} `{Countable A} (a : A) l : a ∈ l ↔ 0 < count_of a l.
Proof.
  induction l as [|c l IH] using rev_ind; [split; [by intros ?%elem_of_nil|done]|].
  rewrite count_of_snoc, elem_of_app, list_elem_of_singleton, IH.
  pose proof (count_of_le a l). case_decide.
  - split; [lia|by right].
  - split; [intros [?|?]; [lia|done]|left; lia].
Qed.

Lemma count_of_all {A} `{Countable A} (a : A) l :
  (∀ y, y ∈ l → a = y) → count_of a l = Z.of_nat (length l).
Proof.
  induction l as [|c l IH] using rev_ind; intros Hl; [done|].
  rewrite count_of_snoc, length_app, IH by (intros; apply Hl, elem_of_app; by left).
  rewrite decide_True by (apply Hl, elem_of_app; right; by left). simpl. lia.
Qed.

(** A minority producer contributes at least 1,000,000 / n. *)
Lemma entropy_term_minority n c : 1 ≤ c → 2 * c ≤ n ≤ 1000000 → 0 < entropy_term n c.
Proof.
  intros Hc Hn. unfold entropy_term.
  pose proof (log2_scaled_mono (2 * c) n ltac:(lia)) as Hm.
  rewrite log2_scaled_double in Hm by lia.
  apply Z.div_str_pos. nia.
Qed.

Lemma entropy_spec_elem {A} `{Countable A} (l : list A) a :
  a ∈ l → entropy_term (Z.of_nat (length l)) (count_of a l) ≤ entropy_spec l.
Proof.
  intros Ha%count_of_pos. unfold entropy_spec. apply sumZ_elem_le.
  - apply Forall_fmap, Forall_forall. intros c Hc.
    apply entropy_term_nonneg. by eapply occurrences_values.
  - apply list_elem_of_fmap. eexists; split; [done|]. apply list_elem_of_fmap.
    exists (a, count_of a l); split; [done|]. apply elem_of_map_to_list.
    rewrite occurrences_lookup. by rewrite decide_False by lia.
Qed.

Lemma entropy_spec_monopoly {A} `{Countable A} (l : list A) :
  (∀ x y, x ∈ l → y ∈ l → x = y) → entropy_spec l = 0.
Proof.
  intros Hone. unfold entropy_spec.
  assert (Hall : ∀ c, c ∈ (map_to_list (occurrences l)).*2 → c = Z.of_nat (length l)).
  { intros c ([a c'] & -> & Hc%elem_of_map_to_list)%list_elem_of_fmap. simpl in *.
    rewrite occurrences_lookup in Hc. pose proof (count_of_le a l).
    case_decide; simplify_eq. assert (Ha : a ∈ l) by (apply count_of_pos; lia).
    apply count_of_all. intros y Hy. by apply Hone. }
  induction (map_to_list (occurrences l)).*2 as [|c vals IH]; [done|].
  rewrite fmap_cons. simpl. rewrite (Hall c) by left. rewrite IH by (intros; apply Hall; by right).
  unfold entropy_term. rewrite Z.sub_diag, Z.mul_0_r. by rewrite Zdiv_0_l.
Qed.

(** ** Properties *)

(** The entropy of a window of fewer than 2^32 producers: the computation does
    not panic in any build, and its result lies between 0 and the scaled
    logarithm of the window's length. *)
Theorem calculate_entropy_bounds {A} `{!Build} `{Countable A} (l : list A) :
  Z.of_nat (length l) < 2 ^ 32 →
  ∃ e, calculate_entropy l = Some e ∧ 0 ≤ e ≤ log2_scaled (Z.of_nat (length l)).
Proof.
  intros Hl. exists (entropy_spec l). split; [by apply calculate_entropy_eq|].
  apply entropy_spec_bounds.
Qed.

(** The entropy depends on how often each producer occurs and not on the order
    of the window. *)
Theorem calculate_entropy_order_independent {A} `{!Build} `{Countable A} (l1 l2 : list A) :
  l1 ≡ₚ l2 → Z.of_nat (length l1) < 2 ^ 32 → calculate_entropy l1 = calculate_entropy l2.
Proof.
  intros Hp Hl. rewrite !calculate_entropy_eq by (rewrite <-?Hp; done).
  unfold entropy_spec. by rewrite (occurrences_perm l1 l2 Hp), Hp.
Qed.

(** The entropy of a window of at most 1,000,000 producers is 0 exactly when
    one account produced all its blocks: the measure separates a monopoly from
    every other distribution in spite of the integer rounding. *)
Theorem calculate_entropy_zero_iff_monopoly {A} `{!Build} `{Countable A} (l : list A) :
  Z.of_nat (length l) ≤ 1000000 →
  calculate_entropy l = Some 0 ↔ ∀ x y, x ∈ l → y ∈ l → x = y.
Proof.
  intros Hl. rewrite calculate_entropy_eq by lia. split.
  - intros [= Hz] x y Hx Hy. destruct (decide (x = y)) as [|Hne]; [done|].
    pose proof (count_of_two x y l Hne).
    pose proof (entropy_spec_elem l x Hx). pose proof (entropy_spec_elem l y Hy).
    pose proof Hx as ?%count_of_pos. pose proof Hy as ?%count_of_pos.
    destruct (Z.le_gt_cases (2 * count_of x l) (Z.of_nat (length l))).
    + pose proof (entropy_term_minority (Z.of_nat (length l)) (count_of x l)). lia.
    + pose proof (entropy_term_minority (Z.of_nat (length l)) (count_of y l)). lia.
  - intros Hone. by rewrite entropy_spec_monopoly.
Qed.

(** [integer_log2_scaled] on inputs below 2^44: it does not panic, its integer
    part is the floor of log2, it is exact on powers of two, and it is
    monotone. *)
Theorem integer_log2_scaled_correct `{!Build} x y :
  0 < x ≤ y → y < 2 ^ 44 →
  ∃ rx ry, integer_log2_scaled x = Some rx ∧ integer_log2_scaled y = Some ry ∧ rx ≤ ry ∧
    rx / 1000000 = Z.log2 x ∧ (x = 2 ^ Z.log2 x → rx = 1000000 * Z.log2 x).
Proof.
  intros Hxy Hy. exists (log2_scaled x), (log2_scaled y).
  rewrite !integer_log2_scaled_eq by lia. pose proof (log2_scaled_bounds x ltac:(lia)).
  repeat split; [apply log2_scaled_mono; lia|symmetry; apply (Z.div_unique _ _ _ (log2_scaled x - Z.log2 x * 1000000)); lia|].
  intros Hp. unfold log2_scaled. rewrite decide_False by lia.
  replace (x - 2 ^ Z.log2 x) with 0 by lia. rewrite Z.mul_0_l, Zdiv_0_l. lia.
Qed.

(** ** Evaluation *)

#[local] Instance debug_build : Build := {| overflow_checks := true; feature_std := true |}.

(** A window of 100 blocks in which account 1 mined two out of three. *)
Definition sample_window : list Z := (λ i, if (i mod 3 =? 0)%nat then 2 else 1) <$> seq 0 100.

Lemma calculate_entropy_bounds_witness :
  ∃ e, calculate_entropy sample_window = Some e ∧
       0 ≤ e ≤ log2_scaled (Z.of_nat (length sample_window)).
Proof. apply (calculate_entropy_bounds sample_window). by vm_compute. Defined.

Lemma calculate_entropy_order_independent_witness :
  calculate_entropy [1; 2; 1; 3] = calculate_entropy [3; 1; 2; 1].
Proof.
  apply (calculate_entropy_order_independent [1; 2; 1; 3] [3; 1; 2; 1]); [|by vm_compute].
  solve_Permutation.
Defined.

Lemma calculate_entropy_zero_iff_monopoly_witness :
  calculate_entropy [7; 7; 7] = Some 0 ↔ ∀ x y, x ∈ [7; 7; 7] → y ∈ [7; 7; 7] → x = y.
Proof. apply (calculate_entropy_zero_iff_monopoly [7; 7; 7]). by vm_compute. Defined.

Lemma integer_log2_scaled_correct_witness :
  ∃ rx ry, integer_log2_scaled 64 = Some rx ∧ integer_log2_scaled 100 = Some ry ∧ rx ≤ ry ∧
    rx / 1000000 = Z.log2 64 ∧ (64 = 2 ^ Z.log2 64 → rx = 1000000 * Z.log2 64).
Proof. apply (integer_log2_scaled_correct 64 100); by vm_compute. Defined.

Example log2_of_100 : integer_log2_scaled 100 = Some 6562500.
Proof. reflexivity. Qed.
(** 16 producers in equal shares reach the threshold of the difficulty steering. *)
Example entropy_of_16 :
  calculate_entropy ((λ i, Z.of_nat i mod 16) <$> seq 0 96) = Some 4000000.
Proof. vm_compute. reflexivity. Qed.
(** Beyond the range of the windows the scaled remainder can overflow. *)
Example log2_overflow : integer_log2_scaled (2 ^ 63 + 2 ^ 62) = None.
Proof. reflexivity. Qed.
