(* ===== verification/Pow.v ===== *)
(** * Proof of work

    The four verifiers of pallets/pallet-ghost-consensus/src/functions.rs, and
    the mining loop [GhostMiningWorker::mine_block] of
    pallets/pallet-ghost-consensus/src/consensus.rs that searches a nonce for
    the enhanced one. *)

From S2P Require Import Prelude RustInt Scale Types Interfaces Reference.
Local Open Scope Z_scope.
Local Open Scope ghost_scope.

Section Pow.
Context `{!ScalePrims, !Hashing}.

(** The tuple that every verifier hashes. *)
Definition hash_input (h : GhostBlockHeader) : Z * H256 * H256 * H256 * Z :=
  (number h, parent_hash h, state_root h, extrinsics_root h, nonce h).

Definition scale_hash_input : codec (Z * H256 * H256 * H256 * Z) :=
  scale_u32 ⊗ scale_array 32 ⊗ scale_array 32 ⊗ scale_array 32 ⊗ scale_u64.

(** [u64::from_be_bytes(hash.as_bytes()[0..8].try_into().unwrap_or_default())] *)
Definition hash_value (hash : H256) : Z :=
  from_be_bytes (array_bytes (default (zeros 8) (try_into 8 (take 8 (array_bytes hash))))).

Definition verify_pow (block_header : GhostBlockHeader) (target_difficulty : Z) : bool :=
  let hash := hash_of scale_hash_input (hash_input block_header) in
  hash_value hash <=? target_difficulty.

Definition verify_pow_enhanced (block_header : GhostBlockHeader) (target_difficulty : Z)
    : bool :=
  let first_hash := hash_of scale_hash_input (hash_input block_header) in
  let final_hash := hash_of (scale_array 32) first_hash in
  hash_value final_hash <=? target_difficulty.

Definition verify_pow_sha256 (block_header : GhostBlockHeader) (target_difficulty : Z)
    : bool :=
  let first_hash := sha2_256 (enc scale_hash_input (hash_input block_header)) in
  let final_hash := sha2_256 (array_bytes first_hash) in
  hash_value final_hash <=? target_difficulty.

Definition verify_pow_keccak (block_header : GhostBlockHeader) (target_difficulty : Z)
    : bool :=
  let hash := keccak_256 (enc scale_hash_input (hash_input block_header)) in
  hash_value hash <=? target_difficulty.

(** ** [GhostMiningWorker] *)

Record GhostMiningWorker := { worker_difficulty : Z (* u64 *) }.

(** [GhostMiningWorker::new] *)
Definition GhostMiningWorker_new (difficulty : Z) : GhostMiningWorker :=
  {| worker_difficulty := difficulty |}.

(** [let mut test_header = block_header.clone(); test_header.nonce = nonce] *)
Definition set_nonce (h : GhostBlockHeader) (n : Z) : GhostBlockHeader :=
  {| number := number h; parent_hash := parent_hash h; state_root := state_root h;
     extrinsics_root := extrinsics_root h; nonce := n; difficulty := difficulty h;
     validator_signature := validator_signature h; pqc_signature := pqc_signature h |}.

(** The loop body, [attempts] turns before the limit, from [nonce] on.  The
    increment of the [u64] nonce never reaches its limit. *)
Fixpoint mine_loop (attempts : nat) (self : GhostMiningWorker)
    (block_header : GhostBlockHeader) (nonce : Z) : option Z :=
  match attempts with
  | O => None
  | S attempts =>
      if verify_pow_enhanced (set_nonce block_header nonce) (worker_difficulty self)
      then Some nonce
      else mine_loop attempts self block_header (nonce + 1)
  end.

Definition max_attempts : nat := Z.to_nat 1000000.

Definition mine_block (self : GhostMiningWorker) (block_header : GhostBlockHeader)
    : option Z :=
  mine_loop max_attempts self block_header 0.

(** ** Lemmas *)

Lemma hash_value_u64 hash : in_uint U64 (hash_value hash).
Proof.
  unfold hash_value. set (a := default _ _). pose proof (from_be_bytes_bound (array_bytes a)) as Hb.
  by rewrite length_array in Hb.
Qed.

(** The slice has 8 bytes, so the default of the conversion is never taken. *)
Lemma hash_value_prefix hash : hash_value hash = from_be_bytes (take 8 (array_bytes hash)).
Proof.
  unfold hash_value, try_into. destruct (Bool.bool_dec _ _) as [Hl|Hl]; [done|].
  destruct Hl. rewrite length_take, length_array. done.
Qed.

Lemma mine_loop_sound attempts w h n m :
  mine_loop attempts w h n = Some m →
  n ≤ m < n + Z.of_nat attempts ∧
  verify_pow_enhanced (set_nonce h m) (worker_difficulty w) = true ∧
  ∀ i, n ≤ i < m → verify_pow_enhanced (set_nonce h i) (worker_difficulty w) = false.
Proof.
  revert n; induction attempts as [|k IH]; intros n; simpl; [done|].
  destruct (verify_pow_enhanced (set_nonce h n) _) eqn:Hv.
  - intros [= <-]. repeat split; [lia|lia|done|]. intros i Hi; lia.
  - intros (Hm & Ht & Hf)%IH. repeat split; [lia|lia|done|].
    intros i Hi. destruct (decide (i = n)) as [->|]; [done|]. apply Hf; lia.
Qed.

Lemma mine_loop_complete attempts w h n i :
  n ≤ i < n + Z.of_nat attempts →
  verify_pow_enhanced (set_nonce h i) (worker_difficulty w) = true →
  is_Some (mine_loop attempts w h n).
Proof.
  revert n; induction attempts as [|k IH]; intros n Hi Hv; [lia|]. simpl.
  destruct (verify_pow_enhanced (set_nonce h n) _) eqn:Hn; [by eexists|].
  destruct (decide (i = n)) as [->|]; [congruence|]. apply IH; [lia|done].
Qed.

Lemma max_attempts_value : Z.of_nat max_attempts = 1000000.
Proof. done. Qed.

(** Equal hash inputs are equal headers on the five fields, and equal hashes
    of well-formed inputs are equal inputs or a collision of BLAKE2. *)
Lemma hash_input_binding `{!ScalePrimsOk} h1 h2 :
  header_wf h1 → header_wf h2 →
  hash_of scale_hash_input (hash_input h1) = hash_of scale_hash_input (hash_input h2) →
  hash_input h1 = hash_input h2 ∨
  blake2_collision (enc scale_hash_input (hash_input h1))
                   (enc scale_hash_input (hash_input h2)).
Proof.
  intros Hw1 Hw2 Heq.
  destruct (decide (enc scale_hash_input (hash_input h1)
                    = enc scale_hash_input (hash_input h2))) as [He|]; [left|by right].
  assert (Hok : codec_ok scale_hash_input) by (unfold scale_hash_input; auto 20 with ghost).
  assert (Hdom : ∀ h, header_wf h → dom scale_hash_input (hash_input h)).
  { intros h [Hn Hno Hd]. simpl. repeat split; auto with ghost. }
  eapply (codec_ok_inj scale_hash_input _ _ [] []); [done|by auto..|by rewrite !app_nil_r].
Qed.
End Pow.

(** ** Properties *)

Section Properties.
Context `{!ScalePrims, !Hashing}.

(** The mining worker returns the first nonce below 1,000,000 that the pallet's
    verifier accepts for the header, and [None] exactly when there is none:
    the search is sound, complete and minimal within its bound. *)
Theorem mine_block_correct w h :
  match mine_block w h with
  | Some n =>
      0 ≤ n < 1000000 ∧
      verify_pow_enhanced (set_nonce h n) (worker_difficulty w) = true ∧
      ∀ i, 0 ≤ i < n → verify_pow_enhanced (set_nonce h i) (worker_difficulty w) = false
  | None =>
      ∀ i, 0 ≤ i < 1000000 →
        verify_pow_enhanced (set_nonce h i) (worker_difficulty w) = false
  end.
Proof.
  pose proof max_attempts_value as Hmax. unfold mine_block.
  destruct (mine_loop max_attempts w h 0) as [n|] eqn:E.
  - apply mine_loop_sound in E. by rewrite Hmax in E.
  - intros i Hi. apply not_true_is_false. intros Hv.
    destruct (mine_loop_complete max_attempts w h 0 i) as [m Hm]; [lia|done|congruence].
Qed.

(** A verifier's verdict depends on the five hashed fields and on the target
    only, it is monotone in the target, and the target [u64::MAX] accepts
    every header: in particular the difficulty that a header claims and the
    signatures attached to it are not covered by its proof of work. *)
Theorem verify_pow_enhanced_target h h' t t' :
  hash_input h = hash_input h' → t ≤ t' →
  (verify_pow_enhanced h t = true → verify_pow_enhanced h' t' = true) ∧
  verify_pow_enhanced h (2 ^ 64 - 1) = true.
Proof.
  intros Hin Ht. unfold verify_pow_enhanced. rewrite Hin. split.
  - rewrite !Z.leb_le. lia.
  - apply Z.leb_le. match goal with |- hash_value ?x ≤ _ => pose proof (hash_value_u64 x) end.
    unfold in_uint in *. lia.
Qed.

(** C36. Proof of work binds the header: when two well-formed headers have the same
    first hash, they agree on the number, the three roots and the nonce, or
    their encodings are a collision of BLAKE2-256. *)
Theorem pow_hash_binds_header `{!ScalePrimsOk} h1 h2 :
  header_wf h1 → header_wf h2 →
  hash_of scale_hash_input (hash_input h1) = hash_of scale_hash_input (hash_input h2) →
  (number h1 = number h2 ∧ parent_hash h1 = parent_hash h2 ∧ state_root h1 = state_root h2 ∧
   extrinsics_root h1 = extrinsics_root h2 ∧ nonce h1 = nonce h2) ∨
  blake2_collision (enc scale_hash_input (hash_input h1))
                   (enc scale_hash_input (hash_input h2)).
Proof.
  intros Hw1 Hw2 Heq.
  destruct (hash_input_binding h1 h2 Hw1 Hw2 Heq) as [Hin|Hc]; [left|by right].
  unfold hash_input in Hin. by simplify_eq.
Qed.
End Properties.

(** ** Evaluation *)

Definition sample_header : GhostBlockHeader :=
  {| number := 1; parent_hash := zeros 32; state_root := zeros 32; extrinsics_root := zeros 32;
     nonce := 123; difficulty := 2 ^ 64 - 1; validator_signature := None;
     pqc_signature := None |}.

Lemma verify_pow_enhanced_target_witness :
  (verify_pow_enhanced sample_header (2 ^ 63) = true →
   verify_pow_enhanced sample_header (2 ^ 64 - 1) = true) ∧
  verify_pow_enhanced sample_header (2 ^ 64 - 1) = true.
Proof.
  apply (verify_pow_enhanced_target sample_header sample_header (2 ^ 63) (2 ^ 64 - 1));
    [done|by vm_compute].
Defined.

(** The same header claiming another difficulty and carrying a signature. *)
Definition signed_sample_header : GhostBlockHeader :=
  {| number := 1; parent_hash := zeros 32; state_root := zeros 32; extrinsics_root := zeros 32;
     nonce := 123; difficulty := 5; validator_signature := Some (zeros 32);
     pqc_signature := None |}.

Lemma pow_hash_binds_header_witness :
  (number sample_header = number signed_sample_header ∧
   parent_hash sample_header = parent_hash signed_sample_header ∧
   state_root sample_header = state_root signed_sample_header ∧
   extrinsics_root sample_header = extrinsics_root signed_sample_header ∧
   nonce sample_header = nonce signed_sample_header) ∨
  blake2_collision (enc scale_hash_input (hash_input sample_header))
                   (enc scale_hash_input (hash_input signed_sample_header)).
Proof.
  apply (pow_hash_binds_header sample_header signed_sample_header); [..|reflexivity];
    split; split; by vm_compute.
Defined.

(** An easy target is met within a few nonces. *)
Example mine_sample :
  mine_loop 50 (GhostMiningWorker_new (2 ^ 60)) sample_header 0 = Some 9.
Proof. vm_compute. reflexivity. Qed.
