(* ===== verification/Selection.v ===== *)
(** * Stake-weighted validator selection

    [select_pos_validator] of pallets/pallet-ghost-consensus/src/functions.rs:
    a random value below the total weight picks the staker in whose interval of
    cumulated weights it falls. *)

From S2P Require Import Prelude RustInt Scale Types Interfaces Reference Pow.
Local Open Scope Z_scope.

Section Selection.
Context `{!Build} {AccountId : Type}.
Implicit Types (stakers : list (ValidatorStake AccountId)) (s : ValidatorStake AccountId).

(** the loop over the stakers, [block_number] being the current block *)
Fixpoint select_loop (block_number random_value cumulative_weight : Z) stakers
    : option (option (PosSelection AccountId)) :=
  match stakers with
  | [] => Some None
  | staker :: stakers =>
      cumulative_weight ← add U64 cumulative_weight (weight staker);
      if random_value <? cumulative_weight then
        Some (Some {| selected_validator := account staker;
                      selected_weight := weight staker;
                      selected_round := saturate U64 block_number |})
      else select_loop block_number random_value cumulative_weight stakers
  end.

Definition select_pos_validator (block_number : Z) stakers (seed : H256)
    : option (option (PosSelection AccountId)) :=
  match stakers with
  | [] => Some None
  | _ =>
      total_weight ← sum U64 (weight <$> stakers);
      if decide (total_weight = 0) then Some None
      else
        random_value ← rem (hash_value seed) total_weight;
        select_loop block_number random_value 0 stakers
  end.

(** ** Lemmas *)

Definition weights_sum stakers : Z := sumZ (weight <$> stakers).
Definition selection_of (block_number : Z) s : PosSelection AccountId :=
  {| selected_validator := account s; selected_weight := weight s;
     selected_round := saturate U64 block_number |}.

Lemma weights_sum_nonneg stakers :
  Forall (λ s, 0 ≤ weight s) stakers → 0 ≤ weights_sum stakers.
Proof. intros Hs. by apply sumZ_nonneg, Forall_fmap. Qed.

(** Below the total the loop picks the staker whose interval contains the
    value. *)
Lemma select_loop_correct bn r c stakers :
  Forall (λ s, 0 ≤ weight s) stakers → 0 ≤ c ≤ r → r < c + weights_sum stakers →
  c + weights_sum stakers < 2 ^ 64 →
  ∃ l1 s l2, stakers = l1 ++ s :: l2 ∧
    c + weights_sum l1 ≤ r < c + weights_sum l1 + weight s ∧
    select_loop bn r c stakers = Some (Some (selection_of bn s)).
Proof.
  intros Hs. revert c. induction Hs as [|s stakers Hw Hs IH]; intros c Hc Hr Hmax.
  { unfold weights_sum in Hr. simpl in Hr. lia. }
  pose proof (weights_sum_nonneg stakers Hs).
  assert (Hcons : weights_sum (s :: stakers) = weight s + weights_sum stakers) by done.
  rewrite Hcons in *. simpl. rewrite add_fits by (unfold in_uint; lia). simpl.
  destruct (Z.ltb_spec r (c + weight s)) as [Hlt|Hge].
  - exists [], s, stakers. unfold weights_sum at 1 2; simpl. repeat split; (done || lia).
  - destruct (IH (c + weight s)) as (l1 & s' & l2 & -> & Hb & He); [lia..|].
    exists (s :: l1), s', l2. split; [done|]. split; [|exact He].
    change (weights_sum (s :: l1)) with (weight s + weights_sum l1). lia.
Qed.

(** A value in the interval of a staker picks that staker. *)
Lemma select_loop_hit bn r c l1 s l2 :
  Forall (λ s, 0 ≤ weight s) (l1 ++ s :: l2) → 0 ≤ c →
  c + weights_sum l1 ≤ r < c + weights_sum l1 + weight s →
  c + weights_sum (l1 ++ s :: l2) < 2 ^ 64 →
  select_loop bn r c (l1 ++ s :: l2) = Some (Some (selection_of bn s)).
Proof.
  revert c; induction l1 as [|x l1 IH]; intros c Hs Hc Hr Hmax; simpl in *;
    apply Forall_cons in Hs as [Hx Hs]; pose proof (weights_sum_nonneg _ Hs).
  - change (weights_sum (s :: l2)) with (weight s + weights_sum l2) in Hmax.
    change (weights_sum []) with 0 in Hr.
    rewrite add_fits by (unfold in_uint; lia). simpl.
    by rewrite (proj2 (Z.ltb_lt r (c + weight s))) by lia.
  - change (weights_sum (x :: l1)) with (weight x + weights_sum l1) in Hr.
    change (weights_sum (x :: l1 ++ s :: l2))
      with (weight x + weights_sum (l1 ++ s :: l2)) in Hmax.
    pose proof (weights_sum_nonneg l1 (proj1 (proj1 (Forall_app _ _ _) Hs))).
    rewrite add_fits by (unfold in_uint; lia). simpl.
    rewrite (proj2 (Z.ltb_ge r (c + weight x))) by lia.
    apply IH; (done || lia).
Qed.

(** The interval of a staker decides when the loop picks it. *)
Lemma select_loop_interval bn r l1 s l2 :
  Forall (λ s, 0 ≤ weight s) (l1 ++ s :: l2) → NoDup (account <$> (l1 ++ s :: l2)) →
  weights_sum (l1 ++ s :: l2) < 2 ^ 64 → 0 ≤ r < weights_sum (l1 ++ s :: l2) →
  select_loop bn r 0 (l1 ++ s :: l2) = Some (Some (selection_of bn s)) ↔
  weights_sum l1 ≤ r < weights_sum l1 + weight s.
Proof.
  intros Hs Hnd Hmax Hr. split; [|intros; apply select_loop_hit; (done || lia)].
  destruct (select_loop_correct bn r 0 (l1 ++ s :: l2)) as (l1' & s' & l2' & Heq & Hb & He);
    [done|lia..|].
  rewrite He. intros [= Hacc Hw].
  destruct (NoDup_key_split account l1 l1' s s' l2 l2' Hnd Heq ltac:(done)) as [-> ->]. lia.
Qed.
End Selection.

Arguments select_loop : simpl never.

(** ** Properties *)

Section Properties.
Context `{!Build} {AccountId : Type} `{EqDecision AccountId}.
Implicit Types (stakers : list (ValidatorStake AccountId)) (s : ValidatorStake AccountId).

(** The outcome of a selection whose total weight fits. *)
Lemma select_pos_correct bn stakers seed :
  Forall (λ s, 0 ≤ weight s) stakers → weights_sum stakers < 2 ^ 64 →
  match select_pos_validator bn stakers seed with
  | None => False
  | Some None => weights_sum stakers = 0
  | Some (Some selection) =>
      ∃ l1 s l2, stakers = l1 ++ s :: l2 ∧ selection = selection_of bn s ∧ 0 < weight s ∧
        weights_sum l1 ≤ hash_value seed mod weights_sum stakers < weights_sum l1 + weight s
  end.
Proof.
  intros Hs Hmax. unfold select_pos_validator. destruct stakers as [|s0 stakers]; [done|].
  pose proof (weights_sum_nonneg _ Hs) as Hnn. set (l := s0 :: stakers) in *.
  rewrite sum_fits by (by try apply Forall_fmap). fold (weights_sum l). simpl.
  case_decide as H0; [done|]. rewrite rem_nz by done. simpl.
  pose proof (Z.mod_pos_bound (hash_value seed) (weights_sum l) ltac:(lia)).
  destruct (select_loop_correct bn (hash_value seed mod weights_sum l) 0 l)
    as (l1 & s & l2 & Heq & Hb & He); [done|lia..|].
  rewrite He. exists l1, s, l2. repeat split; (done || lia).
Qed.

(** C27. When the total weight fits in a [u64] the selection does not panic; it
    returns [None] exactly when the total weight is 0, and otherwise the
    staker of positive weight whose interval of cumulated weights contains
    the seed modulo the total, with its weight and the block number. *)
Theorem select_pos_validator_correct bn stakers seed :
  Forall (λ s, 0 ≤ weight s) stakers → weights_sum stakers < 2 ^ 64 →
  match select_pos_validator bn stakers seed with
  | None => False
  | Some None => weights_sum stakers = 0
  | Some (Some selection) =>
      ∃ l1 s l2, stakers = l1 ++ s :: l2 ∧ selection = selection_of bn s ∧ 0 < weight s ∧
        weights_sum l1 ≤ hash_value seed mod weights_sum stakers < weights_sum l1 + weight s
  end.
Proof. apply select_pos_correct. Qed.

(** C28. The selection is proportional to the stake: of the random values below the
    total weight, exactly [weight s] pick the staker [s]. *)
Theorem selection_is_stake_proportional bn l1 s l2 :
  Forall (λ s, 0 ≤ weight s) (l1 ++ s :: l2) → NoDup (account <$> (l1 ++ s :: l2)) →
  weights_sum (l1 ++ s :: l2) < 2 ^ 64 →
  length (filter
    (λ r, select_loop bn r 0 (l1 ++ s :: l2) = Some (Some (selection_of bn s)))
    (seqZ 0 (weights_sum (l1 ++ s :: l2)))) = Z.to_nat (weight s).
Proof.
  intros Hs Hnd Hmax. apply (count_interval _ (weights_sum l1)).
  - apply Forall_app in Hs as [Hs _]. by apply weights_sum_nonneg.
  - apply Forall_app in Hs as [_ Hs]. by apply Forall_inv in Hs.
  - unfold weights_sum. rewrite fmap_app, sumZ_app, fmap_cons. simpl.
    apply Forall_app in Hs as [_ Hs]. apply Forall_cons in Hs as [_ Hs].
    pose proof (weights_sum_nonneg _ Hs). unfold weights_sum in *. lia.
  - intros r Hr. by apply select_loop_interval.
Qed.

(** C30. When the total weight exceeds [u64::MAX] the selection panics in a build
    with overflow checks; without them the total wraps, and a total that is a
    multiple of 2^64 selects nobody although the stakers have weight. *)
Theorem selection_total_weight_overflow bn stakers seed :
  Forall (λ s, 0 ≤ weight s) stakers → 2 ^ 64 ≤ weights_sum stakers →
  (overflow_checks = true → select_pos_validator bn stakers seed = None) ∧
  (overflow_checks = false → weights_sum stakers mod 2 ^ 64 = 0 →
   select_pos_validator bn stakers seed = Some None).
Proof.
  intros Hs Hover. unfold select_pos_validator.
  destruct stakers as [|s0 stakers]; [by vm_compute in Hover|].
  set (l := s0 :: stakers) in *. assert (Forall (λ x, 0 ≤ x) (weight <$> l)) by
    (by apply Forall_fmap).
  split; intros Hc.
  - by rewrite sum_overflow_panics.
  - intros Hz. rewrite sum_wraps by done. simpl. rewrite decide_True; [done|exact Hz].
Qed.
End Properties.

(** ** Evaluation *)

Definition debug_build : Build := {| overflow_checks := true; feature_std := true |}.
Definition release_build : Build := {| overflow_checks := false; feature_std := false |}.

Definition sample_stakers : list (ValidatorStake Z) :=
  [ {| account := 1; stake := 50; weight := 50 |};
    {| account := 2; stake := 0; weight := 0 |};
    {| account := 3; stake := 20; weight := 20 |} ].

Lemma select_pos_validator_correct_witness :
  match select_pos_validator (H := debug_build) 7 sample_stakers (zeros 32) with
  | None => False
  | Some None => weights_sum sample_stakers = 0
  | Some (Some selection) =>
      ∃ l1 s l2, sample_stakers = l1 ++ s :: l2 ∧ selection = selection_of 7 s ∧ 0 < weight s ∧
        weights_sum l1 ≤ hash_value (zeros 32) mod weights_sum sample_stakers
          < weights_sum l1 + weight s
  end.
Proof.
  apply (select_pos_validator_correct (H := debug_build) 7 sample_stakers (zeros 32));
    [by repeat constructor|by vm_compute].
Defined.

Lemma selection_is_stake_proportional_witness :
  length (filter
    (λ r, select_loop (H := debug_build) 7 r 0 sample_stakers
          = Some (Some (selection_of 7 {| account := 3; stake := 20; weight := 20 |})))
    (seqZ 0 (weights_sum sample_stakers))) = 20%nat.
Proof.
  apply (selection_is_stake_proportional (H := debug_build) 7
    [ {| account := 1; stake := 50; weight := 50 |};
      {| account := 2; stake := 0; weight := 0 |} ]
    {| account := 3; stake := 20; weight := 20 |} []);
    [by repeat constructor| |by vm_compute].
  apply (bool_decide_unpack _). by vm_compute.
Defined.

(** Two stakers of 2^63 units each: nobody is selected in a release build. *)
Definition heavy_stakers : list (ValidatorStake Z) :=
  [ {| account := 1; stake := 2 ^ 63; weight := 2 ^ 63 |};
    {| account := 2; stake := 2 ^ 63; weight := 2 ^ 63 |} ].

Lemma selection_total_weight_overflow_witness :
  select_pos_validator (H := debug_build) 7 heavy_stakers (zeros 32) = None ∧
  select_pos_validator (H := release_build) 7 heavy_stakers (zeros 32) = Some None.
Proof.
  split.
  - apply (selection_total_weight_overflow (H := debug_build) 7 heavy_stakers (zeros 32));
      [by repeat constructor|by vm_compute|done].
  - apply (selection_total_weight_overflow (H := release_build) 7 heavy_stakers (zeros 32));
      [by repeat constructor|by vm_compute|done|by vm_compute].
Defined.
