(* ===== verification/Rewards.v ===== *)
(** * Block rewards

    [calculate_block_reward] and [distribute_rewards] of
    pallets/pallet-ghost-consensus/src/functions.rs.  The distribution runs on
    the balances only: it is a computation of the dispatch monad over the
    [Balances] of the [Currency] interface. *)

From S2P Require Import Prelude RustInt Types Interfaces Reference.
Local Open Scope Z_scope.

Section Rewards.
Context `{!Build}.

Definition calculate_block_reward (total_reward : Z) : option BlockReward :=
  scaled ← mul U128 total_reward 40;
  miner_reward ← div scaled 100;
  stakers_reward ← sub U128 total_reward miner_reward;
  Some {| total := total_reward; miner_reward := miner_reward;
          stakers_reward := stakers_reward |}.

Context {AccountId : Type} `{!Currency AccountId} {E : Type}.
Implicit Types (stakers : list (ValidatorStake AccountId)) (s : ValidatorStake AccountId).

(** [let _ = deposit_creating(&who, value)]: the imbalance is dropped *)
Definition deposit (who : AccountId) (value : Z) : dispatch_m Balances E unit :=
  modify (λ b, (deposit_creating who value b).1).

(** [stakers.iter().fold(Zero::zero(), |acc, s| acc + s.stake)] *)
Definition total_stake_of stakers : option Z :=
  foldM (λ acc s, add U128 acc (stake s)) 0 stakers.

(** [(stakers_reward * staker.stake) / total_stake] *)
Definition staker_reward (stakers_reward total_stake stake : Z) : option Z :=
  product ← mul U128 stakers_reward stake;
  div product total_stake.

Definition distribute_rewards (miner : AccountId) stakers (reward : BlockReward)
    : dispatch_m Balances E unit :=
  deposit miner (miner_reward reward) ;;
  total_stake ← may_panic (total_stake_of stakers);
  if decide (total_stake = 0) then mret tt
  else
    for_each stakers (λ staker,
      staker_reward ← may_panic
        (staker_reward (stakers_reward reward) total_stake (stake staker));
      deposit (account staker) staker_reward).

(** ** The split *)

(** In every build the two shares of a reward add up to it: when the product
    with 40 wraps, the miner's share only shrinks. *)
Lemma calculate_block_reward_split total_reward r :
  in_uint U128 total_reward → calculate_block_reward total_reward = Some r →
  total r = total_reward ∧ miner_reward r + stakers_reward r = total_reward ∧
  0 ≤ miner_reward r ≤ total_reward * 40 / 100 ∧ 0 ≤ stakers_reward r ≤ total_reward.
Proof.
  intros Ht. unfold calculate_block_reward. unfold in_uint in Ht.
  destruct (mul U128 total_reward 40) as [p|] eqn:Hp; [|done]. simpl.
  pose proof (arith_range U128 _ p ltac:(lia) Hp) as Hpr.
  pose proof (arith_le U128 (total_reward * 40) p ltac:(lia) ltac:(lia) Hp) as Hple. unfold in_uint in Hpr.
  rewrite ?div_nz by done. simpl.
  pose proof (Z.div_le_mono p (total_reward * 40) 100 ltac:(lia) Hple).
  pose proof (Z.div_pos p 100 ltac:(lia) ltac:(lia)).
  assert (total_reward * 40 / 100 ≤ total_reward) by (apply Z.div_le_upper_bound; lia).
  rewrite sub_fits by (unfold in_uint; lia). simpl. intros [= <-]; simpl. lia.
Qed.

Lemma calculate_block_reward_fits total_reward :
  0 ≤ total_reward → total_reward * 40 < 2 ^ 128 →
  calculate_block_reward total_reward =
    Some {| total := total_reward; miner_reward := total_reward * 40 / 100;
            stakers_reward := total_reward - total_reward * 40 / 100 |}.
Proof.
  intros H0 Hf. unfold calculate_block_reward.
  rewrite mul_fits by (unfold in_uint; lia). simpl. rewrite ?div_nz by done. simpl.
  div_bounds (total_reward * 40) 100. rewrite sub_fits by (unfold in_uint; lia). done.
Qed.

(** ** The shares *)

Definition stakes_sum stakers : Z := sumZ (stake <$> stakers).
Definition share (r total_stake : Z) s : Z := r * stake s / total_stake.

Lemma total_stake_of_foldM stakers :
  total_stake_of stakers = foldM (add U128) 0 (stake <$> stakers).
Proof.
  unfold total_stake_of. generalize 0 as acc.
  induction stakers as [|s l IH]; intros acc; [done|]. simpl.
  destruct (add U128 acc (stake s)); simpl; [apply IH|done].
Qed.

Lemma total_stake_of_fits stakers :
  Forall (λ s, 0 ≤ stake s) stakers → stakes_sum stakers < 2 ^ 128 →
  total_stake_of stakers = Some (stakes_sum stakers).
Proof.
  intros Hs Hmax. rewrite total_stake_of_foldM. rewrite foldM_add_fits; [done|done| |done].
  by apply Forall_fmap.
Qed.

Lemma staker_reward_le r t x v :
  0 ≤ r → 0 < t → 0 ≤ x → staker_reward r t x = Some v → 0 ≤ v ≤ r * x / t.
Proof.
  intros Hr Ht Hx. unfold staker_reward.
  destruct (mul U128 r x) as [p|] eqn:Hp; [|done]. simpl. rewrite div_nz by lia.
  pose proof (arith_range U128 _ p ltac:(lia) Hp) as Hpr. unfold in_uint in Hpr.
  pose proof (arith_le U128 (r * x) p ltac:(lia) ltac:(nia) Hp).
  intros [= <-]. split; [apply Z.div_pos; lia|by apply Z.div_le_mono].
Qed.

Lemma staker_reward_fits r t x :
  0 ≤ r → 0 < t → 0 ≤ x → r * x < 2 ^ 128 → staker_reward r t x = Some (r * x / t).
Proof.
  intros. unfold staker_reward. rewrite mul_fits by (unfold in_uint; nia). simpl.
  by rewrite div_nz by lia.
Qed.

(** The shares sum to at most the stakers' reward, and rounding loses less
    than one unit per staker. *)
Lemma shares_sum r stakers :
  0 ≤ r → Forall (λ s, 0 ≤ stake s) stakers → 0 < stakes_sum stakers →
  r - Z.of_nat (length stakers) < sumZ (share r (stakes_sum stakers) <$> stakers) ≤ r.
Proof.
  intros Hr Hs Ht. set (t := stakes_sum stakers) in *.
  pose proof (sumZ_div_le t ((λ x, r * x) <$> (stake <$> stakers)) Ht) as Hle.
  pose proof (sumZ_div_gt t ((λ x, r * x) <$> (stake <$> stakers)) Ht) as Hgt.
  rewrite sumZ_mul_l in Hle, Hgt. rewrite !length_fmap in Hgt.
  rewrite <-!list_fmap_compose in Hle, Hgt.
  change (sumZ (stake <$> stakers)) with t in *.
  change (sumZ ((λ x, x / t) ∘ (λ x, r * x) ∘ stake <$> stakers))
    with (sumZ (share r t <$> stakers)) in *.
  assert (0 < Z.of_nat (length stakers)).
  { destruct stakers; [by vm_compute in Ht|simpl; lia]. }
  set (S := sumZ (share r t <$> stakers)) in *. set (n := Z.of_nat (length stakers)) in *.
  split; [apply (Z.mul_lt_mono_pos_l t)|apply (Z.mul_le_mono_pos_l _ _ t)]; lia.
Qed.

Lemma total_stake_of_exact stakers t :
  Forall (λ s, 0 ≤ stake s) stakers →
  overflow_checks = true ∨ stakes_sum stakers < 2 ^ 128 →
  total_stake_of stakers = Some t → t = stakes_sum stakers.
Proof.
  intros Hs Hor. rewrite total_stake_of_foldM. intros Ht.
  apply foldM_add_exact in Ht; [done|done| |done]. by apply Forall_fmap.
Qed.

Lemma shares_nonneg r t stakers :
  0 ≤ r → 0 < t → Forall (λ s, 0 ≤ stake s) stakers → Forall (λ s, 0 ≤ share r t s) stakers.
Proof.
  intros Hr Ht Hs. eapply Forall_impl; [exact Hs|]. intros s Hst. simpl in *.
  apply Z.div_pos; nia.
Qed.

(** ** The deposits *)

Context `{!EqDecision AccountId, !CurrencyOk AccountId}.

(** The loop that pays the stakers. *)
Definition pay_stakers (r t : Z) stakers : dispatch_m Balances E unit :=
  for_each stakers (λ staker,
    staker_reward ← may_panic (staker_reward r t (stake staker));
    deposit (account staker) staker_reward).

Lemma pay_stakers_cons r t s stakers :
  pay_stakers r t (s :: stakers) =
    ((staker_reward ← may_panic (staker_reward r t (stake s));
      deposit (account s) staker_reward) ;; pay_stakers r t stakers).
Proof. done. Qed.

Lemma pay_stakers_issuance r t stakers b u b' :
  0 ≤ r → 0 < t → Forall (λ s, 0 ≤ stake s) stakers →
  pay_stakers r t stakers b = (Ok u, b') →
  total_issuance b' ≤ total_issuance b + sumZ (share r t <$> stakers) ∧
  ∀ a, free_balance a b ≤ free_balance a b'.
Proof.
  intros Hr Ht Hs. revert b; induction Hs as [|s stakers Hst Hs IH]; intros b.
  { unfold pay_stakers; simpl. intros [= <- <-]. simpl. split; [lia|done]. }
  rewrite pay_stakers_cons. intros (? & b1 & Hpay & Hrun)%bind_ok.
  apply bind_ok in Hpay as (w & ? & [Hw ->]%may_panic_ok & Hdep).
  apply staker_reward_le in Hw as [Hv0 Hv]; [|done..].
  rewrite fmap_cons. simpl. fold (share r t s) in Hv.
  unfold deposit, modify in Hdep.
  destruct (deposit_creating (account s) w b) as [b2 imb] eqn:Hd; simplify_eq/=.
  apply IH in Hrun as [Hi Hf]. pose proof (deposit_bounds _ _ _ _ _ Hd Hv0).
  pose proof (deposit_issuance _ _ _ _ _ Hd). split; [lia|]. intros a.
  specialize (Hf a). destruct (decide (a = account s)) as [->|Hne].
  - pose proof (deposit_account _ _ _ _ _ Hd). lia.
  - pose proof (deposit_other _ _ _ _ _ _ Hd Hne). lia.
Qed.

(** What a distribution pays to an account. *)
Definition staker_payout (r t : Z) stakers (a : AccountId) : Z :=
  sumZ ((λ s, if decide (account s = a) then share r t s else 0) <$> stakers).
Definition payout (miner : AccountId) stakers (reward : BlockReward) (a : AccountId) : Z :=
  (if decide (miner = a) then miner_reward reward else 0) +
  staker_payout (stakers_reward reward) (stakes_sum stakers) stakers a.

Lemma staker_payout_bounds r t stakers a :
  0 ≤ r → 0 < t → Forall (λ s, 0 ≤ stake s) stakers →
  0 ≤ staker_payout r t stakers a ≤ sumZ (share r t <$> stakers).
Proof.
  intros Hr Ht Hs%(shares_nonneg r t _ Hr Ht). unfold staker_payout. split.
  - apply sumZ_nonneg, Forall_fmap. eapply Forall_impl; [exact Hs|].
    intros s Hsh; simpl. by case_decide.
  - apply sumZ_le. intros s Hin. rewrite Forall_forall in Hs. specialize (Hs s Hin).
    case_decide; lia.
Qed.

Lemma pay_stakers_exact r t stakers b :
  0 ≤ r → 0 < t → Forall (λ s, 0 ≤ stake s ∧ r * stake s < 2 ^ 128) stakers →
  (∀ s, s ∈ stakers → 0 < free_balance (account s) b) →
  (∀ a, free_balance a b + sumZ (share r t <$> stakers) < 2 ^ 128) →
  ∃ b', pay_stakers r t stakers b = (Ok tt, b') ∧
        ∀ a, free_balance a b' = free_balance a b + staker_payout r t stakers a.
Proof.
  intros Hr Ht Hs. revert b; induction Hs as [|s stakers [Hst Hfit] Hs IH]; intros b Hex Hroom.
  { exists b. split; [done|]. intros a. unfold staker_payout; simpl. lia. }
  assert (Hs0 : Forall (λ s, 0 ≤ stake s) stakers)
    by (eapply Forall_impl; [exact Hs|]; by intros ? []).
  rewrite pay_stakers_cons.
  assert (Hsh : 0 ≤ share r t s) by (apply Z.div_pos; nia).
  assert (0 ≤ sumZ (share r t <$> stakers))
    by (by apply sumZ_nonneg, Forall_fmap, shares_nonneg).
  rewrite fmap_cons in Hroom. simpl in Hroom.
  destruct (deposit_creating (account s) (share r t s) b) as [b1 imb] eqn:Hd.
  assert (imb = share r t s) as ->.
  { eapply deposit_exact; [exact Hd|done|left; apply Hex; left|].
    specialize (Hroom (account s)). lia. }
  assert (Hb1 : ∀ a, free_balance a b1
                     = free_balance a b + if decide (account s = a) then share r t s else 0).
  { intros a. case_decide; subst.
    - by apply (deposit_account _ _ _ _ _ Hd).
    - rewrite (deposit_other _ _ _ _ _ a Hd) by done. lia. }
  destruct (IH b1) as (b' & Hrun & Hfree).
  { intros s' Hin. rewrite Hb1. specialize (Hex s' (list_elem_of_further _ _ _ Hin)).
    case_decide; lia. }
  { intros a. rewrite Hb1. specialize (Hroom a). case_decide; lia. }
  exists b'. split.
  - erewrite bind_run; [exact Hrun|].
    erewrite bind_run; [|apply may_panic_ok; split; [by apply staker_reward_fits|done]].
    unfold deposit, modify. fold (share r t s). by rewrite Hd.
  - intros a. rewrite Hfree, Hb1. unfold staker_payout. rewrite fmap_cons. simpl. lia.
Qed.

(** ** The distribution *)

Lemma deposit_effect who v b u b' :
  0 ≤ v → deposit who v b = (Ok u, b') →
  total_issuance b' ≤ total_issuance b + v ∧ ∀ a, free_balance a b ≤ free_balance a b'.
Proof.
  intros Hv. unfold deposit, modify.
  destruct (deposit_creating who v b) as [b1 imb] eqn:Hd; intros; simplify_eq/=.
  pose proof (deposit_bounds _ _ _ _ _ Hd Hv). pose proof (deposit_issuance _ _ _ _ _ Hd).
  split; [lia|]. intros a. destruct (decide (a = who)) as [->|Hne].
  - pose proof (deposit_account _ _ _ _ _ Hd). lia.
  - pose proof (deposit_other _ _ _ _ _ _ Hd Hne). lia.
Qed.

(** A distribution creates at most the two shares of the reward and takes
    from nobody. *)
Lemma distribute_rewards_effect miner stakers reward b u b' :
  0 ≤ miner_reward reward → 0 ≤ stakers_reward reward →
  Forall (λ s, 0 ≤ stake s) stakers →
  overflow_checks = true ∨ stakes_sum stakers < 2 ^ 128 →
  distribute_rewards miner stakers reward b = (Ok u, b') →
  total_issuance b' ≤ total_issuance b + miner_reward reward + stakers_reward reward ∧
  ∀ a, free_balance a b ≤ free_balance a b'.
Proof.
  intros Hm Hr Hs Hor. unfold distribute_rewards.
  intros (? & b1 & Hdep & Hrun)%bind_ok. apply deposit_effect in Hdep as [Hi Hf]; [|done].
  apply bind_ok in Hrun as (t & ? & [Ht ->]%may_panic_ok & Hrun).
  apply total_stake_of_exact in Ht as ->; [|done..].
  assert (0 ≤ stakes_sum stakers) by (by apply sumZ_nonneg, Forall_fmap).
  destruct (decide (stakes_sum stakers = 0)) as [Hz|Hz].
  { unfold mret, dispatch_ret in Hrun. simplify_eq. split; [lia|done]. }
  apply pay_stakers_issuance in Hrun as [Hi' Hf']; [|done|lia|done].
  pose proof (shares_sum (stakers_reward reward) stakers Hr Hs ltac:(lia)).
  split; [lia|]. intros a. specialize (Hf a). specialize (Hf' a). lia.
Qed.

(** Even when the total stake wraps, a distribution takes from nobody. *)
Lemma distribute_rewards_no_loss miner stakers reward b u b' :
  0 ≤ miner_reward reward → 0 ≤ stakers_reward reward →
  Forall (λ s, 0 ≤ stake s) stakers →
  distribute_rewards miner stakers reward b = (Ok u, b') →
  ∀ a, free_balance a b ≤ free_balance a b'.
Proof.
  intros Hm Hr Hs. unfold distribute_rewards.
  intros (? & b1 & Hdep & Hrun)%bind_ok. apply deposit_effect in Hdep as [_ Hf]; [|done].
  apply bind_ok in Hrun as (t & ? & [Ht ->]%may_panic_ok & Hrun).
  rewrite total_stake_of_foldM in Ht. apply foldM_add_nonneg in Ht; [|lia|lia].
  destruct (decide (t = 0)) as [Hz|Hz].
  { unfold mret, dispatch_ret in Hrun. by simplify_eq. }
  apply pay_stakers_issuance in Hrun as [_ Hf']; [|done|lia|done].
  intros a. specialize (Hf a). specialize (Hf' a). lia.
Qed.

(** The exact effect when every recipient exists and nothing overflows. *)
Lemma distribute_rewards_run miner stakers reward b :
  0 ≤ miner_reward reward → 0 ≤ stakers_reward reward →
  Forall (λ s, 0 ≤ stake s ∧ stakers_reward reward * stake s < 2 ^ 128) stakers →
  0 < stakes_sum stakers < 2 ^ 128 →
  (∀ a, a = miner ∨ a ∈ account <$> stakers → 0 < free_balance a b) →
  (∀ a, free_balance a b + miner_reward reward + stakers_reward reward < 2 ^ 128) →
  ∃ b', distribute_rewards miner stakers reward b = (Ok tt, b') ∧
        ∀ a, free_balance a b' = free_balance a b + payout miner stakers reward a.
Proof.
  intros Hm Hr Hs Ht Hex Hroom.
  assert (Hs0 : Forall (λ s, 0 ≤ stake s) stakers)
    by (eapply Forall_impl; [exact Hs|]; by intros ? []).
  pose proof (shares_sum (stakers_reward reward) stakers Hr Hs0 ltac:(lia)) as Hsum.
  unfold distribute_rewards.
  destruct (deposit_creating miner (miner_reward reward) b) as [b1 imb] eqn:Hd.
  assert (imb = miner_reward reward) as ->.
  { eapply deposit_exact; [exact Hd|done|left; apply Hex; by left|].
    specialize (Hroom miner). lia. }
  assert (Hb1 : ∀ a, free_balance a b1
                     = free_balance a b + if decide (miner = a) then miner_reward reward else 0).
  { intros a. case_decide; subst.
    - by apply (deposit_account _ _ _ _ _ Hd).
    - rewrite (deposit_other _ _ _ _ _ a Hd) by done. lia. }
  destruct (pay_stakers_exact (stakers_reward reward) (stakes_sum stakers) stakers b1)
    as (b' & Hrun & Hfree); [done|lia|done| | |].
  { intros s Hin. rewrite Hb1.
    specialize (Hex (account s) (or_intror (list_elem_of_fmap_2 account _ _ Hin))).
    case_decide; lia. }
  { intros a. rewrite Hb1. specialize (Hroom a). case_decide; lia. }
  exists b'. split.
  - erewrite bind_run; [|unfold deposit, modify; rewrite Hd; reflexivity]. simpl.
    erewrite bind_run; [|apply may_panic_ok; split; [apply total_stake_of_fits; (done || lia)|done]].
    rewrite decide_False by lia. exact Hrun.
  - intros a. rewrite Hfree, Hb1. unfold payout. lia.
Qed.
End Rewards.

#[global] Arguments deposit {_ _ _} : simpl never.

(** ** Properties *)

Section Properties.
Context `{!Build} {AccountId : Type} `{!EqDecision AccountId}.
Context `{!Currency AccountId, !CurrencyOk AccountId} {E : Type}.

(** The reward split conserves the reward in every build: the miner gets 40%
    rounded down and the stakers the rest; the only failure is the panic of
    an overflowing product with 40 in a build with overflow checks. *)
Theorem calculate_block_reward_conserves total_reward :
  in_uint U128 total_reward →
  match calculate_block_reward total_reward with
  | Some r =>
      total r = total_reward ∧ miner_reward r + stakers_reward r = total_reward ∧
      0 ≤ miner_reward r ≤ stakers_reward r ∧
      (total_reward * 40 < 2 ^ 128 → miner_reward r = total_reward * 40 / 100)
  | None => overflow_checks = true ∧ 2 ^ 128 ≤ total_reward * 40
  end.
Proof.
  intros Ht. pose proof Ht as [??]. destruct (calculate_block_reward total_reward) as [r|] eqn:E1.
  - destruct (calculate_block_reward_split _ _ Ht E1) as (He1 & He2 & He3 & He4).
    pose proof (Z.mul_div_le (total_reward * 40) 100 ltac:(lia)).
    repeat split; [done|done|lia|lia|]. intros Hfit.
    rewrite calculate_block_reward_fits in E1 by lia. injection E1 as <-. done.
  - destruct (Z.lt_ge_cases (total_reward * 40) (2 ^ 128)) as [Hfit|Hge].
    + by rewrite calculate_block_reward_fits in E1 by lia.
    + split; [|done]. destruct overflow_checks eqn:Hc; [done|]. exfalso. revert E1.
      unfold calculate_block_reward, mul, sub. rewrite arith_wraps by (done || lia). simpl.
      rewrite ?div_nz by done. simpl. unfold arith. case_bool_decide; [done|]. by rewrite Hc.
Qed.

(** A distribution that returns creates at most the miner's and the stakers'
    reward in total issuance and lowers no balance, whatever the imbalances
    that the currency returns. *)
Theorem distribute_rewards_bounded_issuance miner stakers reward b u b' :
  0 ≤ miner_reward reward → 0 ≤ stakers_reward reward →
  Forall (λ s, 0 ≤ stake s) stakers → stakes_sum stakers < 2 ^ 128 →
  distribute_rewards (E := E) miner stakers reward b = (Ok u, b') →
  total_issuance b' ≤ total_issuance b + miner_reward reward + stakers_reward reward ∧
  ∀ a, free_balance a b ≤ free_balance a b'.
Proof. intros Hm Hr Hs Ht. apply distribute_rewards_effect; auto. Qed.

(** C29. The distribution pays every account exactly the miner's reward, if it is
    the miner, plus the share stakers_reward * stake / total_stake, rounded
    down, of each of its stakes; the rounding keeps back less than one unit
    per staker.  The recipients exist and the products fit in a [u128]. *)
Theorem distribute_rewards_exact miner stakers reward b :
  0 ≤ miner_reward reward → 0 ≤ stakers_reward reward →
  Forall (λ s, 0 ≤ stake s ∧ stakers_reward reward * stake s < 2 ^ 128) stakers →
  0 < stakes_sum stakers < 2 ^ 128 →
  (∀ a, a = miner ∨ a ∈ account <$> stakers → 0 < free_balance a b) →
  (∀ a, free_balance a b + miner_reward reward + stakers_reward reward < 2 ^ 128) →
  (∃ b', distribute_rewards (E := E) miner stakers reward b = (Ok tt, b') ∧
     ∀ a, free_balance a b' = free_balance a b + payout miner stakers reward a) ∧
  stakers_reward reward - Z.of_nat (length stakers)
    < sumZ (share (stakers_reward reward) (stakes_sum stakers) <$> stakers)
    ≤ stakers_reward reward.
Proof.
  intros Hm Hr Hs Ht Hex Hroom. split; [by apply distribute_rewards_run|].
  apply shares_sum; [done| |lia]. eapply Forall_impl; [exact Hs|]. by intros ? [].
Qed.
End Properties.

(** ** Evaluation *)

#[local] Instance eval_build : Build := {| overflow_checks := false; feature_std := false |}.

(** The runtime's reward of 10,000,000,000,000 units. *)
Lemma calculate_block_reward_conserves_witness :
  match calculate_block_reward 10000000000000 with
  | Some r =>
      total r = 10000000000000 ∧ miner_reward r + stakers_reward r = 10000000000000 ∧
      0 ≤ miner_reward r ≤ stakers_reward r ∧
      (10000000000000 * 40 < 2 ^ 128 → miner_reward r = 10000000000000 * 40 / 100)
  | None => overflow_checks = true ∧ 2 ^ 128 ≤ 10000000000000 * 40
  end.
Proof. apply (calculate_block_reward_conserves 10000000000000). by vm_compute. Defined.

Definition sample_currency : Currency AccountId := ref_currency 1.
Definition sample_balances : ledger :=
  Ledger (<[1 := 1000]> (<[2 := 500]> (<[3 := 700]> ∅))) 2200.
Definition sample_stakers : list (ValidatorStake AccountId) :=
  [ {| account := 2; stake := 10; weight := 10 |}; {| account := 3; stake := 20; weight := 20 |} ].
Definition sample_reward : BlockReward :=
  {| total := 100; miner_reward := 40; stakers_reward := 60 |}.

Lemma distribute_rewards_bounded_issuance_witness :
  ∃ b', distribute_rewards (Currency0 := sample_currency) (E := unit)
          1 sample_stakers sample_reward sample_balances = (Ok tt, b') ∧
        issuance b' ≤ 2200 + 40 + 60.
Proof.
  eexists. split; [vm_compute; reflexivity|].
  eapply (distribute_rewards_bounded_issuance (Currency0 := sample_currency)
            (CurrencyOk0 := ref_currency_ok 1 ltac:(lia)) (E := unit)
            1 sample_stakers sample_reward sample_balances tt);
    [by vm_compute|by vm_compute|by repeat constructor|by vm_compute|vm_compute; reflexivity].
Defined.

Lemma distribute_rewards_exact_witness :
  ∃ b', distribute_rewards (Currency0 := sample_currency) (E := unit)
          1 sample_stakers sample_reward sample_balances = (Ok tt, b') ∧
        ∀ a, ledger_free a b' = ledger_free a sample_balances
                                + payout 1 sample_stakers sample_reward a.
Proof.
  apply (distribute_rewards_exact (Currency0 := sample_currency)
           (CurrencyOk0 := ref_currency_ok 1 ltac:(lia)) (E := unit)
           1 sample_stakers sample_reward sample_balances);
    [by vm_compute|by vm_compute|by repeat constructor|by vm_compute| |].
  - intros a [->|Ha]; [by vm_compute|].
    repeat (apply elem_of_cons in Ha as [->|Ha]; [by vm_compute|]). by apply elem_of_nil in Ha.
  - intros a. simpl. unfold ledger_free; simpl.
    rewrite !lookup_insert. repeat case_decide; by vm_compute.
Defined.
