(* ===== verification/Pallet.v ===== *)
(** * The Ghost consensus pallet

    pallets/pallet-ghost-consensus/src/lib.rs: the configuration, the storage,
    the events and errors, the six dispatchables, the helpers and the hooks.
    A dispatchable is a computation of the dispatch monad over [State], whose
    fields are the storage items of the pallet and the parts of the other
    pallets' state it reads and writes. *)

From S2P Require Import Prelude RustInt Scale Types Interfaces Difficulty Entropy Pow.
From S2P Require Import Selection Rewards.
Local Open Scope Z_scope.
Local Open Scope ghost_scope.

(** ** [Config] *)

Class Config := {
  T_BlockReward : Z; (* BalanceOf<T> *)
  T_MinStake : Z; (* BalanceOf<T> *)
  T_MaxDowntimeBlocks : Z; (* u32 *)
  T_DoubleSignSlashPercentage : Z; (* u8 *)
  T_InvalidBlockSlashPercentage : Z; (* u8 *)
  T_DowntimeSlashPercentage : Z; (* u8 *)
  T_PalletId : array 8;
  T_PqcRequired : bool;
}.

(** The constants are of their declared widths. *)
Class ConfigOk `{!Config} : Prop := {
  T_BlockReward_range : in_uint U128 T_BlockReward;
  T_MinStake_range : in_uint U128 T_MinStake;
  T_MaxDowntimeBlocks_range : in_uint U32 T_MaxDowntimeBlocks;
  T_DoubleSign_range : in_uint U8 T_DoubleSignSlashPercentage;
  T_InvalidBlock_range : in_uint U8 T_InvalidBlockSlashPercentage;
  T_Downtime_range : in_uint U8 T_DowntimeSlashPercentage;
}.

(** ** [Error] and [Event] *)

Inductive Error :=
  | InvalidBlockNumber
  | InvalidParentHash
  | InvalidPow
  | DifficultyTooLow
  | DifficultyTooHigh
  | InsufficientStake
  | NotAValidator
  | BlockNotFound
  | InvalidPhaseTransition
  | InvalidPqcSignature
  | PqcPublicKeyNotFound.

Section Pallet.
Context `{!Build, !ScalePrims, !Hashing, !Pqc, !Config}.
Context {AccountId : Type} `{Countable AccountId}.
Context `{!Frame AccountId, !Currency AccountId}.

Inductive Event :=
  | BlockMined (block_number : Z) (miner : AccountId) (nonce : Z)
  | ValidatorSelected (validator : AccountId) (weight : Z)
  | RewardsDistributed (miner : AccountId) (miner_reward stakers_reward : Z)
  | ValidatorSlashed (validator : AccountId) (reason : SlashingReason) (amount : Z)
  | DifficultyAdjusted (old_difficulty new_difficulty : Z).

(** The errors a dispatchable returns: the origin check's, the pallet's own,
    and those of [pallet_balances]. *)
Inductive DispatchError :=
  | BadOrigin
  | Module (e : Error)
  | CurrencyError (e : BalancesError).

(** ** Storage *)

Record State := mkState {
  Difficulty : Z; (* u64 *)
  CurrentPhase : ConsensusPhase;
  BlockHeaders : gmap Z GhostBlockHeader; (* keyed by u32 *)
  BlockProducers : gmap Z AccountId; (* keyed by u32 *)
  ValidatorStakes : gmap AccountId Z; (* BalanceOf *)
  LastActiveBlock : gmap AccountId Z; (* u32 *)
  DoubleSignReports : gmap AccountId bool;
  InvalidBlockReports : gmap AccountId bool;
  SlashingRecords : list (AccountId * SlashingReason * Z * Z);
  ValidatorPqcPublicKeys : gmap AccountId (array pqc_public_key_len);
  RecentBlockProducers : list AccountId; (* at most 100 *)
  CurrentEntropy : Z; (* u64, scaled by 10^6 *)
  block_number : Z; (* frame_system: u32 *)
  balances : Balances; (* pallet_balances *)
  events : list Event; (* deposit_event calls, in order *)
}.

Definition set_Difficulty (v : Z) (s : State) : State :=
  mkState v (CurrentPhase s) (BlockHeaders s) (BlockProducers s) (ValidatorStakes s)
    (LastActiveBlock s) (DoubleSignReports s) (InvalidBlockReports s) (SlashingRecords s) (ValidatorPqcPublicKeys s)
    (RecentBlockProducers s) (CurrentEntropy s) (block_number s) (balances s) (events s).
Definition set_CurrentPhase (v : ConsensusPhase) (s : State) : State :=
  mkState (Difficulty s) v (BlockHeaders s) (BlockProducers s) (ValidatorStakes s)
    (LastActiveBlock s) (DoubleSignReports s) (InvalidBlockReports s) (SlashingRecords s) (ValidatorPqcPublicKeys s)
    (RecentBlockProducers s) (CurrentEntropy s) (block_number s) (balances s) (events s).
Definition set_BlockHeaders (v : gmap Z GhostBlockHeader) (s : State) : State :=
  mkState (Difficulty s) (CurrentPhase s) v (BlockProducers s) (ValidatorStakes s)
    (LastActiveBlock s) (DoubleSignReports s) (InvalidBlockReports s) (SlashingRecords s) (ValidatorPqcPublicKeys s)
    (RecentBlockProducers s) (CurrentEntropy s) (block_number s) (balances s) (events s).
Definition set_BlockProducers (v : gmap Z AccountId) (s : State) : State :=
  mkState (Difficulty s) (CurrentPhase s) (BlockHeaders s) v (ValidatorStakes s)
    (LastActiveBlock s) (DoubleSignReports s) (InvalidBlockReports s) (SlashingRecords s) (ValidatorPqcPublicKeys s)
    (RecentBlockProducers s) (CurrentEntropy s) (block_number s) (balances s) (events s).
Definition set_ValidatorStakes (v : gmap AccountId Z) (s : State) : State :=
  mkState (Difficulty s) (CurrentPhase s) (BlockHeaders s) (BlockProducers s) v
    (LastActiveBlock s) (DoubleSignReports s) (InvalidBlockReports s) (SlashingRecords s) (ValidatorPqcPublicKeys s)
    (RecentBlockProducers s) (CurrentEntropy s) (block_number s) (balances s) (events s).
Definition set_LastActiveBlock (v : gmap AccountId Z) (s : State) : State :=
  mkState (Difficulty s) (CurrentPhase s) (BlockHeaders s) (BlockProducers s) (ValidatorStakes s)
    v (DoubleSignReports s) (InvalidBlockReports s) (SlashingRecords s) (ValidatorPqcPublicKeys s)
    (RecentBlockProducers s) (CurrentEntropy s) (block_number s) (balances s) (events s).
Definition set_DoubleSignReports (v : gmap AccountId bool) (s : State) : State :=
  mkState (Difficulty s) (CurrentPhase s) (BlockHeaders s) (BlockProducers s) (ValidatorStakes s)
    (LastActiveBlock s) v (InvalidBlockReports s) (SlashingRecords s) (ValidatorPqcPublicKeys s)
    (RecentBlockProducers s) (CurrentEntropy s) (block_number s) (balances s) (events s).
Definition set_InvalidBlockReports (v : gmap AccountId bool) (s : State) : State :=
  mkState (Difficulty s) (CurrentPhase s) (BlockHeaders s) (BlockProducers s) (ValidatorStakes s)
    (LastActiveBlock s) (DoubleSignReports s) v (SlashingRecords s) (ValidatorPqcPublicKeys s)
    (RecentBlockProducers s) (CurrentEntropy s) (block_number s) (balances s) (events s).
Definition set_SlashingRecords (v : list (AccountId * SlashingReason * Z * Z)) (s : State) : State :=
  mkState (Difficulty s) (CurrentPhase s) (BlockHeaders s) (BlockProducers s) (ValidatorStakes s)
    (LastActiveBlock s) (DoubleSignReports s) (InvalidBlockReports s) v (ValidatorPqcPublicKeys s)
    (RecentBlockProducers s) (CurrentEntropy s) (block_number s) (balances s) (events s).
Definition set_ValidatorPqcPublicKeys (v : gmap AccountId (array pqc_public_key_len)) (s : State) : State :=
  mkState (Difficulty s) (CurrentPhase s) (BlockHeaders s) (BlockProducers s) (ValidatorStakes s)
    (LastActiveBlock s) (DoubleSignReports s) (InvalidBlockReports s) (SlashingRecords s) v
    (RecentBlockProducers s) (CurrentEntropy s) (block_number s) (balances s) (events s).
Definition set_RecentBlockProducers (v : list AccountId) (s : State) : State :=
  mkState (Difficulty s) (CurrentPhase s) (BlockHeaders s) (BlockProducers s) (ValidatorStakes s)
    (LastActiveBlock s) (DoubleSignReports s) (InvalidBlockReports s) (SlashingRecords s) (ValidatorPqcPublicKeys s)
    v (CurrentEntropy s) (block_number s) (balances s) (events s).
Definition set_CurrentEntropy (v : Z) (s : State) : State :=
  mkState (Difficulty s) (CurrentPhase s) (BlockHeaders s) (BlockProducers s) (ValidatorStakes s)
    (LastActiveBlock s) (DoubleSignReports s) (InvalidBlockReports s) (SlashingRecords s) (ValidatorPqcPublicKeys s)
    (RecentBlockProducers s) v (block_number s) (balances s) (events s).
Definition set_block_number (v : Z) (s : State) : State :=
  mkState (Difficulty s) (CurrentPhase s) (BlockHeaders s) (BlockProducers s) (ValidatorStakes s)
    (LastActiveBlock s) (DoubleSignReports s) (InvalidBlockReports s) (SlashingRecords s) (ValidatorPqcPublicKeys s)
    (RecentBlockProducers s) (CurrentEntropy s) v (balances s) (events s).
Definition set_balances (v : Balances) (s : State) : State :=
  mkState (Difficulty s) (CurrentPhase s) (BlockHeaders s) (BlockProducers s) (ValidatorStakes s)
    (LastActiveBlock s) (DoubleSignReports s) (InvalidBlockReports s) (SlashingRecords s) (ValidatorPqcPublicKeys s)
    (RecentBlockProducers s) (CurrentEntropy s) (block_number s) v (events s).
Definition set_events (v : list Event) (s : State) : State :=
  mkState (Difficulty s) (CurrentPhase s) (BlockHeaders s) (BlockProducers s) (ValidatorStakes s)
    (LastActiveBlock s) (DoubleSignReports s) (InvalidBlockReports s) (SlashingRecords s) (ValidatorPqcPublicKeys s)
    (RecentBlockProducers s) (CurrentEntropy s) (block_number s) (balances s) v.

Local Abbreviation M := (dispatch_m State DispatchError).

(** ** Platform calls, lifted to the state of the chain *)

(** [ensure_signed(origin)?] *)
Definition ensure_signed (origin : OriginFor) : M AccountId :=
  ok_or (ensure_signed_origin origin) BadOrigin.

(** [Self::deposit_event(e)] *)
Definition deposit_event (e : Event) : M unit :=
  modify (λ s, set_events (events s ++ [e]) s).

(** [pallet_balances::Pallet::<T>::transfer(..)?] *)
Definition transfer_balance (from to : AccountId) (amount : Z) (er : ExistenceRequirement)
    : M unit :=
  λ s, match transfer from to amount er (balances s) with
       | inl e => (Err (CurrencyError e), s)
       | inr b => (Ok tt, set_balances b s)
       end.

(** A computation on the balances only. *)
Definition with_balances {A} (m : dispatch_m Balances DispatchError A) : M A :=
  λ s, let '(r, b) := m (balances s) in (r, set_balances b s).

(** ** Helpers *)

(** Account that escrows active validator stake. *)
Definition account_id : AccountId := into_account_truncating T_PalletId.

(** [ValidatorStakes::<T>::iter().map(..).collect()] *)
Definition collect_stakers (s : State) : list (ValidatorStake AccountId) :=
  (λ '(account, stake),
     {| account := account; stake := stake; weight := saturate U64 stake |})
    <$> storage_iter (ValidatorStakes s).

Definition get_miner_for_block (block_number : Z) : M AccountId :=
  producers ← gets BlockProducers;
  ok_or (producers !! block_number) (Module BlockNotFound).

(** [verify_pqc_signature]: the [std] build parses and verifies, every other
    build rejects. *)
Definition verify_pqc_signature (message signature_bytes public_key_bytes : list Byte.byte)
    : bool :=
  if feature_std then
    match signature_from_bytes signature_bytes, public_key_from_bytes public_key_bytes with
    | Some sig, Some pk => verify_detached_signature sig message pk
    | _, _ => false
    end
  else false.

Definition validate_block_header (header parent_header : GhostBlockHeader) : M unit :=
  expected_number ← may_panic (add U32 (number parent_header) 1);
  ensure (bool_decide (number header = expected_number)) (Module InvalidBlockNumber) ;;
  ensure (bool_decide (parent_hash header = hash_of scale_header parent_header))
    (Module InvalidParentHash) ;;
  ensure (verify_pow_enhanced header (difficulty header)) (Module InvalidPow) ;;
  expected_difficulty ← gets Difficulty;
  ensure (expected_difficulty / 2 <=? difficulty header) (Module DifficultyTooLow) ;;
  ensure (difficulty header <=? saturating_mul U64 expected_difficulty 2)
    (Module DifficultyTooHigh).

(** The rolling window: [if recent.len() >= 100 { recent.remove(0) };
    let _ = recent.try_push(miner)] on a vector bounded by 100. *)
Definition push_recent (recent : list AccountId) (miner : AccountId) : list AccountId :=
  let recent := if (100 <=? length recent)%nat then tail recent else recent in
  if (length recent <? 100)%nat then recent ++ [miner] else recent.

(** ** The dispatchables *)

Definition submit_block (origin : OriginFor) (block_header : GhostBlockHeader) : M unit :=
  miner ← ensure_signed origin;
  phase ← gets CurrentPhase;
  ensure (bool_decide (phase = PowMining)) (Module InvalidPhaseTransition) ;;
  ensure (0 <? number block_header) (Module InvalidBlockNumber) ;;
  parent_number ← ok_or (checked_sub (number block_header) 1) (Module InvalidBlockNumber);
  headers ← gets BlockHeaders;
  parent_header ← ok_or (headers !! parent_number) (Module BlockNotFound);
  validate_block_header block_header parent_header ;;
  modify (λ s, set_BlockHeaders (<[number block_header := block_header]> (BlockHeaders s)) s) ;;
  modify (λ s, set_BlockProducers (<[number block_header := miner]> (BlockProducers s)) s) ;;
  modify (λ s, set_RecentBlockProducers (push_recent (RecentBlockProducers s) miner) s) ;;
  modify (λ s, set_LastActiveBlock (<[miner := number block_header]> (LastActiveBlock s)) s) ;;
  modify (set_CurrentPhase PosValidation) ;;
  deposit_event (BlockMined (number block_header) miner (nonce block_header)).

Definition stake (origin : OriginFor) (amount : Z) : M unit :=
  staker ← ensure_signed origin;
  ensure (T_MinStake <=? amount) (Module InsufficientStake) ;;
  transfer_balance staker account_id amount KeepAlive ;;
  stakes ← gets ValidatorStakes;
  let current_stake := default 0 (stakes !! staker) in
  new_stake ← may_panic (add U128 current_stake amount);
  modify (λ s, set_ValidatorStakes (<[staker := new_stake]> (ValidatorStakes s)) s).

Definition unstake (origin : OriginFor) (amount : Z) : M unit :=
  staker ← ensure_signed origin;
  stakes ← gets ValidatorStakes;
  current_stake ← ok_or (stakes !! staker) (Module NotAValidator);
  ensure (amount <=? current_stake) (Module InsufficientStake) ;;
  new_stake ← may_panic (sub U128 current_stake amount);
  modify (λ s, set_ValidatorStakes (<[staker := new_stake]> (ValidatorStakes s)) s) ;;
  transfer_balance account_id staker amount AllowDeath.

(** [let mut signed_header = block_header; signed_header.validator_signature
    = ..; signed_header.pqc_signature = ..] *)
Definition sign_header (h : GhostBlockHeader) (signature : H256) (pqc : PqcSignature)
    : GhostBlockHeader :=
  {| number := number h; parent_hash := parent_hash h; state_root := state_root h;
     extrinsics_root := extrinsics_root h; nonce := nonce h; difficulty := difficulty h;
     validator_signature := Some signature; pqc_signature := Some pqc |}.

Definition validate_block (origin : OriginFor) (block_number : Z)
    (pqc_signature : PqcSignature) : M unit :=
  validator ← ensure_signed origin;
  stakes ← gets ValidatorStakes;
  ensure (bool_decide (is_Some (stakes !! validator))) (Module NotAValidator) ;;
  headers ← gets BlockHeaders;
  block_header ← ok_or (headers !! block_number) (Module BlockNotFound);
  phase ← gets CurrentPhase;
  ensure (bool_decide (phase = PosValidation)) (Module InvalidPhaseTransition) ;;
  stakers ← gets collect_stakers;
  current_block ← gets Pallet.block_number;
  let seed := hash_of (scale_u32 ⊗ scale_u32) (block_number, current_block) in
  selected ← may_panic (select_pos_validator current_block stakers seed);
  selection ← ok_or selected (Module NotAValidator);
  ensure (bool_decide (selected_validator selection = validator)) (Module NotAValidator) ;;
  (if T_PqcRequired then
     keys ← gets ValidatorPqcPublicKeys;
     pqc_public_key ← ok_or (keys !! validator) (Module PqcPublicKeyNotFound);
     let message := hash_of (scale_account ⊗ scale_u32) (validator, block_number) in
     ensure (verify_pqc_signature (array_bytes message) (array_bytes pqc_signature)
               (array_bytes pqc_public_key)) (Module InvalidPqcSignature)
   else mret tt) ;;
  let signature := hash_of (scale_account ⊗ scale_u32) (validator, block_number) in
  let signed_header := sign_header block_header signature pqc_signature in
  modify (λ s, set_BlockHeaders (<[block_number := signed_header]> (BlockHeaders s)) s) ;;
  reward ← may_panic (calculate_block_reward T_BlockReward);
  miner ← get_miner_for_block block_number;
  stakers_list ← gets collect_stakers;
  with_balances (distribute_rewards miner stakers_list reward) ;;
  modify (λ s, set_LastActiveBlock (<[validator := block_number]> (LastActiveBlock s)) s) ;;
  modify (set_CurrentPhase Finalization) ;;
  deposit_event (ValidatorSelected validator (selected_weight selection)) ;;
  deposit_event (RewardsDistributed miner (miner_reward reward) (stakers_reward reward)).

Definition register_pqc_key (origin : OriginFor) (public_key : array pqc_public_key_len) : M unit :=
  validator ← ensure_signed origin;
  modify (λ s, set_ValidatorPqcPublicKeys
                 (<[validator := public_key]> (ValidatorPqcPublicKeys s)) s).

(** [(stake * slash_percentage.into()) / 100u32.into()] *)
Definition slash_amount_of (stake slash_percentage : Z) : option Z :=
  product ← mul U128 stake slash_percentage;
  div product 100.

Definition slash_percentage_of (reason : SlashingReason) : Z :=
  match reason with
  | DoubleSigning => T_DoubleSignSlashPercentage
  | InvalidBlock => T_InvalidBlockSlashPercentage
  | Downtime => T_DowntimeSlashPercentage
  | Other => 10
  end.

Definition report_misbehavior (origin : OriginFor) (validator : AccountId)
    (reason : SlashingReason) : M unit :=
  _reporter ← ensure_signed origin;
  match reason with
  | DoubleSigning =>
      modify (λ s, set_DoubleSignReports (<[validator := true]> (DoubleSignReports s)) s)
  | InvalidBlock =>
      modify (λ s, set_InvalidBlockReports (<[validator := true]> (InvalidBlockReports s)) s)
  | _ => mret tt
  end ;;
  let slash_percentage := slash_percentage_of reason in
  stakes ← gets ValidatorStakes;
  let current_stake := default 0 (stakes !! validator) in
  slash_amount ← may_panic (slash_amount_of current_stake slash_percentage);
  modify (λ s, set_ValidatorStakes
    (<[validator := saturating_sub U128 current_stake slash_amount]> (ValidatorStakes s)) s) ;;
  deposit_event (ValidatorSlashed validator reason slash_amount).

(** ** Calls *)

Inductive Call :=
  | Call_submit_block (block_header : GhostBlockHeader)
  | Call_stake (amount : Z)
  | Call_unstake (amount : Z)
  | Call_validate_block (block_number : Z) (pqc_signature : PqcSignature)
  | Call_report_misbehavior (validator : AccountId) (reason : SlashingReason)
  | Call_register_pqc_key (public_key : array pqc_public_key_len).

(** [#[pallet::call_index(..)]] *)
Definition call_index (c : Call) : Z :=
  match c with
  | Call_submit_block _ => 0
  | Call_stake _ => 1
  | Call_unstake _ => 2
  | Call_validate_block _ _ => 3
  | Call_report_misbehavior _ _ => 4
  | Call_register_pqc_key _ => 5
  end.

Definition call_body (origin : OriginFor) (c : Call) : M unit :=
  match c with
  | Call_submit_block h => submit_block origin h
  | Call_stake amount => stake origin amount
  | Call_unstake amount => unstake origin amount
  | Call_validate_block n sig => validate_block origin n sig
  | Call_report_misbehavior v r => report_misbehavior origin v r
  | Call_register_pqc_key k => register_pqc_key origin k
  end.

(** Every dispatchable runs in its own storage layer. *)
Definition dispatch (origin : OriginFor) (c : Call) : M unit :=
  in_storage_layer (call_body origin c).

(** ** Reward, slashing and difficulty helpers *)

(** The two placeholders of functions.rs, which nothing calls. *)
Definition check_slashing_conditions (_validator : AccountId) : option SlashingReason := None.
Definition apply_slashing (_validator : AccountId) (_reason : SlashingReason) : M unit :=
  mret tt.

Definition distribute_block_rewards (miner : AccountId) (_block_number : Z) : M unit :=
  let total_reward := T_BlockReward in
  reward ← may_panic (calculate_block_reward total_reward);
  with_balances (deposit miner (miner_reward reward)) ;;
  stakers ← gets collect_stakers;
  (match stakers with
   | [] => mret tt
   | _ =>
       total_stake ← may_panic (foldM (λ acc s, add U128 acc (Types.stake s)) 0 stakers);
       if decide (total_stake = 0) then mret tt
       else
         for_each stakers (λ staker,
           staker_reward ← may_panic
             (product ← mul U128 (stakers_reward reward) (Types.stake staker);
              div product total_stake);
           with_balances (deposit (account staker) staker_reward))
   end) ;;
  deposit_event (RewardsDistributed miner (miner_reward reward) (stakers_reward reward)).

(** One turn of the loop of [check_downtime_slashing]. *)
Definition slash_if_down (current_block max_downtime : Z) (entry : AccountId * Z) : M unit :=
  let '(validator, last_active) := entry in
  if max_downtime <? saturating_sub U32 current_block last_active then
    let slash_percentage := T_DowntimeSlashPercentage in
    stakes ← gets ValidatorStakes;
    match stakes !! validator with
    | Some stake =>
        slash_amount ← may_panic (slash_amount_of stake slash_percentage);
        let new_stake := saturating_sub U128 stake slash_amount in
        modify (λ s, set_ValidatorStakes (<[validator := new_stake]> (ValidatorStakes s)) s) ;;
        records ← gets SlashingRecords;
        now ← gets Pallet.block_number;
        modify (set_SlashingRecords (records ++ [(validator, Downtime, slash_amount, now)])) ;;
        deposit_event (ValidatorSlashed validator Downtime slash_amount)
    | None => mret tt
    end
  else mret tt.

Definition check_downtime_slashing : M unit :=
  block ← gets Pallet.block_number;
  let current_block := saturate U32 block in
  let max_downtime := T_MaxDowntimeBlocks in
  last_active ← gets LastActiveBlock;
  for_each (storage_iter last_active) (slash_if_down current_block max_downtime).

Definition adjust_difficulty : M unit :=
  current_difficulty ← gets Difficulty;
  let target_block_time := 5 in
  let actual_block_time := 5 in
  producers ← gets RecentBlockProducers;
  entropy ← may_panic (calculate_entropy producers);
  modify (set_CurrentEntropy entropy) ;;
  let new_difficulty :=
    calculate_difficulty_adjustment current_difficulty actual_block_time target_block_time
      entropy in
  if decide (new_difficulty ≠ current_difficulty) then
    modify (set_Difficulty new_difficulty) ;;
    deposit_event (DifficultyAdjusted current_difficulty new_difficulty)
  else mret tt.

(** ** Hooks *)

(** [Weight::from_parts(ref_time, proof_size)] *)
Definition Weight : Type := Z * Z.

Definition on_initialize (n : Z) : M Weight :=
  slash_turn ← may_panic (rem n 10);
  (if decide (slash_turn = 0) then check_downtime_slashing else mret tt) ;;
  difficulty_turn ← may_panic (rem n 100);
  (if decide (difficulty_turn = 0) then adjust_difficulty else mret tt) ;;
  mret (10000, 0).

Definition on_finalize (_n : Z) : M unit :=
  phase ← gets CurrentPhase;
  if decide (phase = Finalization) then modify (set_CurrentPhase PowMining) else mret tt.
End Pallet.

Arguments State AccountId {_ _ _}.
Arguments Event AccountId : clear implicits.
Arguments Call AccountId : clear implicits.
Arguments DispatchError AccountId {_}.

(** ** [WeightInfo] and its default implementation *)

Record WeightInfo := {
  w_submit_block : Z * Z;
  w_stake : Z * Z;
  w_unstake : Z * Z;
  w_validate_block : Z * Z;
  w_report_misbehavior : Z * Z;
  w_register_pqc_key : Z * Z;
}.

Definition default_weights : WeightInfo :=
  {| w_submit_block := (10000, 0); w_stake := (10000, 0); w_unstake := (10000, 0);
     w_validate_block := (10000, 0); w_report_misbehavior := (10000, 0);
     w_register_pqc_key := (10000, 0) |}.
