(* ===== verification/Calls.v ===== *)
(** * What each dispatchable does

    For every dispatchable and helper of Pallet.v, the condition under which it
    succeeds and the state it then leaves: the lemmas from which the properties
    of the other files follow. *)

From S2P Require Import Prelude RustInt Scale Types Interfaces Difficulty Entropy Pow.
From S2P Require Import Selection Rewards Pallet.
Local Open Scope Z_scope.
Local Open Scope ghost_scope.

Section Calls.
Context `{!Build, !ScalePrims, !Hashing, !Pqc, !Config}.
Context {AccountId : Type} `{Countable AccountId}.
Context `{!Frame AccountId, !Currency AccountId}.
Implicit Types (s : State AccountId) (o : OriginFor) (h : GhostBlockHeader).

Lemma ensure_signed_ok o s (a : AccountId) s' :
  ensure_signed o s = (Ok a, s') ↔ ensure_signed_origin o = Some a ∧ s' = s.
Proof. apply ok_or_ok. Qed.

Lemma transfer_balance_ok (from to : AccountId) v er s u s' :
  transfer_balance from to v er s = (Ok u, s') ↔
  ∃ b, transfer from to v er (balances s) = inr b ∧ s' = set_balances b s ∧ u = tt.
Proof.
  unfold transfer_balance. destruct (transfer _ _ _ _ _) as [e|b], u.
  - split; [done|]. by intros (? & ? & ?).
  - split; [intros [= <-]; by exists b|]. by intros (? & [= ->] & -> & _).
Qed.

Lemma transfer_balance_inl (from to : AccountId) v er s e :
  transfer from to v er (balances s) = inl e →
  transfer_balance from to v er s = (Err (CurrencyError e), s).
Proof. unfold transfer_balance. by intros ->. Qed.

Lemma transfer_balance_inr (from to : AccountId) v er s b :
  transfer from to v er (balances s) = inr b →
  transfer_balance from to v er s = (Ok tt, set_balances b s).
Proof. unfold transfer_balance. by intros ->. Qed.

Lemma with_balances_ok {A} (m : dispatch_m Balances (DispatchError AccountId) A) s (a : A) s' :
  with_balances m s = (Ok a, s') ↔ ∃ b, m (balances s) = (Ok a, b) ∧ s' = set_balances b s.
Proof.
  unfold with_balances. destruct (m (balances s)) as [r b]. split.
  - intros [= -> <-]. by exists b.
  - by intros (? & [= -> ->] & ->).
Qed.

(** ** [validate_block_header] *)

(** The five checks of a submitted header, under expected difficulty [d]. *)
Record header_valid (d : Z) h (parent : GhostBlockHeader) : Prop := {
  hv_number : add U32 (number parent) 1 = Some (number h);
  hv_parent : parent_hash h = hash_of scale_header parent;
  hv_pow : verify_pow_enhanced h (difficulty h) = true;
  hv_low : d / 2 ≤ difficulty h;
  hv_high : difficulty h ≤ saturating_mul U64 d 2;
}.

Lemma validate_block_header_ok h parent s u s' :
  validate_block_header h parent s = (Ok u, s') ↔
  header_valid (Difficulty s) h parent ∧ s' = s ∧ u = tt.
Proof.
  unfold validate_block_header. split.
  - intros Hrun. inv_run. split; [|done].
    split; first [done|by apply Z.leb_le].
  - intros ([Hn Hp Hpow Hl Hh] & -> & ->). rewrite Hn. run.
    rewrite bool_decide_eq_true_2 by done. run.
    rewrite bool_decide_eq_true_2 by done. run. rewrite Hpow. run.
    by rewrite !(proj2 (Z.leb_le _ _)) by done.
Qed.

(** ** [submit_block] *)

Definition submitted h (miner : AccountId) s : State AccountId :=
  {| Difficulty := Difficulty s; CurrentPhase := PosValidation;
     BlockHeaders := <[number h := h]> (BlockHeaders s);
     BlockProducers := <[number h := miner]> (BlockProducers s);
     ValidatorStakes := ValidatorStakes s;
     LastActiveBlock := <[miner := number h]> (LastActiveBlock s);
     DoubleSignReports := DoubleSignReports s; InvalidBlockReports := InvalidBlockReports s;
     SlashingRecords := SlashingRecords s;
     ValidatorPqcPublicKeys := ValidatorPqcPublicKeys s;
     RecentBlockProducers := push_recent (RecentBlockProducers s) miner;
     CurrentEntropy := CurrentEntropy s; block_number := block_number s;
     balances := balances s;
     events := events s ++ [BlockMined (number h) miner (nonce h)] |}.

Lemma submit_block_ok o h s u s' :
  submit_block o h s = (Ok u, s') ↔
  ∃ miner parent,
    ensure_signed_origin o = Some miner ∧ CurrentPhase s = PowMining ∧ 0 < number h ∧
    BlockHeaders s !! (number h - 1) = Some parent ∧
    header_valid (Difficulty s) h parent ∧ s' = submitted h miner s ∧ u = tt.
Proof.
  unfold submit_block, ensure_signed, deposit_event. split.
  - intros Hrun. inv_run.
    match goal with H : validate_block_header _ _ _ = _ |- _ =>
      apply validate_block_header_ok in H as (? & -> & _) end.
    match goal with H : (0 <? number h) = true |- _ => apply Z.ltb_lt in H end.
    match goal with H : checked_sub _ _ = Some _ |- _ =>
      unfold checked_sub in H; rewrite decide_False in H by lia; injection H as <- end.
    do 2 eexists. split_and!; eauto.
  - intros (miner & parent & Ho & Hph & Hn & Hpar & Hv & -> & ->).
    rewrite Ho. run. rewrite bool_decide_eq_true_2 by done. run.
    rewrite (proj2 (Z.ltb_lt _ _)) by done. run. unfold checked_sub.
    rewrite decide_False by lia. run. rewrite Hpar. run.
    erewrite bind_run by (by apply validate_block_header_ok). run. done.
Qed.

(** ** [stake] and [unstake] *)

(** Every stake is a [u128]. *)
Definition stakes_wf s : Prop := map_Forall (λ _ st, in_uint U128 st) (ValidatorStakes s).

Definition stake_of (who : AccountId) s : Z := default 0 (ValidatorStakes s !! who).

Lemma stake_ok o amount s u s' :
  Pallet.stake o amount s = (Ok u, s') ↔
  ∃ staker b new_stake,
    ensure_signed_origin o = Some staker ∧ T_MinStake ≤ amount ∧
    transfer staker account_id amount KeepAlive (balances s) = inr b ∧
    add U128 (stake_of staker s) amount = Some new_stake ∧
    s' = set_ValidatorStakes (<[staker := new_stake]> (ValidatorStakes s)) (set_balances b s) ∧
    u = tt.
Proof.
  unfold Pallet.stake, ensure_signed, stake_of. split.
  - intros Hrun. inv_run.
    match goal with H : transfer_balance _ _ _ _ _ = _ |- _ =>
      apply transfer_balance_ok in H as (b & ? & -> & _) end.
    match goal with H : (_ <=? _) = true |- _ => apply Z.leb_le in H end.
    do 3 eexists. split_and!; eauto.
  - intros (staker & b & n & Ho & Hm & Ht & Ha & -> & ->).
    rewrite Ho. run. rewrite (proj2 (Z.leb_le _ _)) by done. run.
    erewrite bind_run by (apply transfer_balance_ok; eauto). run. cbn. rewrite Ha. done.
Qed.

Lemma unstake_ok o amount s u s' :
  unstake o amount s = (Ok u, s') ↔
  ∃ staker b current new_stake,
    ensure_signed_origin o = Some staker ∧ ValidatorStakes s !! staker = Some current ∧
    amount ≤ current ∧ sub U128 current amount = Some new_stake ∧
    transfer account_id staker amount AllowDeath (balances s) = inr b ∧
    s' = set_balances b (set_ValidatorStakes (<[staker := new_stake]> (ValidatorStakes s)) s) ∧
    u = tt.
Proof.
  unfold unstake, ensure_signed. split.
  - intros Hrun. inv_run.
    match goal with H : transfer_balance _ _ _ _ _ = _ |- _ =>
      apply transfer_balance_ok in H as (b & ? & -> & ->) end.
    match goal with H : (_ <=? _) = true |- _ => apply Z.leb_le in H end.
    do 4 eexists. split_and!; eauto.
  - intros (staker & b & c & n & Ho & Hc & Hm & Ha & Ht & -> & ->).
    rewrite Ho. run. rewrite Hc. run. rewrite (proj2 (Z.leb_le _ _)) by done. run.
    rewrite Ha. run. apply transfer_balance_ok; eauto.
Qed.

(** ** [validate_block] *)

Definition selection_seed (bn : Z) s : H256 :=
  hash_of (scale_u32 ⊗ scale_u32) (bn, block_number s).
Definition validator_message (validator : AccountId) (bn : Z) : H256 :=
  hash_of (scale_account ⊗ scale_u32) (validator, bn).

(** The Dilithium requirement on the signature of [validator]. *)
Definition pqc_accepts (validator : AccountId) (bn : Z) (sig : PqcSignature) s : Prop :=
  T_PqcRequired = true →
  ∃ key, ValidatorPqcPublicKeys s !! validator = Some key ∧
    verify_pqc_signature (array_bytes (validator_message validator bn)) (array_bytes sig)
      (array_bytes key) = true.

Definition validated (bn : Z) (sig : PqcSignature) (validator miner : AccountId)
    (selection : PosSelection AccountId) h (reward : BlockReward) (b : Balances) s
    : State AccountId :=
  {| Difficulty := Difficulty s; CurrentPhase := Finalization;
     BlockHeaders :=
       <[bn := sign_header h (validator_message validator bn) sig]> (BlockHeaders s);
     BlockProducers := BlockProducers s;
     ValidatorStakes := ValidatorStakes s;
     LastActiveBlock := <[validator := bn]> (LastActiveBlock s);
     DoubleSignReports := DoubleSignReports s; InvalidBlockReports := InvalidBlockReports s;
     SlashingRecords := SlashingRecords s;
     ValidatorPqcPublicKeys := ValidatorPqcPublicKeys s;
     RecentBlockProducers := RecentBlockProducers s;
     CurrentEntropy := CurrentEntropy s; block_number := block_number s; balances := b;
     events := (events s ++ [ValidatorSelected validator (selected_weight selection)])
               ++ [RewardsDistributed miner (miner_reward reward) (stakers_reward reward)] |}.

(** The signature check of [validate_block], as it stands there. *)
Lemma pqc_check_ok (validator : AccountId) bn (sig : PqcSignature) s u s' :
  (if T_PqcRequired then
     keys ← gets ValidatorPqcPublicKeys;
     key ← ok_or (keys !! validator) (Module PqcPublicKeyNotFound);
     ensure (verify_pqc_signature (array_bytes (validator_message validator bn))
               (array_bytes sig) (array_bytes key)) (Module InvalidPqcSignature)
   else mret tt) s = (Ok u, s') ↔ pqc_accepts validator bn sig s ∧ s' = s ∧ u = tt.
Proof.
  unfold pqc_accepts. destruct T_PqcRequired; split.
  - intros Hrun. inv_run. eauto.
  - intros (Hacc & -> & ->). destruct Hacc as (key & Hk & Hv); [done|].
    run. rewrite Hk. run. by rewrite Hv.
  - intros Hrun. inv_run. by split_and!.
  - by intros (_ & -> & ->).
Qed.

Lemma validate_block_ok o bn sig s u s' :
  validate_block o bn sig s = (Ok u, s') ↔
  ∃ validator h selection reward miner b,
    ensure_signed_origin o = Some validator ∧ is_Some (ValidatorStakes s !! validator) ∧
    BlockHeaders s !! bn = Some h ∧ CurrentPhase s = PosValidation ∧
    select_pos_validator (block_number s) (collect_stakers s) (selection_seed bn s)
      = Some (Some selection) ∧
    selected_validator selection = validator ∧ pqc_accepts validator bn sig s ∧
    calculate_block_reward T_BlockReward = Some reward ∧
    BlockProducers s !! bn = Some miner ∧
    distribute_rewards (E := DispatchError AccountId) miner (collect_stakers s) reward
      (balances s) = (Ok tt, b) ∧
    s' = validated bn sig validator miner selection h reward b s ∧ u = tt.
Proof.
  unfold validate_block, ensure_signed, deposit_event, get_miner_for_block. split.
  - intros Hrun. inv_run.
    match goal with H : (if T_PqcRequired then _ else _) _ = _ |- _ => rename H into Hpqc end.
    match goal with H : with_balances _ _ = _ |- _ =>
      apply with_balances_ok in H as (b & ? & ->) end.
    apply pqc_check_ok in Hpqc as (? & -> & _).
    match goal with H : distribute_rewards _ _ _ _ = (Ok ?u, _) |- _ => destruct u end.
    do 6 eexists. split_and!; eauto.
  - intros (v & h & sel & rw & m & b & Ho & Hst & Hh & Hph & Hsel & Hv & Hpqc & Hrw & Hm & Hd & -> & ->).
    rewrite Ho. run. rewrite bool_decide_eq_true_2 by done. run. rewrite Hh. run.
    rewrite bool_decide_eq_true_2 by done. run. fold (selection_seed bn s). rewrite Hsel. run.
    rewrite bool_decide_eq_true_2 by done. run.
    erewrite bind_run by (by apply pqc_check_ok). run. rewrite Hrw. run. cbn [BlockProducers set_BlockHeaders]. rewrite Hm. run.
    erewrite bind_run by (apply with_balances_ok; eexists; split; [exact Hd|reflexivity]).
    run. done.
Qed.

(** ** [register_pqc_key] and [report_misbehavior] *)

Lemma register_pqc_key_ok o key s u s' :
  register_pqc_key o key s = (Ok u, s') ↔
  ∃ validator, ensure_signed_origin o = Some validator ∧ u = tt ∧
    s' = set_ValidatorPqcPublicKeys (<[validator := key]> (ValidatorPqcPublicKeys s)) s.
Proof.
  unfold register_pqc_key, ensure_signed. split.
  - intros Hrun. inv_run. eauto.
  - intros (v & Ho & -> & ->). by rewrite Ho.
Qed.

(** The report itself, before the slash. *)
Definition flag_report (v : AccountId) (reason : SlashingReason) s : State AccountId :=
  match reason with
  | DoubleSigning => set_DoubleSignReports (<[v := true]> (DoubleSignReports s)) s
  | InvalidBlock => set_InvalidBlockReports (<[v := true]> (InvalidBlockReports s)) s
  | Downtime | Other => s
  end.

Definition reported (v : AccountId) (reason : SlashingReason) (amount : Z) s
    : State AccountId :=
  set_events (events s ++ [ValidatorSlashed v reason amount])
    (set_ValidatorStakes
       (<[v := saturating_sub U128 (stake_of v s) amount]> (ValidatorStakes s))
       (flag_report v reason s)).

(** A report succeeds for every signer, whatever the validator did: the only
    failures are the origin check and the panic of the percentage. *)
Lemma report_misbehavior_ok o v reason s u s' :
  report_misbehavior o v reason s = (Ok u, s') ↔
  ∃ reporter amount, ensure_signed_origin o = Some reporter ∧
    slash_amount_of (stake_of v s) (slash_percentage_of reason) = Some amount ∧
    s' = reported v reason amount s ∧ u = tt.
Proof.
  unfold report_misbehavior, ensure_signed, deposit_event, stake_of. split.
  - intros Hrun. destruct reason; inv_run; do 2 eexists; by split_and!.
  - intros (r & a & Ho & Ha & -> & ->). unfold reported, stake_of.
    rewrite Ho. destruct reason; run; cbn in *; by rewrite Ha.
Qed.

(** ** Calls *)

Context `{!FrameOk AccountId}.

(** A dispatched call that succeeds is its body. *)
Lemma dispatch_ok o c s u s' :
  dispatch o c s = (Ok u, s') ↔ call_body o c s = (Ok u, s').
Proof.
  unfold dispatch. destruct (call_body o c s) as [[a|e|] s1] eqn:E.
  - by rewrite (storage_layer_commits _ _ _ _ E).
  - rewrite (storage_layer_reverts _ _ _ _ E). done.
  - pose proof (storage_layer_panics _ _ _ E) as Hp.
    destruct (in_storage_layer _ s) as [r s2]. simpl in Hp. subst. done.
Qed.

(** A dispatched call that fails changes nothing. *)
Lemma dispatch_err o c s e s' : dispatch o c s = (Err e, s') → s' = s.
Proof.
  unfold dispatch. destruct (call_body o c s) as [[a|e'|] s1] eqn:E.
  - by rewrite (storage_layer_commits _ _ _ _ E).
  - rewrite (storage_layer_reverts _ _ _ _ E). by intros [= _ ->].
  - pose proof (storage_layer_panics _ _ _ E) as Hp.
    destruct (in_storage_layer _ s) as [r s2]. simpl in Hp. by subst.
Qed.

(** The outcome of a dispatched call from that of its body. *)
Lemma dispatch_outcome o c s :
  match call_body o c s with
  | (Ok u, s') => dispatch o c s = (Ok u, s')
  | (Err e, _) => dispatch o c s = (Err e, s)
  | (Panicked, _) => (dispatch o c s).1 = Panicked
  end.
Proof.
  unfold dispatch. destruct (call_body o c s) as [[a|e|] s1] eqn:E.
  - by apply storage_layer_commits.
  - by eapply storage_layer_reverts.
  - by eapply storage_layer_panics.
Qed.
End Calls.
