(* ===== verification/Runtime.v ===== *)
(** * The runtime's configuration

    The constants of runtime/src/lib.rs and the configuration of the consensus
    pallet in runtime/src/configs/mod.rs and, for the tests, in
    pallets/pallet-ghost-consensus/src/mock.rs; the storage of the pallet at
    genesis; and the accounts of the genesis presets of
    runtime/src/genesis_config_presets.rs. *)

From stdpp Require Import strings.
From S2P Require Import Prelude RustInt Scale Types Interfaces Reference Difficulty Entropy.
From S2P Require Import Pow Selection Rewards Pallet.
Local Open Scope Z_scope.

(** ** Constants *)

Definition MILLI_SECS_PER_BLOCK : Z := 5000. (* u64 *)
Definition SLOT_DURATION : Z := MILLI_SECS_PER_BLOCK.
Definition MINUTES : Z := 60000 / MILLI_SECS_PER_BLOCK. (* u32 *)
Definition HOURS : Z := MINUTES * 60.
Definition DAYS : Z := HOURS * 24.
Definition BLOCK_HASH_COUNT : Z := 2400.
Definition UNIT : Z := 1000000000000. (* u128 *)
Definition MILLI_UNIT : Z := 1000000000.
Definition MICRO_UNIT : Z := 1000000.
Definition EXISTENTIAL_DEPOSIT : Z := MILLI_UNIT.

(** [frame_support::PalletId( *b"py/ghost")] *)
Definition GhostPalletId : array 8 :=
  @Array 8 [Byte.x70; Byte.x79; Byte.x2f; Byte.x67; Byte.x68; Byte.x6f; Byte.x73; Byte.x74]
    eq_refl.

(** [impl pallet_ghost_consensus::Config for Runtime] *)
Definition runtime_config : Config :=
  {| T_BlockReward := 10000000000000; T_MinStake := 1000000000000;
     T_MaxDowntimeBlocks := 100; T_DoubleSignSlashPercentage := 100;
     T_InvalidBlockSlashPercentage := 50; T_DowntimeSlashPercentage := 10;
     T_PalletId := GhostPalletId; T_PqcRequired := false |}.

(** [impl pallet_ghost_consensus::Config for Test] *)
Definition mock_config : Config :=
  {| T_BlockReward := 10000000000000000000; T_MinStake := 1000000000000000000;
     T_MaxDowntimeBlocks := 100; T_DoubleSignSlashPercentage := 100;
     T_InvalidBlockSlashPercentage := 50; T_DowntimeSlashPercentage := 10;
     T_PalletId := GhostPalletId; T_PqcRequired := true |}.

Lemma runtime_config_ok : @ConfigOk runtime_config.
Proof. split; by vm_compute. Qed.
Lemma mock_config_ok : @ConfigOk mock_config.
Proof. split; by vm_compute. Qed.

(** ** Genesis *)

(** No genesis configuration of the runtime names the consensus pallet, so its
    storage starts at the defaults: [ValueQuery] values and empty maps. *)
Definition genesis_state {AccountId} `{Countable AccountId} `{!Currency AccountId}
    (b : Balances) : State AccountId :=
  {| Difficulty := 0; CurrentPhase := ConsensusPhase_default; BlockHeaders := ∅;
     BlockProducers := ∅; ValidatorStakes := ∅; LastActiveBlock := ∅; DoubleSignReports := ∅;
     InvalidBlockReports := ∅; SlashingRecords := []; ValidatorPqcPublicKeys := ∅;
     RecentBlockProducers := []; CurrentEntropy := 0; block_number := 0; balances := b;
     events := [] |}.

(** The keys of the presets. *)
Definition ALICE_SR25519 : array 32 :=
  @Array 32 [Byte.xd4; Byte.x35; Byte.x93; Byte.xc7; Byte.x15; Byte.xfd; Byte.xd3; Byte.x1c;
    Byte.x61; Byte.x14; Byte.x1a; Byte.xbd; Byte.x04; Byte.xa9; Byte.x9f; Byte.xd6;
    Byte.x82; Byte.x2c; Byte.x85; Byte.x58; Byte.x85; Byte.x4c; Byte.xcd; Byte.xe3;
    Byte.x9a; Byte.x56; Byte.x84; Byte.xe7; Byte.xa5; Byte.x6d; Byte.xa2; Byte.x7d] eq_refl.
Definition BOB_SR25519 : array 32 :=
  @Array 32 [Byte.x8e; Byte.xaf; Byte.x04; Byte.x15; Byte.x16; Byte.x87; Byte.x73; Byte.x63;
    Byte.x26; Byte.xc9; Byte.xfe; Byte.xa1; Byte.x7e; Byte.x25; Byte.xfc; Byte.x52;
    Byte.x87; Byte.x61; Byte.x36; Byte.x93; Byte.xc9; Byte.x12; Byte.x90; Byte.x9c;
    Byte.xb2; Byte.x26; Byte.xaa; Byte.x47; Byte.x94; Byte.xf2; Byte.x6a; Byte.x48] eq_refl.
Definition ALICE_STASH_SR25519 : array 32 :=
  @Array 32 [Byte.xbe; Byte.x5d; Byte.xdb; Byte.x15; Byte.x79; Byte.xb7; Byte.x2e; Byte.x84;
    Byte.x52; Byte.x4f; Byte.xc2; Byte.x9e; Byte.x78; Byte.x60; Byte.x9e; Byte.x3c;
    Byte.xaf; Byte.x42; Byte.xe8; Byte.x5a; Byte.xa1; Byte.x18; Byte.xeb; Byte.xfe;
    Byte.x0b; Byte.x0a; Byte.xd4; Byte.x04; Byte.xb5; Byte.xbd; Byte.xd2; Byte.x5f] eq_refl.
Definition BOB_STASH_SR25519 : array 32 :=
  @Array 32 [Byte.xfe; Byte.x65; Byte.x71; Byte.x7d; Byte.xad; Byte.x04; Byte.x47; Byte.xd7;
    Byte.x15; Byte.xf6; Byte.x60; Byte.xa0; Byte.xa5; Byte.x84; Byte.x11; Byte.xde;
    Byte.x50; Byte.x9b; Byte.x42; Byte.xe6; Byte.xef; Byte.xb8; Byte.x37; Byte.x5f;
    Byte.x56; Byte.x2f; Byte.x58; Byte.xa5; Byte.x54; Byte.xd5; Byte.x86; Byte.x0e] eq_refl.
Definition CHARLIE_SR25519 : array 32 :=
  @Array 32 [Byte.x90; Byte.xb5; Byte.xab; Byte.x20; Byte.x5c; Byte.x69; Byte.x74; Byte.xc9;
    Byte.xea; Byte.x84; Byte.x1b; Byte.xe6; Byte.x88; Byte.x86; Byte.x46; Byte.x33;
    Byte.xdc; Byte.x9c; Byte.xa8; Byte.xa3; Byte.x57; Byte.x84; Byte.x3e; Byte.xea;
    Byte.xcf; Byte.x23; Byte.x14; Byte.x64; Byte.x99; Byte.x65; Byte.xfe; Byte.x22] eq_refl.
Definition DAVE_SR25519 : array 32 :=
  @Array 32 [Byte.x30; Byte.x67; Byte.x21; Byte.x21; Byte.x1d; Byte.x54; Byte.x04; Byte.xbd;
    Byte.x9d; Byte.xa8; Byte.x8e; Byte.x02; Byte.x04; Byte.x36; Byte.x0a; Byte.x1a;
    Byte.x9a; Byte.xb8; Byte.xb8; Byte.x7c; Byte.x66; Byte.xc1; Byte.xbc; Byte.x2f;
    Byte.xcd; Byte.xd3; Byte.x7f; Byte.x3c; Byte.x22; Byte.x22; Byte.xcc; Byte.x20] eq_refl.
Definition EVE_SR25519 : array 32 :=
  @Array 32 [Byte.xe6; Byte.x59; Byte.xa7; Byte.xa1; Byte.x62; Byte.x8c; Byte.xdd; Byte.x93;
    Byte.xfe; Byte.xbc; Byte.x04; Byte.xa4; Byte.xe0; Byte.x64; Byte.x6e; Byte.xa2;
    Byte.x0e; Byte.x9f; Byte.x5f; Byte.x0c; Byte.xe0; Byte.x97; Byte.xd9; Byte.xa0;
    Byte.x52; Byte.x90; Byte.xd4; Byte.xa9; Byte.xe0; Byte.x54; Byte.xdf; Byte.x4e] eq_refl.
Definition FERDIE_SR25519 : array 32 :=
  @Array 32 [Byte.x1c; Byte.xbd; Byte.x2d; Byte.x43; Byte.x53; Byte.x0a; Byte.x44; Byte.x70;
    Byte.x5a; Byte.xd0; Byte.x88; Byte.xaf; Byte.x31; Byte.x3e; Byte.x18; Byte.xf8;
    Byte.x0b; Byte.x53; Byte.xef; Byte.x16; Byte.xb3; Byte.x61; Byte.x77; Byte.xcd;
    Byte.x4b; Byte.x77; Byte.xb8; Byte.x46; Byte.xf2; Byte.xa5; Byte.xf0; Byte.x7c] eq_refl.
Definition ALICE_ED25519 : array 32 :=
  @Array 32 [Byte.x88; Byte.xdc; Byte.x34; Byte.x17; Byte.xd5; Byte.x05; Byte.x8e; Byte.xc4;
    Byte.xb4; Byte.x50; Byte.x3e; Byte.x0c; Byte.x12; Byte.xea; Byte.x1a; Byte.x0a;
    Byte.x89; Byte.xbe; Byte.x20; Byte.x0f; Byte.xe9; Byte.x89; Byte.x22; Byte.x42;
    Byte.x3d; Byte.x43; Byte.x34; Byte.x01; Byte.x4f; Byte.xa6; Byte.xb0; Byte.xee] eq_refl.
Definition BOB_ED25519 : array 32 :=
  @Array 32 [Byte.xd1; Byte.x7c; Byte.x2d; Byte.x78; Byte.x23; Byte.xeb; Byte.xf2; Byte.x60;
    Byte.xfd; Byte.x13; Byte.x8f; Byte.x2d; Byte.x7e; Byte.x27; Byte.xd1; Byte.x14;
    Byte.xc0; Byte.x14; Byte.x5d; Byte.x96; Byte.x8b; Byte.x5f; Byte.xf5; Byte.x00;
    Byte.x61; Byte.x25; Byte.xf2; Byte.x41; Byte.x4f; Byte.xad; Byte.xae; Byte.x69] eq_refl.

(** An account and an authority are the bytes of their public key. *)
Record GenesisConfig := {
  g_balances : list (array 32 * Z);
  g_aura_authorities : list (array 32);
  g_grandpa_authorities : list (array 32 * Z);
  g_sudo_key : option (array 32);
}.

Module Keys.
Definition account (public : array 32) : array 32 := public.
Definition aura (public : array 32) : array 32 := public.
Definition grandpa (public : array 32) : array 32 := public.
End Keys.

(** Every endowed account starts with [1u128 << 60]. *)
Definition endowment : Z := Z.shiftl 1 60.
Definition testnet_genesis (initial_authorities : list (array 32 * array 32))
    (endowed_accounts : list (array 32)) (root : array 32) : GenesisConfig :=
  {| g_balances := (λ k, (k, endowment)) <$> endowed_accounts;
     g_aura_authorities := fst <$> initial_authorities;
     g_grandpa_authorities := (λ x, (x.2, 1)) <$> initial_authorities;
     g_sudo_key := Some root |}.

Definition development_config_genesis : GenesisConfig :=
  testnet_genesis [(Keys.aura ALICE_SR25519, Keys.grandpa ALICE_ED25519)]
    [Keys.account ALICE_SR25519; Keys.account BOB_SR25519; Keys.account ALICE_STASH_SR25519;
     Keys.account BOB_STASH_SR25519]
    (Keys.account ALICE_SR25519).

Definition local_config_genesis : GenesisConfig :=
  testnet_genesis
    [(Keys.aura ALICE_SR25519, Keys.grandpa ALICE_ED25519); (Keys.aura BOB_SR25519, Keys.grandpa BOB_ED25519)]
    [Keys.account ALICE_SR25519; Keys.account BOB_SR25519; Keys.account ALICE_STASH_SR25519;
     Keys.account BOB_STASH_SR25519; Keys.account CHARLIE_SR25519; Keys.account DAVE_SR25519;
     Keys.account EVE_SR25519; Keys.account FERDIE_SR25519]
    (Keys.account ALICE_SR25519).

(** The preset of an identifier, before its serialization to JSON. *)
Definition PresetId : Type := string.
Definition get_preset (id : PresetId) : option GenesisConfig :=
  if decide (id = "dev"%string) then Some development_config_genesis
  else if decide (id = "local_testnet"%string) then Some local_config_genesis
  else None.
Definition preset_names : list PresetId := ["dev"%string; "local_testnet"%string].

(** Every supported preset exists; its accounts are endowed once, above the
    existential deposit and the minimum stake of the pallet; the root account is
    one of them; and each authority has a key of both kinds. *)
Theorem genesis_presets_ok :
  Forall (λ id, match get_preset id with
    | None => False
    | Some g =>
        NoDup (fst <$> g_balances g) ∧
        Forall (λ ab, EXISTENTIAL_DEPOSIT ≤ ab.2 ∧ @T_MinStake runtime_config ≤ ab.2)
          (g_balances g) ∧
        (∃ root, g_sudo_key g = Some root ∧ root ∈ fst <$> g_balances g) ∧
        0 < Z.of_nat (length (g_aura_authorities g)) ∧
        length (g_aura_authorities g) = length (g_grandpa_authorities g)
    end) preset_names.
Proof.
  assert (Hb : Forall (λ g, bool_decide (NoDup (fst <$> g_balances g)) = true ∧
    bool_decide (ALICE_SR25519 ∈ fst <$> g_balances g) = true)
    [development_config_genesis; local_config_genesis]) by (repeat constructor; by vm_compute).
  apply Forall_cons in Hb as [[Hd1 Hd2] [[Hl1 Hl2] _]%Forall_cons].
  rewrite !bool_decide_eq_true in *.
  assert (Hall : ∀ ias l root, Forall (λ ab, EXISTENTIAL_DEPOSIT ≤ ab.2 ∧
    @T_MinStake runtime_config ≤ ab.2) (g_balances (testnet_genesis ias l root))).
  { intros ias l root. apply Forall_fmap, Forall_forall. intros a _. split; by vm_compute. }
  unfold preset_names. rewrite !Forall_cons, Forall_nil.
  change (get_preset "dev") with (Some development_config_genesis).
  change (get_preset "local_testnet") with (Some local_config_genesis). cbv beta iota.
  split; [|split; [|done]];
    (split; [done|]; split; [apply Hall|]; split; [by exists ALICE_SR25519|]; by vm_compute).
Qed.

(** The endowment is above the minimum stake and the existential deposit, but
    it is no whole number of tokens. *)
Example endowment_tokens : endowment / UNIT = 1152921 ∧ endowment mod UNIT ≠ 0.
Proof. by vm_compute. Qed.
Example minutes_blocks : MINUTES = 12 ∧ HOURS = 720 ∧ DAYS = 17280.
Proof. by vm_compute. Qed.
