(* ===== verification/Slashing.v ===== *)
(** * Slashing

    [report_misbehavior] and [check_downtime_slashing] of
    pallets/pallet-ghost-consensus/src/lib.rs: what a report does to a stake,
    and the downtime loop as one simultaneous update of the stakes. *)

From S2P Require Import Prelude RustInt Scale Types Interfaces Reference Difficulty Entropy.
From S2P Require Import Pow Selection Rewards Pallet Runtime Calls.
Local Open Scope Z_scope.
Local Open Scope ghost_scope.

Section Slashing.
Context `{!Build, !ScalePrims, !Hashing, !Pqc, !Config}.
Context {AccountId : Type} `{Countable AccountId}.
Context `{!Frame AccountId, !Currency AccountId}.
Implicit Types (s t : State AccountId) (v : AccountId) (l : list (AccountId * Z)).

(** ** The amount of a slash *)

(** In every build the amount is at most the percentage of the stake. *)
Lemma slash_amount_bounds st pct a :
  0 ≤ st → 0 ≤ pct → slash_amount_of st pct = Some a → 0 ≤ a ≤ st * pct / 100.
Proof.
  intros Hst Hp. unfold slash_amount_of.
  destruct (mul U128 st pct) as [p|] eqn:Hm; [|done]. simpl. rewrite ?div_nz by done.
  pose proof (arith_range U128 _ p ltac:(lia) Hm) as [??].
  pose proof (arith_le U128 (st * pct) p ltac:(lia) ltac:(nia) Hm).
  intros [= <-]. split; [apply Z.div_pos; lia|apply Z.div_le_mono; lia].
Qed.

Lemma slash_amount_fits st pct :
  0 ≤ st * pct < 2 ^ 128 → slash_amount_of st pct = Some (st * pct / 100).
Proof.
  intros Hf. unfold slash_amount_of. rewrite mul_fits by done. simpl. by rewrite ?div_nz.
Qed.

(** Without overflow checks the amount is always computed. *)
Lemma slash_amount_total st pct :
  overflow_checks = false → 0 ≤ st → 0 ≤ pct → is_Some (slash_amount_of st pct).
Proof.
  intros Hc Hst Hp. unfold slash_amount_of, mul. rewrite arith_wraps by (done || nia).
  simpl. rewrite ?div_nz by done. by eexists.
Qed.

Lemma slashed_stake_bounds st pct a :
  in_uint U128 st → 0 ≤ pct → slash_amount_of st pct = Some a →
  0 ≤ saturating_sub U128 st a ≤ st.
Proof.
  intros Hst Hp Ha. pose proof (slash_amount_bounds st pct a (proj1 Hst) Hp Ha).
  rewrite saturating_sub_le by (done || lia). unfold in_uint in Hst. lia.
Qed.

(** ** The downtime loop *)

Definition is_down (current_block last_active : Z) : bool :=
  T_MaxDowntimeBlocks <? saturating_sub U32 current_block last_active.

(** The validator and the amount that one entry of [LastActiveBlock] slashes. *)
Definition downtime_entry (cur : Z) s (e : AccountId * Z) : option (AccountId * Z) :=
  if is_down cur e.2 then
    st ← ValidatorStakes s !! e.1;
    a ← slash_amount_of st T_DowntimeSlashPercentage;
    Some (e.1, a)
  else None.

Definition slash_stake (m : gmap AccountId Z) (va : AccountId * Z) : gmap AccountId Z :=
  alter (λ st, saturating_sub U128 st va.2) va.1 m.
Definition downtime_record (now : Z) (va : AccountId * Z)
    : AccountId * SlashingReason * Z * Z := (va.1, Downtime, va.2, now).
Definition downtime_event (va : AccountId * Z) : Event AccountId :=
  ValidatorSlashed va.1 Downtime va.2.

Lemma slash_stake_insert (m : gmap AccountId Z) (va : AccountId * Z) st :
  m !! va.1 = Some st → slash_stake m va = <[va.1 := saturating_sub U128 st va.2]> m.
Proof.
  intros Hst. apply map_eq; intros w. unfold slash_stake. rewrite lookup_insert, lookup_alter.
  case_decide; subst; [by rewrite Hst|done].
Qed.

(** The state after a list of slashes. *)
Definition apply_slashes l s : State AccountId :=
  set_events (events s ++ (downtime_event <$> l))
    (set_SlashingRecords (SlashingRecords s ++ (downtime_record (block_number s) <$> l))
      (set_ValidatorStakes (foldl slash_stake (ValidatorStakes s) l) s)).

Lemma apply_slashes_nil s : apply_slashes [] s = s.
Proof. unfold apply_slashes. simpl. rewrite !app_nil_r. by destruct s. Qed.

Lemma apply_slashes_app l1 l2 s :
  apply_slashes l2 (apply_slashes l1 s) = apply_slashes (l1 ++ l2) s.
Proof. unfold apply_slashes; cbn. by rewrite foldl_app, !fmap_app, <-!app_assoc. Qed.

Lemma slash_if_down_ok cur e s u s' :
  slash_if_down cur T_MaxDowntimeBlocks e s = (Ok u, s') →
  s' = apply_slashes (option_list (downtime_entry cur s e)) s ∧
  (is_down cur e.2 = true → ∀ st, ValidatorStakes s !! e.1 = Some st →
   is_Some (slash_amount_of st T_DowntimeSlashPercentage)).
Proof.
  destruct e as [v la]. unfold slash_if_down, downtime_entry, deposit_event; simpl.
  fold (is_down cur la). destruct (is_down cur la); intros Hrun.
  - rewrite bind_gets in Hrun. destruct (ValidatorStakes s !! v) as [st|] eqn:Hst; simpl in Hrun; inv_run.
    + match goal with H : slash_amount_of _ _ = Some _ |- _ => rename H into Ha end.
      unfold mbind, option_bind. rewrite Ha. unfold apply_slashes; cbn. split.
      * do 3 f_equal. symmetry. by apply (slash_stake_insert _ (v, x) st).
      * intros _ st' [= <-]. by eexists.
    + by rewrite apply_slashes_nil.
  - inv_run. by rewrite apply_slashes_nil.
Qed.

Lemma lookup_slash_stakes l (m : gmap AccountId Z) v :
  v ∉ l.*1 → foldl slash_stake m l !! v = m !! v.
Proof.
  revert m; induction l as [|[w a] l IH]; intros m Hv; [done|]. csimpl in *.
  apply not_elem_of_cons in Hv as [Hne Hv]. rewrite IH by done.
  unfold slash_stake. by rewrite lookup_alter_ne by done.
Qed.

Lemma downtime_entry_key cur s e va : downtime_entry cur s e = Some va → va.1 = e.1.
Proof.
  unfold downtime_entry. destruct (is_down _ _); [|done].
  destruct (_ !! _) as [st|]; [|done]. simpl.
  destruct (slash_amount_of st _); [|done]. by intros [= <-].
Qed.

(** A slash of one validator does not change the entries of the others. *)
Lemma downtime_entry_other cur s e e' :
  e.1 ≠ e'.1 →
  downtime_entry cur (apply_slashes (option_list (downtime_entry cur s e)) s) e'
    = downtime_entry cur s e'.
Proof.
  intros Hne. unfold downtime_entry at 1 3. cbn. rewrite lookup_slash_stakes; [done|].
  destruct (downtime_entry cur s e) as [va|] eqn:E; simpl; [|by apply not_elem_of_nil].
  apply downtime_entry_key in E. rewrite list_elem_of_singleton. congruence.
Qed.

Lemma for_each_slash cur l s u s' :
  NoDup l.*1 → for_each l (slash_if_down cur T_MaxDowntimeBlocks) s = (Ok u, s') →
  s' = apply_slashes (omap (downtime_entry cur s) l) s.
Proof.
  revert s; induction l as [|e l IH]; intros s Hnd Hrun; simpl in Hrun.
  - unfold mret, dispatch_ret in Hrun. simplify_eq. by rewrite apply_slashes_nil.
  - csimpl in Hnd. apply NoDup_cons in Hnd as [Hnot Hnd].
    apply bind_ok in Hrun as (? & s1 & [-> _]%slash_if_down_ok & Hrun).
    rewrite (IH _ Hnd Hrun), apply_slashes_app. f_equal.
    rewrite (list_omap_ext _ (downtime_entry cur s) l l).
    + csimpl. by destruct (downtime_entry cur s e).
    + apply Forall2_same_length_lookup_2; [done|].
      intros i e1 e2 Hx Hy. simplify_eq. apply downtime_entry_other.
      intros Heq. apply Hnot. rewrite Heq. apply list_elem_of_fmap_2.
      by eapply list_elem_of_lookup_2.
Qed.

(** *** The stakes after the loop *)

Definition slashed_to (cur la st : Z) : Z :=
  if is_down cur la then
    match slash_amount_of st T_DowntimeSlashPercentage with
    | Some a => saturating_sub U128 st a
    | None => st
    end
  else st.

Lemma slashes_lookup cur s l v (m : gmap AccountId Z) :
  NoDup l.*1 → m !! v = ValidatorStakes s !! v →
  (∀ la, (v, la) ∈ l →
     foldl slash_stake m (omap (downtime_entry cur s) l) !! v
       = slashed_to cur la <$> ValidatorStakes s !! v) ∧
  (v ∉ l.*1 → foldl slash_stake m (omap (downtime_entry cur s) l) !! v
              = ValidatorStakes s !! v).
Proof.
  revert m; induction l as [|[w lw] l IH]; intros m Hnd Hm.
  { split; [by intros la ?%elem_of_nil|done]. }
  csimpl in Hnd. apply NoDup_cons in Hnd as [Hnot Hnd].
  assert (Hkeys : v = w → v ∉ (omap (downtime_entry cur s) l).*1).
  { intros -> Hin. apply Hnot. apply list_elem_of_fmap in Hin as (va & -> & Hva).
    apply list_elem_of_omap in Hva as (e & He & Hd). apply downtime_entry_key in Hd.
    rewrite Hd. by apply list_elem_of_fmap_2. }
  destruct (decide (v = w)) as [->|Hne].
  - split; [|intros Hn; exfalso; apply Hn; csimpl; left].
    intros la [[= ->]|Hin]%elem_of_cons;
      [|exfalso; apply Hnot; by apply (list_elem_of_fmap_2 fst _ (w, la))].
    csimpl. unfold slashed_to. destruct (downtime_entry cur s (w, lw)) as [va|] eqn:Hd.
    + csimpl. rewrite lookup_slash_stakes by auto. revert Hd. unfold downtime_entry; cbn.
      destruct (is_down cur lw); [|done].
      destruct (ValidatorStakes s !! w) as [st|]; [|done]. unfold mbind, option_bind.
      destruct (slash_amount_of st _) as [a|] eqn:Ha; [|done]. intros [= <-].
      unfold slash_stake. rewrite lookup_alter_eq. cbn [fst snd]. rewrite Hm. simpl. by rewrite Ha.
    + rewrite lookup_slash_stakes by auto. rewrite Hm. revert Hd. unfold downtime_entry; cbn.
      destruct (is_down cur lw), (ValidatorStakes s !! w) as [st|]; [|done..].
      unfold mbind, option_bind. simpl. by destruct (slash_amount_of st _).
  - assert (Hstep : foldl slash_stake m (omap (downtime_entry cur s) ((w, lw) :: l))
      = foldl slash_stake (foldl slash_stake m (option_list (downtime_entry cur s (w, lw))))
          (omap (downtime_entry cur s) l)).
    { csimpl. by destruct (downtime_entry cur s (w, lw)). }
    rewrite Hstep.
    destruct (IH (foldl slash_stake m (option_list (downtime_entry cur s (w, lw)))) Hnd)
      as [IH1 IH2].
    { destruct (downtime_entry cur s (w, lw)) as [va|] eqn:Hd; [|done]. simpl.
      apply downtime_entry_key in Hd. unfold slash_stake. rewrite lookup_alter_ne; [done|].
      simpl in Hd. congruence. }
    split.
    + intros la [[= -> ->]|Hin]%elem_of_cons; [done|]. by apply IH1.
    + intros Hn. apply IH2. csimpl in Hn. by apply not_elem_of_cons in Hn as [_ ?].
Qed.

(** Slashes within the stakes lower the total by exactly their sum. *)
Lemma slashes_sum l (m : gmap AccountId Z) :
  NoDup l.*1 →
  (∀ va, va ∈ l → ∃ st, m !! va.1 = Some st ∧ in_uint U128 st ∧ 0 ≤ va.2 ≤ st) →
  map_sum (foldl slash_stake m l) = map_sum m - sumZ l.*2.
Proof.
  revert m; induction l as [|va l IH]; intros m Hnd Hl; csimpl; [lia|].
  csimpl in Hnd. apply NoDup_cons in Hnd as [Hnot Hnd].
  destruct (Hl va) as (st & Hst & Hr & Ha); [left|].
  rewrite IH; [|done|].
  - rewrite (slash_stake_insert m va st Hst), map_sum_insert, Hst. simpl.
    rewrite saturating_sub_le by (done || lia). lia.
  - intros va' Hin. destruct (Hl va') as (st' & Hst' & ?); [by right|].
    exists st'. split; [|done]. unfold slash_stake. rewrite lookup_alter_ne; [done|].
    intros Heq. apply Hnot. rewrite Heq. by apply list_elem_of_fmap_2.
Qed.

(** Slashes never raise the total stake. *)
Lemma slashes_sum_le l (m : gmap AccountId Z) :
  map_Forall (λ _ st, in_uint U128 st) m → Forall (λ va, 0 ≤ va.2) l →
  map_sum (foldl slash_stake m l) ≤ map_sum m.
Proof.
  intros Hm Hl. revert m Hm; induction Hl as [|va l Hva Hl IH]; intros m Hm; [done|]. simpl.
  destruct (m !! va.1) as [st|] eqn:Hst.
  - rewrite (slash_stake_insert m va st Hst). pose proof (Hm _ _ Hst) as Hr.
    etransitivity; [apply IH; apply map_Forall_insert_2; [|done]; by apply saturate_range|].
    rewrite map_sum_insert, Hst. simpl. rewrite saturating_sub_le by done.
    unfold in_uint in Hr. lia.
  - replace (slash_stake m va) with m; [by apply IH|].
    apply map_eq. intros w. unfold slash_stake. rewrite lookup_alter.
    case_decide; [subst; by rewrite Hst|done].
Qed.

(** The loop succeeds when every amount is computed. *)
Lemma for_each_slash_total cur l s :
  NoDup l.*1 →
  (∀ v st, v ∈ l.*1 → ValidatorStakes s !! v = Some st →
     is_Some (slash_amount_of st T_DowntimeSlashPercentage)) →
  ∃ s', for_each l (slash_if_down cur T_MaxDowntimeBlocks) s = (Ok tt, s').
Proof.
  revert s; induction l as [|e l IH]; intros s Hnd Hsome; [by eexists|].
  csimpl in *. apply NoDup_cons in Hnd as [Hnot Hnd].
  assert (∃ s1, slash_if_down cur T_MaxDowntimeBlocks e s = (Ok tt, s1)) as [s1 Hs1].
  { destruct e as [v la]. unfold slash_if_down. case_match; [|by eexists].
    run. destruct (ValidatorStakes s !! v) as [st|] eqn:Hst; [|by eexists].
    destruct (Hsome v st) as [a ->]; [left|done|]. run. by eexists. }
  rewrite (bind_run _ _ _ _ _ Hs1). apply slash_if_down_ok in Hs1 as [-> _].
  apply IH; [done|]. intros v st Hv. cbn. rewrite lookup_slash_stakes.
  - apply Hsome. by right.
  - destruct (downtime_entry cur s e) as [va|] eqn:Hd; simpl; [|by apply not_elem_of_nil].
    apply downtime_entry_key in Hd. rewrite list_elem_of_singleton. congruence.
Qed.

(** The slashes of a run of the loop over [LastActiveBlock]. *)
Definition downtime_slashes s : list (AccountId * Z) :=
  omap (downtime_entry (saturate U32 (block_number s)) s) (storage_iter (LastActiveBlock s)).

Context `{!FrameOk AccountId}.

Lemma storage_iter_keys {V} (m : gmap AccountId V) : NoDup (storage_iter m).*1.
Proof. rewrite storage_iter_perm. apply NoDup_fst_map_to_list. Qed.

Lemma storage_iter_elem {V} (m : gmap AccountId V) k x : (k, x) ∈ storage_iter m ↔ m !! k = Some x.
Proof. rewrite storage_iter_perm. apply elem_of_map_to_list. Qed.

Lemma check_downtime_slashing_ok s u s' :
  check_downtime_slashing s = (Ok u, s') → s' = apply_slashes (downtime_slashes s) s.
Proof.
  unfold check_downtime_slashing, downtime_slashes. rewrite !bind_gets.
  apply for_each_slash, storage_iter_keys.
Qed.

Lemma downtime_slashes_keys s : NoDup (downtime_slashes s).*1.
Proof.
  unfold downtime_slashes. pose proof (storage_iter_keys (LastActiveBlock s)) as Hnd.
  induction (storage_iter (LastActiveBlock s)) as [|e l IH]; csimpl in *; [constructor|].
  apply NoDup_cons in Hnd as [Hnot Hnd].
  destruct (downtime_entry _ s e) as [va|] eqn:Hd; [|by apply IH]. csimpl.
  apply NoDup_cons. split; [|by apply IH]. apply downtime_entry_key in Hd. rewrite Hd.
  intros (x & Hx & Hin)%list_elem_of_fmap. apply Hnot.
  apply list_elem_of_omap in Hin as (e' & He' & Hk). apply downtime_entry_key in Hk.
  rewrite Hx, Hk. by apply list_elem_of_fmap_2.
Qed.

Lemma downtime_slashes_nonneg s :
  stakes_wf s → 0 ≤ T_DowntimeSlashPercentage → Forall (λ va, 0 ≤ va.2) (downtime_slashes s).
Proof.
  intros Hwf Hp. apply Forall_forall. intros va (e & He & Hd)%list_elem_of_omap.
  unfold downtime_entry, mbind, option_bind in Hd.
  destruct (is_down _ _); [|done]. destruct (ValidatorStakes s !! e.1) as [st|] eqn:Hst; [|done].
  destruct (slash_amount_of st _) as [a|] eqn:Ha; [|done]. injection Hd as <-. cbn.
  pose proof (Hwf _ _ Hst) as [? ?].
  by pose proof (slash_amount_bounds st T_DowntimeSlashPercentage a ltac:(done) Hp Ha) as [? _].
Qed.

Lemma downtime_slashes_elem s va :
  stakes_wf s → 0 ≤ T_DowntimeSlashPercentage ≤ 100 → va ∈ downtime_slashes s →
  ∃ st, ValidatorStakes s !! va.1 = Some st ∧ in_uint U128 st ∧ 0 ≤ va.2 ≤ st.
Proof.
  intros Hwf Hp (e & He & Hd)%list_elem_of_omap.
  unfold downtime_entry, mbind, option_bind in Hd.
  destruct (is_down _ _); [|done]. destruct (ValidatorStakes s !! e.1) as [st|] eqn:Hst; [|done].
  destruct (slash_amount_of st _) as [a|] eqn:Ha; [|done]. injection Hd as <-. cbn.
  pose proof (Hwf _ _ Hst) as [? ?]. exists st. pose proof (slash_amount_bounds st T_DowntimeSlashPercentage a ltac:(done) (proj1 Hp) Ha).
  assert (st * T_DowntimeSlashPercentage / 100 ≤ st) by (apply Z.div_le_upper_bound; nia).
  unfold in_uint. split_and!; (done || lia).
Qed.
End Slashing.

(** ** Properties *)

Section Properties.
Context `{!Build, !ScalePrims, !Hashing, !Pqc, !Config}.
Context {AccountId : Type} `{Countable AccountId}.
Context `{!Frame AccountId, !FrameOk AccountId, !Currency AccountId}.
Implicit Types (s : State AccountId) (v : AccountId).

(** C18. The downtime check is one simultaneous update, whatever the order in which
    the storage iterates: when the amounts fit it succeeds, slashes exactly
    the stakers whose last activity is too old, by the percentage of the stake
    they had before, leaves everyone else and all balances alone, and its new
    records and events account for the whole loss of stake. *)
Theorem check_downtime_slashing_exact s :
  stakes_wf s → 0 ≤ T_DowntimeSlashPercentage ≤ 100 →
  (∀ v st, ValidatorStakes s !! v = Some st → st * T_DowntimeSlashPercentage < 2 ^ 128) →
  ∃ s' slashes, check_downtime_slashing s = (Ok tt, s') ∧
    (∀ v, ValidatorStakes s' !! v =
       match LastActiveBlock s !! v, ValidatorStakes s !! v with
       | Some last_active, Some st =>
           if is_down (saturate U32 (block_number s)) last_active
           then Some (st - st * T_DowntimeSlashPercentage / 100) else Some st
       | _, o => o
       end) ∧
    SlashingRecords s' = SlashingRecords s ++ (downtime_record (block_number s) <$> slashes) ∧
    events s' = events s ++ (downtime_event <$> slashes) ∧
    map_sum (ValidatorStakes s') = map_sum (ValidatorStakes s) - sumZ slashes.*2 ∧
    balances s' = balances s ∧ LastActiveBlock s' = LastActiveBlock s ∧
    BlockHeaders s' = BlockHeaders s ∧ CurrentPhase s' = CurrentPhase s.
Proof.
  intros Hwf Hp Hfit.
  assert (Hamount : ∀ v st, ValidatorStakes s !! v = Some st →
    slash_amount_of st T_DowntimeSlashPercentage
      = Some (st * T_DowntimeSlashPercentage / 100)).
  { intros v st Hst. pose proof (Hwf _ _ Hst) as [? ?]. specialize (Hfit _ _ Hst).
    apply slash_amount_fits. nia. }
  destruct (for_each_slash_total (saturate U32 (block_number s))
    (storage_iter (LastActiveBlock s)) s) as [s' Hrun];
    [apply storage_iter_keys|by intros v st _ Hst; rewrite (Hamount v st Hst)|].
  assert (Hok : check_downtime_slashing s = (Ok tt, s')) by done.
  pose proof (check_downtime_slashing_ok _ _ _ Hok) as ->.
  eexists _, (downtime_slashes s). split; [exact Hok|]. cbn. split_and!; try done.
  - intros v. unfold downtime_slashes. destruct (slashes_lookup (saturate U32 (block_number s)) s
      (storage_iter (LastActiveBlock s)) v (ValidatorStakes s)) as [Hin Hout];
      [apply storage_iter_keys|done|].
    destruct (LastActiveBlock s !! v) as [la|] eqn:Hla.
    + rewrite (Hin la) by (by apply storage_iter_elem). unfold slashed_to.
      destruct (ValidatorStakes s !! v) as [st|] eqn:Hst; [|done]. simpl.
      destruct (is_down _ la); [|done]. rewrite (Hamount v st Hst).
      pose proof (Hwf _ _ Hst) as [? ?]. rewrite saturating_sub_le; [|done|].
      * f_equal. assert (st * T_DowntimeSlashPercentage / 100 ≤ st); [|lia].
        apply Z.div_le_upper_bound; nia.
      * apply Z.div_pos; nia.
    + rewrite Hout; [done|]. intros (e & -> & He)%list_elem_of_fmap. destruct e as [w la].
      apply storage_iter_elem in He. simpl in *. congruence.
  - apply slashes_sum; [apply downtime_slashes_keys|].
    intros va Hva. by apply downtime_slashes_elem.
Qed.

(** C31. Any signer can report anybody for anything, without evidence: when the
    product fits, the call succeeds and takes the percentage of the reason from
    the stake; a reported account that had no stake becomes a validator entry
    of stake 0; no balance moves, no other stake changes, and the slash is not
    added to [SlashingRecords]. *)
Theorem report_misbehavior_effect o reporter v reason s :
  ensure_signed_origin o = Some reporter → stakes_wf s →
  0 ≤ slash_percentage_of reason ≤ 100 → stake_of v s * slash_percentage_of reason < 2 ^ 128 →
  ∃ s', dispatch o (Call_report_misbehavior v reason) s = (Ok tt, s') ∧
    ValidatorStakes s' =
      <[v := stake_of v s - stake_of v s * slash_percentage_of reason / 100]>
        (ValidatorStakes s) ∧
    balances s' = balances s ∧ SlashingRecords s' = SlashingRecords s ∧
    DoubleSignReports s' = (if decide (reason = DoubleSigning)
      then <[v := true]> (DoubleSignReports s) else DoubleSignReports s) ∧
    InvalidBlockReports s' = (if decide (reason = InvalidBlock)
      then <[v := true]> (InvalidBlockReports s) else InvalidBlockReports s) ∧
    events s' = events s ++
      [ValidatorSlashed v reason (stake_of v s * slash_percentage_of reason / 100)].
Proof.
  intros Ho Hwf Hp Hfit. destruct Hp as [Hp0 Hp1].
  assert (Hst : in_uint U128 (stake_of v s)).
  { unfold stake_of. destruct (ValidatorStakes s !! v) as [st|] eqn:E; simpl; [by eapply Hwf|].
    by vm_compute. }
  pose proof Hst as [? ?].
  assert (Ha : slash_amount_of (stake_of v s) (slash_percentage_of reason)
               = Some (stake_of v s * slash_percentage_of reason / 100)).
  { apply slash_amount_fits. split; [by apply Z.mul_nonneg_nonneg|done]. }
  eexists. split.
  { apply dispatch_ok, report_misbehavior_ok. do 2 eexists. by split_and!. }
  pose proof (slash_amount_bounds (stake_of v s) (slash_percentage_of reason) _ ltac:(done) Hp0 Ha).
  assert (stake_of v s * slash_percentage_of reason / 100 ≤ stake_of v s)
    by (apply Z.div_le_upper_bound; [lia|]; rewrite Z.mul_comm; by apply Z.mul_le_mono_nonneg_r).
  unfold reported. rewrite saturating_sub_le by (done || lia).
  rewrite Z.max_r by lia. destruct reason; by cbn.
Qed.

(** Repeated reports drain a stake: after as many reports as the stake has
    units, by whichever accounts, no further report can take anything because
    the stake is below 100 divided by the percentage of the reason. *)
Theorem repeated_reports_drain_stake (origins : list OriginFor) v reason s :
  Forall (λ o, is_Some (ensure_signed_origin o)) origins →
  in_uint U128 (stake_of v s) → 0 < slash_percentage_of reason ≤ 100 →
  stake_of v s * slash_percentage_of reason < 2 ^ 128 →
  ∃ s', for_each origins (λ o, dispatch o (Call_report_misbehavior v reason)) s = (Ok tt, s') ∧
    0 ≤ stake_of v s' ≤ stake_of v s ∧
    (stake_of v s ≤ Z.of_nat (length origins) →
     stake_of v s' * slash_percentage_of reason < 100).
Proof.
  set (pct := slash_percentage_of reason). intros Ho. revert s.
  induction Ho as [|o origins [reporter Ho] _ IH]; intros s Hst Hp Hfit.
  { exists s. split; [done|]. destruct Hst. simpl. split; [lia|]. nia. }
  destruct Hst as [Hst0 Hst1]. set (st := stake_of v s) in *.
  assert (Ha : slash_amount_of st pct = Some (st * pct / 100)) by (apply slash_amount_fits; nia).
  set (a := st * pct / 100) in *.
  assert (Hab : 0 ≤ a ≤ st ∧ 100 * a ≤ st * pct < 100 * a + 100)
    by (unfold a; div_bounds (st * pct) 100; nia).
  assert (Hstep : dispatch o (Call_report_misbehavior v reason) s
                  = (Ok tt, reported v reason a s)).
  { apply dispatch_ok, report_misbehavior_ok. do 2 eexists. by split_and!. }
  assert (Hnew : stake_of v (reported v reason a s) = st - a).
  { unfold stake_of at 1, reported. cbn. rewrite lookup_insert_eq. cbn. fold st.
    rewrite saturating_sub_le by (done || lia). lia. }
  destruct (IH (reported v reason a s)) as (s' & Hrun & Hle & Hend);
    [rewrite Hnew; unfold in_uint; lia|done|rewrite Hnew; nia|].
  rewrite Hnew in Hle, Hend. exists s'. split_and!; [|lia|lia|].
  - simpl. by rewrite (bind_run _ _ _ _ _ Hstep).
  - simpl length. intros Hlen. destruct (Z.eq_dec a 0) as [Hz|Hz]; [|apply Hend; lia].
    assert (stake_of v s' * pct ≤ st * pct) by (apply Z.mul_le_mono_nonneg_r; lia). lia.
Qed.
End Properties.

(** ** Evaluation *)

#[local] Existing Instance release_build.
#[local] Existing Instance runtime_config.
#[local] Instance sample_currency : Currency AccountId := ref_currency EXISTENTIAL_DEPOSIT.

(** At block 200, account 5 was last active in block 50 and account 6 in 150. *)
Definition idle_state : State AccountId :=
  set_block_number 200
    (set_ValidatorStakes (<[5 := 3000]> (<[6 := 5000]> (<[7 := 7000]> ∅)))
      (set_LastActiveBlock (<[5 := 50]> (<[6 := 150]> (<[8 := 1]> ∅)))
        (genesis_state (Ledger ∅ 0)))).

Lemma idle_state_wf : stakes_wf idle_state.
Proof.
  intros v st Hst. unfold idle_state in Hst; cbn in Hst.
  rewrite !lookup_insert in Hst. repeat case_decide; simplify_eq; by vm_compute.
Qed.

Lemma idle_state_fits pct v st :
  0 ≤ pct ≤ 100 → ValidatorStakes idle_state !! v = Some st → st * pct < 2 ^ 128.
Proof.
  intros Hp Hst. unfold idle_state in Hst; cbn in Hst.
  rewrite !lookup_insert in Hst. repeat case_decide; simplify_eq; lia.
Qed.

Lemma check_downtime_slashing_exact_witness :
  ∃ s' (slashes : list (AccountId * Z)), check_downtime_slashing idle_state = (Ok tt, s') ∧
    ValidatorStakes s' !! 5 = Some 2700 ∧ ValidatorStakes s' !! 6 = Some 5000 ∧
    map_sum (ValidatorStakes s') = 15000 - sumZ slashes.*2.
Proof.
  destruct (check_downtime_slashing_exact idle_state idle_state_wf ltac:(by vm_compute)
    (λ v st, idle_state_fits 10 v st ltac:(lia))) as (s' & sl & Hrun & Hv & _ & _ & Hsum & _).
  exists s', sl. split; [exact Hrun|]. split; [rewrite Hv; vm_compute; reflexivity|].
  split; [rewrite Hv; vm_compute; reflexivity|rewrite Hsum; vm_compute; reflexivity].
Defined.

(** Account 1 reports account 7 and then account 9, which never staked. *)
Lemma report_misbehavior_effect_witness :
  ∃ s', dispatch (signed 1) (Call_report_misbehavior 9 DoubleSigning) idle_state = (Ok tt, s') ∧
    ValidatorStakes s' !! 9 = Some 0 ∧ balances s' = balances idle_state.
Proof.
  destruct (report_misbehavior_effect (signed 1) 1 9 DoubleSigning idle_state eq_refl
    idle_state_wf ltac:(by vm_compute) ltac:(by vm_compute)) as (s' & Hrun & Hv & Hb & _).
  exists s'. split; [exact Hrun|]. split; [rewrite Hv; vm_compute; reflexivity|exact Hb].
Defined.

Lemma repeated_reports_drain_stake_witness :
  ∃ s', for_each (replicate 40 (signed 1))
          (λ o, dispatch o (Call_report_misbehavior 5 InvalidBlock)) idle_state = (Ok tt, s') ∧
        0 ≤ stake_of 5 s' ≤ 3000.
Proof.
  destruct (repeated_reports_drain_stake (replicate 40 (signed 1)) 5 InvalidBlock idle_state)
    as (s' & Hrun & Hle & _);
    [repeat constructor; by eexists|by vm_compute|by vm_compute|by vm_compute|].
  exists s'. split; [exact Hrun|exact Hle].
Defined.
