(* ===== verification/Safety.v ===== *)
(** * Absence of panics

    A panic in a call or a hook stops the block.  In a build without overflow
    checks, the release profile, none of the pallet's calls and hooks panics:
    the remaining partial operations, division and remainder, never see a zero
    divisor. *)

From S2P Require Import Prelude RustInt Scale Types Interfaces Reference Difficulty Entropy.
From S2P Require Import Pow Selection Rewards Pallet Runtime Calls Slashing.
Local Open Scope Z_scope.
Local Open Scope ghost_scope.

(** ** Arithmetic without overflow checks *)

Section Release.
Context `{!Build} (Hrelease : overflow_checks = false).
Context {AccountId : Type}.

Lemma arith_release w x : is_Some (arith w x).
Proof. unfold arith. case_match; [by eexists|]. rewrite Hrelease. by eexists. Qed.

Lemma add_release w x y : is_Some (add w x y).
Proof. apply arith_release. Qed.
Lemma sub_release w x y : is_Some (sub w x y).
Proof. apply arith_release. Qed.
Lemma mul_release w x y : is_Some (mul w x y).
Proof. apply arith_release. Qed.
Lemma div_release x y : y ≠ 0 → is_Some (div x y).
Proof. intros Hy. rewrite div_nz by done. by eexists. Qed.
Lemma rem_release x y : y ≠ 0 → is_Some (rem x y).
Proof. intros Hy. rewrite rem_nz by done. by eexists. Qed.

Lemma foldM_release {A B} (f : B → A → option B) acc l :
  (∀ b x, is_Some (f b x)) → is_Some (foldM f acc l).
Proof.
  intros Hf. destruct (foldM_total (λ _, True) f acc l) as (b & Hb & _); [done| |by exists b].
  intros b x _ _. destruct (Hf b x) as [b' Hb']. by exists b'.
Qed.

Lemma option_bind_Some {A B} (o : option A) (k : A → option B) :
  is_Some o → (∀ a, o = Some a → is_Some (k a)) → is_Some (o ≫= k).
Proof. intros [a ->] Hk. by apply Hk. Qed.

Lemma slash_amount_release st pct : is_Some (slash_amount_of st pct).
Proof. apply option_bind_Some; [apply mul_release|]. intros. by apply div_release. Qed.

Lemma calculate_block_reward_release t : is_Some (calculate_block_reward t).
Proof.
  unfold calculate_block_reward.
  apply option_bind_Some; [apply mul_release|intros].
  apply option_bind_Some; [by apply div_release|intros].
  apply option_bind_Some; [apply sub_release|by eexists].
Qed.

Lemma staker_reward_release r t x : t ≠ 0 → is_Some (staker_reward r t x).
Proof.
  intros Ht. apply option_bind_Some; [apply mul_release|]. intros. by apply div_release.
Qed.

Lemma total_stake_release (stakers : list (ValidatorStake AccountId)) :
  is_Some (total_stake_of stakers).
Proof. apply foldM_release. intros. apply add_release. Qed.

Lemma select_loop_release bn r c (stakers : list (ValidatorStake AccountId)) :
  is_Some (select_loop bn r c stakers).
Proof.
  revert c; induction stakers as [|x l IH]; intros c; [by eexists|].
  apply option_bind_Some; [apply add_release|]. intros a _. case_match; [by eexists|apply IH].
Qed.

Lemma select_release bn (stakers : list (ValidatorStake AccountId)) seed :
  is_Some (select_pos_validator bn stakers seed).
Proof.
  unfold select_pos_validator. destruct stakers as [|x l]; [by eexists|].
  apply option_bind_Some; [apply foldM_release; intros; apply add_release|]. intros t _.
  case_decide; [by eexists|]. apply option_bind_Some; [by apply rem_release|].
  intros. apply select_loop_release.
Qed.
End Release.

#[export] Hint Resolve add_release sub_release mul_release slash_amount_release
  calculate_block_reward_release staker_reward_release total_stake_release select_release
  : no_panic.

(** ** Calls and hooks *)

Section Safety.
Context `{!Build, !ScalePrims, !Hashing, !Pqc, !Config}.
Context {AccountId : Type} `{Countable AccountId}.
Context `{!Frame AccountId, !Currency AccountId}.
Implicit Types (s : State AccountId) (o : OriginFor).

Lemma no_panic_ensure_signed o : no_panic (ensure_signed (AccountId := AccountId) o).
Proof. apply no_panic_ok_or. Qed.
Lemma no_panic_deposit_event (e : Event AccountId) : no_panic (deposit_event e).
Proof. apply no_panic_modify. Qed.
Lemma no_panic_transfer (from to : AccountId) v er : no_panic (transfer_balance from to v er).
Proof. intros s. unfold transfer_balance. by destruct (transfer _ _ _ _ _). Qed.
Lemma no_panic_with_balances {A} (m : dispatch_m Balances (DispatchError AccountId) A) :
  no_panic m → no_panic (with_balances m).
Proof.
  intros Hm s. specialize (Hm (balances s)). unfold with_balances.
  by destruct (m (balances s)).
Qed.
Lemma no_panic_deposit (who : AccountId) v :
  no_panic (deposit (E := DispatchError AccountId) who v).
Proof. by intros b. Qed.
End Safety.

#[export] Hint Resolve no_panic_ensure_signed no_panic_deposit_event no_panic_transfer
  no_panic_with_balances no_panic_deposit : no_panic.

Section NoPanic.
Context `{!Build, !ScalePrims, !Hashing, !Pqc, !Config}.
Context {AccountId : Type} `{Countable AccountId}.
Context `{!Frame AccountId, !Currency AccountId}.
Context (Hrelease : overflow_checks = false).
Implicit Types (s : State AccountId) (o : OriginFor).

Lemma no_panic_validate_header h parent :
  no_panic (validate_block_header (AccountId := AccountId) h parent).
Proof. unfold validate_block_header. no_panic. Qed.

Lemma no_panic_distribute (miner : AccountId) stakers reward :
  no_panic (distribute_rewards (E := DispatchError AccountId) miner stakers reward).
Proof. unfold distribute_rewards. no_panic. Qed.

Lemma no_panic_call_body o c : no_panic (call_body (AccountId := AccountId) o c).
Proof.
  pose proof no_panic_validate_header. pose proof no_panic_distribute.
  destruct c; cbn [call_body];
    unfold submit_block, Pallet.stake, unstake, validate_block, report_misbehavior,
      register_pqc_key, get_miner_for_block; no_panic.
Qed.

Lemma no_panic_slash_if_down cur max e :
  no_panic (slash_if_down (AccountId := AccountId) cur max e).
Proof. destruct e. unfold slash_if_down. no_panic. Qed.

Context `{!FrameOk AccountId}.

Lemma no_panic_dispatch o c s : (dispatch (AccountId := AccountId) o c s).1 ≠ Panicked.
Proof.
  pose proof (dispatch_outcome o c s) as Hd. pose proof (no_panic_call_body o c s) as Hb.
  destruct (call_body o c s) as [[u|e|] s']; [by rewrite Hd..|done].
Qed.

Lemma adjust_difficulty_no_panic s :
  Z.of_nat (length (RecentBlockProducers s)) < 2 ^ 32 →
  (adjust_difficulty s).1 ≠ Panicked.
Proof.
  intros Hl. unfold adjust_difficulty. rewrite !bind_gets, calculate_entropy_eq by done. run.
  by case_decide.
Qed.

Lemma no_error_on_initialize n : no_error (on_initialize (AccountId := AccountId) n).
Proof.
  unfold on_initialize, check_downtime_slashing, slash_if_down, adjust_difficulty, deposit_event.
  no_error.
Qed.

Lemma on_initialize_no_panic n s :
  Z.of_nat (length (RecentBlockProducers s)) < 2 ^ 32 →
  (on_initialize n s).1 ≠ Panicked.
Proof.
  intros Hl. unfold on_initialize. rewrite !rem_nz by done. run.
  match goal with |- ((?m ≫= ?k) s).1 ≠ _ => assert (Hm : no_panic m);
    [|specialize (Hm s); destruct (m s) as [[[]|e|] s1] eqn:Hrun] end.
  - case_decide; [|by intros t]. unfold check_downtime_slashing.
    intros t. run. apply no_panic_for_each. intros. apply no_panic_slash_if_down.
  - rewrite (bind_run _ _ _ _ _ Hrun).
    assert (RecentBlockProducers s1 = RecentBlockProducers s) as Heq.
    { case_decide; [|by injection Hrun as <-].
      by apply check_downtime_slashing_ok in Hrun as ->. }
    run. destruct (decide (n mod 100 = 0)); [|by run].
    pose proof (adjust_difficulty_no_panic s1 ltac:(by rewrite Heq)) as Ha.
    unfold mbind, dispatch_bind. by destruct (adjust_difficulty s1) as [[[]|?|] s2].
  - by rewrite (bind_err _ _ _ _ _ Hrun).
  - done.
Qed.
End NoPanic.

(** ** Properties *)

Section Properties.
Context `{!Build, !ScalePrims, !Hashing, !Pqc, !Config}.
Context {AccountId : Type} `{Countable AccountId}.
Context `{!Frame AccountId, !FrameOk AccountId, !Currency AccountId}.

(** C25. In a build without overflow checks no call panics in any state, whatever
    its origin and arguments, and neither do the hooks in a state whose window
    of producers is shorter than 2^32: no transaction can stop the chain. *)
Theorem release_never_panics (s : State AccountId) :
  overflow_checks = false →
  (∀ o c, (dispatch o c s).1 ≠ Panicked) ∧
  (Z.of_nat (length (RecentBlockProducers s)) < 2 ^ 32 →
   ∀ n, (on_initialize n s).1 ≠ Panicked ∧ (on_finalize n s).1 ≠ Panicked).
Proof.
  intros Hrel. split; [intros o c; by apply no_panic_dispatch|].
  intros Hl n. split; [by apply on_initialize_no_panic|].
  unfold on_finalize. run. by case_decide.
Qed.
End Properties.

(** ** Evaluation *)

#[local] Existing Instance release_build.
#[local] Existing Instance runtime_config.
#[local] Instance sample_currency : Currency AccountId := ref_currency EXISTENTIAL_DEPOSIT.

Definition empty_chain : State AccountId :=
  genesis_state (Currency0 := sample_currency) (Ledger ∅ 0).

Lemma release_never_panics_witness : (on_initialize 100 empty_chain).1 ≠ Panicked.
Proof.
  refine (proj1 (proj2 (release_never_panics empty_chain _) _ 100)); by vm_compute.
Defined.
