(* ===== verification/Staking.v ===== *)
(** * Staking and unstaking

    [stake] and [unstake] of pallets/pallet-ghost-consensus/src/lib.rs: every
    outcome with its effect on the stakes and on the balances, the rollback of
    the storage layer, and the round trip. *)

From S2P Require Import Prelude RustInt Scale Types Interfaces Reference Difficulty Entropy.
From S2P Require Import Pow Selection Rewards Pallet Runtime Calls.
Local Open Scope Z_scope.
Local Open Scope ghost_scope.

Section Staking.
Context `{!Build, !ScalePrims, !Hashing, !Pqc, !Config}.
Context {AccountId : Type} `{Countable AccountId}.
Context `{!Frame AccountId, !FrameOk AccountId, !Currency AccountId, !CurrencyOk AccountId}.
Implicit Types (s : State AccountId) (o : OriginFor) (a : AccountId).

(** ** Transfers to and from the escrow account *)

(** The effect of a transfer that keeps its sender alive. *)
Record moved (from to : AccountId) (v : Z) (b b' : Balances) : Prop := {
  moved_from : free_balance from b' = free_balance from b - v;
  moved_to : free_balance to b' = free_balance to b + v;
  moved_other a : a ≠ from → a ≠ to → free_balance a b' = free_balance a b;
}.

Lemma keep_alive_moves from to v b b' :
  from ≠ to → transfer from to v KeepAlive b = inr b' → moved from to v b b'.
Proof.
  intros Hne Ht. split.
  - destruct (transfer_from _ _ _ _ _ _ Ht Hne) as [_ [?|[? _]]]; done.
  - by eapply transfer_to.
  - intros a Hf Hto. by eapply transfer_other.
Qed.

(** A transfer that leaves the sender at least the existential deposit, or
    nothing, moves exactly the amount. *)
Lemma allow_death_moves from to v b b' :
  from ≠ to → transfer from to v AllowDeath b = inr b' →
  existential_deposit ≤ free_balance from b - v ∨ free_balance from b = v →
  moved from to v b b'.
Proof.
  intros Hne Ht Hed. split.
  - destruct (transfer_from _ _ _ _ _ _ Ht Hne) as [_ [?|(_ & ? & ?)]]; lia.
  - by eapply transfer_to.
  - intros a Hf Hto. by eapply transfer_other.
Qed.

Definition unchanged_but_stakes s s' : Prop :=
  s' = set_balances (balances s') (set_ValidatorStakes (ValidatorStakes s') s).
End Staking.

(** ** Properties *)

Section Properties.
Context `{!Build, !ScalePrims, !Hashing, !Pqc, !Config}.
Context {AccountId : Type} `{Countable AccountId}.
Context `{!Frame AccountId, !FrameOk AccountId, !Currency AccountId, !CurrencyOk AccountId}.
Implicit Types (s : State AccountId) (o : OriginFor) (a : AccountId).

(** C15. Every outcome of [stake].  A success moves exactly the amount, at least
    the minimum stake, from the signer to the escrow account and adds it to the
    signer's stake (when the sum fits); every error leaves the state as it was
    and names its cause; a panic is an overflow of the stake in a build with
    overflow checks. *)
Theorem stake_outcome o amount s :
  (∀ a, ensure_signed_origin o = Some a → a ≠ account_id) →
  match dispatch o (Call_stake amount) s with
  | (Ok _, s') =>
      ∃ staker, ensure_signed_origin o = Some staker ∧ T_MinStake ≤ amount ∧
        moved staker account_id amount (balances s) (balances s') ∧
        unchanged_but_stakes s s' ∧
        (∀ a, a ≠ staker → ValidatorStakes s' !! a = ValidatorStakes s !! a) ∧
        (in_uint U128 (stake_of staker s + amount) →
           ValidatorStakes s' !! staker = Some (stake_of staker s + amount))
  | (Err e, s') => s' = s ∧
      match ensure_signed_origin o with
      | None => e = BadOrigin
      | Some staker =>
          if decide (amount < T_MinStake) then e = Module InsufficientStake
          else ∃ ce, transfer staker account_id amount KeepAlive (balances s) = inl ce ∧
                     e = CurrencyError ce
      end
  | (Panicked, _) => overflow_checks = true ∧ ∃ staker,
      ensure_signed_origin o = Some staker ∧ ¬ in_uint U128 (stake_of staker s + amount)
  end.
Proof.
  intros Hesc. pose proof (dispatch_outcome o (Call_stake amount) s) as Hd. simpl in Hd.
  destruct (Pallet.stake o amount s) as [[u|e|] s1] eqn:Hrun.
  - rewrite Hd. apply stake_ok in Hrun as (staker & b & n & Ho & Hm & Ht & Ha & -> & _).
    exists staker. cbn. split_and!; [done|done|by apply keep_alive_moves; [apply Hesc|]|done|..].
    + intros a Hne. by rewrite lookup_insert_ne.
    + intros Hin. rewrite lookup_insert_eq. rewrite add_fits in Ha by done. congruence.
  - rewrite Hd. split; [done|]. revert Hrun. unfold Pallet.stake, ensure_signed.
    destruct (ensure_signed_origin o) as [staker|]; run; [|by intros [= <- _]].
    destruct (Z.leb_spec T_MinStake amount); run;
      [rewrite decide_False by lia|rewrite decide_True by lia; by intros [= <- _]].
    destruct (transfer staker account_id amount KeepAlive (balances s)) as [ce|b] eqn:Ht.
    + rewrite (bind_err _ _ _ _ _ (transfer_balance_inl _ _ _ _ _ _ Ht)).
      intros [= <- _]. eauto.
    + rewrite (bind_run _ _ _ _ _ (transfer_balance_inr _ _ _ _ _ _ Ht)). run.
      by destruct (add _ _ _).
  - destruct (dispatch o (Call_stake amount) s) as [r s2]. simpl in Hd. subst r.
    revert Hrun. unfold Pallet.stake, ensure_signed.
    destruct (ensure_signed_origin o) as [staker|]; run; [|done].
    destruct (T_MinStake <=? amount); run; [|done].
    destruct (transfer staker account_id amount KeepAlive (balances s)) as [ce|b] eqn:Ht;
      [by rewrite (bind_err _ _ _ _ _ (transfer_balance_inl _ _ _ _ _ _ Ht))|].
    rewrite (bind_run _ _ _ _ _ (transfer_balance_inr _ _ _ _ _ _ Ht)). run.
    cbn. unfold stake_of, add, arith.
    case_bool_decide as Hin; [done|]. destruct overflow_checks; [|done]. eauto.
Qed.

(** C16. Every outcome of [unstake].  It never panics; a success lowers the signer's
    stake by the amount and pays exactly the amount to the signer, the escrow
    account losing that much, or all it has when it falls below the existential
    deposit; every error leaves the state as it was and names its cause. *)
Theorem unstake_outcome o amount s :
  (∀ a, ensure_signed_origin o = Some a → a ≠ account_id) → stakes_wf s → 0 ≤ amount →
  match dispatch o (Call_unstake amount) s with
  | (Ok _, s') =>
      ∃ staker current, ensure_signed_origin o = Some staker ∧
        ValidatorStakes s !! staker = Some current ∧ amount ≤ current ∧
        ValidatorStakes s' = <[staker := current - amount]> (ValidatorStakes s) ∧
        free_balance staker (balances s') = free_balance staker (balances s) + amount ∧
        (let rest := free_balance account_id (balances s) - amount in
         free_balance account_id (balances s') = rest ∨
         rest < existential_deposit ∧ free_balance account_id (balances s') = 0) ∧
        (∀ a, a ≠ staker → a ≠ account_id →
           free_balance a (balances s') = free_balance a (balances s)) ∧
        unchanged_but_stakes s s'
  | (Err e, s') => s' = s ∧
      match ensure_signed_origin o with
      | None => e = BadOrigin
      | Some staker =>
          match ValidatorStakes s !! staker with
          | None => e = Module NotAValidator
          | Some current =>
              if decide (current < amount) then e = Module InsufficientStake
              else ∃ ce, transfer account_id staker amount AllowDeath (balances s) = inl ce ∧
                         e = CurrencyError ce
          end
      end
  | (Panicked, _) => False
  end.
Proof.
  intros Hesc Hwf Hamount.
  pose proof (dispatch_outcome o (Call_unstake amount) s) as Hd. simpl in Hd.
  destruct (unstake o amount s) as [[u|e|] s1] eqn:Hrun.
  - rewrite Hd. apply unstake_ok in Hrun as (staker & b & c & n & Ho & Hc & Hm & Hn & Ht & -> & _).
    pose proof (Hwf _ _ Hc) as [? ?]. rewrite sub_fits in Hn by (unfold in_uint; lia).
    assert (Hne : account_id ≠ staker) by (symmetry; by apply Hesc).
    exists staker, c. cbn. split_and!; [done|done|done|congruence|by eapply transfer_to|..].
    + destruct (transfer_from _ _ _ _ _ _ Ht Hne) as [_ [?|(_ & ? & ?)]]; auto.
    + intros a H1a H2a. by eapply transfer_other.
    + done.
  - rewrite Hd. split; [done|]. revert Hrun. unfold unstake, ensure_signed.
    destruct (ensure_signed_origin o) as [staker|]; run; [|by intros [= <- _]].
    destruct (ValidatorStakes s !! staker) as [c|] eqn:Hc; run; [|by intros [= <- _]].
    pose proof (Hwf _ _ Hc) as [? ?].
    destruct (Z.leb_spec amount c); run;
      [rewrite decide_False by lia|rewrite decide_True by lia; by intros [= <- _]].
    rewrite sub_fits by (unfold in_uint; lia). run. unfold transfer_balance. cbn.
    destruct (transfer account_id staker amount AllowDeath (balances s)) as [ce|b]; [|done].
    intros [= <- _]. eauto.
  - revert Hrun. unfold unstake, ensure_signed.
    destruct (ensure_signed_origin o) as [staker|]; run; [|done].
    destruct (ValidatorStakes s !! staker) as [c|] eqn:Hc; run; [|done].
    pose proof (Hwf _ _ Hc) as [? ?]. destruct (Z.leb_spec amount c); run; [|done].
    rewrite sub_fits by (unfold in_uint; lia). run. unfold transfer_balance. cbn.
    by destruct (transfer _ _ _ _ _).
Qed.

(** [unstake] writes the lower stake before it asks for the transfer; when the
    transfer fails the storage layer restores the stake, so nobody can lose
    stake to a failed payment. *)
Theorem unstake_rolls_back o staker current amount ce s :
  ensure_signed_origin o = Some staker → ValidatorStakes s !! staker = Some current →
  0 ≤ amount ≤ current → in_uint U128 current →
  transfer account_id staker amount AllowDeath (balances s) = inl ce →
  (∃ s1, call_body o (Call_unstake amount) s = (Err (CurrencyError ce), s1) ∧
         ValidatorStakes s1 !! staker = Some (current - amount)) ∧
  dispatch o (Call_unstake amount) s = (Err (CurrencyError ce), s).
Proof.
  intros Ho Hc Ham [? ?] Ht.
  assert (Hbody : call_body o (Call_unstake amount) s =
    (Err (CurrencyError ce),
     set_ValidatorStakes (<[staker := current - amount]> (ValidatorStakes s)) s)).
  { simpl. unfold unstake, ensure_signed. rewrite Ho. run. rewrite Hc. run.
    rewrite (proj2 (Z.leb_le _ _)) by lia. run. rewrite sub_fits by (unfold in_uint; lia).
    run. by apply transfer_balance_inl. }
  split; [eexists; split; [exact Hbody|]; by apply lookup_insert_eq|].
  pose proof (dispatch_outcome o (Call_unstake amount) s) as Hd. by rewrite Hbody in Hd.
Qed.

(** C17. Staking an amount and unstaking it again restores every stake and every
    free balance, unless the escrow account held dust before. *)
Theorem stake_unstake_roundtrip o staker amount s s1 s2 u1 u2 :
  ensure_signed_origin o = Some staker → staker ≠ account_id → stakes_wf s → 0 ≤ amount →
  stake_of staker s + amount < 2 ^ 128 →
  existential_deposit ≤ free_balance account_id (balances s) ∨
    free_balance account_id (balances s) = 0 →
  dispatch o (Call_stake amount) s = (Ok u1, s1) →
  dispatch o (Call_unstake amount) s1 = (Ok u2, s2) →
  (∀ a, stake_of a s2 = stake_of a s) ∧
  (∀ a, free_balance a (balances s2) = free_balance a (balances s)).
Proof.
  intros Ho Hne Hwf Ham Hfit Hed Hr1%dispatch_ok Hr2%dispatch_ok. simpl in *.
  apply stake_ok in Hr1 as (x & b1 & n1 & Hx & _ & Ht1 & Ha & -> & _).
  apply unstake_ok in Hr2 as (y & b2 & c & n2 & Hy & Hc & _ & Hn2 & Ht2 & -> & _).
  assert (x = staker) as -> by congruence. assert (y = staker) as -> by congruence.
  cbn in *. rewrite lookup_insert_eq in Hc. injection Hc as <-.
  assert (Hst : in_uint U128 (stake_of staker s)).
  { unfold stake_of. destruct (ValidatorStakes s !! staker) as [st|] eqn:E; [by eapply Hwf|].
    by vm_compute. }
  destruct Hst as [? ?]. rewrite add_fits in Ha by (unfold in_uint; lia). injection Ha as <-.
  rewrite sub_fits in Hn2 by (unfold in_uint; lia). injection Hn2 as <-.
  pose proof (keep_alive_moves _ _ _ _ _ Hne Ht1) as [Hf1 Hto1 Hoth1].
  pose proof (allow_death_moves _ _ _ _ _ (not_eq_sym Hne) Ht2) as Hmv.
  destruct Hmv as [Hf2 Hto2 Hoth2]; [lia|]. split.
  - intros a. unfold stake_of; cbn. destruct (decide (a = staker)) as [->|Hna].
    + rewrite lookup_insert_eq. cbn. fold (stake_of staker s). lia.
    + by rewrite !lookup_insert_ne.
  - intros a. destruct (decide (a = staker)) as [->|Hna]; [lia|].
    destruct (decide (a = account_id)) as [->|Hnb]; [lia|].
    by rewrite Hoth2, Hoth1.
Qed.
End Properties.

(** ** Evaluation *)

#[local] Existing Instance release_build.
#[local] Existing Instance runtime_config.
#[local] Instance sample_currency : Currency AccountId := ref_currency EXISTENTIAL_DEPOSIT.
#[local] Instance sample_currency_ok : CurrencyOk AccountId :=
  ref_currency_ok EXISTENTIAL_DEPOSIT ltac:(by vm_compute).

(** Two accounts with three tokens each; account 2 has staked one more, which
    the escrow account holds. *)
Definition escrow : AccountId := account_id.
Definition funded_state : State AccountId :=
  set_ValidatorStakes (<[2 := UNIT]> ∅)
    (genesis_state (Ledger (<[1 := 3 * UNIT]> (<[2 := 3 * UNIT]> (<[escrow := UNIT]> ∅)))
                      (7 * UNIT))).

Lemma funded_state_wf : stakes_wf funded_state.
Proof.
  intros v st Hst. unfold funded_state in Hst; cbn in Hst.
  rewrite lookup_insert in Hst. case_decide; simplify_eq; by vm_compute.
Qed.

Definition staked_state : State AccountId :=
  (dispatch (signed 1) (Call_stake UNIT) funded_state).2.
Definition unstaked_state : State AccountId :=
  (dispatch (signed 1) (Call_unstake UNIT) staked_state).2.

Lemma staked_state_run :
  dispatch (signed 1) (Call_stake UNIT) funded_state = (Ok tt, staked_state).
Proof. apply run_ok. by vm_compute. Defined.
Lemma unstaked_state_run :
  dispatch (signed 1) (Call_unstake UNIT) staked_state = (Ok tt, unstaked_state).
Proof. apply run_ok. by vm_compute. Defined.

Lemma stake_outcome_witness : moved 1 escrow UNIT (balances funded_state) (balances staked_state).
Proof.
  pose proof (stake_outcome (signed 1) UNIT funded_state
                ltac:(intros a [= <-]; by vm_compute)) as Hout.
  rewrite staked_state_run in Hout. destruct Hout as (staker & Ho & _ & Hm & _).
  injection Ho as ->. exact Hm.
Defined.

Lemma unstake_outcome_witness :
  let s' := (dispatch (signed 2) (Call_unstake (UNIT / 2)) funded_state).2 in
  free_balance 2 (balances s') = free_balance 2 (balances funded_state) + UNIT / 2.
Proof.
  intros s'.
  pose proof (unstake_outcome (signed 2) (UNIT / 2) funded_state
                ltac:(intros a [= <-]; by vm_compute) funded_state_wf
                ltac:(by vm_compute)) as Hout.
  rewrite (run_ok (dispatch (signed 2) (Call_unstake (UNIT / 2)) funded_state)) in Hout
    by (by vm_compute).
  destruct Hout as (staker & c & Ho & _ & _ & _ & Hf & _). injection Ho as <-. exact Hf.
Defined.

(** The stake is recorded but the escrow account is empty. *)
Definition unbacked_state : State AccountId :=
  set_balances (Ledger (<[1 := 3 * UNIT]> ∅) (3 * UNIT)) funded_state.

Definition transfer_failure : @BalancesError AccountId sample_currency := tt.

Lemma unstake_rolls_back_witness :
  dispatch (signed 2) (Call_unstake UNIT) unbacked_state
    = (Err (CurrencyError transfer_failure), unbacked_state).
Proof.
  apply (unstake_rolls_back (signed 2) 2 UNIT UNIT transfer_failure unbacked_state);
    [by vm_compute|by vm_compute|by vm_compute|by vm_compute|].
  unfold transfer_failure. vm_compute. reflexivity.
Defined.

Lemma stake_unstake_roundtrip_witness :
  (∀ a, stake_of a unstaked_state = stake_of a funded_state) ∧
  (∀ a, free_balance a (balances unstaked_state) = free_balance a (balances funded_state)).
Proof.
  apply (stake_unstake_roundtrip (signed 1) 1 UNIT funded_state staked_state unstaked_state tt tt);
    [done|by vm_compute|exact funded_state_wf|by vm_compute|by vm_compute|left; by vm_compute
    |exact staked_state_run|exact unstaked_state_run].
Defined.
