(* ===== verification/Consensus.v ===== *)
(** * Submitting and validating blocks

    [submit_block] and [validate_block] of
    pallets/pallet-ghost-consensus/src/lib.rs as a list of checks followed by
    one update of the state, the rolling window of producers, and
    [distribute_block_rewards]. *)

From S2P Require Import Prelude RustInt Scale Types Interfaces Reference Difficulty Entropy.
From S2P Require Import Pow Selection Rewards Pallet Runtime Calls Slashing Safety.
Local Open Scope Z_scope.
Local Open Scope ghost_scope.

(** ** Check lists *)

(** The error of the first check that fails. *)
Fixpoint first_failing {E} (checks : list (bool * E)) : option E :=
  match checks with
  | [] => None
  | (b, e) :: checks => if b then first_failing checks else Some e
  end.

Section Consensus.
Context `{!Build, !ScalePrims, !Hashing, !Pqc, !Config}.
Context {AccountId : Type} `{Countable AccountId}.
Context `{!Frame AccountId, !Currency AccountId}.
Implicit Types (s : State AccountId) (o : OriginFor) (h : GhostBlockHeader).

(** Headers are stored under their own number. *)
Definition headers_keyed s : Prop :=
  map_Forall (λ n h, number h = n ∧ in_uint U32 n) (BlockHeaders s).

(** The checks of a submission that the code makes in this order.  The check
    of the number against the parent's is missing: it cannot fail. *)
Definition submit_checks o h s : list (bool * DispatchError AccountId) :=
  let parent := BlockHeaders s !! (number h - 1) in
  [ (bool_decide (is_Some (ensure_signed_origin o)), BadOrigin);
    (bool_decide (CurrentPhase s = PowMining), Module InvalidPhaseTransition);
    (bool_decide (number h ≠ 0), Module InvalidBlockNumber);
    (bool_decide (is_Some parent), Module BlockNotFound);
    (bool_decide (hash_of scale_header <$> parent = Some (parent_hash h)),
       Module InvalidParentHash);
    (verify_pow_enhanced h (difficulty h), Module InvalidPow);
    (Difficulty s / 2 <=? difficulty h, Module DifficultyTooLow);
    (difficulty h <=? saturating_mul U64 (Difficulty s) 2, Module DifficultyTooHigh) ].

Lemma validate_block_header_run h parent s :
  number h = number parent + 1 → in_uint U32 (number h) →
  validate_block_header h parent s =
    match first_failing
      [ (bool_decide (hash_of scale_header parent = parent_hash h), Module InvalidParentHash);
        (verify_pow_enhanced h (difficulty h), Module InvalidPow);
        (Difficulty s / 2 <=? difficulty h, Module DifficultyTooLow);
        (difficulty h <=? saturating_mul U64 (Difficulty s) 2, Module DifficultyTooHigh) ]
    with None => (Ok tt, s) | Some e => (Err e, s) end.
Proof.
  intros Hn Hu. unfold validate_block_header. rewrite add_fits by congruence. run.
  rewrite (bool_decide_eq_true_2 (number h = _)) by done. run.
  rewrite (bool_decide_ext (parent_hash h = _) (hash_of scale_header parent = parent_hash h))
    by done.
  simpl. case_bool_decide; run; [|done].
  destruct (verify_pow_enhanced _ _); run; [|done].
  destruct (_ / 2 <=? _); run; [|done]. by destruct (_ <=? saturating_mul _ _ _).
Qed.

Lemma submit_block_run o h s :
  headers_keyed s → in_uint U32 (number h) →
  submit_block o h s =
    match first_failing (submit_checks o h s), ensure_signed_origin o with
    | None, Some miner => (Ok tt, submitted h miner s)
    | Some e, _ => (Err e, s)
    | None, None => (Err BadOrigin, s)
    end.
Proof.
  intros Hk [Hn0 Hn1]. unfold submit_block, submit_checks, ensure_signed, deposit_event.
  simpl. destruct (ensure_signed_origin o) as [miner|]; run; [|done].
  case_bool_decide; run; [|done].
  destruct (Z.ltb_spec 0 (number h)); run;
    [rewrite (bool_decide_eq_true_2 (number h ≠ 0)) by lia
    |by rewrite (bool_decide_eq_false_2 (number h ≠ 0)) by (intros ?; lia)].
  unfold checked_sub. rewrite decide_False by lia. run.
  destruct (BlockHeaders s !! (number h - 1)) as [parent|] eqn:Hpar; run; [|done].
  rewrite (bool_decide_eq_true_2 (is_Some (Some parent))) by (by eexists).
  destruct (Hk _ _ Hpar) as [Hpn ?]. simpl.
  assert (Hvr := validate_block_header_run h parent s ltac:(lia) ltac:(by split)).
  rewrite (bool_decide_ext (Some (hash_of scale_header parent) = Some (parent_hash h))
    (hash_of scale_header parent = parent_hash h)) by (split; congruence).
  simpl in Hvr. revert Hvr.
  case_match; intros Hvr; [by rewrite (bind_err _ _ _ _ _ Hvr)|].
  rewrite (bind_run _ _ _ _ _ Hvr). run. done.
Qed.

(** The header with another claimed difficulty. *)
Definition set_difficulty h (d : Z) : GhostBlockHeader :=
  {| number := number h; parent_hash := parent_hash h; state_root := state_root h;
     extrinsics_root := extrinsics_root h; nonce := nonce h; difficulty := d;
     validator_signature := validator_signature h; pqc_signature := pqc_signature h |}.

(** ** The window of producers *)

Lemma push_recent_spec (recent : list AccountId) miner :
  (length recent ≤ 100)%nat →
  push_recent recent miner = drop (length recent - 99) (recent ++ [miner]).
Proof.
  intros Hl. unfold push_recent. destruct (Nat.leb_spec 100 (length recent)) as [Hge|Hlt].
  - assert (Hl' : length recent = 100%nat) by lia.
    destruct recent as [|x recent]; [done|]. simpl in *.
    replace (length recent) with 99%nat by lia. simpl. by rewrite drop_0.
  - replace (length recent - 99)%nat with 0%nat by lia. rewrite drop_0.
    by rewrite (proj2 (Nat.ltb_lt _ _)).
Qed.

Lemma push_recent_length (recent : list AccountId) miner :
  (length recent ≤ 100)%nat → (length (push_recent recent miner) ≤ 100)%nat.
Proof.
  intros Hl. rewrite push_recent_spec by done. rewrite length_drop, length_app. simpl. lia.
Qed.

(** ** The checks of a validation *)

Definition selection_at (bn : Z) s : option (option (PosSelection AccountId)) :=
  select_pos_validator (block_number s) (collect_stakers s) (selection_seed bn s).

Definition selects (validator : AccountId) (bn : Z) s : bool :=
  match selection_at bn s with
  | Some (Some selection) => bool_decide (selected_validator selection = validator)
  | _ => false
  end.

Definition pqc_verifies (validator : AccountId) (bn : Z) (sig : PqcSignature) s : bool :=
  match ValidatorPqcPublicKeys s !! validator with
  | Some key => verify_pqc_signature (array_bytes (validator_message validator bn))
                  (array_bytes sig) (array_bytes key)
  | None => false
  end.

Definition validate_checks o (bn : Z) (sig : PqcSignature) s
    : list (bool * DispatchError AccountId) :=
  match ensure_signed_origin o with
  | None => [(false, BadOrigin)]
  | Some v =>
      [ (bool_decide (is_Some (ValidatorStakes s !! v)), Module NotAValidator);
        (bool_decide (is_Some (BlockHeaders s !! bn)), Module BlockNotFound);
        (bool_decide (CurrentPhase s = PosValidation), Module InvalidPhaseTransition);
        (selects v bn s, Module NotAValidator);
        (negb T_PqcRequired || bool_decide (is_Some (ValidatorPqcPublicKeys s !! v)),
           Module PqcPublicKeyNotFound);
        (negb T_PqcRequired || pqc_verifies v bn sig s, Module InvalidPqcSignature);
        (bool_decide (is_Some (BlockProducers s !! bn)), Module BlockNotFound) ]
  end.

Lemma with_balances_err {A} (m : dispatch_m Balances (DispatchError AccountId) A) s e s' :
  with_balances m s = (Err e, s') → ∃ b, m (balances s) = (Err e, b).
Proof. unfold with_balances. destruct (m (balances s)) as [r b]. intros [= -> _]. eauto. Qed.

(** The distribution of a reward returns no error. *)
Lemma distribute_rewards_no_err miner stakers reward b e b' :
  distribute_rewards (E := DispatchError AccountId) miner stakers reward b ≠ (Err e, b').
Proof.
  assert (Hloop : ∀ t l b, for_each l (λ staker,
      staker_reward ← may_panic (staker_reward (stakers_reward reward) t (Types.stake staker));
      deposit (E := DispatchError AccountId) (account staker) staker_reward) b ≠ (Err e, b')).
  { intros t l. induction l as [|x l IH]; intros b0; [done|]. simpl.
    destruct (staker_reward _ _ _); run; [|done]. apply IH. }
  unfold distribute_rewards, deposit. run.
  destruct (total_stake_of stakers) as [t|]; run; [|done]. by case_decide.
Qed.

Lemma pqc_check_err (validator : AccountId) bn (sig : PqcSignature) s e s' :
  (if T_PqcRequired then
     keys ← gets ValidatorPqcPublicKeys;
     key ← ok_or (keys !! validator) (Module PqcPublicKeyNotFound);
     ensure (verify_pqc_signature (array_bytes (validator_message validator bn))
               (array_bytes sig) (array_bytes key)) (Module InvalidPqcSignature)
   else mret tt) s = (Err e, s') →
  first_failing
    [ (negb T_PqcRequired || bool_decide (is_Some (ValidatorPqcPublicKeys s !! validator)),
         Module PqcPublicKeyNotFound);
      (negb T_PqcRequired || pqc_verifies validator bn sig s, Module InvalidPqcSignature) ]
  = Some e.
Proof.
  unfold pqc_verifies. destruct T_PqcRequired; [|done]. run. simpl.
  destruct (ValidatorPqcPublicKeys s !! validator) as [key|]; run; [|by intros [= <- _]].
  rewrite bool_decide_eq_true_2 by (by eexists).
  destruct (verify_pqc_signature _ _ _); run; [done|]. by intros [= <- _].
Qed.

Lemma pqc_checks_pass (validator : AccountId) bn sig s :
  pqc_accepts validator bn sig s →
  negb T_PqcRequired || bool_decide (is_Some (ValidatorPqcPublicKeys s !! validator)) = true ∧
  negb T_PqcRequired || pqc_verifies validator bn sig s = true.
Proof.
  unfold pqc_accepts, pqc_verifies. intros Hacc. destruct T_PqcRequired; [|done].
  destruct Hacc as (key & Hk & Hv); [done|]. rewrite Hk. simpl. by rewrite Hv.
Qed.

(** An error of the body is that of the first check that fails. *)
Lemma validate_block_err o bn sig s e s' :
  validate_block o bn sig s = (Err e, s') → first_failing (validate_checks o bn sig s) = Some e.
Proof.
  unfold validate_block, validate_checks, ensure_signed, deposit_event.
  destruct (ensure_signed_origin o) as [v|]; run; [|by intros [= <- _]]. simpl.
  case_bool_decide; run; [|by intros [= <- _]].
  destruct (BlockHeaders s !! bn) as [h|]; run; [|by intros [= <- _]].
  rewrite (bool_decide_eq_true_2 (is_Some (Some h))) by (by eexists).
  case_bool_decide; run; [|by intros [= <- _]].
  unfold selects, selection_at, selection_seed.
  destruct (select_pos_validator _ _ _) as [[sel|]|]; run; [|by intros [= <- _]|done].
  case_bool_decide; run; [|by intros [= <- _]].
  fold (validator_message v bn).
  match goal with |- (?m ≫= ?k) s = _ → _ => destruct (m s) as [[[]|e1|] s1] eqn:Hm end.
  - rewrite (bind_run _ _ _ _ _ Hm). apply pqc_check_ok in Hm as (Hacc & -> & _).
    destruct (pqc_checks_pass _ _ _ _ Hacc) as [-> ->]. run.
    destruct (calculate_block_reward T_BlockReward) as [reward|]; run; [|done].
    unfold get_miner_for_block. run. cbn.
    destruct (BlockProducers s !! bn) as [miner|]; run; [|by intros [= <- _]].
    intros Hrun. exfalso. revert Hrun.
    match goal with |- (?m ≫= ?k) ?t = _ → _ => destruct (m t) as [[[]|e1|] s1] eqn:Hd end.
    + rewrite (bind_run _ _ _ _ _ Hd). by run.
    + apply with_balances_err in Hd as [b' Hd]. by apply distribute_rewards_no_err in Hd.
    + by rewrite (bind_panic _ _ _ _ Hd).
  - rewrite (bind_err _ _ _ _ _ Hm). intros [= <- _]. apply pqc_check_err in Hm.
    simpl in Hm. repeat case_match; simplify_eq; done.
  - by rewrite (bind_panic _ _ _ _ Hm).
Qed.

Lemma validate_checks_pass o validator bn sig s h selection miner :
  ensure_signed_origin o = Some validator → is_Some (ValidatorStakes s !! validator) →
  BlockHeaders s !! bn = Some h → CurrentPhase s = PosValidation →
  selection_at bn s = Some (Some selection) → selected_validator selection = validator →
  pqc_accepts validator bn sig s → BlockProducers s !! bn = Some miner →
  first_failing (validate_checks o bn sig s) = None.
Proof.
  intros Ho Hst Hh Hph Hsel Hv Hpqc Hm. unfold validate_checks, selects.
  rewrite Ho, Hh, Hm, Hsel. destruct (pqc_checks_pass _ _ _ _ Hpqc) as [Hp1 Hp2]. simpl.
  rewrite !bool_decide_eq_true_2 by done. rewrite Hp2.
  case_match; [done|]. rewrite orb_false_iff in *. by destruct T_PqcRequired.
Qed.
End Consensus.

(** ** Rewards through the two paths *)

Section Distribution.
Context `{!Build, !ScalePrims, !Hashing, !Pqc, !Config}.
Context {AccountId : Type} `{Countable AccountId}.
Context `{!Frame AccountId, !Currency AccountId}.
Implicit Types (s : State AccountId).

Lemma set_balances_twice (b b' : Balances) s : set_balances b (set_balances b' s) = set_balances b s.
Proof. done. Qed.
Lemma set_balances_id s : set_balances (balances s) s = s.
Proof. by destruct s. Qed.

Lemma with_balances_bind {A B} (m : dispatch_m Balances (DispatchError AccountId) A)
    (k : A → dispatch_m Balances (DispatchError AccountId) B) s :
  with_balances (m ≫= k) s = (with_balances m ≫= λ a, with_balances (k a)) s.
Proof.
  unfold with_balances, mbind, dispatch_bind. destruct (m (balances s)) as [[a|e|] b]; [|done..].
  cbn. by destruct (k a b).
Qed.

Lemma with_balances_ret {A} (a : A) s :
  with_balances (mret a : dispatch_m Balances (DispatchError AccountId) A) s = (Ok a, s).
Proof. unfold with_balances. cbn. by rewrite set_balances_id. Qed.

Lemma with_balances_may_panic {A} (o : option A) s :
  with_balances (may_panic o : dispatch_m Balances (DispatchError AccountId) A) s
    = may_panic o s.
Proof. unfold with_balances. destruct o; cbn; by rewrite set_balances_id. Qed.

Lemma bind_ext {A B} (m m' : dispatch_m (State AccountId) (DispatchError AccountId) A)
    (k k' : A → dispatch_m (State AccountId) (DispatchError AccountId) B) s :
  m s = m' s → (∀ a t, k a t = k' a t) → (m ≫= k) s = (m' ≫= k') s.
Proof.
  intros Hm Hk. unfold mbind, dispatch_bind. rewrite Hm.
  by destruct (m' s) as [[a|e|] t]; [apply Hk|..].
Qed.

Lemma with_balances_for_each {A} (l : list A)
    (body : A → dispatch_m Balances (DispatchError AccountId) unit) s :
  with_balances (for_each l body) s = for_each l (λ x, with_balances (body x)) s.
Proof.
  revert s; induction l as [|x l IH]; intros s; simpl; [apply with_balances_ret|].
  rewrite with_balances_bind. by apply bind_ext.
Qed.

Lemma for_each_ext {A} (l : list A)
    (f g : A → dispatch_m (State AccountId) (DispatchError AccountId) unit) s :
  (∀ x t, f x t = g x t) → for_each l f s = for_each l g s.
Proof.
  intros Hfg. revert s; induction l as [|x l IH]; intros s; simpl; [done|]. by apply bind_ext.
Qed.
End Distribution.

(** ** Properties *)

Section Properties.
Context `{!Build, !ScalePrims, !Hashing, !Pqc, !Config}.
Context {AccountId : Type} `{Countable AccountId}.
Context `{!Frame AccountId, !FrameOk AccountId, !Currency AccountId}.
Implicit Types (s : State AccountId) (o : OriginFor) (h : GhostBlockHeader).

(** C1. [submit_block] refines its check list: on a state whose headers are stored
    under their own numbers, the call fails with the error of the first check
    that fails and changes nothing, and when all pass it performs exactly the
    submission.  It never panics, and the check of the number against the
    parent's, which the code makes as well, never fails. *)
Theorem submit_block_refines o h s :
  headers_keyed s → in_uint U32 (number h) →
  match first_failing (submit_checks o h s), ensure_signed_origin o with
  | Some e, _ => dispatch o (Call_submit_block h) s = (Err e, s)
  | None, Some miner => dispatch o (Call_submit_block h) s = (Ok tt, submitted h miner s)
  | None, None => False
  end.
Proof.
  intros Hk Hu. pose proof (submit_block_run o h s Hk Hu) as Hrun.
  pose proof (dispatch_outcome o (Call_submit_block h) s) as Hd. simpl call_body in Hd.
  rewrite Hrun in Hd. destruct (first_failing (submit_checks o h s)) as [e|] eqn:Hf; [done|].
  destruct (ensure_signed_origin o) as [miner|] eqn:Ho; [done|].
  unfold submit_checks in Hf. simpl in Hf. by rewrite Ho in Hf.
Qed.

(** C38. The difficulty a miner has to meet is twice the stored target: the claimed
    difficulty is not hashed, so a header whose proof of work meets
    [2 * Difficulty] (saturated) but perhaps not [Difficulty] is accepted as
    soon as it claims that value, and no accepted header misses it. *)
Theorem submit_block_effective_target o miner parent h s :
  ensure_signed_origin o = Some miner → CurrentPhase s = PowMining →
  BlockHeaders s !! (number h - 1) = Some parent → number h = number parent + 1 →
  0 < number h < 2 ^ 32 → parent_hash h = hash_of scale_header parent →
  0 ≤ Difficulty s < 2 ^ 64 →
  let target := saturating_mul U64 (Difficulty s) 2 in
  (∃ s', dispatch o (Call_submit_block (set_difficulty h target)) s = (Ok tt, s')) ↔
  verify_pow_enhanced h target = true.
Proof.
  intros Ho Hph Hpar Hn Hu Hp Hd target.
  assert (Hpow : verify_pow_enhanced (set_difficulty h target) target
                 = verify_pow_enhanced h target) by done.
  split.
  - intros (s' & Hr%dispatch_ok). apply submit_block_ok in Hr
      as (? & ? & _ & _ & _ & _ & Hv & _). destruct Hv. simpl in *. congruence.
  - intros Hok. eexists. apply dispatch_ok, submit_block_ok. exists miner, parent.
    split_and!; [done|done|simpl; lia|done| |reflexivity|done].
    split; simpl; [|done|congruence| |done].
    + rewrite add_fits by (unfold in_uint; lia). by rewrite Hn.
    + unfold target, saturating_mul, saturate, max_value. div_bounds (Difficulty s) 2. lia.
Qed.

(** C26. End to end: a nonce that the mining worker finds for the header's own
    difficulty, within the accepted range, is accepted by the pallet, which
    then waits for the validation of that header. *)
Theorem mined_block_is_accepted o miner parent h n s :
  ensure_signed_origin o = Some miner → CurrentPhase s = PowMining →
  BlockHeaders s !! (number h - 1) = Some parent → number h = number parent + 1 →
  0 < number h < 2 ^ 32 → parent_hash h = hash_of scale_header parent →
  Difficulty s / 2 ≤ difficulty h ≤ saturating_mul U64 (Difficulty s) 2 →
  mine_block (GhostMiningWorker_new (difficulty h)) h = Some n →
  ∃ s', dispatch o (Call_submit_block (set_nonce h n)) s = (Ok tt, s') ∧
    CurrentPhase s' = PosValidation ∧ BlockHeaders s' !! number h = Some (set_nonce h n) ∧
    BlockProducers s' !! number h = Some miner.
Proof.
  intros Ho Hph Hpar Hn Hu Hp Hd Hmine. apply mine_loop_sound in Hmine as (_ & Hok & _).
  eexists. split.
  { apply dispatch_ok, submit_block_ok. exists miner, parent.
    split_and!; [done|done|simpl; lia|done| |reflexivity|done].
    split; simpl; [|done|done|lia|lia].
    rewrite add_fits by (unfold in_uint; lia). by rewrite Hn. }
  simpl. by rewrite !lookup_insert_eq.
Qed.

(** The window of recent producers is the last hundred of the producers
    pushed so far, oldest first. *)
Theorem recent_window_is_last_hundred (miners : list AccountId) :
  foldl push_recent [] miners = drop (length miners - 100) miners.
Proof.
  induction miners as [|m miners IH] using rev_ind; [done|].
  rewrite foldl_app, IH. simpl. rewrite push_recent_spec.
  - rewrite length_drop, length_app. simpl.
    destruct (Nat.le_gt_cases (length miners) 99).
    + replace (length miners - 100)%nat with 0%nat by lia. rewrite drop_0.
      replace (length miners - 0 - 99)%nat with 0%nat by lia.
      by replace (length miners + 1 - 100)%nat with 0%nat by lia.
    + replace (length miners - (length miners - 100) - 99)%nat with 1%nat by lia.
      rewrite <-drop_app_le by lia. rewrite drop_drop. f_equal. lia.
  - rewrite length_drop. lia.
Qed.

(** C2. Every outcome of [validate_block].  A success is a call in the validation
    phase by the staker that the stake-weighted selection picks for this block
    number, with a valid signature if the runtime requires one; it signs the
    header, pays the reward and moves to finalization.  An error is that of the
    first check of the list that fails, and changes nothing.  A panic needs a
    build with overflow checks. *)
Theorem validate_block_outcome o bn sig s :
  match dispatch o (Call_validate_block bn sig) s with
  | (Ok _, s') =>
      first_failing (validate_checks o bn sig s) = None ∧
      ∃ validator h selection reward miner b,
        ensure_signed_origin o = Some validator ∧ BlockHeaders s !! bn = Some h ∧
        selection_at bn s = Some (Some selection) ∧
        selected_validator selection = validator ∧
        calculate_block_reward T_BlockReward = Some reward ∧
        BlockProducers s !! bn = Some miner ∧
        distribute_rewards (E := DispatchError AccountId) miner (collect_stakers s) reward
          (balances s) = (Ok tt, b) ∧
        s' = validated bn sig validator miner selection h reward b s
  | (Err e, s') => s' = s ∧ first_failing (validate_checks o bn sig s) = Some e
  | (Panicked, _) => overflow_checks = true
  end.
Proof.
  pose proof (dispatch_outcome o (Call_validate_block bn sig) s) as Hd. simpl in Hd.
  destruct (validate_block o bn sig s) as [[[]|e|] s1] eqn:Hrun.
  - rewrite Hd. apply validate_block_ok in Hrun
      as (v & h & sel & rw & m & b & Ho & Hst & Hh & Hph & Hsel & Hv & Hpqc & Hrw & Hm & Hb & -> & _).
    split; [by eapply validate_checks_pass|]. exists v, h, sel, rw, m, b. by split_and!.
  - rewrite Hd. split; [done|]. by eapply validate_block_err.
  - destruct (dispatch o _ s) as [r s2]. simpl in Hd. subst r.
    destruct overflow_checks eqn:Hc; [done|]. exfalso.
    pose proof (no_panic_call_body Hc o (Call_validate_block bn sig) s) as Hn. simpl in Hn.
    by rewrite Hrun in Hn.
Qed.

(** A build without [std], the Wasm runtime, rejects every Dilithium signature:
    with [PqcRequired] set there, no block is ever validated. *)
Theorem pqc_required_needs_std o bn sig s :
  feature_std = false → T_PqcRequired = true →
  ∀ u s', dispatch o (Call_validate_block bn sig) s ≠ (Ok u, s').
Proof.
  intros Hstd Hreq u s' Hr%dispatch_ok. apply validate_block_ok in Hr
    as (v & ? & ? & ? & ? & ? & _ & _ & _ & _ & _ & _ & Hpqc & _).
  destruct (Hpqc Hreq) as (key & _ & Hv). unfold verify_pqc_signature in Hv.
  by rewrite Hstd in Hv.
Qed.

(** [distribute_block_rewards] computes and pays what [calculate_block_reward]
    and [distribute_rewards] do in [validate_block], in every state and build,
    panics included, and reports it with the same event. *)
Theorem distribute_block_rewards_equiv miner bn s :
  distribute_block_rewards miner bn s =
  (reward ← may_panic (calculate_block_reward T_BlockReward);
   stakers ← gets collect_stakers;
   with_balances (distribute_rewards miner stakers reward) ;;
   deposit_event (RewardsDistributed miner (miner_reward reward) (stakers_reward reward))) s.
Proof.
  unfold distribute_block_rewards, distribute_rewards.
  destruct (calculate_block_reward T_BlockReward) as [reward|]; run; [|done].
  set (s1 := set_balances (deposit_creating miner (miner_reward reward) (balances s)).1 s).
  assert (Hdep : with_balances (deposit (E := DispatchError AccountId) miner (miner_reward reward)) s
                 = (Ok tt, s1)) by done.
  rewrite (bind_run _ _ _ _ _ Hdep). symmetry.
  etransitivity; [apply bind_ext; [apply with_balances_bind|reflexivity]|].
  rewrite bind_bind, (bind_run _ _ _ _ _ Hdep), bind_gets.
  change (collect_stakers s1) with (collect_stakers s).
  apply bind_ext; [|done]. rewrite with_balances_bind.
  unfold mbind at 1, dispatch_bind at 1. rewrite with_balances_may_panic.
  fold (total_stake_of (collect_stakers s)).
  destruct (collect_stakers s) as [|x stakers] eqn:Hst; [apply with_balances_ret|].
  rewrite <-Hst. destruct (total_stake_of (collect_stakers s)) as [t|]; run; [|done].
  simpl. case_decide as Ht; (case_decide as Ht'; [|try done]); [apply with_balances_ret|done|].
  rewrite with_balances_for_each. apply for_each_ext. intros y u.
  rewrite with_balances_bind. apply bind_ext; [apply with_balances_may_panic|done].
Qed.

(** What an accepted validation pays, and who signed it. *)
Lemma accepted_validation_pays `{!CurrencyOk AccountId} o bn sig s u s' reward miner :
  dispatch o (Call_validate_block bn sig) s = (Ok u, s') →
  Forall (λ x, 0 ≤ Types.stake x) (collect_stakers s) →
  stakes_sum (collect_stakers s) < 2 ^ 64 →
  0 ≤ T_BlockReward < 2 ^ 64 →
  calculate_block_reward T_BlockReward = Some reward →
  BlockProducers s !! bn = Some miner →
  (∀ a, a = miner ∨ a ∈ account <$> collect_stakers s → 0 < free_balance a (balances s)) →
  (∀ a, free_balance a (balances s) + T_BlockReward < 2 ^ 128) →
  (∀ a, free_balance a (balances s') =
     free_balance a (balances s) + payout miner (collect_stakers s) reward a) ∧
  ∃ l1 x l2, collect_stakers s = l1 ++ x :: l2 ∧ ensure_signed_origin o = Some (account x) ∧
    weights_sum l1 ≤ hash_value (selection_seed bn s) mod weights_sum (collect_stakers s)
      < weights_sum l1 + weight x.
Proof.
  intros Hr%dispatch_ok Hnn Hsum Hrw Hrew Hminer Hex Hroom.
  apply validate_block_ok in Hr as (v & h & sel & rw & m & b & Ho & _ & _ & _ & Hsel & Hv & _
    & Hrw' & Hm & Hb & -> & _).
  assert (rw = reward) as -> by congruence. assert (m = miner) as -> by congruence.
  assert (Hfit : T_BlockReward * 40 < 2 ^ 128) by lia.
  rewrite calculate_block_reward_fits in Hrew by lia. injection Hrew as <-.
  assert (Hel : ∀ x, x ∈ collect_stakers s → 0 ≤ Types.stake x < 2 ^ 64).
  { intros x Hx. split; [by eapply Forall_forall in Hnn|].
    eapply Z.le_lt_trans; [|exact Hsum]. apply sumZ_elem_le; [by apply Forall_fmap|].
    by apply list_elem_of_fmap_2. }
  assert (weights_sum (collect_stakers s) = stakes_sum (collect_stakers s)
                ∧ Forall (λ x, 0 ≤ weight x) (collect_stakers s)) as [Hws Hwn].
  { assert (Hw : ∀ x, x ∈ collect_stakers s → weight x = saturate U64 (Types.stake x)).
    { intros x Hx. unfold collect_stakers in Hx.
      by apply list_elem_of_fmap in Hx as ([a st] & -> & _). }
    split.
    - unfold weights_sum, stakes_sum. f_equal. apply list_fmap_ext. intros i x Hx.
      apply list_elem_of_lookup_2 in Hx. rewrite Hw by done.
      apply saturate_id. by apply Hel.
    - apply Forall_forall. intros x Hx. rewrite Hw by done.
      rewrite saturate_id by (by apply Hel). by apply Hel. }
  pose proof (select_pos_correct (block_number s) (collect_stakers s) (selection_seed bn s)
    Hwn ltac:(lia)) as Hcor.
  rewrite Hsel in Hcor. destruct Hcor as (l1 & x & l2 & Heq & Hsx & Hwx & Hint).
  split.
  - assert (Hpos : 0 < stakes_sum (collect_stakers s)).
    { rewrite <-Hws, Heq. unfold weights_sum. rewrite fmap_app, sumZ_app, fmap_cons. simpl.
      rewrite Heq in Hwn. apply Forall_app in Hwn as [Hw1 Hw2].
      apply Forall_cons in Hw2 as [_ Hw2].
      pose proof (weights_sum_nonneg l1 Hw1). pose proof (weights_sum_nonneg l2 Hw2).
      unfold weights_sum in *. lia. }
    div_bounds (T_BlockReward * 40) 100.
    match type of Hb with distribute_rewards _ _ ?r _ = _ => set (reward := r) in * end.
    destruct (distribute_rewards_run (E := DispatchError AccountId) miner (collect_stakers s)
      reward (balances s)) as (b' & Hrun & Hfree); [simpl; lia|simpl; lia| |lia|exact Hex| |].
    + apply Forall_forall. intros y Hy. destruct (Hel y Hy). simpl. split; [done|]. nia.
    + intros a. specialize (Hroom a). simpl. lia.
    + rewrite Hrun in Hb. injection Hb as <-. exact Hfree.
  - exists l1, x, l2. split; [done|]. split; [|exact Hint]. rewrite Ho, <-Hv, Hsx. done.
Qed.

(** C14. A validated block pays exactly: the signer is the staker whose interval of
    cumulated stake contains the seed modulo the total stake, and the miner and
    the stakers receive the split of the block reward, in proportion to the
    stakes (when the accounts exist, the stakes fit in a [u64] and nothing
    overflows). *)
Theorem validated_block_pays_exactly `{!CurrencyOk AccountId} o bn sig s u s' reward miner :
  dispatch o (Call_validate_block bn sig) s = (Ok u, s') →
  Forall (λ x, 0 ≤ Types.stake x) (collect_stakers s) →
  stakes_sum (collect_stakers s) < 2 ^ 64 →
  0 ≤ T_BlockReward < 2 ^ 64 →
  calculate_block_reward T_BlockReward = Some reward →
  BlockProducers s !! bn = Some miner →
  (∀ a, a = miner ∨ a ∈ account <$> collect_stakers s → 0 < free_balance a (balances s)) →
  (∀ a, free_balance a (balances s) + T_BlockReward < 2 ^ 128) →
  (∀ a, free_balance a (balances s') =
     free_balance a (balances s) + payout miner (collect_stakers s) reward a) ∧
  ∃ l1 x l2, collect_stakers s = l1 ++ x :: l2 ∧ ensure_signed_origin o = Some (account x) ∧
    weights_sum l1 ≤ hash_value (selection_seed bn s) mod weights_sum (collect_stakers s)
      < weights_sum l1 + weight x.
Proof. apply accepted_validation_pays. Qed.
End Properties.

(** ** Evaluation *)

#[local] Existing Instance release_build.
#[local] Existing Instance runtime_config.
#[local] Instance sample_currency : Currency AccountId := ref_currency EXISTENTIAL_DEPOSIT.
#[local] Instance sample_currency_ok : CurrencyOk AccountId :=
  ref_currency_ok EXISTENTIAL_DEPOSIT ltac:(by vm_compute).

(** A chain with a stored header number 0, one staker (account 2) and a miner
    (account 1). *)
Definition header_at (n : Z) (parent : H256) (d : Z) : GhostBlockHeader :=
  {| number := n; parent_hash := parent; state_root := zeros 32; extrinsics_root := zeros 32;
     nonce := 0; difficulty := d; validator_signature := None; pqc_signature := None |}.
Definition header0 : GhostBlockHeader := header_at 0 (zeros 32) 0.
Definition header1 : GhostBlockHeader := header_at 1 (hash_of scale_header header0) (2 ^ 64 - 1).

Definition mining_state : State AccountId :=
  set_Difficulty (2 ^ 63)
    (set_BlockHeaders {[0 := header0]}
      (set_ValidatorStakes {[2 := UNIT]}
        (genesis_state
           (Ledger (<[1 := 3 * UNIT]> (<[2 := 3 * UNIT]> (<[112 := UNIT]> ∅))) (7 * UNIT))))).

Lemma mining_state_keyed : headers_keyed mining_state.
Proof.
  intros n h Hh. cbn in Hh. apply lookup_singleton_Some in Hh as [<- <-].
  split; [done|by vm_compute].
Qed.

Lemma submit_block_refines_witness :
  dispatch (signed 1) (Call_submit_block header1) mining_state
    = (Ok tt, submitted header1 1 mining_state).
Proof.
  pose proof (submit_block_refines (signed 1) header1 mining_state mining_state_keyed
                ltac:(by vm_compute)) as Hr.
  destruct (first_failing (submit_checks (signed 1) header1 mining_state)) as [e|] eqn:Hf.
  - exfalso. assert (Hn : is_Some (first_failing (submit_checks (signed 1) header1 mining_state)))
      by (rewrite Hf; by eexists).
    revert Hn. clear. intros [e He].
    assert (Hb : match first_failing (submit_checks (signed 1) header1 mining_state) with
                 | Some _ => false | None => true end = true) by (by vm_compute).
    by rewrite He in Hb.
  - exact Hr.
Defined.

Lemma submit_block_effective_target_witness :
  (∃ s', dispatch (signed 1) (Call_submit_block (set_difficulty header1 (2 ^ 64 - 1))) mining_state
         = (Ok tt, s')) ↔ verify_pow_enhanced header1 (2 ^ 64 - 1) = true.
Proof.
  apply (submit_block_effective_target (signed 1) 1 header0 header1 mining_state);
    by vm_compute.
Defined.

Lemma mined_block_is_accepted_witness :
  ∃ s', dispatch (signed 1) (Call_submit_block (set_nonce header1 0)) mining_state = (Ok tt, s') ∧
    CurrentPhase s' = PosValidation ∧ BlockHeaders s' !! 1 = Some (set_nonce header1 0) ∧
    BlockProducers s' !! 1 = Some 1.
Proof.
  apply (mined_block_is_accepted (signed 1) 1 header0 header1 0 mining_state);
    [by vm_compute..|split; by vm_compute|by vm_compute].
Defined.

Definition submitted_state : State AccountId := submitted header1 1 mining_state.
Definition validated_state : State AccountId :=
  (dispatch (signed 2) (Call_validate_block 1 PqcSignature_default) submitted_state).2.

Lemma validated_state_run :
  dispatch (signed 2) (Call_validate_block 1 PqcSignature_default) submitted_state
    = (Ok tt, validated_state).
Proof. apply run_ok. by vm_compute. Defined.

Lemma validate_block_outcome_witness :
  first_failing (validate_checks (signed 2) 1 PqcSignature_default submitted_state) = None ∧
  BlockProducers submitted_state !! 1 = Some 1.
Proof.
  pose proof (validate_block_outcome (signed 2) 1 PqcSignature_default submitted_state) as Hv.
  rewrite validated_state_run in Hv.
  destruct Hv as (Hc & v & h & sel & rw & miner & b & _ & _ & _ & _ & _ & Hm & _).
  split; [exact Hc|by vm_compute].
Defined.

Lemma pqc_required_needs_std_witness :
  ∀ u s', @dispatch _ _ _ _ mock_config AccountId _ _ _ _ (signed 2)
            (Call_validate_block 1 PqcSignature_default) submitted_state ≠ (Ok u, s').
Proof.
  apply (@pqc_required_needs_std release_build _ _ _ mock_config AccountId _ _ _ _ _
           (signed 2) 1 PqcSignature_default submitted_state); by vm_compute.
Defined.

Definition runtime_reward : BlockReward :=
  {| total := 10000000000000; miner_reward := 4000000000000; stakers_reward := 6000000000000 |}.

(** The miner is paid 4 tokens and the only staker 6. *)
Lemma validated_block_pays_exactly_witness :
  free_balance 2 (balances validated_state) =
  free_balance 2 (balances submitted_state)
  + payout 1 (collect_stakers submitted_state) runtime_reward 2.
Proof.
  apply (validated_block_pays_exactly (signed 2) 1 PqcSignature_default submitted_state tt
           validated_state runtime_reward 1);
    [exact validated_state_run|by vm_compute; repeat constructor|by vm_compute|by vm_compute
    |by vm_compute|by vm_compute| |].
  - intros a [->|Ha]; [by vm_compute|].
    assert (Hc : account <$> collect_stakers submitted_state = [2]) by (by vm_compute).
    rewrite Hc in Ha. apply list_elem_of_singleton in Ha as ->. by vm_compute.
  - intros a. unfold submitted_state, submitted, mining_state. cbn. unfold ledger_free. cbn.
    rewrite !lookup_insert. repeat case_decide; by vm_compute.
Defined.
