(* ===== verification/Miner.v ===== *)
(** * The node's miner

    node/src/miner.rs: [Miner::start] spawns threads that search nonces with a
    stride and communicate through three atomics and a counter.  All loads and
    stores that the result depends on are [SeqCst], so an execution is an
    interleaving of the threads' atomic accesses; [Miner::stop] can clear
    [running] at any moment.  The clock and the floating-point numbers of the hash
    rate are the class [Floats]. *)

From stdpp Require Import strings pretty.
From S2P Require Import Prelude RustInt Scale Types Interfaces Reference Pow.
Local Open Scope Z_scope.
Local Open Scope ghost_scope.

Record MiningBlockHeader := {
  mb_number : Z; (* u32 *)
  mb_parent_hash : H256;
  mb_state_root : H256;
  mb_extrinsics_root : H256;
  mb_difficulty : Z; (* u64 *)
}.

(** The standard library's floats and durations, as far as the miner uses them. *)
Class Floats := {
  F64 : Type;
  Duration : Type;
  f64_of_u64 : Z → F64;
  f64_div : F64 → F64 → F64;
  as_secs_f64 : Duration → F64;
  (** the format [{:.2}] *)
  fmt_2 : F64 → string;
}.

Record MiningStats `{!Floats} := {
  hashes_computed : Z; (* u64 *)
  blocks_found : Z; (* u64 *)
  hash_rate : F64;
  elapsed_time : Duration;
}.

(** The atomics that the threads share. *)
Record Shared := {
  running : bool;
  found_solution : bool;
  found_nonce : Z; (* u64 *)
  hashes : Z; (* u64 *)
}.

Definition set_running (b : bool) (g : Shared) : Shared :=
  {| running := b; found_solution := found_solution g; found_nonce := found_nonce g;
     hashes := hashes g |}.
Definition set_found_solution (b : bool) (g : Shared) : Shared :=
  {| running := running g; found_solution := b; found_nonce := found_nonce g;
     hashes := hashes g |}.
Definition set_found_nonce (n : Z) (g : Shared) : Shared :=
  {| running := running g; found_solution := found_solution g; found_nonce := n;
     hashes := hashes g |}.
Definition fetch_add_hashes (g : Shared) : Shared :=
  {| running := running g; found_solution := found_solution g; found_nonce := found_nonce g;
     hashes := wrapping_add U64 (hashes g) 1 |}.

(** Where a thread stands, with its local nonce: before the load of [running] or
    of [found_solution] in the loop condition, before the hash, before each of
    the three stores of the success branch, or after the loop. *)
Inductive thread :=
  | LoadRunning (nonce : Z)
  | LoadFound (nonce : Z)
  | HashNonce (nonce : Z)
  | StoreFound (nonce : Z)
  | StoreNonce (nonce : Z)
  | StoreRunning (nonce : Z)
  | Finished.

#[export] Instance thread_eq_dec : EqDecision thread.
Proof. solve_decision. Defined.

Section Miner.
Context `{!ScalePrims, !Hashing}.
(** the closure's captures: the header, the target and the number of threads *)
Context (header : MiningBlockHeader) (target_difficulty : Z) (threads : nat).

(** The enhanced BLAKE2 proof of work of a nonce. *)
Definition nonce_hash_value (nonce : Z) : Z :=
  let hash_input :=
    (mb_number header, mb_parent_hash header, mb_state_root header,
     mb_extrinsics_root header, nonce) in
  let first_hash := hash_of scale_hash_input hash_input in
  let final_hash := hash_of (scale_array 32) first_hash in
  hash_value final_hash.

(** One atomic access of a thread, with the local computation up to the next. *)
Definition thread_step (t : thread) (g : Shared) : thread * Shared :=
  match t with
  | LoadRunning nonce => (if running g then LoadFound nonce else Finished, g)
  | LoadFound nonce => (if found_solution g then Finished else HashNonce nonce, g)
  | HashNonce nonce =>
      (if nonce_hash_value nonce <=? target_difficulty then StoreFound nonce
       else LoadRunning (wrapping_add U64 nonce (Z.of_nat threads)),
       fetch_add_hashes g)
  | StoreFound nonce => (StoreNonce nonce, set_found_solution true g)
  | StoreNonce nonce => (StoreRunning nonce, set_found_nonce nonce g)
  | StoreRunning nonce => (Finished, set_running false g)
  | Finished => (Finished, g)
  end.

Record Pool := { shared : Shared; workers : list thread }.

(** [self.running.store(true)], the fresh atomics and the spawned threads;
    the counter of hashes lives in the [Miner] and keeps its value. *)
Definition start_pool (hashes : Z) : Pool :=
  {| shared := {| running := true; found_solution := false; found_nonce := 0;
                  hashes := hashes |};
     workers := (λ thread_id, LoadRunning (Z.of_nat thread_id)) <$> seq 0 threads |}.

(** An event of an execution: a step of a thread, or a call of [Miner::stop]. *)
Inductive event := Run (thread_id : nat) | Stop.

Definition pool_step (p : Pool) (e : event) : Pool :=
  match e with
  | Run i =>
      match workers p !! i with
      | Some t => let '(t', g) := thread_step t (shared p) in
                  {| shared := g; workers := <[i := t']> (workers p) |}
      | None => p
      end
  | Stop => {| shared := set_running false (shared p); workers := workers p |}
  end.

Definition execute (p : Pool) (schedule : list event) : Pool := foldl pool_step p schedule.

Definition all_finished (p : Pool) : bool := forallb (λ t, bool_decide (t = Finished)) (workers p).

(** The value of [start] once all threads are joined, [elapsed] after its start. *)
Definition start_result `{!Floats} (p : Pool) (elapsed : Duration)
    : option (Z * MiningStats) :=
  let g := shared p in
  let hash_rate := f64_div (f64_of_u64 (hashes g)) (as_secs_f64 elapsed) in
  let stats := {| hashes_computed := hashes g;
                  blocks_found := if found_solution g then 1 else 0;
                  hash_rate := hash_rate; elapsed_time := elapsed |} in
  if found_solution g then Some (found_nonce g, stats) else None.

(** ** Invariants of an execution *)

Definition valid (nonce : Z) : Prop := nonce_hash_value nonce ≤ target_difficulty.

Definition thread_nonce (t : thread) : option Z :=
  match t with
  | LoadRunning n | LoadFound n | HashNonce n | StoreFound n | StoreNonce n | StoreRunning n =>
      Some n
  | Finished => None
  end.

(** Induction over an execution for an invariant of the steps. *)
Lemma execute_inv (P : Pool → Prop) schedule p :
  P p → (∀ q e, e ∈ schedule → P q → P (pool_step q e)) → P (execute p schedule).
Proof.
  unfold execute. revert p; induction schedule as [|e l IH]; intros p HP Hstep; [done|].
  simpl. apply IH; [apply Hstep; [left|done]|]. intros q e' He. apply Hstep. by right.
Qed.

(** A step of the pool is a step of one of its threads. *)
Lemma pool_step_run (P : Pool → Prop) p i :
  P p →
  (∀ t, workers p !! i = Some t →
     P {| shared := (thread_step t (shared p)).2;
          workers := <[i := (thread_step t (shared p)).1]> (workers p) |}) →
  P (pool_step p (Run i)).
Proof.
  intros HP Hrun. simpl. destruct (workers p !! i) as [t|]; [|done].
  specialize (Hrun t eq_refl). by destruct (thread_step t (shared p)).
Qed.

(** A thread on the way out of the success branch holds a valid nonce; once a
    solution is announced, its nonce is stored or about to be. *)
Definition holds_valid (t : thread) : Prop :=
  match t with StoreFound n | StoreNonce n | StoreRunning n => valid n | _ => True end.
Definition solution_inv (p : Pool) : Prop :=
  (∀ i t, workers p !! i = Some t → holds_valid t) ∧
  (found_solution (shared p) = true →
   valid (found_nonce (shared p)) ∨ ∃ i n, workers p !! i = Some (StoreNonce n)).

Lemma thread_step_valid t g : holds_valid t → holds_valid (thread_step t g).1.
Proof.
  destruct t; simpl; intros Hv; try done; try (by case_match).
  destruct (Z.leb_spec (nonce_hash_value nonce) target_difficulty); simpl; [done|done].
Qed.

Lemma start_worker h0 i t :
  workers (start_pool h0) !! i = Some t → t = LoadRunning (Z.of_nat i).
Proof.
  simpl. rewrite list_lookup_fmap. intros (j & [-> _]%lookup_seq & ->)%fmap_Some. done.
Qed.

Lemma execute_solution h0 schedule : solution_inv (execute (start_pool h0) schedule).
Proof.
  apply execute_inv.
  - split; [|done]. intros i t ->%start_worker. done.
  - intros p [i|] _ [Hv Hf]; [|by split]. apply pool_step_run; [by split|].
    intros t Ht. pose proof (Hv _ _ Ht) as Hvt. split; simpl.
    + intros j t'. rewrite list_lookup_insert. case_decide as Hj; [|by apply Hv].
      intros [= <-]. by apply thread_step_valid.
    + pose proof (lookup_lt_Some _ _ _ Ht) as Hlt.
      assert (Hother : ∀ t', (∃ j n, workers p !! j = Some (StoreNonce n)) →
        (∀ n, t ≠ StoreNonce n) →
        ∃ j n, <[i := t']> (workers p) !! j = Some (StoreNonce n)).
      { intros t' (j & n & Hj) Hne. exists j, n. rewrite list_lookup_insert_ne; [done|].
        intros ->. rewrite Ht in Hj. injection Hj as ->. by apply (Hne n). }
      destruct t; simpl in *; try (intros [?|?]%Hf; [by left|right; by apply Hother]).
      * intros _. right. exists i, nonce. by apply list_lookup_insert_eq.
      * intros _. by left.
Qed.

(** Without a call of [stop], the search ends by a solution only. *)
Definition needs_solution (t : thread) : bool :=
  match t with StoreNonce _ | StoreRunning _ | Finished => true | _ => false end.
Definition progress_inv (p : Pool) : Prop :=
  (running (shared p) = false → found_solution (shared p) = true) ∧
  (∀ i t, workers p !! i = Some t → needs_solution t = true →
     found_solution (shared p) = true).

Lemma thread_step_found t g :
  found_solution g = true → found_solution (thread_step t g).2 = true.
Proof. by destruct t. Qed.

Lemma execute_progress h0 schedule :
  Stop ∉ schedule → progress_inv (execute (start_pool h0) schedule).
Proof.
  intros Hstop. apply execute_inv.
  - split; [done|]. by intros i t ->%start_worker.
  - intros p [i|] Hin [Hr Hf]; [|done]. apply pool_step_run; [by split|].
    intros t Ht. pose proof (Hf _ _ Ht) as Hft. split; simpl.
    + destruct t; simpl in *; auto.
    + intros j t'. rewrite list_lookup_insert. case_decide as Hj.
      * intros [= <-]. clear Hj. destruct t; simpl in *; auto.
        -- destruct (running (shared p)); [done|auto].
        -- by destruct (found_solution (shared p)).
        -- by case_match.
      * intros Hj' Hn. apply thread_step_found. by eapply Hf.
Qed.

(** Each thread keeps to its own stride. *)
Definition on_stride (i : nat) (n : Z) : Prop :=
  ∃ k, 0 ≤ k ∧ n = (Z.of_nat i + k * Z.of_nat threads) mod 2 ^ 64.
Definition stride_inv (p : Pool) : Prop :=
  ∀ i t n, workers p !! i = Some t → thread_nonce t = Some n → on_stride i n.

Lemma stride_next i n : on_stride i n → on_stride i (wrapping_add U64 n (Z.of_nat threads)).
Proof.
  intros (k & Hk & ->). exists (k + 1). split; [lia|]. unfold wrapping_add, modulus.
  rewrite Z.add_mod_idemp_l by lia. f_equal. lia.
Qed.

Lemma thread_step_stride t g n' :
  thread_nonce (thread_step t g).1 = Some n' →
  ∃ n, thread_nonce t = Some n ∧ (n' = n ∨ n' = wrapping_add U64 n (Z.of_nat threads)).
Proof.
  destruct t; simpl; try case_match; simpl; intros; simplify_eq; eauto.
Qed.

Lemma execute_stride h0 schedule :
  Z.of_nat threads < 2 ^ 64 → stride_inv (execute (start_pool h0) schedule).
Proof.
  intros Hth. apply execute_inv.
  - intros i t n Hi. pose proof Hi as ->%start_worker. intros [= <-]. exists 0.
    split; [lia|]. apply lookup_lt_Some in Hi. simpl in Hi.
    rewrite length_fmap, length_seq in Hi. rewrite Z.mod_small; lia.
  - intros p [i|] _ Hinv; [|done]. apply pool_step_run; [done|].
    intros t Ht j t' n'. simpl. rewrite list_lookup_insert. case_decide as Hj; [|by apply Hinv].
    intros [= <-] (n & Hn & Hor)%thread_step_stride. destruct Hj as [-> _].
    specialize (Hinv _ _ _ Ht Hn). destruct Hor as [-> | ->]; [done|by apply stride_next].
Qed.

(** ** Shutdown *)

(** The steps a thread can still make once [running] is cleared. *)
Definition rank (t : thread) : nat :=
  match t with
  | Finished => 0 | LoadRunning _ => 1 | StoreRunning _ => 1 | StoreNonce _ => 2
  | StoreFound _ => 3 | HashNonce _ => 4 | LoadFound _ => 5
  end.

Lemma thread_step_rank t g :
  running g = false →
  running (thread_step t g).2 = false ∧
  (rank (thread_step t g).1 ≤ pred (rank t))%nat.
Proof.
  intros Hr. destruct t; simpl; rewrite ?Hr; try (split; [done|simpl; lia]);
    case_match; split; simpl; done || lia.
Qed.

Definition is_run (i : nat) (e : event) : bool :=
  match e with Run j => (j =? i)%nat | Stop => false end.
(** How often a schedule runs a thread. *)
Definition runs_of (i : nat) (schedule : list event) : nat :=
  length (filter (λ e, is_run i e = true) schedule).

Lemma pool_step_rank p e i t :
  running (shared p) = false → workers p !! i = Some t →
  running (shared (pool_step p e)) = false ∧
  ∃ t', workers (pool_step p e) !! i = Some t' ∧
        (rank t' ≤ rank t - (if is_run i e then 1 else 0))%nat.
Proof.
  intros Hr Ht. destruct e as [j|]; simpl; [|split; [done|]; exists t; split; [done|lia]].
  destruct (workers p !! j) as [tj|] eqn:Hj.
  - pose proof (thread_step_rank tj (shared p) Hr) as [Hr' Hk].
    destruct (thread_step tj (shared p)) as [t' g]. simpl in *. split; [done|].
    destruct (Nat.eqb_spec j i) as [->|Hne].
    + exists t'. rewrite list_lookup_insert_eq by (by eapply lookup_lt_Some).
      split; [done|]. rewrite Ht in Hj. injection Hj as ->. lia.
    + exists t. rewrite list_lookup_insert_ne by done. split; [done|lia].
  - split; [done|]. exists t. split; [done|].
    destruct (Nat.eqb_spec j i) as [->|Hne]; [congruence|lia].
Qed.

Lemma execute_rank schedule p i t :
  running (shared p) = false → workers p !! i = Some t →
  ∃ t', workers (execute p schedule) !! i = Some t' ∧
        (rank t' ≤ rank t - runs_of i schedule)%nat.
Proof.
  unfold execute, runs_of. revert p t. induction schedule as [|e l IH]; intros p t Hr Ht.
  { exists t. split; [done|]. simpl. lia. }
  destruct (pool_step_rank p e i t Hr Ht) as (Hr1 & t1 & Ht1 & Hk1).
  destruct (IH _ _ Hr1 Ht1) as (t' & Ht' & Hk'). exists t'. split; [exact Ht'|].
  rewrite filter_cons. destruct (is_run i e); case_decide; simpl; try done; lia.
Qed.

Lemma pool_step_length p e : length (workers (pool_step p e)) = length (workers p).
Proof.
  destruct e as [j|]; simpl; [|done]. destruct (workers p !! j) as [t|]; [|done].
  destruct (thread_step t (shared p)). simpl. by rewrite length_insert.
Qed.

Lemma execute_length schedule p : length (workers (execute p schedule)) = length (workers p).
Proof.
  unfold execute. revert p. induction schedule as [|e l IH]; intros p; [done|]. simpl.
  by rewrite IH, pool_step_length.
Qed.

Lemma all_finished_lookup p :
  all_finished p = true ↔ ∀ i t, workers p !! i = Some t → t = Finished.
Proof.
  unfold all_finished. rewrite forallb_forall. split.
  - intros Hall i t Hi%list_elem_of_lookup_2.
    apply (bool_decide_eq_true (t = Finished)), Hall. by apply list_elem_of_In.
  - intros Hall t Hin%list_elem_of_In. apply list_elem_of_lookup in Hin as [i Hi].
    apply (bool_decide_eq_true (t = Finished)). by eapply Hall.
Qed.

Lemma rank_finished t : rank t = 0%nat → t = Finished.
Proof. by destruct t. Qed.
End Miner.

(** [Miner::new] and [Miner::start], for a schedule of its threads. *)
Record Miner := { m_threads : nat; m_target_difficulty : Z; m_hashes : Z }.
Definition Miner_new (threads : nat) (target_difficulty : Z) : Miner :=
  {| m_threads := threads; m_target_difficulty := target_difficulty; m_hashes := 0 |}.

Definition start_target (self : Miner) (block_header : MiningBlockHeader) : Z :=
  Z.min (m_target_difficulty self) (mb_difficulty block_header).

(** The pool after a schedule. *)
Definition run_threads `{!ScalePrims, !Hashing} (self : Miner) (block_header : MiningBlockHeader)
    (schedule : list event) : Pool :=
  execute block_header (start_target self block_header) (m_threads self)
    (start_pool (m_threads self) (m_hashes self)) schedule.

Lemma run_threads_length `{!ScalePrims, !Hashing} self h schedule :
  length (workers (run_threads self h schedule)) = m_threads self.
Proof.
  unfold run_threads. rewrite execute_length. simpl. by rewrite length_fmap, length_seq.
Qed.

(** [start] returns when all its threads have finished: [None] stands for an
    execution that has not come that far. *)
Definition start `{!ScalePrims, !Hashing, !Floats} (self : Miner)
    (block_header : MiningBlockHeader) (schedule : list event) (elapsed : Duration)
    : option (option (Z * MiningStats)) :=
  let p := run_threads self block_header schedule in
  if all_finished p then Some (start_result p elapsed) else None.

(** The pallet's header with the mined fields and a nonce. *)
Definition pallet_header (h : MiningBlockHeader) (nonce : Z) : GhostBlockHeader :=
  {| number := mb_number h; parent_hash := mb_parent_hash h; state_root := mb_state_root h;
     extrinsics_root := mb_extrinsics_root h; nonce := nonce; difficulty := mb_difficulty h;
     validator_signature := None; pqc_signature := None |}.

(** ** Properties *)

Section Properties.
Context `{!ScalePrims, !Hashing, !Floats}.
Implicit Types (self : Miner) (h : MiningBlockHeader).

(** What [start] returns hashes at or below the target, and the statistics count
    one block. *)
Lemma start_solution self h schedule elapsed n stats :
  start self h schedule elapsed = Some (Some (n, stats)) →
  nonce_hash_value h n ≤ start_target self h ∧ blocks_found stats = 1.
Proof.
  unfold start. set (p := run_threads self h schedule).
  destruct (all_finished p) eqn:Hfin; [|done]. unfold start_result.
  destruct (found_solution (shared p)) eqn:Hf; [|done]. intros [= <- <-].
  destruct (execute_solution h (start_target self h) (m_threads self) (m_hashes self) schedule)
    as [_ Hs]. specialize (Hs Hf). split; [|done].
  rewrite all_finished_lookup in Hfin.
  destruct Hs as [Hv|(i & m & Hi)]; [exact Hv|by specialize (Hfin _ _ Hi)].
Qed.

(** C22. Whatever the interleaving of the threads and of calls of [stop], a nonce that
    [start] returns is a solution: the pallet's enhanced verifier accepts the
    header with it, for the miner's target and for the header's own difficulty.
    The flag is set before the nonce is stored, and it is the join that makes
    this harmless. *)
Theorem mined_nonce_is_valid self h schedule elapsed n stats :
  start self h schedule elapsed = Some (Some (n, stats)) →
  verify_pow_enhanced (pallet_header h n) (m_target_difficulty self) = true ∧
  verify_pow_enhanced (pallet_header h n) (mb_difficulty h) = true ∧ blocks_found stats = 1.
Proof.
  intros [Hle Hone]%start_solution. unfold start_target in Hle.
  unfold verify_pow_enhanced. rewrite !Z.leb_le.
  split_and!; [etransitivity; [exact Hle|lia]|etransitivity; [exact Hle|lia]|done].
Qed.

(** Without a call of [stop] a search by at least one thread ends only with a
    solution: [start] never reports a failure by itself. *)
Theorem mining_ends_with_solution self h schedule elapsed r :
  Stop ∉ schedule → (0 < m_threads self)%nat → start self h schedule elapsed = Some r → is_Some r.
Proof.
  intros Hstop Hth. unfold start. set (p := run_threads self h schedule).
  destruct (all_finished p) eqn:Hfin; [|done]. intros [= <-].
  destruct (execute_progress h (start_target self h) (m_threads self) (m_hashes self) schedule
    Hstop) as [_ Hf].
  rewrite all_finished_lookup in Hfin.
  assert (Hlen : length (workers p) = m_threads self).
  { apply run_threads_length. }
  destruct (lookup_lt_is_Some_2 (workers p) 0) as [t Ht]; [lia|].
  pose proof (Hfin _ _ Ht) as ->. unfold start_result.
  assert (Hfound : found_solution (shared p) = true) by exact (Hf _ _ Ht eq_refl).
  rewrite Hfound. by eexists.
Qed.

(** C24. Shutdown: once [running] is cleared, by [stop] or by the thread that found a
    solution, every thread leaves its loop within five of its own steps, so the
    joins return under every schedule that runs each thread that often. *)
Theorem miner_shuts_down self h before after elapsed :
  running (shared (run_threads self h before)) = false →
  (∀ i, (i < m_threads self)%nat → (5 ≤ runs_of i after)%nat) →
  is_Some (start self h (before ++ after) elapsed).
Proof.
  intros Hr Hruns. unfold start. set (p := run_threads self h (before ++ after)).
  assert (Hfin : all_finished p = true); [|by rewrite Hfin].
  apply all_finished_lookup. intros i t Ht. apply rank_finished.
  unfold p, run_threads, execute in Ht. rewrite foldl_app in Ht.
  set (q := foldl _ _ before) in *.
  assert (Hlen : length (workers q) = m_threads self).
  { apply (run_threads_length self h before). }
  pose proof (lookup_lt_Some _ _ _ Ht) as Hlt.
  fold (execute h (start_target self h) (m_threads self) q after) in Ht, Hlt.
  rewrite execute_length, Hlen in Hlt.
  destruct (lookup_lt_is_Some_2 (workers q) i) as [t0 Ht0]; [lia|].
  destruct (execute_rank h (start_target self h) (m_threads self) after q i t0 Hr Ht0)
    as (t' & Ht' & Hk).
  assert (t' = t) as -> by congruence. specialize (Hruns i Hlt).
  assert (rank t0 ≤ 5)%nat by (destruct t0; simpl; lia). lia.
Qed.

(** The threads share the nonces out: at any moment a thread's nonce is its own
    number plus a multiple of the number of threads, modulo 2^64, so before the
    nonces wrap no two threads ever test the same one. *)
Theorem threads_test_disjoint_nonces self h schedule i n :
  Z.of_nat (m_threads self) < 2 ^ 64 →
  (workers (run_threads self h schedule) !! i ≫= thread_nonce) = Some n →
  ∃ k, 0 ≤ k ∧ n = (Z.of_nat i + k * Z.of_nat (m_threads self)) mod 2 ^ 64 ∧
    (Z.of_nat i + k * Z.of_nat (m_threads self) < 2 ^ 64 →
     n mod Z.of_nat (m_threads self) = Z.of_nat i).
Proof.
  intros Hth Hn. destruct (workers (run_threads self h schedule) !! i) as [t|] eqn:Ht; [|done].
  destruct (execute_stride h (start_target self h) (m_threads self) (m_hashes self) schedule
    Hth i t n Ht Hn) as (k & Hk & Heq).
  pose proof (lookup_lt_Some _ _ _ Ht) as Hlt. rewrite run_threads_length in Hlt.
  exists k. split_and!; [done|done|]. intros Hsmall.
  rewrite Heq, (Z.mod_small _ (2 ^ 64)) by lia.
  rewrite Z.mod_add by lia. apply Z.mod_small. lia.
Qed.
End Properties.

(** ** Evaluation *)

(** Whole numbers for floats, and durations in seconds. *)
#[export] Instance sample_floats : Floats :=
  {| F64 := Z; Duration := Z; f64_of_u64 := id; f64_div := Z.div; as_secs_f64 := id;
     fmt_2 := λ x, (pretty x +:+ ".00")%string |}.
Definition one_second : Duration := 1.
Definition two_hashes : F64 := 2.


(** Two threads and an easy target; both threads find a solution, and the second
    one overwrites the nonce of the first. *)
Definition easy_header : MiningBlockHeader :=
  {| mb_number := 1; mb_parent_hash := zeros 32; mb_state_root := zeros 32;
     mb_extrinsics_root := zeros 32; mb_difficulty := 2 ^ 64 - 1 |}.
Definition two_threads : Miner := Miner_new 2 (2 ^ 64 - 1).
Definition race : list event := replicate 3 (Run 0) ++ replicate 6 (Run 1) ++ replicate 5 (Run 0).

Lemma race_result :
  start two_threads easy_header race one_second
    = Some (Some (0, {| hashes_computed := 2; blocks_found := 1; hash_rate := two_hashes;
                        elapsed_time := one_second |})).
Proof. by vm_compute. Defined.

Lemma mined_nonce_is_valid_witness :
  verify_pow_enhanced (pallet_header easy_header 0) (2 ^ 64 - 1) = true.
Proof. apply (mined_nonce_is_valid two_threads easy_header race one_second 0 _ race_result). Defined.

Lemma mining_ends_with_solution_witness :
  is_Some (Some (0, {| hashes_computed := 2; blocks_found := 1; hash_rate := two_hashes;
                       elapsed_time := one_second |})).
Proof.
  apply (mining_ends_with_solution two_threads easy_header race one_second _);
    [|vm_compute; lia|exact race_result].
  unfold race. rewrite !elem_of_app. intros [Hin|[Hin|Hin]]; by apply elem_of_replicate in Hin as [? _].
Defined.

Lemma miner_shuts_down_witness :
  is_Some (start (Miner_new 2 0) easy_header
             ([Run 0; Stop] ++ replicate 5 (Run 0) ++ replicate 5 (Run 1)) one_second).
Proof.
  apply (miner_shuts_down (Miner_new 2 0) easy_header [Run 0; Stop]
           (replicate 5 (Run 0) ++ replicate 5 (Run 1)) one_second); [by vm_compute|].
  intros [|[|i]] Hi; simpl in Hi; [by vm_compute; lia|by vm_compute; lia|lia].
Defined.

Lemma threads_test_disjoint_nonces_witness :
  ∃ k, 0 ≤ k ∧ 3 = (1 + k * 2) mod 2 ^ 64 ∧ (1 + k * 2 < 2 ^ 64 → 3 mod 2 = 1).
Proof.
  apply (threads_test_disjoint_nonces (Miner_new 2 0) easy_header
           [Run 1; Run 1; Run 1; Run 1] 1 3); by vm_compute.
Defined.
