(* ===== verification/Mining.v ===== *)
(** * The miner finds a solution

    Total correctness of [Miner::start] of node/src/miner.rs: when some nonce solves
    the header, the search returns a solution under every interleaving that runs
    the thread on whose stride the nonce lies often enough, and every thread a
    little longer.  The unit test of the file follows for every interleaving. *)

From S2P Require Import Prelude RustInt Scale Types Interfaces Reference Pow Miner.
Local Open Scope Z_scope.
Local Open Scope ghost_scope.

Section Search.
Context `{!ScalePrims, !Hashing}.
Context (header : MiningBlockHeader) (target : Z) (threads : nat).
Implicit Types (p : Pool) (t : thread) (schedule : list event).

Local Abbreviation step := (thread_step header target threads).
Local Abbreviation run := (execute header target threads).

(** ** Counting the runs of a thread *)

Lemma runs_of_cons i e schedule :
  runs_of i (e :: schedule) = ((if is_run i e then 1 else 0) + runs_of i schedule)%nat.
Proof.
  unfold runs_of. rewrite filter_cons. case_decide as He.
  - by rewrite He.
  - by apply not_true_is_false in He as ->.
Qed.

(** A measure of a thread that its own steps lower, in every state of the shared
    variables that satisfies [P], is used up by as many of its steps. *)
Lemma run_measure (P : Pool → Prop) (mu : thread → nat) (Q : thread → Prop) i schedule :
  (∀ p e, e ∈ schedule → P p → P (pool_step header target threads p e)) →
  (∀ p t, P p → workers p !! i = Some t → Q t →
     Q (step t (shared p)).1 ∧ (mu (step t (shared p)).1 ≤ pred (mu t))%nat) →
  ∀ p t, P p → workers p !! i = Some t → Q t →
  ∃ t', workers (run p schedule) !! i = Some t' ∧ Q t' ∧
        (mu t' ≤ mu t - runs_of i schedule)%nat.
Proof.
  intros HP Hmu. unfold execute. induction schedule as [|e l IH]; intros p t Hp Ht HQ.
  { exists t. split_and!; [done|done|unfold runs_of; simpl; lia]. }
  assert (∃ t1, workers (pool_step header target threads p e) !! i = Some t1 ∧ Q t1 ∧
    (mu t1 ≤ mu t - (if is_run i e then 1 else 0))%nat) as (t1 & Ht1 & HQ1 & Hk1).
  { destruct e as [j|]; simpl; [|exists t; split_and!; [done|done|lia]].
    destruct (workers p !! j) as [tj|] eqn:Hj.
    - destruct (Nat.eqb_spec j i) as [->|Hne].
      + rewrite Ht in Hj. injection Hj as <-. destruct (Hmu p t Hp Ht HQ) as [HQ' Hle].
        destruct (step t (shared p)) as [t' g]. simpl in *. exists t'.
        rewrite list_lookup_insert_eq by (by eapply lookup_lt_Some). split_and!; [done|done|lia].
      + destruct (step tj (shared p)) as [t' g]. simpl. exists t.
        rewrite list_lookup_insert_ne by done. split_and!; [done|done|lia].
    - exists t. split_and!; [done|done|].
      destruct (Nat.eqb_spec j i) as [->|]; [congruence|lia]. }
  destruct (IH (λ q e' He', HP q e' ltac:(by right)) (pool_step header target threads p e) t1)
    as (t' & Ht' & HQ' & Hk'); [apply HP; [left|done]|done|done|].
  exists t'. split_and!; [done|done|]. rewrite runs_of_cons. lia.
Qed.

(** ** The thread of the solution *)

(** The steps of the thread [i] that are left until it has tested its [k]-th nonce
    and left the loop, unless it leaves earlier. *)
Definition nonce_of (i : nat) (j : Z) : Z := Z.of_nat i + j * Z.of_nat threads.

Definition search_left (i k : nat) t : nat :=
  let left n := (3 * Z.to_nat (Z.of_nat k - (n - Z.of_nat i) / Z.of_nat threads))%nat in
  match t with
  | LoadRunning n => left n + 6
  | LoadFound n => left n + 5
  | HashNonce n => left n + 4
  | StoreFound _ => 3
  | StoreNonce _ => 2
  | StoreRunning _ => 1
  | Finished => 0
  end.

(** It is on its way to the [k]-th nonce. *)
Definition searching (i k : nat) t : Prop :=
  match t with
  | LoadRunning n | LoadFound n | HashNonce n => ∃ j, 0 ≤ j ≤ Z.of_nat k ∧ n = nonce_of i j
  | _ => True
  end.

Lemma nonce_index i j : (i < threads)%nat → (nonce_of i j - Z.of_nat i) / Z.of_nat threads = j.
Proof.
  intros Hi. unfold nonce_of. replace (Z.of_nat i + j * Z.of_nat threads - Z.of_nat i)
    with (j * Z.of_nat threads) by lia. apply Z.div_mul. lia.
Qed.

Lemma searching_step i k t g :
  (i < threads)%nat → nonce_of i (Z.of_nat k) < 2 ^ 64 →
  nonce_hash_value header (nonce_of i (Z.of_nat k)) ≤ target → searching i k t →
  searching i k (step t g).1 ∧ (search_left i k (step t g).1 ≤ pred (search_left i k t))%nat.
Proof.
  intros Hi Hmax Hsol Hs. destruct t as [n|n|n|n|n|n|]; simpl in *; try (split; [done|lia]).
  - destruct (running g); simpl; split; (done || lia).
  - destruct (found_solution g); simpl; split; (done || lia).
  - destruct Hs as (j & Hj & ->).
    destruct (Z.leb_spec (nonce_hash_value header (nonce_of i j)) target) as [|Hgt]; simpl;
      [split; [done|lia]|].
    assert (Hjk : j < Z.of_nat k) by (destruct (decide (j = Z.of_nat k)) as [->|]; lia).
    assert (Hnext : wrapping_add U64 (nonce_of i j) (Z.of_nat threads) = nonce_of i (j + 1)).
    { unfold wrapping_add, modulus, nonce_of in *. rewrite Z.mod_small; [lia|nia]. }
    rewrite Hnext, !nonce_index by done. split; [exists (j + 1); split; [lia|done]|lia].
Qed.

(** ** The other threads *)

(** The steps a thread can still make once a solution is announced. *)
Definition found_left t : nat :=
  match t with
  | LoadRunning _ => 2 | LoadFound _ => 1 | HashNonce _ => 4
  | StoreFound _ => 3 | StoreNonce _ => 2 | StoreRunning _ => 1 | Finished => 0
  end.

Lemma found_left_step t g :
  found_solution g = true → (found_left (step t g).1 ≤ pred (found_left t))%nat.
Proof.
  intros Hf. destruct t; simpl; rewrite ?Hf; simpl; try lia; case_match; simpl; lia.
Qed.

Lemma pool_step_found p e :
  found_solution (shared p) = true → found_solution (shared (pool_step header target threads p e)) = true.
Proof.
  intros Hf. destruct e as [j|]; simpl; [|done]. destruct (workers p !! j) as [t|]; [|done].
  pose proof (thread_step_found header target threads t (shared p) Hf).
  by destruct (step t (shared p)).
Qed.

Lemma found_drains p schedule :
  found_solution (shared p) = true →
  (∀ i, (i < length (workers p))%nat → (4 ≤ runs_of i schedule)%nat) →
  all_finished (run p schedule) = true.
Proof.
  intros Hf Hruns. apply all_finished_lookup. intros i t Ht.
  pose proof (lookup_lt_Some _ _ _ Ht) as Hlt. rewrite execute_length in Hlt.
  destruct (lookup_lt_is_Some_2 (workers p) i Hlt) as [t0 Ht0].
  destruct (run_measure (λ q, found_solution (shared q) = true) found_left (λ _, True) i schedule)
    with (p := p) (t := t0) as (t' & Ht' & _ & Hk); try done.
  - intros q e _. apply pool_step_found.
  - intros q t1 Hq _ _. split; [done|by apply found_left_step].
  - assert (t' = t) as -> by congruence. specialize (Hruns i Hlt).
    assert (found_left t0 ≤ 4)%nat by (destruct t0; simpl; lia).
    assert (found_left t = 0%nat) as Hz by lia. by destruct t.
Qed.

(** ** The counter of hashes *)

(** After at most [b] steps the counter is at most [b], and positive once a thread
    has succeeded. *)
Definition has_hashed t : bool :=
  match t with StoreFound _ | StoreNonce _ | StoreRunning _ => true | _ => false end.
Record counted (b : Z) p : Prop := {
  ct_range : 0 ≤ hashes (shared p) ≤ b;
  ct_found : found_solution (shared p) = true → 0 < hashes (shared p);
  ct_store : ∀ i t, workers p !! i = Some t → has_hashed t = true → 0 < hashes (shared p);
}.

Lemma counted_step b p e :
  b + 1 < 2 ^ 64 → counted b p → counted (b + 1) (pool_step header target threads p e).
Proof.
  intros Hb [Hr Hf Hs]. assert (Hsame : counted (b + 1) p) by (split; [lia|done|done]).
  destruct e as [i|]; simpl; [|by destruct Hsame; split].
  destruct (workers p !! i) as [t|] eqn:Ht; [|done]. pose proof (Hs _ _ Ht) as Hst.
  assert (Hmono : hashes (shared p) ≤ hashes (step t (shared p)).2 ≤ hashes (shared p) + 1 ∧
    (has_hashed (step t (shared p)).1 = true ∨ found_solution (step t (shared p)).2 = true →
     0 < hashes (step t (shared p)).2)).
  { destruct t as [n|n|n|n|n|n|]; simpl in *;
      try (split; [lia|intros [?|?]; repeat case_match; auto; done]).
    unfold wrapping_add, modulus. rewrite Z.mod_small by lia. split; [lia|]. intros _. lia. }
  destruct (step t (shared p)) as [t' g]. simpl in Hmono. destruct Hmono as [Hle Hpos].
  split; simpl; [lia|intros; apply Hpos; by right|].
  intros j t1. rewrite list_lookup_insert. case_decide as Hj.
  - intros [= <-] Hh. apply Hpos. by left.
  - intros Hj1 Hh. specialize (Hs _ _ Hj1 Hh). lia.
Qed.

Lemma counted_run b p schedule :
  counted b p → b + Z.of_nat (length schedule) < 2 ^ 64 →
  counted (b + Z.of_nat (length schedule)) (run p schedule).
Proof.
  unfold execute. revert b p. induction schedule as [|e l IH]; intros b p Hp Hl; simpl in *.
  - by rewrite Z.add_0_r.
  - replace (b + Z.of_nat (S (length l))) with (b + 1 + Z.of_nat (length l)) by lia.
    apply IH; [apply counted_step; [lia|done]|lia].
Qed.

Lemma counted_start b : 0 ≤ b → counted b (start_pool threads 0).
Proof. intros Hb. split; simpl; [lia|done|]. by intros i t ->%start_worker. Qed.

(** Every nonce is one of a thread's, and not negative. *)
Lemma execute_nonce h0 schedule : 0 ≤ found_nonce (shared (run (start_pool threads h0) schedule)).
Proof.
  assert (Hinv : (∀ i t n, workers (run (start_pool threads h0) schedule) !! i = Some t →
                  thread_nonce t = Some n → 0 ≤ n) ∧
                 0 ≤ found_nonce (shared (run (start_pool threads h0) schedule))); [|apply Hinv].
  apply execute_inv; [split; [|done]|].
  - intros i t n ->%start_worker [= <-]. lia.
  - intros p [i|] _ [Hn Hf]; [|by split]. apply pool_step_run; [by split|].
    intros t Ht. pose proof (λ n, Hn i t n Ht) as Htn. split; simpl.
    + intros j t' n. rewrite list_lookup_insert. case_decide as Hj; [|by apply Hn].
      intros [= <-] (m & Hm & [->| ->])%thread_step_stride; [by apply Htn|].
      unfold wrapping_add, modulus. apply Z.mod_pos_bound. lia.
    + destruct t; simpl in *; try done. by apply Htn.
Qed.
End Search.

(** ** Properties *)

Section Properties.
Context `{!ScalePrims, !Hashing, !Floats}.
Implicit Types (self : Miner) (h : MiningBlockHeader).

(** C23. Total correctness of the search.  When the [k]-th nonce of thread [i] solves the
    header for the miner's target, every schedule without a [stop] that first
    runs that thread [3 k + 6] times and then every thread four times makes
    [start] return, and it returns a nonce that solves the header. *)
Theorem mining_finds_solution self h before after elapsed i k :
  (i < m_threads self)%nat → Z.of_nat i + Z.of_nat k * Z.of_nat (m_threads self) < 2 ^ 64 →
  verify_pow_enhanced (pallet_header h (Z.of_nat i + Z.of_nat k * Z.of_nat (m_threads self)))
    (start_target self h) = true →
  Stop ∉ before ++ after → (3 * k + 6 ≤ runs_of i before)%nat →
  (∀ j, (j < m_threads self)%nat → (4 ≤ runs_of j after)%nat) →
  ∃ n stats, start self h (before ++ after) elapsed = Some (Some (n, stats)) ∧
    verify_pow_enhanced (pallet_header h n) (start_target self h) = true.
Proof.
  intros Hi Hmax Hsol%Z.leb_le Hstop Hbefore Hafter.
  set (target := start_target self h) in *. set (threads := m_threads self) in *.
  set (p := execute h target threads (start_pool threads (m_hashes self)) before).
  assert (Ht0 : workers (start_pool threads (m_hashes self)) !! i = Some (LoadRunning (Z.of_nat i))).
  { simpl. by rewrite list_lookup_fmap, lookup_seq_lt. }
  destruct (run_measure h target threads (λ _, True) (search_left threads i k)
    (searching threads i k) i before) with (p := start_pool threads (m_hashes self))
    (t := LoadRunning (Z.of_nat i)) as (t & Ht & _ & Hk); try done.
  { intros q t _ _ Hs. by apply searching_step. }
  { exists 0. unfold nonce_of. split; lia. }
  fold p in Ht. assert (Hfound : found_solution (shared p) = true).
  { assert (Hz : search_left threads i k t = 0%nat).
    { revert Hk. unfold search_left at 2. replace (Z.of_nat i - Z.of_nat i) with 0 by lia.
      rewrite Z.div_0_l by lia. lia. }
    assert (t = Finished) as -> by (destruct t; simpl in Hz; done || lia).
    destruct (execute_progress h target threads (m_hashes self) before) as [_ Hf];
      [intros Hin; apply Hstop, elem_of_app; by left|]. by apply (Hf i Finished Ht). }
  assert (Hall : all_finished (run_threads self h (before ++ after)) = true).
  { unfold run_threads, execute. rewrite foldl_app.
    apply (found_drains h target threads p after); [exact Hfound|]. intros j Hj. apply Hafter.
    unfold p in Hj. rewrite execute_length in Hj. simpl in Hj. by rewrite length_fmap, length_seq in Hj. }
  assert (His : is_Some (start_result (run_threads self h (before ++ after)) elapsed)).
  { apply (mining_ends_with_solution self h (before ++ after) elapsed); [done|lia|].
    unfold start. by rewrite Hall. }
  destruct His as [[n stats] Hr].
  assert (Hs : start self h (before ++ after) elapsed = Some (Some (n, stats)))
    by (unfold start; by rewrite Hall, Hr).
  exists n, stats. split; [exact Hs|]. apply start_solution in Hs as [Hle _]. by apply Z.leb_le.
Qed.

(** ** The unit test of the file *)

(** [H256::from_low_u64_be] on a byte *)
Lemma low_byte_len b : (length (replicate 31 Byte.x00 ++ [b]) =? 32)%nat = true.
Proof. done. Qed.
Definition from_low_byte (b : Byte.byte) : H256 := Array _ (low_byte_len b).

Definition easy_target : Z := (2 ^ 64 - 1) / 1000.
Definition test_header : MiningBlockHeader :=
  {| mb_number := 1; mb_parent_hash := zeros 32; mb_state_root := from_low_byte Byte.x01;
     mb_extrinsics_root := from_low_byte Byte.x02; mb_difficulty := easy_target |}.

(** The assertions on the result of [miner.start(header)]. *)
Definition test_mining_with_easy_difficulty (result : option (Z * MiningStats)) : bool :=
  match result with
  | Some (nonce, stats) =>
      ((0 <? nonce) || (nonce =? 0)) && (0 <? hashes_computed stats) && (blocks_found stats =? 1)
  | None => false
  end.

(** The miner's unit test passes under every interleaving of its two threads in
    which both finish. *)
Theorem easy_mining_test_passes schedule elapsed r :
  Stop ∉ schedule → Z.of_nat (length schedule) < 2 ^ 64 →
  start (Miner_new 2 easy_target) test_header schedule elapsed = Some r →
  test_mining_with_easy_difficulty r = true.
Proof.
  intros Hstop Hlen Hrun.
  destruct (mining_ends_with_solution (Miner_new 2 easy_target) test_header schedule elapsed r)
    as [[n stats] ->]; [done|simpl; lia|done|].
  pose proof (start_solution _ _ _ _ _ _ Hrun) as [_ Hone].
  revert Hrun. unfold start. destruct (all_finished _); [|done]. unfold start_result.
  destruct (found_solution _) eqn:Hf; [|done]. intros [= Hn <-].
  pose proof (counted_run test_header (start_target (Miner_new 2 easy_target) test_header) 2 0 _ schedule
    (counted_start 2 0 ltac:(lia)) ltac:(lia)) as Hc.
  pose proof (ct_found _ _ Hc Hf) as Hpos.
  pose proof (execute_nonce test_header (start_target (Miner_new 2 easy_target) test_header) 2 0 schedule) as Hnn.
  assert (0 ≤ n) by (rewrite <-Hn; exact Hnn).
  simpl. rewrite !andb_true_iff, orb_true_iff, !Z.ltb_lt, !Z.eqb_eq. split_and!; [lia|exact Hpos|done].
Qed.
End Properties.

(** ** Evaluation *)

(** The third nonce of the first of two threads solves this header. *)
Definition hard_header : MiningBlockHeader :=
  {| mb_number := 1; mb_parent_hash := zeros 32; mb_state_root := zeros 32;
     mb_extrinsics_root := zeros 32; mb_difficulty := 2 ^ 62 |}.
Definition hard_miner : Miner := Miner_new 2 (2 ^ 62).
Definition in_turns (n : nat) : list event := mjoin (replicate n [Run 0; Run 1]).

Lemma mining_finds_solution_witness :
  ∃ n stats, start hard_miner hard_header (in_turns 12 ++ in_turns 4) one_second
               = Some (Some (n, stats)) ∧
    verify_pow_enhanced (pallet_header hard_header n) (2 ^ 62) = true.
Proof.
  apply (mining_finds_solution hard_miner hard_header (in_turns 12) (in_turns 4) one_second 0 2);
    [vm_compute; lia|by vm_compute|by vm_compute| |vm_compute; lia|].
  - rewrite list_elem_of_In. vm_compute. intuition discriminate.
  - intros [|[|j]] Hj; [vm_compute; lia|vm_compute; lia|]. vm_compute in Hj. lia.
Defined.

(** The nonce is 4, found after six hashes. *)
Example hard_header_mined :
  start hard_miner hard_header (in_turns 12 ++ in_turns 4) one_second
    = Some (Some (4, {| hashes_computed := 6; blocks_found := 1;
                        hash_rate := f64_of_u64 6; elapsed_time := one_second |})).
Proof. by vm_compute. Qed.
