(* ===== verification/Hooks.v ===== *)
(** * The hooks

    [adjust_difficulty], [on_initialize] and [on_finalize] of
    pallets/pallet-ghost-consensus/src/lib.rs. *)

From S2P Require Import Prelude RustInt Scale Types Interfaces Reference Difficulty Entropy.
From S2P Require Import Pow Selection Rewards Pallet Runtime Calls Slashing.
Local Open Scope Z_scope.
Local Open Scope ghost_scope.

Section Hooks.
Context `{!Build, !ScalePrims, !Hashing, !Pqc, !Config}.
Context {AccountId : Type} `{Countable AccountId}.
Context `{!Frame AccountId, !Currency AccountId}.
Implicit Types (s : State AccountId).

(** The state after an adjustment with entropy [e]. *)
Definition adjusted (e : Z) s : State AccountId :=
  let d := calculate_difficulty_adjustment (Difficulty s) 5 5 e in
  set_events (if decide (d = Difficulty s) then events s
              else events s ++ [DifficultyAdjusted (Difficulty s) d])
    (set_Difficulty d (set_CurrentEntropy e s)).

Lemma adjust_difficulty_ok s u s' :
  adjust_difficulty s = (Ok u, s') ↔
  ∃ e, calculate_entropy (RecentBlockProducers s) = Some e ∧ s' = adjusted e s ∧ u = tt.
Proof.
  unfold adjust_difficulty, adjusted, deposit_event. rewrite !bind_gets. split.
  - destruct (calculate_entropy _) as [e|]; run; [|done]. intros Hrun. exists e.
    split; [done|]. revert Hrun. case_decide as Hd; run.
    + intros [= <- <-]. by rewrite decide_False.
    + intros [= <- <-]. rewrite Hd, decide_True by done.
      by destruct s.
  - intros (e & -> & -> & ->). run. case_decide as Hd; run.
    + by rewrite decide_False.
    + rewrite Hd, decide_True by done. by destruct s.
Qed.

Lemma on_finalize_eq n s :
  on_finalize n s =
    (Ok tt, set_CurrentPhase
              (if decide (CurrentPhase s = Finalization) then PowMining else CurrentPhase s) s).
Proof. unfold on_finalize. run. case_decide; [done|]. by destruct s. Qed.

(** The schedule of [on_initialize]. *)
Lemma on_initialize_ok n s w s' :
  on_initialize n s = (Ok w, s') →
  w = (10000, 0) ∧ ∃ s1,
    (if decide (n mod 10 = 0) then check_downtime_slashing s = (Ok tt, s1) else s1 = s) ∧
    (if decide (n mod 100 = 0) then adjust_difficulty s1 = (Ok tt, s') else s' = s1).
Proof.
  unfold on_initialize. rewrite !rem_nz by done. run.
  intros ([] & s1 & Hsl & Hrun)%bind_ok. revert Hrun. run.
  intros ([] & s2 & Had & [= <- <-])%bind_ok. split; [done|]. exists s1. split.
  - destruct (decide (n mod 10 = 0)); [done|]. by injection Hsl.
  - destruct (decide (n mod 100 = 0)); [done|]. by injection Had.
Qed.
End Hooks.

(** ** Properties *)

Section Properties.
Context `{!Build, !ScalePrims, !Hashing, !Pqc, !Config}.
Context {AccountId : Type} `{Countable AccountId}.
Context `{!Frame AccountId, !Currency AccountId}.
Implicit Types (s : State AccountId).

(** [on_initialize] works on a schedule: it does nothing on most blocks, checks
    for downtime on every tenth and, after that, adjusts the difficulty on every
    hundredth. *)
Theorem on_initialize_schedule n s w s' :
  on_initialize n s = (Ok w, s') →
  w = (10000, 0) ∧
  (n mod 10 ≠ 0 → s' = s) ∧
  (n mod 10 = 0 → n mod 100 ≠ 0 → check_downtime_slashing s = (Ok tt, s')) ∧
  (n mod 100 = 0 → ∃ s1, check_downtime_slashing s = (Ok tt, s1) ∧
                         adjust_difficulty s1 = (Ok tt, s')).
Proof.
  intros (Hw & s1 & Hs & Ha)%on_initialize_ok.
  assert (Hmod : n mod 100 = 0 → n mod 10 = 0).
  { intros Hz. apply Z.mod_divide in Hz as [k ->]; [|done]. apply Z.mod_divide; [done|].
    exists (k * 10). lia. }
  destruct (decide (n mod 10 = 0)), (decide (n mod 100 = 0)); split_and!;
    solve [done | intros; (exfalso; tauto) || subst; eauto].
Qed.

(** C33. The difficulty adjustment of the pallet, whose measured block time is the
    constant target: on a window of at most a hundred producers it never
    panics; it records the entropy of the window, at most 6,562,500; it leaves a
    difficulty that is at least 1 and at most the old one (or 1); and it reports
    a change by one event, and only a change. *)
Theorem adjust_difficulty_effect s :
  (length (RecentBlockProducers s) ≤ 100)%nat → in_uint U64 (Difficulty s) →
  ∃ e s', adjust_difficulty s = (Ok tt, s') ∧
    calculate_entropy (RecentBlockProducers s) = Some e ∧ CurrentEntropy s' = e ∧
    0 ≤ e ≤ 6562500 ∧ 1 ≤ Difficulty s' ≤ Z.max (Difficulty s) 1 ∧
    events s' = (if decide (Difficulty s' = Difficulty s) then events s
                 else events s ++ [DifficultyAdjusted (Difficulty s) (Difficulty s')]) ∧
    RecentBlockProducers s' = RecentBlockProducers s ∧ ValidatorStakes s' = ValidatorStakes s ∧
    balances s' = balances s ∧ CurrentPhase s' = CurrentPhase s.
Proof.
  intros Hl [Hd0 Hd1]. set (e := entropy_spec (RecentBlockProducers s)).
  assert (He : calculate_entropy (RecentBlockProducers s) = Some e)
    by (apply calculate_entropy_eq; lia).
  pose proof (entropy_spec_bounds (RecentBlockProducers s)) as Hb.
  assert (Hlog : log2_scaled (Z.of_nat (length (RecentBlockProducers s))) ≤ 6562500).
  { etransitivity; [apply (log2_scaled_mono _ 100); lia|by vm_compute]. }
  fold e in Hb. exists e, (adjusted e s).
  split_and!; [apply adjust_difficulty_ok; eauto|done|done|lia|lia|..]; try done; simpl.
  - rewrite difficulty_stages by (done || unfold in_uint; lia).
    apply entropy_target_range; [apply time_target_range; lia|lia].
  - apply difficulty_not_raised; unfold in_uint; lia.
Qed.
End Properties.

(** ** Evaluation *)

#[local] Existing Instance release_build.
#[local] Existing Instance runtime_config.
#[local] Instance sample_currency : Currency AccountId := ref_currency EXISTENTIAL_DEPOSIT.

(** A window with two producers: its entropy is one bit. *)
Definition two_producers : State AccountId :=
  set_Difficulty 1000000
    (set_RecentBlockProducers [1; 2; 2; 1]
      (genesis_state (Currency0 := sample_currency) (Ledger ∅ 0))).
Definition after_initialize : State AccountId := (on_initialize 110 two_producers).2.

Lemma on_initialize_schedule_witness :
  check_downtime_slashing two_producers = (Ok tt, after_initialize).
Proof.
  destruct (run_ok_value (on_initialize 110 two_producers)) as [w Hw]; [by vm_compute|].
  refine (proj1 (proj2 (proj2 (on_initialize_schedule 110 two_producers w after_initialize Hw)))
            _ _); by vm_compute.
Defined.

Lemma adjust_difficulty_effect_witness :
  ∃ e s', adjust_difficulty two_producers = (Ok tt, s') ∧
    calculate_entropy (RecentBlockProducers two_producers) = Some e ∧ 0 ≤ e ≤ 6562500 ∧
    1 ≤ Difficulty s' ≤ 1000000.
Proof.
  destruct (adjust_difficulty_effect two_producers) as (e & s' & Hr & He & _ & Hb & Hd & _);
    [vm_compute; lia|by vm_compute|].
  exists e, s'. split; [exact Hr|]. split; [exact He|]. split; [exact Hb|exact Hd].
Defined.

(** Four producers in two equal halves: the target drops to 5/8. *)
Example adjust_two_producers : Difficulty (adjust_difficulty two_producers).2 = 625000.
Proof. by vm_compute. Qed.
