(* ===== verification/Chain.v ===== *)
(** * The chain as a transition system

    The calls and hooks of Pallet.v, and what the rest of the runtime does to the
    state they share, as steps of a labelled transition system; the properties of
    every reachable state by rule induction. *)

From S2P Require Import Prelude RustInt Scale Types Interfaces Reference Difficulty Entropy.
From S2P Require Import Pow Selection Rewards Pallet Runtime Calls Slashing Consensus.
From S2P Require Import Hooks.
Local Open Scope Z_scope.
Local Open Scope ghost_scope.

Section Chain.
Context `{!Build, !ScalePrims, !Hashing, !Pqc, !Config}.
Context {AccountId : Type} `{Countable AccountId}.
Context `{!Frame AccountId, !Currency AccountId}.
Implicit Types (s : State AccountId) (o : OriginFor) (c : Call AccountId).

(** ** Steps *)

Inductive label :=
  | Accepted o c
  | Rejected o c
  | Initialized (n : Z)
  | Finalized (n : Z)
  | NewBlock (n : Z)
  | Environment.

(** The arguments of a call are of their declared types. *)
Definition call_wf c : Prop :=
  match c with
  | Call_submit_block h => header_wf h
  | Call_stake amount | Call_unstake amount => in_uint U128 amount
  | Call_validate_block n _ => in_uint U32 n
  | Call_report_misbehavior _ _ | Call_register_pqc_key _ => True
  end.

(** One step: a dispatched call that succeeds or fails (one that panics makes no
    step), a hook, the next block number, and any change of the balances by the
    rest of the runtime that takes nothing from the escrow account and creates
    no money.  Nobody signs for the escrow account. *)
Inductive step s : label → State AccountId → Prop :=
  | step_accepted o c s' :
      ensure_signed_origin o ≠ Some account_id → call_wf c →
      dispatch o c s = (Ok tt, s') → step s (Accepted o c) s'
  | step_rejected o c e s' :
      call_wf c → dispatch o c s = (Err e, s') → step s (Rejected o c) s'
  | step_initialized n w s' :
      on_initialize n s = (Ok w, s') → step s (Initialized n) s'
  | step_finalized n u s' :
      on_finalize n s = (Ok u, s') → step s (Finalized n) s'
  | step_new_block n : in_uint U32 n → step s (NewBlock n) (set_block_number n s)
  | step_environment b :
      free_balance account_id (balances s) ≤ free_balance account_id b →
      total_issuance b ≤ total_issuance (balances s) →
      step s Environment (set_balances b s).

Inductive steps : State AccountId → list label → State AccountId → Prop :=
  | steps_nil s : steps s [] s
  | steps_cons s l s1 tr s' : step s l s1 → steps s1 tr s' → steps s (l :: tr) s'.

(** Rule induction for an invariant. *)
Lemma steps_invariant (P : State AccountId → Prop) s tr s' :
  (∀ t l t', P t → step t l t' → P t') → P s → steps s tr s' → P s'.
Proof. intros Hstep HP Hs. induction Hs; eauto. Qed.

(** ** Counting labels *)

Definition is_submit (l : label) : bool :=
  match l with Accepted _ (Call_submit_block _) => true | _ => false end.
Definition is_validate (l : label) : bool :=
  match l with Accepted _ (Call_validate_block _ _) => true | _ => false end.
Definition is_unstake (l : label) : bool :=
  match l with Accepted _ (Call_unstake _) => true | _ => false end.

Definition count (f : label → bool) (tr : list label) : Z :=
  Z.of_nat (length (filter (λ l, f l = true) tr)).

Lemma count_nil f : count f [] = 0.
Proof. done. Qed.
Lemma count_cons f l tr : count f (l :: tr) = (if f l then 1 else 0) + count f tr.
Proof.
  unfold count. rewrite filter_cons. case_decide as Hd.
  - rewrite Hd. simpl length. lia.
  - apply not_true_is_false in Hd. rewrite Hd. lia.
Qed.
Lemma count_nonneg f tr : 0 ≤ count f tr.
Proof. unfold count. lia. Qed.

Context `{!FrameOk AccountId}.

(** ** What an accepted call changes *)

Lemma accepted_body o c s s' :
  dispatch o c s = (Ok tt, s') → call_body o c s = (Ok tt, s').
Proof. apply dispatch_ok. Qed.

(** The changes of a hook to the state. *)
Lemma initialized_state n s w s' :
  on_initialize n s = (Ok w, s') →
  ∃ s1, (s1 = s ∨ s1 = apply_slashes (downtime_slashes s) s) ∧
        (s' = s1 ∨ ∃ e, calculate_entropy (RecentBlockProducers s) = Some e ∧
                        s' = adjusted e s1).
Proof.
  intros (_ & s1 & Hsl & Had)%on_initialize_ok.
  assert (Hs1 : s1 = s ∨ s1 = apply_slashes (downtime_slashes s) s).
  { destruct (decide (n mod 10 = 0)); [right|by left]. by eapply check_downtime_slashing_ok. }
  exists s1. split; [done|]. destruct (decide (n mod 100 = 0)) as [_|_]; [right|by left].
  apply adjust_difficulty_ok in Had as (e & He & -> & _). exists e. split; [|done].
  by destruct Hs1 as [-> | ->].
Qed.

(** ** The type invariant *)

Record state_wf s : Prop := {
  swf_difficulty : in_uint U64 (Difficulty s);
  swf_headers : map_Forall (λ n h, number h = n ∧ header_wf h) (BlockHeaders s);
  swf_producers : ∀ n, is_Some (BlockProducers s !! n) → is_Some (BlockHeaders s !! n);
  swf_stakes : stakes_wf s;
  swf_active : map_Forall (λ _ n, in_uint U32 n) (LastActiveBlock s);
  swf_recent : (length (RecentBlockProducers s) ≤ 100)%nat;
  swf_entropy : in_uint U64 (CurrentEntropy s);
  swf_block : in_uint U32 (block_number s);
}.

Lemma saturate_wf w x : 0 ≤ w → in_uint w (saturate w x).
Proof. apply saturate_range. Qed.

Lemma apply_slashes_wf l s : state_wf s → state_wf (apply_slashes l s).
Proof.
  intros [Hd Hh Hp Hs Ha Hr He Hb]. split; try done. unfold stakes_wf, apply_slashes. cbn.
  assert (Hm : ∀ m : gmap AccountId Z, map_Forall (λ _ st, in_uint U128 st) m →
               map_Forall (λ _ st, in_uint U128 st) (foldl slash_stake m l)).
  { induction l as [|va l IH]; intros m Hm; [done|]. simpl. apply IH.
    intros v st Hst. unfold slash_stake in Hst. rewrite lookup_alter in Hst.
    case_decide; [|by eapply Hm].
    apply fmap_Some in Hst as (st' & _ & ->). by apply saturate_range. }
  by apply Hm.
Qed.

Lemma adjusted_wf e s :
  calculate_entropy (RecentBlockProducers s) = Some e → state_wf s → state_wf (adjusted e s).
Proof.
  intros He [Hd Hh Hp Hs Ha Hr Hen Hb].
  rewrite calculate_entropy_eq in He by lia. injection He as <-.
  pose proof (entropy_spec_bounds (RecentBlockProducers s)) as Hbound.
  assert (Hlog : log2_scaled (Z.of_nat (length (RecentBlockProducers s))) ≤ 6562500).
  { etransitivity; [apply (log2_scaled_mono _ 100); lia|by vm_compute]. }
  assert (Hu : in_uint U64 (entropy_spec (RecentBlockProducers s))) by (unfold in_uint; lia).
  split; [|exact Hh|exact Hp|exact Hs|exact Ha|exact Hr|exact Hu|exact Hb].
  change (in_uint U64 (calculate_difficulty_adjustment (Difficulty s) 5 5
    (entropy_spec (RecentBlockProducers s)))).
  rewrite difficulty_stages by done. destruct Hd as [??].
  pose proof (entropy_target_range (time_target (Difficulty s) 5 5)
    (entropy_spec (RecentBlockProducers s)) (time_target_range (Difficulty s) 5 5 ltac:(lia)) (proj1 Hbound)).
  unfold in_uint. lia.
Qed.

Lemma accepted_wf o c s s' :
  call_wf c → dispatch o c s = (Ok tt, s') → state_wf s → state_wf s'.
Proof.
  intros Hc Hr%accepted_body [Hd Hh Hp Hs Ha Hre He Hb]. destruct c; simpl in Hr, Hc.
  - apply submit_block_ok in Hr as (m & parent & _ & _ & _ & _ & Hv & -> & _).
    split; try done; cbn.
    + by apply map_Forall_insert_2.
    + intros n. rewrite !lookup_insert_is_Some. intros [->|[_ ?]]; [by left|].
      destruct (decide (number block_header = n)); [by left|right]. auto.
    + apply map_Forall_insert_2; [apply Hc|done].
    + by apply push_recent_length.
  - apply stake_ok in Hr as (v & b & n & _ & _ & _ & Hn & -> & _). split; try done; cbn.
    apply map_Forall_insert_2; [|done]. by eapply arith_range.
  - apply unstake_ok in Hr as (v & b & cur & n & _ & _ & _ & Hn & _ & -> & _).
    split; try done; cbn. apply map_Forall_insert_2; [|done]. by eapply arith_range.
  - apply validate_block_ok in Hr
      as (v & h & sel & rw & m & b & _ & _ & Hbh & _ & _ & _ & _ & _ & _ & _ & -> & _).
    split; try done; cbn.
    + apply map_Forall_insert_2; [|done]. destruct (Hh _ _ Hbh) as [? [???]].
      split; [done|]. by split.
    + intros n Hn. rewrite lookup_insert_is_Some.
      destruct (decide (block_number = n)); [by left|right]. auto.
    + by apply map_Forall_insert_2.
  - apply report_misbehavior_ok in Hr as (r & a & _ & _ & -> & _).
    destruct reason; (split; try done; cbn; apply map_Forall_insert_2; [|done];
      by apply saturate_range).
  - apply register_pqc_key_ok in Hr as (v & _ & _ & ->). by split.
Qed.

Lemma step_wf s l s' : state_wf s → step s l s' → state_wf s'.
Proof.
  intros Hwf Hstep. destruct Hstep as
    [o c s' _ Hc Hd|o c e s' _ Hd|n w s' Hi|n u s' Hf|n Hn|b Hb1 Hb2].
  - by eapply accepted_wf.
  - by apply dispatch_err in Hd as ->.
  - apply initialized_state in Hi as (s1 & Hs1 & Hs').
    assert (Hwf1 : state_wf s1) by (destruct Hs1 as [-> | ->]; [done|by apply apply_slashes_wf]).
    destruct Hs' as [-> |(e & He & ->)]; [done|]. apply adjusted_wf; [|done].
    by destruct Hs1 as [-> | ->].
  - rewrite on_finalize_eq in Hf. injection Hf as _ <-. by destruct Hwf.
  - by destruct Hwf.
  - by destruct Hwf.
Qed.

(** ** The phase machine *)

(** The abstract machine of the consensus: one submission, one validation, one
    finalization, in turn. *)
Inductive phase_step : ConsensusPhase → label → ConsensusPhase → Prop :=
  | phase_submit o h : phase_step PowMining (Accepted o (Call_submit_block h)) PosValidation
  | phase_validate o n sig :
      phase_step PosValidation (Accepted o (Call_validate_block n sig)) Finalization
  | phase_finalize n : phase_step Finalization (Finalized n) PowMining
  | phase_stutter p l :
      is_submit l = false → is_validate l = false →
      (∀ n, l = Finalized n → p ≠ Finalization) → phase_step p l p.

Inductive phase_run : ConsensusPhase → list label → ConsensusPhase → Prop :=
  | phase_nil p : phase_run p [] p
  | phase_cons p l p1 tr p' : phase_step p l p1 → phase_run p1 tr p' → phase_run p (l :: tr) p'.

Lemma step_phase s l s' : step s l s' → phase_step (CurrentPhase s) l (CurrentPhase s').
Proof.
  destruct 1 as [o c s' _ Hc Hd|o c e s' _ Hd|n w s' Hi|n u s' Hf|n Hn|b Hb1 Hb2].
  - apply accepted_body in Hd. destruct c; simpl in Hd.
    + apply submit_block_ok in Hd as (m & parent & _ & -> & _ & _ & _ & -> & _). constructor.
    + apply stake_ok in Hd as (v & b & n & _ & _ & _ & _ & -> & _). by constructor.
    + apply unstake_ok in Hd as (v & b & cur & n & _ & _ & _ & _ & _ & -> & _).
      by constructor.
    + apply validate_block_ok in Hd
        as (v & h & sel & rw & m & b & _ & _ & _ & -> & _ & _ & _ & _ & _ & _ & -> & _).
      constructor.
    + apply report_misbehavior_ok in Hd as (r & a & _ & _ & -> & _).
      destruct reason; by constructor.
    + apply register_pqc_key_ok in Hd as (v & _ & _ & ->). by constructor.
  - apply dispatch_err in Hd as ->. by constructor.
  - apply initialized_state in Hi as (s1 & Hs1 & Hs').
    assert (Hp1 : CurrentPhase s1 = CurrentPhase s) by (by destruct Hs1 as [-> | ->]).
    replace (CurrentPhase s') with (CurrentPhase s); [by constructor|].
    destruct Hs' as [-> |(e & _ & ->)]; by rewrite <-Hp1.
  - rewrite on_finalize_eq in Hf. injection Hf as _ <-. cbn.
    case_decide as Hph; [rewrite Hph; constructor|by constructor].
  - by constructor.
  - by constructor.
Qed.

Lemma steps_phase s tr s' : steps s tr s' → phase_run (CurrentPhase s) tr (CurrentPhase s').
Proof. induction 1; econstructor; eauto using step_phase. Qed.

(** The blocks that wait for a validation in a phase. *)
Definition pending (p : ConsensusPhase) : Z :=
  match p with PosValidation => 1 | _ => 0 end.

Lemma phase_run_count p tr p' :
  phase_run p tr p' → pending p + count is_submit tr = count is_validate tr + pending p'.
Proof.
  induction 1 as [|p l p1 tr p' Hs _ IH]; [rewrite !count_nil; lia|]. rewrite !count_cons.
  destruct Hs as [o h|o n sig|n|p l Hsub Hval Hfin]; simpl in *; try lia.
  rewrite Hsub, Hval. lia.
Qed.

(** ** The difficulty *)

Lemma step_difficulty s l s' :
  state_wf s → step s l s' → Difficulty s' ≤ Z.max (Difficulty s) 1.
Proof.
  intros Hwf. destruct 1 as [o c s' _ Hc Hd|o c e s' _ Hd|n w s' Hi|n u s' Hf|n Hn|b Hb1 Hb2].
  - apply accepted_body in Hd. destruct c; simpl in Hd.
    + apply submit_block_ok in Hd as (m & parent & _ & _ & _ & _ & _ & -> & _). cbn. lia.
    + apply stake_ok in Hd as (v & b & n & _ & _ & _ & _ & -> & _). cbn. lia.
    + apply unstake_ok in Hd as (v & b & cur & n & _ & _ & _ & _ & _ & -> & _). cbn. lia.
    + apply validate_block_ok in Hd
        as (v & h & sel & rw & m & b & _ & _ & _ & _ & _ & _ & _ & _ & _ & _ & -> & _).
      cbn. lia.
    + apply report_misbehavior_ok in Hd as (r & a & _ & _ & -> & _).
      destruct reason; cbn; lia.
    + apply register_pqc_key_ok in Hd as (v & _ & _ & ->). cbn. lia.
  - apply dispatch_err in Hd as ->. lia.
  - apply initialized_state in Hi as (s1 & Hs1 & Hs').
    assert (Hwf1 : state_wf s1 ∧ Difficulty s1 = Difficulty s ∧
                   RecentBlockProducers s1 = RecentBlockProducers s)
      by (destruct Hs1 as [-> | ->]; split_and!; done || by apply apply_slashes_wf).
    destruct Hwf1 as (Hwf1 & Hd1 & Hr1).
    destruct Hs' as [-> |(e & He & ->)]; [rewrite Hd1; lia|].
    rewrite <-Hr1 in He. pose proof (adjusted_wf e s1 He Hwf1) as Hadj.
    change (calculate_difficulty_adjustment (Difficulty s1) 5 5 e ≤ Z.max (Difficulty s) 1).
    rewrite <-Hd1. destruct (swf_difficulty _ Hwf1) as [? ?].
    apply difficulty_not_raised; [done|lia|]. exact (swf_entropy _ Hadj).
  - rewrite on_finalize_eq in Hf. injection Hf as _ <-. cbn. lia.
  - cbn. lia.
  - cbn. lia.
Qed.

Lemma steps_difficulty s tr s' :
  state_wf s → steps s tr s' → Difficulty s' ≤ Z.max (Difficulty s) 1.
Proof.
  intros Hwf Hs. induction Hs as [s|s l s1 tr s' Hstep _ IH]; [lia|].
  pose proof (step_difficulty _ _ _ Hwf Hstep). specialize (IH (step_wf _ _ _ Hwf Hstep)). lia.
Qed.

(** ** Stakes and escrow *)

Context `{!CurrencyOk AccountId, !ConfigOk}.

(** The total stake that the escrow account does not cover. *)
Definition shortfall s : Z :=
  map_sum (ValidatorStakes s) - free_balance account_id (balances s).

Lemma collect_stakers_sum s : stakes_sum (collect_stakers s) = map_sum (ValidatorStakes s).
Proof.
  unfold stakes_sum, collect_stakers, map_sum. rewrite <-(storage_iter_perm (ValidatorStakes s)).
  rewrite <-list_fmap_compose. f_equal. by apply list_fmap_ext; intros ? [].
Qed.

Lemma collect_stakers_nonneg s :
  stakes_wf s → Forall (λ x, 0 ≤ Types.stake x) (collect_stakers s).
Proof.
  intros Hwf. apply Forall_fmap, Forall_forall. intros [a st] Hin. simpl.
  apply storage_iter_elem in Hin. by destruct (Hwf _ _ Hin).
Qed.

Lemma stakes_nonneg s : stakes_wf s → map_Forall (λ _ st, 0 ≤ st) (ValidatorStakes s).
Proof. intros Hwf a st Hst. by destruct (Hwf _ _ Hst). Qed.

Lemma stake_of_range v s : stakes_wf s → in_uint U128 (stake_of v s).
Proof.
  intros Hwf. unfold stake_of. destruct (ValidatorStakes s !! v) eqn:E; [by eapply Hwf|].
  by vm_compute.
Qed.

Lemma stake_of_le_total v s : stakes_wf s → stake_of v s ≤ map_sum (ValidatorStakes s).
Proof.
  intros Hst. pose proof (stakes_nonneg s Hst) as Hnn. unfold stake_of.
  destruct (ValidatorStakes s !! v) as [st|] eqn:Hv; simpl.
  - by apply (map_sum_lookup_le _ v).
  - by apply map_sum_nonneg.
Qed.

Lemma block_reward_nonneg reward :
  calculate_block_reward T_BlockReward = Some reward →
  miner_reward reward + stakers_reward reward = T_BlockReward ∧
  0 ≤ miner_reward reward ∧ 0 ≤ stakers_reward reward.
Proof.
  intros Hr. destruct (calculate_block_reward_split _ _ T_BlockReward_range Hr)
    as (_ & ? & ? & ?). lia.
Qed.

Lemma slash_percentage_nonneg reason : 0 ≤ slash_percentage_of reason.
Proof.
  destruct reason; simpl; [apply T_DoubleSign_range|apply T_InvalidBlock_range
    |apply T_Downtime_range|lia].
Qed.

(** The dust that an accepted unstake can lose. *)
Definition dust (l : label) : Z :=
  if is_unstake l then Z.max 0 (existential_deposit - 1) else 0.

Lemma initialized_stakes n w s s' :
  stakes_wf s → on_initialize n s = (Ok w, s') →
  map_sum (ValidatorStakes s') ≤ map_sum (ValidatorStakes s) ∧ balances s' = balances s.
Proof.
  intros Hwf Hi. apply initialized_state in Hi as (s1 & Hs1 & Hs').
  assert (Hle : map_sum (ValidatorStakes s1) ≤ map_sum (ValidatorStakes s)
                ∧ balances s1 = balances s).
  { destruct Hs1 as [-> | ->]; [done|]. split; [|done]. cbn. apply slashes_sum_le; [done|].
    apply downtime_slashes_nonneg; [done|apply T_Downtime_range]. }
  by destruct Hs' as [-> |(e & _ & ->)].
Qed.

(** Only an unstake that lets the escrow account be reaped widens the gap. *)
Lemma step_shortfall_cases s l s' :
  state_wf s → step s l s' →
  shortfall s' ≤ shortfall s ∨
  is_unstake l = true ∧ - existential_deposit < shortfall s ∧
    shortfall s' ≤ shortfall s + Z.max 0 (existential_deposit - 1).
Proof.
  intros Hwf. pose proof (swf_stakes _ Hwf) as Hst. unfold shortfall.
  destruct 1 as [o c s' Hesc Hc Hd|o c e s' _ Hd|n w s' Hi|n u s' Hf|n Hn|b Hb1 Hb2].
  - apply accepted_body in Hd. destruct c; simpl in Hd, Hc.
    + apply submit_block_ok in Hd as (m & parent & _ & _ & _ & _ & _ & -> & _). by left.
    + apply stake_ok in Hd as (v & b & n & Ho & _ & Ht & Hn & -> & _). left. cbn.
      rewrite map_sum_insert. fold (stake_of v s). destruct (stake_of_range v s Hst).
      pose proof (transfer_to _ _ _ _ _ _ Ht ltac:(congruence)).
      pose proof (arith_le U128 (stake_of v s + amount) n ltac:(lia)
        ltac:(destruct Hc; lia) Hn). lia.
    + apply unstake_ok in Hd as (v & b & cur & n & Ho & Hcur & Hle & Hn & Ht & -> & _). cbn.
      rewrite map_sum_insert, Hcur. simpl. destruct (Hst _ _ Hcur) as [? ?].
      pose proof (map_sum_lookup_le _ _ _ (stakes_nonneg s Hst) Hcur).
      destruct Hc as [? ?]. rewrite sub_fits in Hn by (unfold in_uint; lia). injection Hn as <-.
      destruct (transfer_from _ _ _ _ _ _ Ht ltac:(congruence)) as [? [?|(_ & ? & ?)]];
        [left; lia|right; split; [done|lia]].
    + apply validate_block_ok in Hd
        as (v & h & sel & rw & m & b & _ & _ & _ & _ & _ & _ & _ & Hrw & _ & Hb & -> & _).
      left. cbn. destruct (block_reward_nonneg _ Hrw) as (_ & ? & ?).
      pose proof (distribute_rewards_no_loss m _ rw _ _ _ ltac:(done) ltac:(done)
        (collect_stakers_nonneg s Hst) Hb account_id). lia.
    + apply report_misbehavior_ok in Hd as (r & a & _ & Ha & -> & _).
      pose proof (slashed_stake_bounds _ _ _ (stake_of_range validator s Hst)
        (slash_percentage_nonneg reason) Ha) as Hb.
      assert (map_sum (<[validator := saturating_sub U128 (stake_of validator s) a]>
                         (ValidatorStakes s)) ≤ map_sum (ValidatorStakes s)).
      { rewrite map_sum_insert. fold (stake_of validator s). lia. }
      left. destruct reason; cbn; lia.
    + apply register_pqc_key_ok in Hd as (v & _ & _ & ->). by left.
  - apply dispatch_err in Hd as ->. by left.
  - destruct (initialized_stakes _ _ _ _ Hst Hi) as [? ->]. left. lia.
  - rewrite on_finalize_eq in Hf. injection Hf as _ <-. by left.
  - by left.
  - left. cbn. lia.
Qed.

Lemma step_shortfall s l s' :
  state_wf s → step s l s' → shortfall s' ≤ shortfall s + dust l.
Proof.
  intros Hwf Hs. unfold dust.
  destruct (step_shortfall_cases _ _ _ Hwf Hs) as [?|(-> & _ & ?)]; [|done].
  destruct (is_unstake l); lia.
Qed.

(** An existential deposit on top of the stakes keeps the account alive. *)
Lemma steps_funded s tr s' :
  state_wf s → shortfall s ≤ - existential_deposit → steps s tr s' →
  shortfall s' ≤ shortfall s.
Proof.
  intros Hwf Hf Hs. induction Hs as [s|s l s1 tr s' Hstep _ IH]; [done|].
  pose proof (step_wf _ _ _ Hwf Hstep) as Hwf1.
  destruct (step_shortfall_cases _ _ _ Hwf Hstep) as [?|(_ & ? & _)]; [|lia].
  specialize (IH Hwf1). lia.
Qed.

Lemma steps_shortfall s tr s' :
  state_wf s → steps s tr s' →
  shortfall s' ≤ shortfall s + Z.max 0 (existential_deposit - 1) * count is_unstake tr.
Proof.
  intros Hwf Hs. induction Hs as [s|s l s1 tr s' Hstep _ IH]; [rewrite count_nil; lia|].
  rewrite count_cons. pose proof (step_shortfall _ _ _ Hwf Hstep) as Hle.
  specialize (IH (step_wf _ _ _ Hwf Hstep)). unfold dust in Hle.
  destruct (is_unstake l); lia.
Qed.

(** ** Issuance *)

Lemma step_issuance s l s' :
  state_wf s →
  (is_validate l = true → overflow_checks = true ∨ map_sum (ValidatorStakes s) < 2 ^ 128) →
  step s l s' →
  total_issuance (balances s') ≤
    total_issuance (balances s) + (if is_validate l then T_BlockReward else 0).
Proof.
  intros Hwf Hor. pose proof (swf_stakes _ Hwf) as Hst.
  destruct 1 as [o c s' Hesc Hc Hd|o c e s' _ Hd|n w s' Hi|n u s' Hf|n Hn|b Hb1 Hb2].
  - apply accepted_body in Hd. destruct c; simpl in Hd, Hc; simpl is_validate; cbv iota.
    + apply submit_block_ok in Hd as (m & parent & _ & _ & _ & _ & _ & -> & _). cbn. lia.
    + apply stake_ok in Hd as (v & b & n & Ho & _ & Ht & Hn & -> & _). cbn.
      pose proof (transfer_issuance _ _ _ _ _ _ Ht). lia.
    + apply unstake_ok in Hd as (v & b & cur & n & Ho & Hcur & Hle & Hn & Ht & -> & _). cbn.
      pose proof (transfer_issuance _ _ _ _ _ _ Ht). lia.
    + apply validate_block_ok in Hd
        as (v & h & sel & rw & m & b & _ & _ & _ & _ & _ & _ & _ & Hrw & _ & Hb & -> & _).
      cbn. destruct (block_reward_nonneg _ Hrw) as (? & ? & ?).
      specialize (Hor eq_refl). rewrite <-collect_stakers_sum in Hor.
      destruct (distribute_rewards_effect _ _ _ _ _ _ ltac:(eassumption) ltac:(eassumption)
        (collect_stakers_nonneg s Hst) Hor Hb) as [? _]. lia.
    + apply report_misbehavior_ok in Hd as (r & a & _ & Ha & -> & _).
      destruct reason; cbn; lia.
    + apply register_pqc_key_ok in Hd as (v & _ & _ & ->). cbn. lia.
  - apply dispatch_err in Hd as ->. simpl. lia.
  - destruct (initialized_stakes _ _ _ _ Hst Hi) as [_ ->]. simpl. lia.
  - rewrite on_finalize_eq in Hf. injection Hf as _ <-. cbn. lia.
  - cbn. lia.
  - cbn. lia.
Qed.


(** ** A chain without headers *)

Definition headless s : Prop := BlockHeaders s = ∅ ∧ CurrentPhase s = PowMining.

Lemma step_headless s l s' :
  headless s → step s l s' → headless s' ∧ is_submit l = false ∧ is_validate l = false.
Proof.
  intros [Hh Hph].
  destruct 1 as [o c s' _ Hc Hd|o c e s' _ Hd|n w s' Hi|n u s' Hf|n Hn|b Hb1 Hb2].
  - apply accepted_body in Hd. unfold headless. destruct c; simpl in Hd.
    + apply submit_block_ok in Hd as (m & parent & _ & _ & _ & Hpar & _).
      by rewrite Hh, lookup_empty in Hpar.
    + by apply stake_ok in Hd as (v & b & n & _ & _ & _ & _ & -> & _).
    + by apply unstake_ok in Hd as (v & b & cur & n & _ & _ & _ & _ & _ & -> & _).
    + apply validate_block_ok in Hd as (v & h & sel & rw & m & b & _ & _ & Hbh & _).
      by rewrite Hh, lookup_empty in Hbh.
    + apply report_misbehavior_ok in Hd as (r & a & _ & _ & -> & _). by destruct reason.
    + by apply register_pqc_key_ok in Hd as (v & _ & _ & ->).
  - by apply dispatch_err in Hd as ->.
  - apply initialized_state in Hi as (s1 & Hs1 & Hs').
    assert (headless s1) as [? ?] by (by destruct Hs1 as [-> | ->]).
    by destruct Hs' as [-> |(e & _ & ->)].
  - rewrite on_finalize_eq in Hf. injection Hf as _ <-. unfold headless. cbn.
    by rewrite Hph.
  - done.
  - done.
Qed.

Lemma steps_headless s tr s' :
  headless s → steps s tr s' →
  headless s' ∧ count is_submit tr = 0 ∧ count is_validate tr = 0.
Proof.
  intros Hh Hs. induction Hs as [s|s l s1 tr s' Hstep _ IH]; [done|].
  destruct (step_headless _ _ _ Hh Hstep) as (Hh1 & Hl1 & Hl2).
  rewrite !count_cons, Hl1, Hl2. by apply IH.
Qed.

(** Without a header nothing is ever validated, so no money is created, in any
    build and for any existential deposit. *)
Lemma headless_issuance s tr s' :
  state_wf s → headless s → steps s tr s' →
  total_issuance (balances s') ≤ total_issuance (balances s).
Proof.
  intros Hwf Hh Hs. induction Hs as [s|s l s1 tr s' Hstep _ IH]; [done|].
  destruct (step_headless _ _ _ Hh Hstep) as (Hh1 & _ & Hl).
  pose proof (step_issuance _ _ _ Hwf ltac:(by rewrite Hl) Hstep) as Hi. rewrite Hl in Hi.
  specialize (IH (step_wf _ _ _ Hwf Hstep) Hh1). lia.
Qed.

Lemma genesis_wf b : state_wf (genesis_state b).
Proof.
  split; simpl; [done|apply map_Forall_empty| |apply map_Forall_empty|apply map_Forall_empty
    |lia|done|done].
  intros n. rewrite lookup_empty. by intros [? ?].
Qed.
End Chain.

Arguments label AccountId {_ _ _}.

(** ** Properties *)

Section Properties.
Context `{!Build, !ScalePrims, !Hashing, !Pqc, !Config, !ConfigOk}.
Context {AccountId : Type} `{Countable AccountId}.
Context `{!Frame AccountId, !FrameOk AccountId, !Currency AccountId, !CurrencyOk AccountId}.
Implicit Types (s : State AccountId) (tr : list (label AccountId)).

(** C7. The type invariant of the storage holds in every reachable state: all
    integers keep to their declared widths, headers are stored under their own
    number, every producer belongs to a stored header, and the window of
    producers holds at most a hundred accounts. *)
Theorem reachable_states_wf s tr s' : state_wf s → steps s tr s' → state_wf s'.
Proof. intros Hwf Hs. by eapply steps_invariant; [apply step_wf|exact Hwf|exact Hs]. Qed.

(** C3. The chain refines the phase machine: whatever calls and hooks are
    interleaved, the phase changes only by an accepted submission from mining to
    validation, by an accepted validation from validation to finalization, and
    by [on_finalize] from finalization back to mining; hence submissions and
    validations alternate. *)
Theorem chain_refines_phase_machine s tr s' :
  steps s tr s' →
  phase_run (CurrentPhase s) tr (CurrentPhase s') ∧
  pending (CurrentPhase s) + count is_submit tr
    = count is_validate tr + pending (CurrentPhase s').
Proof. intros Hs%steps_phase. split; [done|by apply phase_run_count]. Qed.

(** C9. Solvency: on a chain whose escrow account covers the stakes at the start,
    the uncovered stake never exceeds the existential deposit less one for
    every accepted unstake; with an existential deposit of at most 1, or with
    one existential deposit on top of the stakes at the start, the escrow account
    covers the stakes for ever. *)
Theorem escrow_covers_stakes s tr s' :
  state_wf s → shortfall s ≤ 0 → steps s tr s' →
  map_sum (ValidatorStakes s') ≤ free_balance account_id (balances s')
    + Z.max 0 (existential_deposit - 1) * count is_unstake tr ∧
  (existential_deposit ≤ 1 ∨ shortfall s ≤ - existential_deposit →
   shortfall s' ≤ 0 ∧ ∀ v, stake_of v s' ≤ free_balance account_id (balances s')).
Proof.
  intros Hwf Hsh Hs. pose proof (steps_shortfall _ _ _ Hwf Hs) as Hle.
  split; [unfold shortfall in *; lia|]. intros Hor.
  assert (Hsh' : shortfall s' ≤ 0).
  { destruct Hor as [Hed|Hed]; [|by pose proof (steps_funded _ _ _ Hwf Hed Hs); lia].
    rewrite Z.max_l in Hle; lia. }
  split; [done|]. intros v. unfold shortfall in *.
  assert (Hwf' : state_wf s') by (by eapply steps_invariant; [apply step_wf|exact Hwf|exact Hs]).
  pose proof (stake_of_le_total v s' (swf_stakes _ Hwf')). lia.
Qed.


(** The pallet's adjustments never raise the difficulty target: the measured
    block time is a constant, so the target can only shrink or stay, for the
    whole life of the chain (a target of 0 becomes 1). *)
Theorem difficulty_target_never_grows s tr s' :
  state_wf s → steps s tr s' → Difficulty s' ≤ Z.max (Difficulty s) 1.
Proof. apply steps_difficulty. Qed.

(** From the runtime's genesis no block is ever accepted: there is no first
    header to build on, so whatever is called, no submission and no validation
    succeeds, the phase stays mining, and no reward is paid. *)
Theorem genesis_chain_never_mines (b : Balances) tr s' :
  steps (genesis_state b) tr s' →
  BlockHeaders s' = ∅ ∧ CurrentPhase s' = PowMining ∧
  count is_submit tr = 0 ∧ count is_validate tr = 0 ∧ Difficulty s' ≤ 1.
Proof.
  intros Hs. destruct (steps_headless (genesis_state b) tr s') as ([? ?] & ? & ?); [done|done|].
  split_and!; [done..|]. exact (steps_difficulty _ _ _ (genesis_wf b) Hs).
Qed.
End Properties.

(** ** Evaluation *)

#[local] Existing Instance release_build.
#[local] Existing Instance runtime_config.
#[local] Existing Instance runtime_config_ok.
#[local] Instance unit_currency : Currency AccountId := ref_currency 1.
#[local] Instance unit_currency_ok : CurrencyOk AccountId := ref_currency_ok 1 ltac:(lia).

(** A chain that starts with a header number 0 and runs through one block: the
    submission by account 1, the validation by the only staker, the finalization,
    and then a stake and an unstake by account 1. *)
Definition start_state : State AccountId :=
  set_Difficulty (2 ^ 63)
    (set_BlockHeaders {[0 := header0]}
      (set_ValidatorStakes {[2 := UNIT]}
        (genesis_state
           (Ledger (<[1 := 3 * UNIT]> (<[2 := 3 * UNIT]> (<[112 := UNIT]> ∅))) (7 * UNIT))))).

Definition call1 : Call AccountId := Call_submit_block header1.
Definition call2 : Call AccountId := Call_validate_block 1 PqcSignature_default.
Definition call3 : Call AccountId := Call_stake UNIT.
Definition call4 : Call AccountId := Call_unstake UNIT.

Definition state1 : State AccountId := (dispatch (signed 1) call1 start_state).2.
Definition state2 : State AccountId := (dispatch (signed 2) call2 state1).2.
Definition state3 : State AccountId := (on_finalize 1 state2).2.
Definition state4 : State AccountId := (dispatch (signed 1) call3 state3).2.
Definition state5 : State AccountId := (dispatch (signed 1) call4 state4).2.

Definition sample_trace : list (label AccountId) :=
  [Accepted (signed 1) call1; Accepted (signed 2) call2; Finalized 1;
   Accepted (signed 1) call3; Accepted (signed 1) call4].

Lemma sample_steps : steps start_state sample_trace state5.
Proof.
  assert (Hesc : ∀ a, a ≠ 112 → ensure_signed_origin (signed a) ≠ Some account_id)
    by (intros a Ha [= ->]; by apply Ha).
  apply (steps_cons _ _ state1).
  { apply step_accepted; [by apply Hesc|split; by vm_compute|apply run_ok; by vm_compute]. }
  apply (steps_cons _ _ state2).
  { apply step_accepted; [by apply Hesc|by vm_compute|apply run_ok; by vm_compute]. }
  apply (steps_cons _ _ state3); [by apply (step_finalized _ 1 tt)|].
  apply (steps_cons _ _ state4).
  { apply step_accepted; [by apply Hesc|by vm_compute|apply run_ok; by vm_compute]. }
  apply (steps_cons _ _ state5).
  { apply step_accepted; [by apply Hesc|by vm_compute|apply run_ok; by vm_compute]. }
  apply steps_nil.
Defined.

Lemma start_state_wf : state_wf start_state.
Proof.
  split; cbn.
  - by vm_compute.
  - intros n h [<- <-]%lookup_singleton_Some. split; [done|split; by vm_compute].
  - intros n [? ?%lookup_empty_Some]. done.
  - intros v st Hst. apply (lookup_singleton_Some 2 v UNIT st) in Hst as [<- <-]. by vm_compute.
  - apply map_Forall_empty.
  - lia.
  - by vm_compute.
  - by vm_compute.
Qed.

Lemma reachable_states_wf_witness : state_wf state5.
Proof. exact (reachable_states_wf start_state sample_trace state5 start_state_wf sample_steps). Defined.

Lemma chain_refines_phase_machine_witness :
  phase_run PowMining sample_trace PowMining ∧
  0 + count is_submit sample_trace = count is_validate sample_trace + 0.
Proof. exact (chain_refines_phase_machine start_state sample_trace state5 sample_steps). Defined.

Lemma escrow_covers_stakes_witness :
  stake_of 2 state5 ≤ free_balance account_id (balances state5).
Proof.
  apply (escrow_covers_stakes start_state sample_trace state5 start_state_wf);
    [by vm_compute|exact sample_steps|left; by vm_compute].
Defined.


Lemma difficulty_target_never_grows_witness : Difficulty state5 ≤ 2 ^ 63.
Proof.
  exact (difficulty_target_never_grows start_state sample_trace state5 start_state_wf sample_steps).
Defined.

(** From the genesis storage, account 1 stakes and submits a block in vain. *)
Definition genesis_sample : State AccountId :=
  genesis_state (Ledger (<[1 := 3 * UNIT]> ∅) (3 * UNIT)).
Definition genesis_staked : State AccountId := (dispatch (signed 1) call3 genesis_sample).2.

Lemma genesis_steps :
  steps genesis_sample [Accepted (signed 1) call3; Finalized 1] (on_finalize 1 genesis_staked).2.
Proof.
  apply (steps_cons _ _ genesis_staked).
  { apply step_accepted; [by intros [=]|by vm_compute|apply run_ok; by vm_compute]. }
  apply (steps_cons _ _ (on_finalize 1 genesis_staked).2); [by apply (step_finalized _ 1 tt)|].
  apply steps_nil.
Defined.

Lemma genesis_chain_never_mines_witness :
  BlockHeaders (on_finalize 1 genesis_staked).2 = ∅ ∧
  CurrentPhase (on_finalize 1 genesis_staked).2 = PowMining.
Proof.
  destruct (genesis_chain_never_mines (Currency0 := unit_currency)
    (Ledger (<[1 := 3 * UNIT]> ∅) (3 * UNIT)) _ _ genesis_steps) as (Hh & Hp & _).
  split; [exact Hh|exact Hp].
Defined.
