(* ===== verification/Blocks.v ===== *)
(** * Runtime blocks

    The executive of the runtime (runtime/src/lib.rs, [Executive]) runs a block as
    [on_initialize], the calls and [on_finalize].  The traces of the transition
    system of Chain.v that have this shape, and what a block can do at most: one
    round of the consensus and one block reward. *)

From S2P Require Import Prelude RustInt Scale Types Interfaces Reference Difficulty Entropy.
From S2P Require Import Pow Selection Rewards Pallet Runtime Calls Slashing Consensus.
From S2P Require Import Hooks Chain.
Local Open Scope Z_scope.
Local Open Scope ghost_scope.

Section Blocks.
Context `{!Build, !ScalePrims, !Hashing, !Pqc, !Config}.
Context {AccountId : Type} `{Countable AccountId}.
Context `{!Frame AccountId, !Currency AccountId}.
Implicit Types (s : State AccountId) (l : label AccountId) (tr : list (label AccountId)).

(** ** Shape of a block *)

(** What may happen between [on_initialize] and [on_finalize]. *)
Definition in_body l : bool :=
  match l with Accepted _ _ | Rejected _ _ | Environment => true | _ => false end.

(** The hooks of the other pallets run around those of the consensus pallet. *)
Inductive block_trace (n : Z) : list (label AccountId) → Prop :=
  | block_intro before body after :
      Forall (λ l, l = Environment) before → Forall (λ l, in_body l = true) body →
      Forall (λ l, l = Environment) after →
      block_trace n (NewBlock n :: before ++ Initialized n :: body ++ Finalized n :: after).

(** The blocks after number [n] up to number [m]. *)
Inductive chain_trace : Z → list (label AccountId) → Z → Prop :=
  | chain_nil n : chain_trace n [] n
  | chain_block n tr1 tr2 m :
      block_trace (n + 1) tr1 → chain_trace (n + 1) tr2 m → chain_trace n (tr1 ++ tr2) m.

(** ** Counting and appending *)

Lemma count_app f tr1 tr2 : count f (tr1 ++ tr2) = count f tr1 + count f tr2.
Proof. unfold count. rewrite filter_app, length_app. lia. Qed.

Lemma count_none f tr : Forall (λ l, f l = false) tr → count f tr = 0.
Proof.
  intros Hf. unfold count. rewrite filter_none; [done|].
  intros l Hl. rewrite Forall_forall in Hf. by rewrite (Hf l Hl).
Qed.

Lemma steps_app s tr1 tr2 s' :
  steps s (tr1 ++ tr2) s' ↔ ∃ s1, steps s tr1 s1 ∧ steps s1 tr2 s'.
Proof.
  split.
  - revert s. induction tr1 as [|l tr1 IH]; intros s Hs; [exists s; split; [constructor|done]|].
    inversion Hs as [|? ? s2 ? ? Hl Htl]; subst. destruct (IH _ Htl) as (s1 & ? & ?).
    exists s1. split; [by econstructor|done].
  - intros (s1 & Hs1 & Hs2). induction Hs1; [done|]. econstructor; [done|]. by apply IHHs1.
Qed.

Lemma steps_one s l s' : step s l s' → steps s [l] s'.
Proof. intros Hs. econstructor; [exact Hs|constructor]. Qed.

Lemma phase_run_app p tr1 tr2 p' :
  phase_run p (tr1 ++ tr2) p' ↔ ∃ p1, phase_run p tr1 p1 ∧ phase_run p1 tr2 p'.
Proof.
  split.
  - revert p. induction tr1 as [|l tr1 IH]; intros p Hp; [exists p; split; [constructor|done]|].
    inversion Hp as [|? ? p2 ? ? Hl Htl]; subst. destruct (IH _ Htl) as (p1 & ? & ?).
    exists p1. split; [by econstructor|done].
  - intros (p1 & Hp1 & Hp2). induction Hp1; [done|]. econstructor; [done|]. by apply IHHp1.
Qed.

(** ** One round per block *)

Definition is_mining (p : ConsensusPhase) : Z := match p with PowMining => 1 | _ => 0 end.
Definition is_final (p : ConsensusPhase) : Z := match p with Finalization => 1 | _ => 0 end.

Definition not_finalized l : bool := match l with Finalized _ => false | _ => true end.

(** Without [on_finalize] the phase only moves forward: every submission leaves
    the mining phase and every validation enters finalization. *)
Lemma phase_run_forward p tr p' :
  phase_run p tr p' → Forall (λ l, not_finalized l = true) tr →
  count is_submit tr = is_mining p - is_mining p' ∧
  count is_validate tr = is_final p' - is_final p.
Proof.
  induction 1 as [|p l p1 tr p' Hs _ IH]; intros Hf; [rewrite !count_nil; lia|].
  apply Forall_cons in Hf as [Hl Hf]. destruct (IH Hf) as [IH1 IH2]. rewrite !count_cons.
  destruct Hs as [o h|o n sig|n|p l Hsub Hval Hfin]; simpl in *; try done.
  - lia.
  - lia.
  - rewrite Hsub, Hval. lia.
Qed.

Lemma environment_inert l : l = Environment →
  is_submit l = false ∧ is_validate l = false ∧ not_finalized l = true.
Proof. by intros ->. Qed.

Lemma in_body_not_finalized l : in_body l = true → not_finalized l = true.
Proof. by destruct l. Qed.

(** Labels that leave the phase alone. *)
Lemma phase_run_inert p tr p' :
  phase_run p tr p' → Forall (λ l, l = Environment) tr → p' = p.
Proof.
  induction 1 as [|p l p1 tr p' Hs _ IH]; intros Hf; [done|].
  apply Forall_cons in Hf as [-> Hf]. rewrite (IH Hf). by inversion Hs.
Qed.

(** The trace of a block without its [on_finalize], and the phase after it. *)
Lemma block_phase n p tr p' :
  phase_run p tr p' → block_trace n tr →
  ∃ q, count is_submit tr = is_mining p - is_mining q ∧
       count is_validate tr = is_final q - is_final p ∧
       p' = (if decide (q = Finalization) then PowMining else q).
Proof.
  intros Hp Hb. destruct Hb as [before body after Hbe Hbo Haf].
  change (NewBlock n :: before ++ Initialized n :: body ++ Finalized n :: after)
    with (([NewBlock n] ++ before) ++ ([Initialized n] ++ body) ++ [Finalized n] ++ after) in *.
  rewrite app_assoc in *.
  apply phase_run_app in Hp as (q & Hq & Hp). apply phase_run_app in Hp as (q1 & Hq1 & Hp).
  rewrite !(count_app _ _ ([Finalized n] ++ after)), !(count_app _ [Finalized n]).
  apply phase_run_inert in Hp; [subst q1|done].
  rewrite (count_none is_submit after), (count_none is_validate after)
    by (eapply Forall_impl; [exact Haf|]; by intros l ->).
  apply phase_run_forward in Hq as [Hs Hv].
  2:{ rewrite !Forall_app. split_and!.
      - by repeat constructor.
      - eapply Forall_impl; [exact Hbe|]. by intros l ->.
      - by repeat constructor.
      - eapply Forall_impl; [exact Hbo|]. apply in_body_not_finalized. }
  exists q. rewrite Hs, Hv. rewrite !(count_none _ [Finalized n]) by (by repeat constructor).
  split_and!; [lia..|].
  inversion Hq1 as [|? ? p1 ? ? Hstep Hnil]; subst. inversion Hnil; subst.
  inversion Hstep as [| | |? ? _ _ Hne]; subst; [by rewrite decide_True|].
  rewrite decide_False; [done|]. by eapply Hne.
Qed.

Lemma phase_bits p : 0 ≤ is_mining p ≤ 1 ∧ 0 ≤ is_final p ≤ 1.
Proof. destruct p; simpl; lia. Qed.

(** Blocks start and end outside finalization, so each makes at most one round. *)
Lemma block_round n p tr p' :
  phase_run p tr p' → block_trace n tr → p ≠ Finalization →
  0 ≤ count is_submit tr ≤ 1 ∧ 0 ≤ count is_validate tr ≤ 1 ∧ p' ≠ Finalization.
Proof.
  intros Hp Hb Hne. destruct (block_phase _ _ _ _ Hp Hb) as (q & Hs & Hv & ->).
  pose proof (count_nonneg is_submit tr). pose proof (count_nonneg is_validate tr).
  pose proof (phase_bits p) as [? ?]. pose proof (phase_bits q) as [? ?].
  assert (is_final p = 0) by (by destruct p).
  split_and!; [lia..|]. by case_decide.
Qed.

Lemma chain_rounds n p tr m p' :
  chain_trace n tr m → phase_run p tr p' → p ≠ Finalization →
  n ≤ m ∧ count is_submit tr ≤ m - n ∧ count is_validate tr ≤ m - n ∧ p' ≠ Finalization.
Proof.
  intros Hc. revert p. induction Hc as [n|n tr1 tr2 m Hb Hc IH]; intros p Hp Hne.
  - rewrite !count_nil. inversion Hp; subst. split_and!; [lia..|done].
  - apply phase_run_app in Hp as (p1 & Hp1 & Hp2). rewrite !count_app.
    destruct (block_round _ _ _ _ Hp1 Hb Hne) as (? & ? & Hne1).
    destruct (IH _ Hp2 Hne1) as (? & ? & ? & ?). split_and!; [lia..|done].
Qed.

(** ** Issuance *)

Context `{!FrameOk AccountId, !CurrencyOk AccountId, !CurrencyBooks AccountId, !ConfigOk}.

(** As long as the issuance, the rewards to come and the dust that unstakes can
    lose fit in a [u128], the total stake does too, and each validation creates
    at most one reward in every build. *)
Lemma bounded_issuance k s tr s' :
  state_wf s → shortfall s ≤ k → steps s tr s' →
  total_issuance (balances s) + k + T_BlockReward * count is_validate tr
    + Z.max 0 (existential_deposit - 1) * count is_unstake tr < 2 ^ 128 →
  total_issuance (balances s')
    ≤ total_issuance (balances s) + T_BlockReward * count is_validate tr.
Proof.
  intros Hwf Hk Hs. revert k Hwf Hk.
  induction Hs as [s|s l s1 tr s' Hstep _ IH]; intros k Hwf Hk Hmax;
    [rewrite count_nil; lia|]. rewrite !count_cons in *.
  pose proof (count_nonneg is_validate tr). pose proof (count_nonneg is_unstake tr).
  destruct T_BlockReward_range as [? _].
  assert (Hsum : map_sum (ValidatorStakes s) < 2 ^ 128).
  { pose proof (free_balance_issued account_id (balances s)). unfold shortfall in *.
    destruct (is_validate l), (is_unstake l); nia. }
  pose proof (step_issuance _ _ _ Hwf (λ _, or_intror Hsum) Hstep).
  pose proof (step_shortfall _ _ _ Hwf Hstep) as Hsh. unfold dust in Hsh.
  specialize (IH (k + (if is_unstake l then Z.max 0 (existential_deposit - 1) else 0))
    (step_wf _ _ _ Hwf Hstep)).
  destruct (is_validate l), (is_unstake l); specialize (IH ltac:(lia)); lia.
Qed.
End Blocks.

(** ** Properties *)

Section Properties.
Context `{!Build, !ScalePrims, !Hashing, !Pqc, !Config, !ConfigOk}.
Context {AccountId : Type} `{Countable AccountId}.
Context `{!Frame AccountId, !FrameOk AccountId, !Currency AccountId, !CurrencyOk AccountId,
  !CurrencyBooks AccountId}.
Implicit Types (s : State AccountId) (tr : list (label AccountId)).

(** The consensus makes at most one round per block: over any number of blocks,
    whatever the calls in them, there are at most as many accepted submissions
    and at most as many accepted validations as blocks, and no block ends in
    the finalization phase. *)
Theorem one_round_per_block s n tr m s' :
  CurrentPhase s ≠ Finalization → chain_trace n tr m → steps s tr s' →
  count is_submit tr ≤ m - n ∧ count is_validate tr ≤ m - n ∧
  CurrentPhase s' ≠ Finalization.
Proof. intros Hne Hc Hs%steps_phase. by destruct (chain_rounds _ _ _ _ _ Hc Hs Hne). Qed.

(** The issuance schedule: the blocks after number [n] up to [m] create at most
    [m - n] block rewards, in every build and for every existential deposit, as
    long as these amounts and the dust of the unstakes are far from overflowing
    a [u128]. *)
Theorem issuance_schedule s n tr m s' :
  state_wf s → CurrentPhase s ≠ Finalization → shortfall s ≤ 0 →
  chain_trace n tr m → steps s tr s' →
  total_issuance (balances s) + T_BlockReward * (m - n)
    + Z.max 0 (existential_deposit - 1) * count is_unstake tr < 2 ^ 128 →
  total_issuance (balances s') ≤ total_issuance (balances s) + T_BlockReward * (m - n).
Proof.
  intros Hwf Hne Hsh Hc Hs Hmax. pose proof Hs as Hp%steps_phase.
  destruct (chain_rounds _ _ _ _ _ Hc Hp Hne) as (_ & _ & Hv & _).
  destruct T_BlockReward_range as [? _]. pose proof (count_nonneg is_unstake tr).
  etransitivity; [apply (bounded_issuance 0 _ _ _ Hwf Hsh Hs); nia|nia].
Qed.
End Properties.
