(* ===== verification/Progress.v ===== *)
(** * Progress

    What the chain can always do: from a state with a header to build on and a
    staker to select, a block can be filled with one submission and one
    validation, and the next block can be filled again.  The submission needs a
    nonce that solves the puzzle of its header; everything else is proved. *)

From S2P Require Import Prelude RustInt Scale Types Interfaces Reference Difficulty Entropy.
From S2P Require Import Pow Selection Rewards Pallet Runtime Calls Slashing Safety Consensus.
From S2P Require Import Hooks Chain Blocks.
Local Open Scope Z_scope.
Local Open Scope ghost_scope.

Section Progress.
Context `{!Build, !ScalePrims, !Hashing, !Pqc, !Config, !ConfigOk}.
Context {AccountId : Type} `{Countable AccountId}.
Context `{!Frame AccountId, !FrameOk AccountId, !Currency AccountId, !CurrencyOk AccountId}.
Implicit Types (s : State AccountId) (tr : list (label AccountId)) (v : AccountId).

(** ** Puzzles *)

(** The easiest target that [validate_block_header] lets a header claim. *)
Definition easiest_target s : Z := saturating_mul U64 (Difficulty s) 2.

(** Every header whose target is at least [floor] has a nonce that solves it. *)
Definition puzzles_solvable (floor : Z) : Prop :=
  ∀ h, header_wf h → floor ≤ difficulty h →
    ∃ n, in_uint U64 n ∧ verify_pow_enhanced (set_nonce h n) (difficulty h) = true.

(** A child of [parent] at the easiest target. *)
Definition child_header s (parent : GhostBlockHeader) (n : Z) : GhostBlockHeader :=
  {| number := number parent + 1; parent_hash := hash_of scale_header parent;
     state_root := zeros 32; extrinsics_root := zeros 32; nonce := n;
     difficulty := easiest_target s; validator_signature := None; pqc_signature := None |}.

Lemma easiest_target_range s : in_uint U64 (easiest_target s).
Proof. by apply saturate_range. Qed.

Lemma easiest_target_ge s : in_uint U64 (Difficulty s) → Difficulty s ≤ easiest_target s.
Proof. unfold easiest_target, saturating_mul, saturate, max_value, in_uint. lia. Qed.

(** ** Ready states *)

(** Between two blocks, number [n] being the last one, mining can go on: there is
    a header to build on, somebody with stake and nobody with so much that the
    total weight overflows, and the stakers can sign what they validate. *)
Record ready (n : Z) s : Prop := {
  rd_wf : state_wf s;
  rd_phase : CurrentPhase s = PowMining;
  rd_difficulty : 1 ≤ Difficulty s;
  rd_tip : is_Some (BlockHeaders s !! n);
  rd_staker : ∃ v, 0 < stake_of v s;
  rd_total : map_sum (ValidatorStakes s) < 2 ^ 64;
  rd_escrow : stake_of account_id s = 0;
  rd_keys : ∀ v bn, 0 < stake_of v s → ∃ sig, pqc_accepts v bn sig s;
}.

(** The balances do not matter. *)
Lemma state_wf_balances b s : state_wf s → state_wf (set_balances b s).
Proof. intros []. by split. Qed.

Lemma ready_balances n b s : ready n s → ready n (set_balances b s).
Proof. intros []. split; try done. by apply state_wf_balances. Qed.

(** *** The stakes after [on_initialize] *)

(** A slash below 100% leaves a positive stake positive. *)
Lemma slashed_to_sign cur la st :
  T_DowntimeSlashPercentage < 100 → 0 ≤ st < 2 ^ 64 →
  (0 < st → 0 < slashed_to cur la st) ∧ (st = 0 → slashed_to cur la st = 0).
Proof.
  intros Hp Hst. destruct T_Downtime_range as [Hp0 _]. unfold slashed_to.
  destruct (is_down cur la); [|done].
  assert (Hprod : 0 ≤ st * T_DowntimeSlashPercentage ≤ 2 ^ 64 * 100)
    by (split; [apply Z.mul_nonneg_nonneg; lia|apply Z.mul_le_mono_nonneg; lia]).
  rewrite slash_amount_fits by lia.
  pose proof (Z.div_pos _ 100 (proj1 Hprod) ltac:(lia)).
  rewrite saturating_sub_le by (unfold in_uint; lia).
  split; [|intros ->; by rewrite Z.mul_0_l].
  intros Hpos. assert (st * T_DowntimeSlashPercentage / 100 < st); [|lia].
  apply Z.div_lt_upper_bound; [lia|]. rewrite (Z.mul_comm 100). by apply Z.mul_lt_mono_pos_l.
Qed.

Lemma slashes_sign v s :
  T_DowntimeSlashPercentage < 100 → stakes_wf s → map_sum (ValidatorStakes s) < 2 ^ 64 →
  let s1 := apply_slashes (downtime_slashes s) s in
  (0 < stake_of v s → 0 < stake_of v s1) ∧ (stake_of v s = 0 → stake_of v s1 = 0).
Proof.
  intros Hp Hst Hsum. simpl. pose proof (stake_of_le_total v s Hst) as Hle.
  pose proof (stake_of_range v s Hst) as [Hge _]. unfold stake_of in *. cbn.
  destruct (slashes_lookup (saturate U32 (block_number s)) s
    (storage_iter (LastActiveBlock s)) v (ValidatorStakes s)) as [Hin Hout];
    [apply storage_iter_keys|done|]. unfold downtime_slashes.
  destruct (LastActiveBlock s !! v) as [la|] eqn:Hla.
  - rewrite (Hin la) by (by apply storage_iter_elem).
    destruct (ValidatorStakes s !! v) as [st|]; simpl in *; [|done].
    apply slashed_to_sign; [done|lia].
  - rewrite Hout; [done|].
    intros ([w la] & -> & Hwla)%list_elem_of_fmap. apply storage_iter_elem in Hwla.
    simpl in Hla. congruence.
Qed.

(** An adjusted difficulty is never 0. *)
Lemma adjusted_positive e s :
  calculate_entropy (RecentBlockProducers s) = Some e → state_wf s → 1 ≤ Difficulty (adjusted e s).
Proof.
  intros He Hwf. assert (Hu : in_uint U64 e) by exact (swf_entropy _ (adjusted_wf e s He Hwf)).
  change (1 ≤ calculate_difficulty_adjustment (Difficulty s) 5 5 e).
  rewrite difficulty_stages by done. apply entropy_target_range; [|apply Hu].
  by apply time_target_range.
Qed.

(** [on_initialize] keeps what the next block needs. *)
Lemma initialized_ready n m s w s' :
  T_DowntimeSlashPercentage < 100 → ready n s → on_initialize m s = (Ok w, s') → ready n s'.
Proof.
  intros Hp [Hwf Hph Hd Htip [v Hv] Hsum Hesc Hkeys] Hi.
  destruct (initialized_stakes _ _ _ _ (swf_stakes _ Hwf) Hi) as [Hle _].
  assert (Hwf' : state_wf s') by (eapply step_wf; [exact Hwf|by eapply step_initialized]).
  apply initialized_state in Hi as (s1 & Hs1 & Hs').
  assert (Hsame : CurrentPhase s1 = PowMining ∧ BlockHeaders s1 = BlockHeaders s ∧
               ValidatorPqcPublicKeys s1 = ValidatorPqcPublicKeys s ∧
               Difficulty s1 = Difficulty s ∧ state_wf s1 ∧
               ∀ u, (0 < stake_of u s → 0 < stake_of u s1) ∧
                    (stake_of u s = 0 → stake_of u s1 = 0)).
  { destruct Hs1 as [-> | ->]; split_and!; try done; [by apply apply_slashes_wf|].
    intros u. apply slashes_sign; [done|apply Hwf|done]. }
  destruct Hsame as (Hph1 & Hh1 & Hk1 & Hd1 & Hwf1 & Hu).
  assert (Heq : CurrentPhase s' = CurrentPhase s1 ∧ BlockHeaders s' = BlockHeaders s1 ∧
                ValidatorPqcPublicKeys s' = ValidatorPqcPublicKeys s1 ∧
                ValidatorStakes s' = ValidatorStakes s1 ∧ 1 ≤ Difficulty s').
  { destruct Hs' as [-> |(e & He & ->)]; split_and!; try done; [lia|].
    apply adjusted_positive; [|done]. destruct Hs1 as [-> | ->]; exact He. }
  destruct Heq as (Hph' & Hh' & Hk' & Hst' & Hd').
  assert (Hu' : ∀ u, stake_of u s' = stake_of u s1) by (intros u; unfold stake_of; by rewrite Hst').
  split; [done|congruence|done|by rewrite Hh', Hh1| |lia|rewrite Hu'; by apply Hu|].
  - exists v. rewrite Hu'. by apply Hu.
  - intros u bn Hpos. rewrite Hu' in Hpos. destruct (Hkeys u bn) as [sig Hsig].
    + pose proof (stake_of_range u s (swf_stakes _ Hwf)) as [? _].
      destruct (decide (stake_of u s = 0)) as [Hz|]; [|lia]. apply Hu in Hz. lia.
    + exists sig. unfold pqc_accepts in *. by rewrite Hk', Hk1.
Qed.

(** ** The two calls of a round *)

(** A solved child of the last header is accepted. *)
Lemma ready_submits n s o (miner : AccountId) parent nonce :
  ready n s → ensure_signed_origin o = Some miner → n + 1 < 2 ^ 32 →
  BlockHeaders s !! n = Some parent → in_uint U64 nonce →
  verify_pow_enhanced (child_header s parent nonce) (easiest_target s) = true →
  let h := child_header s parent nonce in
  header_wf h ∧ number h = n + 1 ∧
  dispatch o (Call_submit_block h) s = (Ok tt, submitted h miner s).
Proof.
  intros Hr Ho Hmax Hpar Hn Hpow h. pose proof (swf_headers _ (rd_wf _ _ Hr) _ _ Hpar) as [Hnum Hpw].
  destruct (wf_number _ Hpw) as [Hn0 _].
  assert (Hu : in_uint U32 (number parent + 1)) by (unfold in_uint; lia).
  pose proof (easiest_target_range s) as Heasy.
  split; [by split|]. split; [simpl; lia|]. apply dispatch_ok. cbn [call_body].
  apply submit_block_ok. exists miner, parent.
  split_and!; [done|apply Hr|simpl; lia| |split|done|done].
  - simpl. by replace (number parent + 1 - 1) with n by lia.
  - by apply add_fits.
  - done.
  - done.
  - pose proof (easiest_target_ge s (swf_difficulty _ (rd_wf _ _ Hr))).
    pose proof (rd_difficulty _ _ Hr). cbn. pose proof (Z.div_lt (Difficulty s) 2). lia.
  - done.
Qed.

Lemma collect_stakers_weights s :
  stakes_wf s → map_sum (ValidatorStakes s) < 2 ^ 64 →
  Forall (λ x, 0 ≤ weight x) (collect_stakers s) ∧
  weights_sum (collect_stakers s) = map_sum (ValidatorStakes s).
Proof.
  intros Hst Hsum. rewrite <-collect_stakers_sum.
  assert (Hw : Forall (λ x, weight x = Types.stake x ∧ 0 ≤ weight x) (collect_stakers s)).
  { apply Forall_fmap, Forall_forall. intros [a st] Hin. simpl.
    apply storage_iter_elem in Hin. destruct (Hst _ _ Hin) as [? _].
    pose proof (map_sum_lookup_le _ _ _ (stakes_nonneg s Hst) Hin).
    rewrite saturate_id by (unfold in_uint; lia). done. }
  split; [by eapply Forall_impl; [exact Hw|intros ? [_ ?]]|].
  unfold weights_sum, stakes_sum. f_equal. apply list_fmap_ext. intros i x Hx.
  eapply Forall_lookup_1 in Hw; [|exact Hx]. apply Hw.
Qed.

Lemma collect_stakers_account s x :
  x ∈ collect_stakers s → ValidatorStakes s !! account x = Some (Types.stake x) ∧
                          weight x = saturate U64 (Types.stake x).
Proof.
  unfold collect_stakers. intros ([a st] & -> & Hin)%list_elem_of_fmap. simpl.
  by apply storage_iter_elem in Hin.
Qed.

(** In a state with stake somebody is selected, whose validation is accepted
    whatever the balances are by then. *)
Lemma staked_validates bn s h (miner : AccountId) :
  overflow_checks = false →
  stakes_wf s → map_sum (ValidatorStakes s) < 2 ^ 64 → (∃ v, 0 < stake_of v s) →
  CurrentPhase s = PosValidation → BlockHeaders s !! bn = Some h →
  BlockProducers s !! bn = Some miner →
  (∀ v, 0 < stake_of v s → ∃ sig, pqc_accepts v bn sig s) →
  ∃ v sel sig, 0 < stake_of v s ∧
    ∀ o b0, ensure_signed_origin o = Some v →
      ∃ reward b, dispatch o (Call_validate_block bn sig) (set_balances b0 s)
        = (Ok tt, validated bn sig v miner sel h reward b s).
Proof.
  intros Hrel Hst Hsum [v0 Hv0] Hph Hh Hm Hkeys.
  destruct (collect_stakers_weights s Hst Hsum) as [Hw Hws].
  pose proof (stake_of_le_total v0 s Hst) as Hv0le.
  pose proof (select_pos_correct (block_number s) (collect_stakers s) (selection_seed bn s) Hw
    ltac:(lia)) as Hsel.
  destruct (select_pos_validator _ _ _) as [[sel|]|] eqn:Hrun; [|lia|done].
  destruct Hsel as (l1 & x & l2 & Hl & -> & Hx & _).
  assert (Hin : x ∈ collect_stakers s) by (rewrite Hl; apply elem_of_app; right; left).
  apply collect_stakers_account in Hin as [Hin Hwx].
  assert (Hpos : 0 < stake_of (account x) s).
  { unfold stake_of. rewrite Hin. simpl. rewrite Hwx in Hx.
    unfold saturate in Hx. lia. }
  destruct (Hkeys _ Hpos) as [sig Hsig].
  destruct (calculate_block_reward_release Hrel T_BlockReward) as [reward Hrw].
  exists (account x), (selection_of (block_number s) x), sig. split; [done|]. intros o b0 Ho.
  pose proof (no_panic_distribute Hrel miner (collect_stakers s) reward b0) as Hnp.
  destruct (distribute_rewards _ _ _ _) as [[[]|e|] b] eqn:Hd; [|by apply distribute_rewards_no_err in Hd|done].
  exists reward, b. apply dispatch_ok. cbn [call_body]. apply validate_block_ok.
  exists (account x), h, (selection_of (block_number s) x), reward, miner, b.
  by split_and!.
Qed.

(** ** One block *)

(** Header [i] is validated and built on the stored header before it. *)
Definition linked s (i : Z) : Prop :=
  ∃ h parent, BlockHeaders s !! i = Some h ∧ BlockHeaders s !! (i - 1) = Some parent ∧
    number h = i ∧ parent_hash h = hash_of scale_header parent ∧
    is_Some (validator_signature h).

(** What the round of block [n + 1] leaves. *)
Record round_done (n : Z) s s' : Prop := {
  rnd_ready : ready (n + 1) s';
  rnd_linked : linked s' (n + 1);
  rnd_other : ∀ i, i ≠ n + 1 → BlockHeaders s' !! i = BlockHeaders s !! i;
}.

Lemma round_done_balances n b s s' : round_done n s s' → round_done n s (set_balances b s').
Proof. intros []. split; try done. by apply ready_balances. Qed.

(** The submission and the validation of a block, and what follows them. *)
Definition round_trace (N : Z) (o o' : OriginFor) (h : GhostBlockHeader) (sig : PqcSignature)
    : list (label AccountId) :=
  [NewBlock N; Initialized N; Accepted o (Call_submit_block h);
   Accepted o' (Call_validate_block N sig); Finalized N].

Lemma round_trace_block N o o' h sig : block_trace N (round_trace N o o' h sig).
Proof.
  apply (block_intro N [] [_; _] []); [done| |done]. by repeat constructor.
Qed.

Lemma round_trace_counts N o o' h sig :
  count is_submit (round_trace N o o' h sig) = 1 ∧
  count is_validate (round_trace N o o' h sig) = 1.
Proof. by unfold round_trace; rewrite !count_cons, !count_nil. Qed.

Context (Hrelease : overflow_checks = false) (Hslash : T_DowntimeSlashPercentage < 100).
Context (Hsigners : ∀ v, v ≠ account_id → ∃ o, ensure_signed_origin o = Some v).

(** Block [n + 1] always starts. *)
Lemma ready_initialized n s :
  ready n s → n + 1 < 2 ^ 32 → 0 ≤ n →
  ∃ w s1, on_initialize (n + 1) (set_block_number (n + 1) s) = (Ok w, s1) ∧ ready n s1 ∧
    BlockHeaders s1 = BlockHeaders s.
Proof.
  intros Hr Hmax Hn. set (s0 := set_block_number (n + 1) s).
  assert (Hwf0 : state_wf s0) by (eapply step_wf; [apply Hr|apply step_new_block; unfold in_uint; lia]).
  assert (Hr0 : ready n s0) by (destruct Hr; by split).
  pose proof (swf_recent _ Hwf0) as Hlen.
  pose proof (on_initialize_no_panic Hrelease (n + 1) s0 ltac:(lia)) as Hnp.
  pose proof (no_error_on_initialize (AccountId := AccountId) (n + 1) s0) as Hne.
  destruct (on_initialize (n + 1) s0) as [[w|e|] s1] eqn:Hi; [|by edestruct Hne|done].
  exists w, s1. split; [done|]. split; [by eapply initialized_ready|].
  apply initialized_state in Hi as (s2 & Hs2 & Hs1).
  assert (BlockHeaders s2 = BlockHeaders s) by (by destruct Hs2 as [-> | ->]).
  by destruct Hs1 as [-> |(e & _ & ->)].
Qed.

Lemma round_leaves n s s1 (miner v : AccountId) sel parent h reward b sig :
  ready n s1 → BlockHeaders s1 = BlockHeaders s → state_wf (validated (n + 1) sig v miner sel h
    reward b (submitted h miner s1)) →
  BlockHeaders s1 !! n = Some parent → number h = n + 1 →
  parent_hash h = hash_of scale_header parent →
  round_done n s (set_CurrentPhase PowMining
    (validated (n + 1) sig v miner sel h reward b (submitted h miner s1))).
Proof.
  intros Hr Hsame Hwf Hpar Hnum Hph. split.
  - destruct Hr as [Hwf1 _ Hd _ Hst Hsum Hesc Hk]. split; try done.
    + by destruct Hwf.
    + cbn. by rewrite lookup_insert_eq.
  - exists (sign_header h (validator_message v (n + 1)) sig), parent. cbn. rewrite !lookup_insert, Hnum.
    rewrite !decide_True, !decide_False by (done || lia).
    replace (n + 1 - 1) with n by lia. by split_and!.
  - intros i Hi. cbn. rewrite !lookup_insert_ne by congruence. by rewrite Hsame.
Qed.

Context (floor : Z) (Hpuzzles : puzzles_solvable floor).

(** Block [n + 1] can complete a round, unless its target is below [floor]. *)
Lemma ready_round n s (miner : AccountId) :
  ready n s → 0 ≤ n → n + 1 < 2 ^ 32 → miner ≠ account_id →
  ∃ w s1, on_initialize (n + 1) (set_block_number (n + 1) s) = (Ok w, s1) ∧ ready n s1 ∧
    (floor ≤ easiest_target s1 →
     ∃ o o' h sig s', steps s (round_trace (n + 1) o o' h sig) s' ∧ round_done n s s').
Proof.
  intros Hr Hn Hmax Hmin. destruct (ready_initialized n s Hr Hmax Hn) as (w & s1 & Hi & Hr1 & Hsame).
  exists w, s1. split_and!; [done..|]. intros Hfl. destruct (rd_tip _ _ Hr1) as [parent Hpar].
  pose proof (swf_headers _ (rd_wf _ _ Hr1) _ _ Hpar) as [Hnum _].
  destruct (Hsigners miner Hmin) as [o Ho].
  destruct (Hpuzzles (child_header s1 parent 0)) as (x & Hx & Hpow);
    [split; simpl; [unfold in_uint; lia|done|apply easiest_target_range]|done|].
  destruct (ready_submits n s1 o miner parent x Hr1 Ho Hmax Hpar Hx Hpow) as (Hhw & Hhn & Hsub).
  set (h := child_header s1 parent x) in *. set (s2 := submitted h miner s1) in *.
  destruct (staked_validates (n + 1) s2 h miner Hrelease) as (v & sel & sig & Hv & Hval);
    [apply Hr1..|done| | |intros u; apply (rd_keys _ _ Hr1)|].
  { unfold s2. cbn [BlockHeaders submitted]. rewrite Hhn. apply lookup_insert_eq. }
  { unfold s2. cbn [BlockProducers submitted]. rewrite Hhn. apply lookup_insert_eq. }
  destruct (Hsigners v) as [o' Ho'].
  { intros ->. pose proof (rd_escrow _ _ Hr1) as He. unfold stake_of in *. cbn in Hv. lia. }
  destruct (Hval o' (balances s2) Ho') as (reward & b & Hval'). clear Hval.
  change (set_balances (balances s2) s2) with s2 in Hval'.
  assert (Hstep2 : step s1 (Accepted o (Call_submit_block h)) s2)
    by (apply step_accepted; [by rewrite Ho; intros [= ]|done|done]).
  set (s3 := validated _ _ _ _ _ _ _ _ _) in Hval'.
  assert (Hstep3 : step s2 (Accepted o' (Call_validate_block (n + 1) sig)) s3).
  { apply step_accepted; [|by unfold call_wf, in_uint; lia|done].
    rewrite Ho'. intros [= ->]. pose proof (rd_escrow _ _ Hr1) as He.
    unfold stake_of in *. cbn in Hv. lia. }
  exists o, o', h, sig, (set_CurrentPhase PowMining s3). split.
  - econstructor; [apply step_new_block; unfold in_uint; lia|].
    econstructor; [by eapply step_initialized|]. econstructor; [exact Hstep2|].
    econstructor; [exact Hstep3|]. apply steps_one. eapply step_finalized. apply on_finalize_eq.
  - apply (round_leaves _ _ _ _ _ _ parent); [done|done| |done|done|done].
    eapply step_wf; [|exact Hstep3]. eapply step_wf; [apply Hr1|exact Hstep2].
Qed.

(** ** Any number of blocks *)

(** The target of the block after number [n] has fallen below [floor]. *)
Definition target_below n s : Prop :=
  ∃ w s1, on_initialize (n + 1) (set_block_number (n + 1) s) = (Ok w, s1) ∧
    easiest_target s1 < floor.

Lemma ready_target n s : ready n s → 2 ≤ easiest_target s.
Proof.
  intros Hr. pose proof (rd_difficulty _ _ Hr).
  unfold easiest_target, saturating_mul, saturate, max_value. lia.
Qed.

Lemma linked_same s s' i :
  BlockHeaders s' !! i = BlockHeaders s !! i → BlockHeaders s' !! (i - 1) = BlockHeaders s !! (i - 1) →
  linked s i → linked s' i.
Proof. unfold linked. by intros -> ->. Qed.

(** The run of [j] rounds from block [n]. *)
Record rounds_done (n j : Z) s tr s' : Prop := {
  rds_blocks : chain_trace n tr (n + j);
  rds_steps : steps s tr s';
  rds_submits : count is_submit tr = j;
  rds_validates : count is_validate tr = j;
  rds_ready : ready (n + j) s';
  rds_linked : ∀ i, n < i ≤ n + j → linked s' i;
  rds_kept : ∀ i, i ≤ n → BlockHeaders s' !! i = BlockHeaders s !! i;
}.

Lemma rounds_done_nil n s : ready n s → rounds_done n 0 s [] s.
Proof.
  intros Hr. split; rewrite ?Z.add_0_r; try done; [constructor|constructor|lia].
Qed.

Lemma rounds_done_cons n j s s1 o o' h sig tr s' :
  0 ≤ j → steps s (round_trace (n + 1) o o' h sig) s1 → round_done n s s1 →
  rounds_done (n + 1) j s1 tr s' → rounds_done n (j + 1) s (round_trace (n + 1) o o' h sig ++ tr) s'.
Proof.
  intros Hj Hs1 [_ Hl Hother] [Hb Hs Hsub Hval Hr Hlink Hkept].
  destruct (round_trace_counts (n + 1) o o' h sig) as [Hc1 Hc2].
  replace (n + 1 + j) with (n + (j + 1)) in * by lia.
  split; rewrite ?count_app; [|apply steps_app; by exists s1|lia|lia|done| |].
  - eapply chain_block; [apply round_trace_block|done].
  - intros i Hi. destruct (decide (i = n + 1)) as [->|]; [|apply Hlink; lia].
    eapply linked_same; [| |exact Hl]; apply Hkept; lia.
  - intros i Hi. rewrite Hkept by lia. apply Hother. lia.
Qed.

Lemma ready_rounds (miner : AccountId) k n s :
  ready n s → 0 ≤ n → n + Z.of_nat k < 2 ^ 32 → miner ≠ account_id →
  ∃ j tr s', 0 ≤ j ≤ Z.of_nat k ∧ rounds_done n j s tr s' ∧
    (j = Z.of_nat k ∨ target_below (n + j) s').
Proof.
  revert n s; induction k as [|k IH]; intros n s Hr Hn Hmax Hmin.
  { exists 0, [], s. split; [lia|]. split; [by apply rounds_done_nil|by left]. }
  destruct (ready_round n s miner Hr Hn ltac:(lia) Hmin) as (w & s1 & Hi & Hr1 & Hround).
  destruct (decide (floor ≤ easiest_target s1)) as [Hfl|Hfl]; cycle 1.
  { exists 0, [], s. split; [lia|]. split; [by apply rounds_done_nil|right].
    exists w, s1. rewrite Z.add_0_r. split; [done|lia]. }
  destruct (Hround Hfl) as (o & o' & h & sig & s2 & Hs2 & Hdone).
  destruct (IH (n + 1) s2 (rnd_ready _ _ _ Hdone) ltac:(lia) ltac:(lia) Hmin)
    as (j & tr & s' & Hj & Hrounds & Hor).
  exists (j + 1), (round_trace (n + 1) o o' h sig ++ tr), s'. split; [lia|]. split.
  - eapply rounds_done_cons; [lia|done..].
  - destruct Hor as [->|Hbelow]; [left; lia|right]. by replace (n + (j + 1)) with (n + 1 + j) by lia.
Qed.
End Progress.

(** ** Properties *)

Section Properties.
Context `{!Build, !ScalePrims, !Hashing, !Pqc, !Config, !ConfigOk}.
Context {AccountId : Type} `{Countable AccountId}.
Context `{!Frame AccountId, !FrameOk AccountId, !Currency AccountId, !CurrencyOk AccountId}.
Implicit Types (s : State AccountId) (tr : list (label AccountId)) (v : AccountId).

(** C5. Progress.  In a release build whose downtime slash is below 100%, from a state
    that is ready after block [n] (a header to build on, a positive stake below
    2^64 in total, keys that sign when signatures are required), any miner can
    fill block after block with an accepted submission and the accepted
    validation by whichever staker the draw selects: [k] blocks complete [k]
    rounds, every new header is validated and built on the one before it, the
    older headers stay, and the state is ready again; unless the target falls
    below the [floor] above which puzzles have solutions, which it cannot when
    the floor is at most 2. *)
Theorem chain_makes_progress floor (miner : AccountId) k n s :
  overflow_checks = false → T_DowntimeSlashPercentage < 100 →
  (∀ v, v ≠ account_id → ∃ o, ensure_signed_origin o = Some v) → puzzles_solvable floor →
  ready n s → 0 ≤ n → n + Z.of_nat k < 2 ^ 32 → miner ≠ account_id →
  ∃ j tr s', 0 ≤ j ≤ Z.of_nat k ∧ rounds_done n j s tr s' ∧
    (j = Z.of_nat k ∨ target_below floor (n + j) s') ∧ (floor ≤ 2 → j = Z.of_nat k).
Proof.
  intros Hrel Hsl Hsig Hpuz Hr Hn Hmax Hmin.
  destruct (ready_rounds Hrel Hsl Hsig floor Hpuz miner k n s Hr Hn Hmax Hmin)
    as (j & tr & s' & Hj & Hdone & Hor).
  exists j, tr, s'. split_and!; [lia|lia|done|done|]. intros Hfl.
  destruct Hor as [?|(w & s1 & Hi & Hlt)]; [done|].
  destruct (decide (j = Z.of_nat k)) as [|Hne]; [done|].
  destruct (ready_initialized Hrel Hsl (n + j) s' (rds_ready _ _ _ _ _ Hdone)) as (w' & s1' & Hi' & Hr1 & _);
    [lia|lia|]. rewrite Hi in Hi'. simplify_eq. pose proof (ready_target _ _ Hr1). lia.
Qed.
End Properties.

(** ** Evaluation *)

#[local] Existing Instance release_build.
#[local] Existing Instance runtime_config.
#[local] Existing Instance runtime_config_ok.
#[local] Existing Instance unit_currency.
#[local] Existing Instance unit_currency_ok.

(** A hash whose first bytes are the last bytes of its input, and which leaves a
    hash alone: the nonce 0 solves every puzzle. *)
Definition suffix_hash (l : list Byte.byte) : H256 :=
  default (zeros 32)
    (try_into 32 (if decide (length l = 32%nat) then l
                  else drop (length l - 8) l ++ le_bytes 8 (checksum l) ++ replicate 16 Byte.x00)).

#[local] Instance suffix_hashing : Hashing :=
  {| blake2_256 := suffix_hash; sha2_256 := suffix_hash; keccak_256 := suffix_hash |}.

Lemma length_le_bytes k x : length (le_bytes k x) = k.
Proof. revert x; induction k as [|k IH]; intros x; simpl; [done|]. by rewrite IH. Qed.

Lemma suffix_hash_long l (m : list Byte.byte) :
  length m = 8%nat → length l ≠ 24%nat →
  take 8 (array_bytes (suffix_hash (l ++ m))) = m.
Proof.
  intros Hm Hl. unfold suffix_hash. rewrite decide_False by (rewrite length_app; lia).
  rewrite length_app, Hm. replace (length l + 8 - 8)%nat with (length l) by lia.
  rewrite drop_app_length. set (t := m ++ _).
  destruct (try_into 32 t) as [a|] eqn:Ha; simpl.
  - apply try_into_Some in Ha. rewrite Ha. unfold t. by apply take_app_length'.
  - unfold try_into in Ha. destruct (Bool.bool_dec _ _) as [|Hn]; [done|]. destruct Hn.
    apply Nat.eqb_eq. unfold t. rewrite !length_app, length_le_bytes, length_replicate. lia.
Qed.

Lemma suffix_hash_hash (a : H256) : suffix_hash (array_bytes a) = a.
Proof.
  unfold suffix_hash. rewrite length_array, decide_True by done. by rewrite try_into_bytes.
Qed.

Lemma suffix_puzzles : puzzles_solvable 0.
Proof.
  intros h _ Hd. exists 0. split; [by vm_compute|]. unfold verify_pow_enhanced, hash_of.
  cbn [blake2_256 suffix_hashing]. change (enc (scale_array 32)) with (@array_bytes 32).
  rewrite suffix_hash_hash, hash_value_prefix.
  apply Z.leb_le. change (enc scale_hash_input (hash_input (set_nonce h 0)))
    with (((((le_bytes 4 (number h) ++ array_bytes (parent_hash h)) ++ array_bytes (state_root h))
           ++ array_bytes (extrinsics_root h))) ++ le_bytes 8 0).
  rewrite suffix_hash_long; [done|done|].
  rewrite !length_app, length_le_bytes, !length_array. done.
Qed.

Lemma start_state_ready : ready 0 start_state.
Proof.
  split; [exact start_state_wf|done|by vm_compute|by eexists|by exists 2|by vm_compute|done|].
  intros v bn _. by exists PqcSignature_default.
Qed.

(** A thousand blocks. *)
Lemma chain_makes_progress_witness :
  ∃ tr s', rounds_done 0 1000 start_state tr s'.
Proof.
  destruct (chain_makes_progress 0 1 1000 0 start_state) as (j & tr & s' & _ & Hdone & _ & Hj);
    [done|by vm_compute|intros v _; by exists (signed v)|exact suffix_puzzles
    |exact start_state_ready|done|by vm_compute|by vm_compute|].
  rewrite (Hj ltac:(lia)) in Hdone. exists tr, s'. exact Hdone.
Defined.
