(* ===== verification/Accounting.v ===== *)
(** * Accounts kept along a run

    Every stake, the escrow account and the log of events, over any run of the
    transition system of Chain.v: a stake is what its owner put in, less what he
    took out and what was slashed; slashed tokens stay in the escrow account;
    and the log of events determines the difficulty and the producers. *)

From S2P Require Import Prelude RustInt Scale Types Interfaces Reference Difficulty Entropy.
From S2P Require Import Pow Selection Rewards Pallet Runtime Calls Slashing Safety Consensus.
From S2P Require Import Hooks Chain Blocks.
Local Open Scope Z_scope.
Local Open Scope ghost_scope.

Section Accounting.
Context `{!Build, !ScalePrims, !Hashing, !Pqc, !Config}.
Context {AccountId : Type} `{Countable AccountId}.
Context `{!Frame AccountId, !Currency AccountId}.
Implicit Types (s : State AccountId) (l : label AccountId) (tr : list (label AccountId)).
Implicit Types (v : AccountId) (e : Event AccountId) (new : list (Event AccountId)).

(** ** What the labels and the events say *)

(** The amount that [v] stakes, or takes out, in a step. *)
Definition staked_by v l : Z :=
  match l with
  | Accepted o (Call_stake amount) =>
      if decide (ensure_signed_origin o = Some v) then amount else 0
  | _ => 0
  end.
Definition unstaked_by v l : Z :=
  match l with
  | Accepted o (Call_unstake amount) =>
      if decide (ensure_signed_origin o = Some v) then amount else 0
  | _ => 0
  end.

(** The amount of a slash, of anybody and of [v]. *)
Definition slash_of e : Z := match e with ValidatorSlashed _ _ amount => amount | _ => 0 end.
Definition slash_of_who v e : Z :=
  match e with
  | ValidatorSlashed w _ amount => if decide (w = v) then amount else 0
  | _ => 0
  end.

Definition over {A} (f : A → Z) (xs : list A) : Z := sumZ (f <$> xs).

Lemma over_nil {A} (f : A → Z) : over f [] = 0.
Proof. done. Qed.
Lemma over_cons {A} (f : A → Z) x xs : over f (x :: xs) = f x + over f xs.
Proof. done. Qed.
Lemma over_app {A} (f : A → Z) xs ys : over f (xs ++ ys) = over f xs + over f ys.
Proof. unfold over. by rewrite fmap_app, sumZ_app. Qed.
Lemma over_one {A} (f : A → Z) x : over f [x] = f x.
Proof. unfold over. simpl. lia. Qed.

(** What a reader of the log knows: the difficulty and the producers.  An
    adjustment names the old difficulty, which has to be the known one. *)
Definition replay_event (known : Z * gmap Z AccountId) e : option (Z * gmap Z AccountId) :=
  match e with
  | BlockMined n miner _ => Some (known.1, <[n := miner]> known.2)
  | DifficultyAdjusted old new =>
      if decide (old = known.1) then Some (new, known.2) else None
  | _ => Some known
  end.
Definition known s : Z * gmap Z AccountId := (Difficulty s, BlockProducers s).

Definition mined_event e : Z := match e with BlockMined _ _ _ => 1 | _ => 0 end.
Definition selected_event e : Z := match e with ValidatorSelected _ _ => 1 | _ => 0 end.
Definition rewarded_event e : Z := match e with RewardsDistributed _ _ _ => 1 | _ => 0 end.

(** ** The books of a run *)

(** Sums of stakes cannot wrap: the build checks, or the escrow account backs
    the stakes, so that they are below a [u128]. *)
Definition backed s : Prop :=
  overflow_checks = true ∨ existential_deposit ≤ 1 ∧ shortfall s ≤ 0.

(** What the run [tr] from [s] to [s'] that emits [new] does to the accounts. *)
Record books s tr new s' : Prop := {
  bk_events : events s' = events s ++ new;
  bk_stakes : backed s → ∀ v,
    stake_of v s' = stake_of v s + over (staked_by v) tr - over (unstaked_by v) tr
                    - over (slash_of_who v) new;
  bk_shortfall : shortfall s' ≤ shortfall s
    + Z.max 0 (existential_deposit - 1) * count is_unstake tr - over slash_of new;
  bk_slashes : 0 ≤ over slash_of new;
  bk_replay : foldM replay_event (known s) new = Some (known s');
  bk_mined : over mined_event new = count is_submit tr;
  bk_selected : over selected_event new = count is_validate tr;
  bk_rewarded : over rewarded_event new = count is_validate tr;
}.

Lemma books_nil s : books s [] [] s.
Proof.
  split; try done; [by rewrite app_nil_r|intros _ v|]; rewrite ?over_nil, ?count_nil; lia.
Qed.

(** Steps without an event that leave the stakes alone. *)
Lemma books_quiet s l s' :
  events s' = events s → known s' = known s → (∀ v, stake_of v s' = stake_of v s) →
  shortfall s' ≤ shortfall s →
  (∀ v, staked_by v l = 0 ∧ unstaked_by v l = 0) →
  is_submit l = false → is_validate l = false → is_unstake l = false → books s [l] [] s'.
Proof.
  intros He Hk Hst Hsh Hl Hsub Hval Hun.
  split; rewrite ?over_nil, ?count_cons, ?count_nil, ?Hsub, ?Hval, ?Hun; try done.
  - by rewrite app_nil_r.
  - intros _ v. destruct (Hl v) as [Hl1 Hl2]. rewrite !over_one, Hl1, Hl2, Hst, over_nil. lia.
  - lia.
  - simpl. by rewrite Hk.
Qed.

Lemma backed_step s s' tr new :
  books s tr new s' → backed s → backed s'.
Proof.
  intros Hb [?|[Hed Hsh]]; [by left|right]. split; [done|].
  pose proof (bk_shortfall _ _ _ _ Hb). pose proof (bk_slashes _ _ _ _ Hb).
  rewrite Z.max_l in * by lia. lia.
Qed.

Lemma foldM_replay_app k new1 new2 k1 :
  foldM replay_event k new1 = Some k1 →
  foldM replay_event k (new1 ++ new2) = foldM replay_event k1 new2.
Proof. intros Hk. by rewrite foldM_app, Hk. Qed.

Lemma books_app s tr1 new1 s1 tr2 new2 s' :
  books s tr1 new1 s1 → books s1 tr2 new2 s' → books s (tr1 ++ tr2) (new1 ++ new2) s'.
Proof.
  intros Hb1 Hb2. pose proof (backed_step _ _ _ _ Hb1) as Hbk.
  destruct Hb1 as [He1 Hs1 Hf1 Hn1 Hr1 Hm1 Hv1 Hw1], Hb2 as [He2 Hs2 Hf2 Hn2 Hr2 Hm2 Hv2 Hw2].
  split; rewrite ?over_app, ?count_app; try lia.
  - by rewrite He2, He1, app_assoc.
  - intros Hb v. rewrite Hs2, Hs1 by auto. rewrite !over_app. lia.
  - by rewrite (foldM_replay_app _ _ _ _ Hr1).
Qed.

Context `{!FrameOk AccountId, !CurrencyOk AccountId, !ConfigOk}.
Context (Hpercent : ∀ reason, slash_percentage_of reason ≤ 100).

(** ** Slashes *)

(** A slash is within the stake, so the stake falls by exactly its amount. *)
Lemma slash_within v reason a s :
  stakes_wf s → slash_amount_of (stake_of v s) (slash_percentage_of reason) = Some a →
  0 ≤ a ≤ stake_of v s.
Proof.
  intros Hst Ha. destruct (stake_of_range v s Hst) as [Hge _].
  pose proof (slash_percentage_nonneg reason) as Hp. specialize (Hpercent reason).
  pose proof (slash_amount_bounds _ _ _ Hge Hp Ha).
  assert (stake_of v s * slash_percentage_of reason / 100 ≤ stake_of v s)
    by (apply Z.div_le_upper_bound; nia). lia.
Qed.

Lemma reported_books v reason a s o :
  stakes_wf s → slash_amount_of (stake_of v s) (slash_percentage_of reason) = Some a →
  books s [Accepted o (Call_report_misbehavior v reason)] [ValidatorSlashed v reason a]
    (reported v reason a s).
Proof.
  intros Hst Ha. pose proof (slash_within _ _ _ _ Hst Ha) as Hle.
  pose proof (stake_of_range v s Hst) as Hr.
  assert (Hsat : saturating_sub U128 (stake_of v s) a = stake_of v s - a)
    by (rewrite saturating_sub_le by (done || lia); lia).
  assert (Hstakes : ValidatorStakes (reported v reason a s)
    = <[v := stake_of v s - a]> (ValidatorStakes s)) by (rewrite <-Hsat; by destruct reason).
  split; rewrite ?over_one, ?count_cons, ?count_nil; try done.
  - intros _ w. rewrite !over_one. simpl. unfold stake_of at 1. rewrite Hstakes, lookup_insert.
    case_decide as Hvw; [subst; simpl; lia|]. unfold stake_of. lia.
  - simpl. unfold shortfall. rewrite Hstakes, map_sum_insert. fold (stake_of v s).
    destruct reason; cbn; lia.
  - simpl. lia.
  - simpl. by destruct reason.
Qed.

(** The stakes after a list of slashes of different validators. *)
Lemma slash_list_stake (sl : list (AccountId * Z)) (m : gmap AccountId Z) v :
  NoDup sl.*1 →
  (∀ va, va ∈ sl → ∃ st, m !! va.1 = Some st ∧ in_uint U128 st ∧ 0 ≤ va.2 ≤ st) →
  default 0 (foldl slash_stake m sl !! v)
    = default 0 (m !! v) - over (slash_of_who v) (downtime_event <$> sl).
Proof.
  revert m; induction sl as [|va sl IH]; intros m Hnd Hl; [csimpl; rewrite over_nil; lia|].
  csimpl in Hnd. apply NoDup_cons in Hnd as [Hnot Hnd].
  destruct (Hl va) as (st & Hst & Hr & Ha); [left|]. csimpl.
  rewrite IH; [|done|].
  - rewrite (slash_stake_insert m va st Hst), lookup_insert, over_cons. simpl.
    case_decide as Hvw; [subst; rewrite Hst; simpl|lia].
    rewrite saturating_sub_le by (done || lia). lia.
  - intros va' Hin. destruct (Hl va') as (st' & Hst' & ?); [by right|].
    exists st'. split; [|done]. unfold slash_stake. rewrite lookup_alter_ne; [done|].
    intros Heq. apply Hnot. rewrite Heq. by apply list_elem_of_fmap_2.
Qed.

Lemma downtime_over (f : Event AccountId → Z) (g : AccountId * Z → Z) (sl : list (AccountId * Z)) :
  (∀ va, f (downtime_event va) = g va) → over f (downtime_event <$> sl) = over g sl.
Proof.
  intros Hfg. unfold over. rewrite <-list_fmap_compose. f_equal.
  apply list_fmap_ext. intros i va _. apply Hfg.
Qed.

Lemma over_zero {A} (f : A → Z) xs : (∀ x, f x = 0) → over f xs = 0.
Proof. intros Hf. induction xs as [|x xs IH]; [done|]. rewrite over_cons, Hf. lia. Qed.

Lemma foldM_replay_quiet k new :
  Forall (λ e, ∀ k', replay_event k' e = Some k') new → foldM replay_event k new = Some k.
Proof. induction 1 as [|e new He _ IH]; simpl; [done|]. by rewrite He. Qed.

Lemma slashes_books s :
  state_wf s →
  books s [] (downtime_event <$> downtime_slashes s) (apply_slashes (downtime_slashes s) s).
Proof.
  intros Hwf. pose proof (swf_stakes _ Hwf) as Hst. set (sl := downtime_slashes s).
  assert (Hel : ∀ va, va ∈ sl → ∃ st, ValidatorStakes s !! va.1 = Some st ∧ in_uint U128 st ∧
                                      0 ≤ va.2 ≤ st).
  { intros va Hin. apply (downtime_slashes_elem s); [done| |done].
    split; [apply T_Downtime_range|apply (Hpercent Downtime)]. }
  pose proof (downtime_slashes_keys s) as Hnd. fold sl in Hnd.
  assert (Htot : over slash_of (downtime_event <$> sl) = sumZ sl.*2) by (by apply downtime_over).
  split; rewrite ?count_nil; try done.
  - intros _ v. rewrite !over_nil. unfold stake_of. cbn.
    rewrite slash_list_stake by done. lia.
  - unfold shortfall. cbn. rewrite slashes_sum by done. rewrite Htot. lia.
  - rewrite Htot. apply sumZ_nonneg, Forall_fmap, Forall_forall. intros va Hin. simpl.
    destruct (Hel _ Hin) as (st & _ & _ & ?). lia.
  - apply foldM_replay_quiet, Forall_fmap, Forall_forall. done.
  - rewrite (downtime_over _ (λ _, 0)) by done. by apply over_zero.
  - rewrite (downtime_over _ (λ _, 0)) by done. by apply over_zero.
  - rewrite (downtime_over _ (λ _, 0)) by done. by apply over_zero.
Qed.

(** ** Steps *)

Lemma adjusted_books s ent n : ∃ new, books s [Initialized n] new (adjusted ent s).
Proof.
  set (d := calculate_difficulty_adjustment (Difficulty s) 5 5 ent).
  destruct (decide (d = Difficulty s)) as [Hd|Hd].
  - exists []. apply books_quiet; try done; unfold known, adjusted;
      cbn -[calculate_difficulty_adjustment]; fold d.
    + by rewrite decide_True.
    + by rewrite Hd.
  - exists [DifficultyAdjusted (Difficulty s) d].
    split; rewrite ?over_one, ?count_cons, ?count_nil; try done.
    + unfold adjusted. cbn -[calculate_difficulty_adjustment]. fold d. by rewrite decide_False.
    + intros _ v. rewrite !over_one. unfold stake_of. simpl. lia.
    + unfold shortfall. cbn. lia.
    + simpl. by rewrite decide_True.
Qed.

Lemma initialized_books n s w s' :
  state_wf s → on_initialize n s = (Ok w, s') → ∃ new, books s [Initialized n] new s'.
Proof.
  intros Hwf (s1 & Hs1 & Hs')%initialized_state.
  assert (∃ new1, books s [] new1 s1) as [new1 Hb1].
  { destruct Hs1 as [-> | ->]; [exists []; apply books_nil|].
    eexists. by apply slashes_books. }
  assert (∃ new2, books s1 [Initialized n] new2 s') as [new2 Hb2].
  { destruct Hs' as [-> |(ent & _ & ->)].
    - exists []. by apply books_quiet.
    - apply adjusted_books. }
  exists (new1 ++ new2). exact (books_app _ _ _ _ _ _ _ Hb1 Hb2).
Qed.

(** A sum of stakes that a call computed is exact when the stakes are backed. *)
Lemma backed_exact s v amount n b :
  stakes_wf s → in_uint U128 amount → backed s → v ≠ account_id →
  transfer v account_id amount KeepAlive (balances s) = inr b →
  add U128 (stake_of v s) amount = Some n → n = stake_of v s + amount.
Proof.
  intros Hst Ham Hbk Hne Ht Hn. destruct (decide (in_uint U128 (stake_of v s + amount))) as [Hin|Hin].
  { rewrite add_fits in Hn by done. by injection Hn. }
  destruct (stake_of_range v s Hst). destruct Ham as [? ?].
  destruct Hbk as [Hc|[_ Hsh]].
  - by rewrite add_overflow_panics in Hn.
  - exfalso. apply Hin. pose proof (transfer_to _ _ _ _ _ _ Ht Hne).
    destruct (free_balance_range account_id b). unfold shortfall in Hsh.
    pose proof (stake_of_le_total v s Hst). unfold in_uint. lia.
Qed.

(** Steps that emit no event and change one stake. *)
Lemma books_moved s l s' v x :
  ValidatorStakes s' = <[v := x]> (ValidatorStakes s) →
  events s' = events s → known s' = known s →
  (backed s → ∀ w, (if decide (v = w) then x else stake_of w s)
                   = stake_of w s + staked_by w l - unstaked_by w l) →
  shortfall s' ≤ shortfall s + dust l → is_submit l = false → is_validate l = false →
  books s [l] [] s'.
Proof.
  intros Hst He Hk Hmove Hsh Hsub Hval.
  split; rewrite ?over_nil, ?count_cons, ?count_nil, ?Hsub, ?Hval; try done.
  - by rewrite app_nil_r.
  - intros Hbk w. rewrite !over_one, over_nil. specialize (Hmove Hbk w).
    unfold stake_of at 1. rewrite Hst, lookup_insert. unfold stake_of in *.
    case_decide; simpl in *; lia.
  - unfold dust in Hsh. destruct (is_unstake l); lia.
  - simpl. by rewrite Hk.
Qed.

(** A step that only emits: a submission or a validation. *)
Lemma books_logged s l new s' :
  events s' = events s ++ new → ValidatorStakes s' = ValidatorStakes s →
  (∀ v, staked_by v l = 0 ∧ unstaked_by v l = 0) → is_unstake l = false →
  shortfall s' ≤ shortfall s + dust l → (∀ v, over (slash_of_who v) new = 0) →
  over slash_of new = 0 → foldM replay_event (known s) new = Some (known s') →
  over mined_event new = (if is_submit l then 1 else 0) →
  over selected_event new = (if is_validate l then 1 else 0) →
  over rewarded_event new = (if is_validate l then 1 else 0) → books s [l] new s'.
Proof.
  intros He Hst Hl Hun Hsh Hsl Hs0 Hk Hm Hsel Hrw.
  split; rewrite ?count_cons, ?count_nil, ?Hm, ?Hsel, ?Hrw, ?Hs0, ?Hun; try done; try lia.
  - intros _ v. destruct (Hl v) as [Hl1 Hl2]. rewrite !over_one, Hl1, Hl2, Hsl.
    unfold stake_of. rewrite Hst. lia.
  - unfold dust in Hsh. rewrite Hun in Hsh. lia.
Qed.

Lemma accepted_books s o c s' :
  state_wf s → ensure_signed_origin o ≠ Some account_id → call_wf c →
  dispatch o c s = (Ok tt, s') → ∃ new, books s [Accepted o c] new s'.
Proof.
  intros Hwf Hesc Hc Hd. pose proof (swf_stakes _ Hwf) as Hst.
  assert (Hsh : shortfall s' ≤ shortfall s + dust (Accepted o c))
    by (apply step_shortfall; [done|by apply step_accepted]).
  apply accepted_body in Hd. destruct c; simpl in Hd, Hc.
  - apply submit_block_ok in Hd as (m & parent & _ & _ & _ & _ & _ & -> & _).
    eexists. by apply books_logged.
  - apply stake_ok in Hd as (v & b & n & Ho & _ & Ht & Hn & -> & _). exists [].
    apply (books_moved _ _ _ v n); try done. intros Hbk w. simpl. rewrite Ho.
    rewrite (backed_exact s v amount n b Hst Hc Hbk ltac:(congruence) Ht Hn).
    case_decide as Hvw; [subst; rewrite decide_True by done; lia|].
    rewrite decide_False by congruence. lia.
  - apply unstake_ok in Hd as (v & b & cur & n & Ho & Hcur & Hle & Hn & _ & -> & _). exists [].
    destruct (Hst _ _ Hcur) as [? ?]. destruct Hc as [? ?].
    rewrite sub_fits in Hn by (unfold in_uint; lia). injection Hn as <-.
    apply (books_moved _ _ _ v (cur - amount)); try done. intros _ w. simpl. rewrite Ho.
    case_decide as Hvw; [subst; rewrite decide_True by done; unfold stake_of; rewrite Hcur; simpl; lia|].
    rewrite decide_False by congruence. lia.
  - apply validate_block_ok in Hd
      as (v & h & sel & rw & m & b & _ & _ & _ & _ & _ & _ & _ & _ & _ & _ & -> & _).
    exists [ValidatorSelected v (selected_weight sel);
            RewardsDistributed m (miner_reward rw) (stakers_reward rw)]. apply books_logged; try done. cbn. by rewrite <-app_assoc.
  - apply report_misbehavior_ok in Hd as (r & a & _ & Ha & -> & _).
    eexists. by apply reported_books.
  - apply register_pqc_key_ok in Hd as (v & _ & _ & ->). exists []. by apply books_quiet.
Qed.

Lemma step_books s l s' : state_wf s → step s l s' → ∃ new, books s [l] new s'.
Proof.
  intros Hwf Hstep. pose proof Hstep as Hstep'.
  destruct Hstep as [o c s' Hesc Hc Hd|o c e s' _ Hd|n w s' Hi|n u s' Hf|n Hn|b Hb1 Hb2].
  - by eapply accepted_books.
  - apply dispatch_err in Hd as ->. exists []. by apply books_quiet.
  - by eapply initialized_books.
  - rewrite on_finalize_eq in Hf. injection Hf as _ <-. exists []. by apply books_quiet.
  - exists []. by apply books_quiet.
  - exists []. apply books_quiet; try done. unfold shortfall. cbn. lia.
Qed.

Lemma steps_books s tr s' : state_wf s → steps s tr s' → ∃ new, books s tr new s'.
Proof.
  intros Hwf Hs. induction Hs as [s|s l s1 tr s' Hstep _ IH]; [exists []; apply books_nil|].
  destruct (step_books _ _ _ Hwf Hstep) as [new1 Hb1].
  destruct (IH (step_wf _ _ _ Hwf Hstep)) as [new2 Hb2].
  exists (new1 ++ new2). exact (books_app _ [l] _ _ _ _ _ Hb1 Hb2).
Qed.
End Accounting.

(** ** Properties *)

Section Properties.
Context `{!Build, !ScalePrims, !Hashing, !Pqc, !Config, !ConfigOk}.
Context {AccountId : Type} `{Countable AccountId}.
Context `{!Frame AccountId, !FrameOk AccountId, !Currency AccountId, !CurrencyOk AccountId}.
Implicit Types (s : State AccountId) (tr : list (label AccountId)).

(** C8. The accounts of a run.  Whatever calls, hooks and blocks are interleaved,
    when no slash percentage exceeds 100 the run only appends to the log of
    events, and: while sums of stakes cannot wrap, every validator's stake is
    what it was, plus what he staked, less what he unstaked, less the
    [ValidatorSlashed] events against him; and the slashed tokens are neither
    burnt nor paid out but stay in the escrow account beyond the stakes, up to
    the dust of the unstakes. *)
Theorem stake_accounting s tr s' :
  (∀ reason, slash_percentage_of reason ≤ 100) → state_wf s → steps s tr s' →
  ∃ new, events s' = events s ++ new ∧
    (backed s → ∀ v, stake_of v s' =
       stake_of v s + over (staked_by v) tr - over (unstaked_by v) tr - over (slash_of_who v) new) ∧
    shortfall s' + over slash_of new
      ≤ shortfall s + Z.max 0 (existential_deposit - 1) * count is_unstake tr.
Proof.
  intros Hp Hwf Hs. destruct (steps_books Hp _ _ _ Hwf Hs) as [new Hb]. exists new.
  pose proof (bk_shortfall _ _ _ _ Hb).
  split_and!; [by eapply bk_events|by eapply bk_stakes|lia].
Qed.

(** C12. The log is faithful: the events that a run appends, read in order by somebody
    who knows the difficulty and the producers at its start, give the difficulty
    and the producers at its end, every adjustment naming the difficulty he
    knows; and there is one [BlockMined] per accepted submission, one
    [ValidatorSelected] and one [RewardsDistributed] per accepted validation. *)
Theorem event_log_replays s tr s' :
  (∀ reason, slash_percentage_of reason ≤ 100) → state_wf s → steps s tr s' →
  ∃ new, events s' = events s ++ new ∧
    foldM replay_event (Difficulty s, BlockProducers s) new = Some (Difficulty s', BlockProducers s') ∧
    over mined_event new = count is_submit tr ∧ over selected_event new = count is_validate tr ∧
    over rewarded_event new = count is_validate tr.
Proof.
  intros Hp Hwf Hs. destruct (steps_books Hp _ _ _ Hwf Hs) as [new Hb]. exists new.
  split_and!; by eapply Hb.
Qed.
End Properties.

(** ** Evaluation *)

#[local] Existing Instance release_build.
#[local] Existing Instance runtime_config.
#[local] Existing Instance runtime_config_ok.
#[local] Existing Instance unit_currency.
#[local] Existing Instance unit_currency_ok.

Lemma runtime_percentages reason : slash_percentage_of reason ≤ 100.
Proof. destruct reason; by vm_compute. Qed.

(** Account 2 is reported after the run of Chain.v, and loses half of his stake. *)
Definition call5 : Call AccountId := Call_report_misbehavior 2 InvalidBlock.
Definition state6 : State AccountId := (dispatch (signed 1) call5 state5).2.

Lemma slashed_steps : steps start_state (sample_trace ++ [Accepted (signed 1) call5]) state6.
Proof.
  apply steps_app. exists state5. split; [exact sample_steps|]. apply steps_one.
  apply step_accepted; [by intros [=]|done|apply run_ok; by vm_compute].
Defined.

Lemma stake_accounting_witness :
  stake_of 2 state6 = stake_of 2 start_state - UNIT / 2 ∧
  stake_of 1 state6 = stake_of 1 start_state + UNIT - UNIT.
Proof.
  destruct (stake_accounting start_state _ state6 runtime_percentages start_state_wf slashed_steps)
    as (new & Hnew & Hst & _).
  assert (Hb : backed start_state) by (right; split; by vm_compute).
  assert (Heq : new = drop (length (events start_state)) (events state6))
    by (by rewrite Hnew, drop_app_length).
  split; (etransitivity; [apply (Hst Hb)|]); rewrite Heq; by vm_compute.
Defined.

Lemma event_log_replays_witness :
  ∃ new, events state6 = events start_state ++ new ∧
    foldM replay_event (2 ^ 63, ∅) new = Some (2 ^ 63, {[1 := 1]}).
Proof.
  destruct (event_log_replays start_state _ state6 runtime_percentages start_state_wf slashed_steps)
    as (new & Hnew & Hr & _).
  exists new. split; [exact Hnew|exact Hr].
Defined.
