(* ===== verification/Halting.v ===== *)
(** * What one signer can do to the stakes

    [report_misbehavior] takes no evidence, so its slashes compose: a signer who
    reports every staker for double signing leaves no stake at all, and with it no
    validator to select.  The counterpart of Progress.v. *)

From S2P Require Import Prelude RustInt Scale Types Interfaces Reference Difficulty Entropy.
From S2P Require Import Pow Selection Rewards Pallet Runtime Calls Slashing Safety Consensus.
From S2P Require Import Hooks Chain Blocks Progress.
Local Open Scope Z_scope.
Local Open Scope ghost_scope.

Section Halting.
Context `{!Build, !ScalePrims, !Hashing, !Pqc, !Config, !ConfigOk}.
Context {AccountId : Type} `{Countable AccountId}.
Context `{!Frame AccountId, !FrameOk AccountId, !Currency AccountId, !CurrencyOk AccountId}.
Implicit Types (s : State AccountId) (v : AccountId) (o : OriginFor).

(** Reports of a list of accounts, by one signer. *)
Definition reports o (vs : list AccountId) : list (label AccountId) :=
  (λ v, Accepted o (Call_report_misbehavior v DoubleSigning)) <$> vs.

(** A slash of the whole stake. *)
Lemma full_slash st :
  T_DoubleSignSlashPercentage = 100 → 0 ≤ st < 2 ^ 121 →
  slash_amount_of st (slash_percentage_of DoubleSigning) = Some st.
Proof.
  intros Hp Hst. simpl. rewrite Hp, slash_amount_fits by lia.
  by rewrite Z.div_mul by lia.
Qed.

(** What a list of reports leaves. *)
Record slashed_all (vs : list AccountId) s s' : Prop := {
  sa_zero : ∀ v, v ∈ vs → stake_of v s' = 0;
  sa_other : ∀ v, v ∉ vs → stake_of v s' = stake_of v s;
  sa_balances : balances s' = balances s;
  sa_phase : CurrentPhase s' = CurrentPhase s;
}.

Lemma report_step o reporter v s :
  T_DoubleSignSlashPercentage = 100 → ensure_signed_origin o = Some reporter →
  reporter ≠ account_id → 0 ≤ stake_of v s < 2 ^ 121 →
  let s' := reported v DoubleSigning (stake_of v s) s in
  step s (Accepted o (Call_report_misbehavior v DoubleSigning)) s' ∧ stake_of v s' = 0 ∧
  (∀ w, w ≠ v → stake_of w s' = stake_of w s).
Proof.
  intros Hp Ho Hne Hst s'. split_and!.
  - apply step_accepted; [congruence|done|]. apply dispatch_ok. cbn [call_body].
    apply report_misbehavior_ok. exists reporter, (stake_of v s).
    split_and!; [done|by apply full_slash|done|done].
  - unfold s', reported, stake_of. cbn. rewrite lookup_insert_eq. simpl.
    rewrite saturating_sub_le by (unfold in_uint; fold (stake_of v s); lia). lia.
  - intros w Hw. unfold s', reported, stake_of. cbn. by rewrite lookup_insert_ne.
Qed.

Lemma reports_run o reporter vs s :
  T_DoubleSignSlashPercentage = 100 → ensure_signed_origin o = Some reporter →
  reporter ≠ account_id → (∀ v, 0 ≤ stake_of v s < 2 ^ 121) →
  ∃ s', steps s (reports o vs) s' ∧ slashed_all vs s s'.
Proof.
  intros Hp Ho Hne. revert s; induction vs as [|v vs IH]; intros s Hst.
  { exists s. split; [constructor|]. split; [by intros v ?%elem_of_nil|done..]. }
  destruct (report_step o reporter v s Hp Ho Hne (Hst v)) as (Hstep & Hzero & Hother).
  set (s1 := reported _ _ _ _) in *.
  assert (Hst1 : ∀ w, 0 ≤ stake_of w s1 < 2 ^ 121).
  { intros w. destruct (decide (w = v)) as [->|Hw]; [lia|]. by rewrite Hother. }
  destruct (IH s1 Hst1) as (s' & Hs' & [Hz Hoth Hb Hph]). exists s'.
  split; [by eapply steps_cons|]. split; [| |done|done].
  - intros w [->|Hw]%elem_of_cons; [|by apply Hz].
    destruct (decide (v ∈ vs)) as [Hin|Hout]; [by apply Hz|by rewrite Hoth].
  - intros w [Hwv Hw]%not_elem_of_cons. by rewrite Hoth, Hother.
Qed.

Lemma weights_sum_zero (l : list (ValidatorStake AccountId)) :
  Forall (λ x, weight x = 0) l → weights_sum l = 0.
Proof.
  induction 1 as [|x l Hx _ IH]; [done|].
  change (weights_sum (x :: l)) with (weight x + weights_sum l). lia.
Qed.

(** Without stake nobody is selected, and nothing can be unstaked. *)
Lemma no_stake_no_validation s o bn sig u s' :
  state_wf s → (∀ v, stake_of v s = 0) → dispatch o (Call_validate_block bn sig) s ≠ (Ok u, s').
Proof.
  intros Hwf Hz Hd%dispatch_ok. cbn [call_body] in Hd.
  apply validate_block_ok in Hd as (v & h & sel & _ & _ & _ & _ & _ & _ & _ & Hsel & _).
  pose proof (swf_stakes _ Hwf) as Hst.
  assert (Hw : Forall (λ x, weight x = 0) (collect_stakers s)).
  { apply Forall_forall. intros x Hx. apply collect_stakers_account in Hx as [Hl ->].
    specialize (Hz (account x)). unfold stake_of in Hz. rewrite Hl in Hz. simpl in Hz. by rewrite Hz. }
  pose proof (select_pos_correct (block_number s) (collect_stakers s) (selection_seed bn s)) as Hc.
  rewrite Hsel in Hc. destruct Hc as (l1 & x & l2 & Hl & _ & Hx & _).
  - eapply Forall_impl; [exact Hw|]. intros y ->. done.
  - by rewrite weights_sum_zero.
  - rewrite Hl in Hw. apply Forall_app in Hw as [_ Hw]. apply Forall_inv in Hw. lia.
Qed.

Lemma no_stake_no_unstake s o amount u s' :
  (∀ v, stake_of v s = 0) → 0 < amount → dispatch o (Call_unstake amount) s ≠ (Ok u, s').
Proof.
  intros Hz Ham Hd%dispatch_ok. cbn [call_body] in Hd.
  apply unstake_ok in Hd as (v & b & cur & n & _ & Hcur & Hle & _).
  specialize (Hz v). unfold stake_of in Hz. rewrite Hcur in Hz. simpl in Hz. lia.
Qed.
End Halting.

(** ** Properties *)

Section Properties.
Context `{!Build, !ScalePrims, !Hashing, !Pqc, !Config, !ConfigOk}.
Context {AccountId : Type} `{Countable AccountId}.
Context `{!Frame AccountId, !FrameOk AccountId, !Currency AccountId, !CurrencyOk AccountId}.
Implicit Types (s : State AccountId) (o : OriginFor).

(** C13. One signer can take every stake.  With the runtime's 100% for double signing and
    stakes below 2^121, anybody who can sign, staker or not, can report all the
    stakers one after the other without evidence: every report is accepted, all
    stakes are then 0 while no balance has changed, so that the tokens stay in the
    escrow account with nobody entitled to them: no unstake of a positive amount
    and no validation of any block succeeds. *)
Theorem one_signer_takes_every_stake s o reporter :
  T_DoubleSignSlashPercentage = 100 → state_wf s → (∀ v, stake_of v s < 2 ^ 121) →
  ensure_signed_origin o = Some reporter → reporter ≠ account_id →
  ∃ s', steps s (reports o (map_to_list (ValidatorStakes s)).*1) s' ∧
    (∀ v, stake_of v s' = 0) ∧ balances s' = balances s ∧ CurrentPhase s' = CurrentPhase s ∧
    (∀ o' amount u s'', 0 < amount → dispatch o' (Call_unstake amount) s' ≠ (Ok u, s'')) ∧
    (∀ o' bn sig u s'', dispatch o' (Call_validate_block bn sig) s' ≠ (Ok u, s'')).
Proof.
  intros Hp Hwf Hst Ho Hne.
  destruct (reports_run o reporter (map_to_list (ValidatorStakes s)).*1 s Hp Ho Hne)
    as (s' & Hs & [Hz Hother Hb Hph]).
  { intros v. split; [apply (stake_of_range v s (swf_stakes _ Hwf))|done]. }
  assert (Hall : ∀ v, stake_of v s' = 0).
  { intros v. destruct (decide (v ∈ (map_to_list (ValidatorStakes s)).*1)) as [Hin|Hout]; [by apply Hz|].
    rewrite Hother by done. unfold stake_of. destruct (ValidatorStakes s !! v) as [st|] eqn:Hv; [|done].
    exfalso. apply Hout. apply (list_elem_of_fmap_2 fst _ (v, st)). by apply elem_of_map_to_list. }
  assert (Hwf' : state_wf s') by (eapply steps_invariant; [apply step_wf|exact Hwf|exact Hs]).
  exists s'. split_and!; [done..| |].
  - intros o' amount u s'' Ham. by apply no_stake_no_unstake.
  - intros o' bn sig u s''. by apply no_stake_no_validation.
Qed.
End Properties.

(** ** Evaluation *)

#[local] Existing Instance release_build.
#[local] Existing Instance runtime_config.
#[local] Existing Instance runtime_config_ok.
#[local] Existing Instance unit_currency.
#[local] Existing Instance unit_currency_ok.

(** Account 7, without any funds, against the staker of Chain.v. *)
Lemma one_signer_takes_every_stake_witness :
  ∃ s', steps start_state (reports (signed 7) [2]) s' ∧ stake_of 2 s' = 0 ∧
    free_balance 112 (balances s') = UNIT.
Proof.
  destruct (one_signer_takes_every_stake start_state (signed 7) 7) as (s' & Hs & Hz & Hb & _);
    [done|exact start_state_wf| |done|by vm_compute|].
  - intros v. unfold stake_of.
    destruct (ValidatorStakes start_state !! v) as [st|] eqn:Hv; [|by vm_compute].
    apply (lookup_singleton_Some 2 v UNIT st) in Hv as [_ <-]. by vm_compute.
  - exists s'. split; [exact Hs|]. split; [exact (Hz 2)|]. rewrite Hb. by vm_compute.
Defined.
