(* ===== verification/Misuse.v ===== *)
(** * Stakes without backing, blocks rewarded again

    Two consequences of what unstake and validate_block do not check: an unstake
    that lets the escrow account be reaped leaves every stake without backing, and a
    block that has been validated can be validated, and rewarded, again. *)

From S2P Require Import Prelude RustInt Scale Types Interfaces Reference Difficulty Entropy.
From S2P Require Import Pow Selection Rewards Pallet Runtime Calls Slashing Safety Consensus.
From S2P Require Import Hooks Chain Blocks Progress.
Local Open Scope Z_scope.
Local Open Scope ghost_scope.

Section Misuse.
Context `{!Build, !ScalePrims, !Hashing, !Pqc, !Config, !ConfigOk}.
Context {AccountId : Type} `{Countable AccountId}.
Context `{!Frame AccountId, !FrameOk AccountId, !Currency AccountId, !CurrencyOk AccountId}.
Implicit Types (s : State AccountId) (v w : AccountId) (o : OriginFor).

(** ** The escrow account *)

(** What an accepted unstake of a positive amount does to the stakes and the escrow. *)
Lemma unstaked_effect o v amount s s' :
  stakes_wf s → ensure_signed_origin o = Some v → v ≠ account_id → 0 < amount →
  dispatch o (Call_unstake amount) s = (Ok tt, s') →
  transfer account_id v amount AllowDeath (balances s) = inr (balances s') ∧
  map_sum (ValidatorStakes s') = map_sum (ValidatorStakes s) - amount.
Proof.
  intros Hst Ho Hne Ham Hd%dispatch_ok. cbn [call_body] in Hd.
  apply unstake_ok in Hd as (v' & b & cur & n & Ho' & Hcur & Hle & Hn & Ht & -> & _).
  assert (v' = v) as -> by congruence. cbn. split; [done|].
  rewrite map_sum_insert, Hcur. simpl. destruct (Hst _ _ Hcur) as [? ?].
  rewrite sub_fits in Hn by (unfold in_uint; lia). injection Hn as <-. lia.
Qed.

(** An unstake never pays more than the escrow account holds. *)
Lemma unstake_covered o v amount s u s' :
  ensure_signed_origin o = Some v → v ≠ account_id →
  dispatch o (Call_unstake amount) s = (Ok u, s') →
  amount ≤ free_balance account_id (balances s) ∧
  free_balance account_id (balances s') ≤ Z.max 0 (free_balance account_id (balances s) - amount).
Proof.
  intros Ho Hne Hd%dispatch_ok. cbn [call_body] in Hd.
  apply unstake_ok in Hd as (v' & b & cur & n & Ho' & _ & _ & _ & Ht & -> & _).
  assert (v' = v) as -> by congruence. cbn.
  destruct (transfer_from _ _ _ _ _ _ Ht ltac:(congruence)) as [? [?|(_ & _ & ?)]]; lia.
Qed.

(** A stake adds its amount to the escrow account. *)
Lemma staked_escrow o w amount s u s' :
  ensure_signed_origin o = Some w → w ≠ account_id →
  dispatch o (Call_stake amount) s = (Ok u, s') →
  free_balance account_id (balances s') = free_balance account_id (balances s) + amount.
Proof.
  intros Ho Hne Hd%dispatch_ok. cbn [call_body] in Hd.
  apply stake_ok in Hd as (w' & b & n & Ho' & _ & Ht & _ & -> & _).
  assert (w' = w) as -> by congruence. cbn.
  exact (transfer_to _ _ _ _ _ _ Ht Hne).
Qed.
End Misuse.

(** ** Properties *)

Section Properties.
Context `{!Build, !ScalePrims, !Hashing, !Pqc, !Config, !ConfigOk}.
Context {AccountId : Type} `{Countable AccountId}.
Context `{!Frame AccountId, !FrameOk AccountId, !Currency AccountId, !CurrencyOk AccountId}.
Implicit Types (s : State AccountId) (v w : AccountId) (o : OriginFor).

(** C39. A stake can lose its backing.  Whenever an accepted unstake leaves the escrow
    account below the existential deposit, the account is reaped: it is empty,
    although all the other stakes, and the rest of this one, stay recorded, so that
    their whole sum is uncovered and no positive amount can be unstaked.  After
    the next stake by anybody, whoever of the old stakers unstakes first is paid
    out of it, and the new staker cannot take his amount back any more. *)
Theorem escrow_dust_insolvency `{!CurrencyReaps AccountId} o v amount s s1 :
  state_wf s → ensure_signed_origin o = Some v → v ≠ account_id → 0 < amount →
  dispatch o (Call_unstake amount) s = (Ok tt, s1) →
  free_balance account_id (balances s) - amount < existential_deposit →
  free_balance account_id (balances s1) = 0 ∧
  shortfall s1 = map_sum (ValidatorStakes s) - amount ∧
  (∀ o' w x u s', ensure_signed_origin o' = Some w → w ≠ account_id → 0 < x →
     dispatch o' (Call_unstake x) s1 ≠ (Ok u, s')) ∧
  (∀ ow w a s2 ox x r s3, ensure_signed_origin ow = Some w → w ≠ account_id →
     dispatch ow (Call_stake a) s1 = (Ok tt, s2) →
     ensure_signed_origin ox = Some x → x ≠ account_id → 0 < r →
     dispatch ox (Call_unstake r) s2 = (Ok tt, s3) →
     ∀ u s4, dispatch ow (Call_unstake a) s3 ≠ (Ok u, s4)).
Proof.
  intros Hwf Ho Hne Ham Hd Hed.
  destruct (unstaked_effect _ _ _ _ _ (swf_stakes _ Hwf) Ho Hne Ham Hd) as (Ht & Hsum).
  pose proof (transfer_reaps _ _ _ _ _ Ht ltac:(congruence) Ham Hed) as Hzero.
  split_and!; [done|unfold shortfall; lia| |].
  - intros o' w x u s' Ho' Hw Hx Hu. destruct (unstake_covered _ _ _ _ _ _ Ho' Hw Hu). lia.
  - intros ow w a s2 ox x r s3 How Hw Hs2 Hox Hx Hr Hs3 u s4 Hs4.
    pose proof (staked_escrow _ _ _ _ _ _ How Hw Hs2) as Ha.
    destruct (unstake_covered _ _ _ _ _ _ Hox Hx Hs3).
    destruct (unstake_covered _ _ _ _ _ _ How Hw Hs4). lia.
Qed.

(** C40. A block can be rewarded again and again.  Nothing records that block [bn] has
    been validated: in the validation phase of another block [n], with stakes below
    2^64 in total and accounts that exist, somebody is selected for [bn] once more,
    his validation succeeds and pays the whole reward for it, to the miner of [bn]
    and to the stakers; the finalization then opens the mining of the next block
    while [n] stays without a validator, and [bn] is as it was, ready for the next
    time. *)
Theorem block_rewarded_again s bn n h h' (miner : AccountId) :
  overflow_checks = false → state_wf s → map_sum (ValidatorStakes s) < 2 ^ 64 →
  0 ≤ T_BlockReward < 2 ^ 64 →
  (∃ v, 0 < stake_of v s) → (∀ v, 0 < stake_of v s → ∃ sig, pqc_accepts v bn sig s) →
  CurrentPhase s = PosValidation →
  BlockHeaders s !! bn = Some h → is_Some (validator_signature h) →
  BlockProducers s !! bn = Some miner →
  BlockHeaders s !! n = Some h' → validator_signature h' = None →
  (∀ a, a = miner ∨ is_Some (ValidatorStakes s !! a) → 0 < free_balance a (balances s)) →
  (∀ a, free_balance a (balances s) + T_BlockReward < 2 ^ 128) →
  ∃ reward v sig, calculate_block_reward T_BlockReward = Some reward ∧ 0 < stake_of v s ∧
    ∀ o, ensure_signed_origin o = Some v →
      ∃ s1, dispatch o (Call_validate_block bn sig) s = (Ok tt, s1) ∧
        (∀ a, free_balance a (balances s1) =
           free_balance a (balances s) + payout miner (collect_stakers s) reward a) ∧
        let s2 := (on_finalize n s1).2 in
        CurrentPhase s2 = PowMining ∧ balances s2 = balances s1 ∧
        BlockHeaders s2 !! n = Some h' ∧
        (∃ h2, BlockHeaders s2 !! bn = Some h2 ∧ is_Some (validator_signature h2)) ∧
        BlockProducers s2 !! bn = Some miner.
Proof.
  intros Hrel Hwf Hsum Hrw Hex Hkeys Hph Hh Hsig Hm Hh' Hnone Hfunds Hroom.
  destruct (calculate_block_reward_release Hrel T_BlockReward) as [reward Hreward].
  destruct (staked_validates bn s h miner Hrel (swf_stakes _ Hwf) Hsum Hex Hph Hh Hm Hkeys)
    as (v & sel & sig & Hv & Hval).
  exists reward, v, sig. split_and!; [done|done|]. intros o Ho.
  destruct (Hval o (balances s) Ho) as (reward' & b & Hd).
  assert (Hsame : set_balances (balances s) s = s) by (by destruct s). rewrite Hsame in Hd.
  assert (Hne : n ≠ bn) by (intros ->; rewrite Hh in Hh'; simplify_eq; destruct Hsig; congruence).
  eexists. split; [exact Hd|]. split.
  - apply (accepted_validation_pays o bn sig s tt); try done.
    + apply collect_stakers_nonneg, Hwf.
    + by rewrite collect_stakers_sum.
    + intros a [->|Ha]; [by apply Hfunds; left|]. apply Hfunds. right.
      apply list_elem_of_fmap in Ha as (x & -> & Hx). apply collect_stakers_account in Hx as [-> _].
      by eexists.
  - cbv zeta. rewrite on_finalize_eq. cbn. rewrite lookup_insert_eq, lookup_insert_ne by done.
    split_and!; [done|done|done| |done]. by eexists.
Qed.
End Properties.

(** ** Evaluation *)

#[local] Existing Instance release_build.
#[local] Existing Instance runtime_config.
#[local] Existing Instance runtime_config_ok.

(** Two accounts with three tokens each, and the runtime's existential deposit;
    account 1 has staked a token and unstakes all but half a milli-token. *)
Section Dust.
#[local] Instance dust_currency : Currency AccountId := ref_currency EXISTENTIAL_DEPOSIT.
#[local] Instance dust_currency_ok : CurrencyOk AccountId :=
  ref_currency_ok EXISTENTIAL_DEPOSIT ltac:(by vm_compute).
#[local] Instance dust_currency_reaps : CurrencyReaps AccountId :=
  ref_currency_reaps EXISTENTIAL_DEPOSIT.

Definition dust_left : Z := EXISTENTIAL_DEPOSIT / 2.
Definition before_stake : State AccountId :=
  genesis_state (Ledger (<[1 := 3 * UNIT]> (<[2 := 3 * UNIT]> ∅)) (6 * UNIT)).
Definition one_staked : State AccountId :=
  (dispatch (signed 1) (Call_stake UNIT) before_stake).2.
Definition dust_lost : State AccountId :=
  (dispatch (signed 1) (Call_unstake (UNIT - dust_left)) one_staked).2.

Lemma one_staked_wf : state_wf one_staked.
Proof.
  apply (accepted_wf (signed 1) (Call_stake UNIT) before_stake); [by vm_compute|apply run_ok; by vm_compute
    |apply genesis_wf].
Qed.

Lemma escrow_dust_insolvency_witness :
  free_balance account_id (balances dust_lost) = 0 ∧ shortfall dust_lost = dust_left.
Proof.
  destruct (escrow_dust_insolvency (signed 1) 1 (UNIT - dust_left) one_staked dust_lost)
    as (Hzero & Hsh & _);
    [exact one_staked_wf|done|by vm_compute|by vm_compute|apply run_ok; by vm_compute
    |by vm_compute|].
  split; [exact Hzero|]. etransitivity; [exact Hsh|by vm_compute].
Defined.

(** Account 2 stakes a token, account 1 unstakes the rest of his, and account 2
    cannot get the token back. *)
Example dust_lost_to_next_staker :
  let s := ((dispatch (signed 2) (Call_stake UNIT) ;;
             dispatch (signed 1) (Call_unstake dust_left)) dust_lost).2 in
  stake_of 1 s = 0 ∧ stake_of 2 s = UNIT ∧
  match (dispatch (signed 2) (Call_unstake UNIT) s).1 with
  | Err (CurrencyError _) => True
  | _ => False
  end.
Proof. cbv zeta. split_and!; by vm_compute. Qed.
End Dust.

(** The chain of Chain.v, with block 1 validated and block 2 submitted. *)
Section Again.
#[local] Existing Instance unit_currency.
#[local] Existing Instance unit_currency_ok.

Definition signed_header1 : GhostBlockHeader :=
  sign_header (header_at 1 (zeros 32) 0) (zeros 32) PqcSignature_default.
Definition header2 : GhostBlockHeader := header_at 2 (zeros 32) 0.
Definition second_submitted : State AccountId :=
  set_CurrentPhase PosValidation
    (set_BlockProducers (<[1 := 1]> {[2 := 1]})
      (set_BlockHeaders (<[1 := signed_header1]> {[2 := header2]}) start_state)).

Lemma second_submitted_wf : state_wf second_submitted.
Proof.
  destruct start_state_wf. split; try done; cbn.
  - apply map_Forall_insert_2; [by repeat split; vm_compute|].
    intros n h [<- <-]%lookup_singleton_Some. by repeat split; vm_compute.
  - intros n. rewrite !lookup_insert_is_Some, !lookup_singleton_is_Some. tauto.
Qed.

(** A bound on all the accounts of a ledger. *)
Lemma ledger_free_le b c a :
  0 ≤ c → bool_decide (map_Forall (λ _ v, v ≤ c) (accounts b)) = true → ledger_free a b ≤ c.
Proof.
  intros Hc Hall%bool_decide_eq_true. unfold ledger_free, saturate.
  destruct (accounts b !! a) as [v|] eqn:Ha; simpl; [apply Hall in Ha|]; lia.
Qed.

(** Block 1 is rewarded a second time. *)
Lemma block_rewarded_again_witness :
  ∃ v sig s1, dispatch (signed v) (Call_validate_block 1 sig) second_submitted = (Ok tt, s1) ∧
    let s2 := (on_finalize 2 s1).2 in
    CurrentPhase s2 = PowMining ∧ BlockHeaders s2 !! 2 = Some header2.
Proof.
  destruct (block_rewarded_again second_submitted 1 2 signed_header1 header2 1)
    as (reward & v & sig & _ & _ & Hval);
    [done|exact second_submitted_wf|by vm_compute|by vm_compute|exists 2; by vm_compute
    |intros v _; by exists PqcSignature_default|by vm_compute|by vm_compute
    |vm_compute; by eexists|by vm_compute|by vm_compute|by vm_compute| | |].
  - intros a [->|Ha]; [by vm_compute|].
    assert (Hall : map_Forall (λ a _, 0 < free_balance a (balances second_submitted))
      (ValidatorStakes second_submitted))
      by (refine (bool_decide_eq_true_1 _ _); by vm_compute).
    destruct Ha as [st Ha]. exact (Hall a st Ha).
  - intros a. eapply Z.le_lt_trans; [apply Z.add_le_mono_r|].
    + apply (ledger_free_le _ (2 ^ 64)); [done|by vm_compute].
    + by vm_compute.
  - destruct (Hval (signed v) eq_refl) as (s1 & Hd & _ & Hph & _ & Hh & _).
    exists v, sig, s1. split; [exact Hd|]. split; [exact Hph|exact Hh].
Defined.
End Again.
