(* ===== verification/Template.v ===== *)
(** * The template pallet

    pallets/template/src/lib.rs and weights.rs: one stored value, two calls, and
    the weights of the calls. *)

From S2P Require Import Prelude RustInt Scale Types Interfaces Reference.
Local Open Scope Z_scope.

Inductive Error := NoneValue | StorageOverflow.

Section Pallet.
Context {AccountId : Type} `{Countable AccountId} `{!Frame AccountId}.

Inductive Event := SomethingStored (something : Z) (who : AccountId).
Inductive DispatchError := BadOrigin | Module (e : Error).

Record State := mkState {
  Something : option Z; (* u32 *)
  events : list Event;
}.

Definition put_Something (v : Z) (s : State) : State := mkState (Some v) (events s).
Definition deposit_event (e : Event) : dispatch_m State DispatchError unit :=
  modify (λ s, mkState (Something s) (events s ++ [e])).

Definition do_something (origin : OriginFor) (something : Z)
    : dispatch_m State DispatchError unit :=
  who ← ok_or (ensure_signed_origin origin) BadOrigin;
  modify (put_Something something) ;;
  deposit_event (SomethingStored something who).

Definition cause_error (origin : OriginFor) : dispatch_m State DispatchError unit :=
  _who ← ok_or (ensure_signed_origin origin) BadOrigin;
  value ← gets Something;
  match value with
  | None => throw (Module NoneValue)
  | Some old =>
      new ← ok_or (checked_add U32 old 1) (Module StorageOverflow);
      modify (put_Something new)
  end.

Inductive Call := Call_do_something (something : Z) | Call_cause_error.

Definition call_body (origin : OriginFor) (c : Call) : dispatch_m State DispatchError unit :=
  match c with
  | Call_do_something something => do_something origin something
  | Call_cause_error => cause_error origin
  end.

Definition dispatch (origin : OriginFor) (c : Call) : dispatch_m State DispatchError unit :=
  in_storage_layer (call_body origin c).
End Pallet.

Arguments State AccountId : clear implicits.
Arguments Event AccountId : clear implicits.

(** ** Weights *)

(** [Weight]: reference time and proof size, added with saturation. *)
Definition weight_add (a b : Z * Z) : Z * Z :=
  (saturating_add U64 a.1 b.1, saturating_add U64 a.2 b.2).

Module TemplateWeights.
(** [trait WeightInfo] *)
Record WeightInfo := { w_do_something : Z * Z; w_cause_error : Z * Z }.

(** The pallet's [Config], without the event type. *)
Class Config := { T_WeightInfo : WeightInfo }.

(** [SubstrateWeight<T>], for the weights of one read and one write that
    [T::DbWeight] sets; [impl WeightInfo for ()] takes those of RocksDB. *)
Definition SubstrateWeight (db_read db_write : Z * Z) : WeightInfo :=
  {| w_do_something := weight_add (9000000, 0) db_write;
     w_cause_error := weight_add (weight_add (6000000, 1489) db_read) db_write |}.
Definition UnitWeight (rocks_read rocks_write : Z * Z) : WeightInfo :=
  {| w_do_something := weight_add (9000000, 0) rocks_write;
     w_cause_error := weight_add (weight_add (6000000, 1489) rocks_read) rocks_write |}.

(** [#[pallet::call_index(..)]] and [#[pallet::weight(..)]] *)
Definition call_index (c : Call) : Z :=
  match c with Call_do_something _ => 0 | Call_cause_error => 1 end.
Definition call_weight `{!Config} (c : Call) : Z * Z :=
  match c with
  | Call_do_something _ => w_do_something T_WeightInfo
  | Call_cause_error => w_cause_error T_WeightInfo
  end.
End TemplateWeights.

(** ** Properties *)

Section Properties.
Context {AccountId : Type} `{Countable AccountId} `{!Frame AccountId, !FrameOk AccountId}.
Implicit Types (s : State AccountId) (o : OriginFor).

(** The effect of a call on the stored value, errors included. *)
Definition expected o (c : Call) s : (option DispatchError) * State AccountId :=
  match ensure_signed_origin o, c, Something s with
  | None, _, _ => (Some BadOrigin, s)
  | Some who, Call_do_something v, _ =>
      (None, mkState (Some v) (events s ++ [SomethingStored v who]))
  | Some _, Call_cause_error, None => (Some (Module NoneValue), s)
  | Some _, Call_cause_error, Some old =>
      if decide (old = 2 ^ 32 - 1) then (Some (Module StorageOverflow), s)
      else (None, mkState (Some (old + 1)) (events s))
  end.

(** Every outcome of the template's calls: the value is stored or incremented,
    an unset value and the largest [u32] are errors that change nothing, the
    stored value stays a [u32], and nothing panics. *)
Theorem template_calls_outcome o c s :
  (∀ v, Something s = Some v → in_uint U32 v) →
  (∀ v, c = Call_do_something v → in_uint U32 v) →
  let '(err, s') := expected o c s in
  dispatch o c s = (match err with None => Ok tt | Some e => Err e end, s') ∧
  (∀ v, Something s' = Some v → in_uint U32 v).
Proof.
  intros Hs Hc. unfold expected, dispatch.
  destruct (ensure_signed_origin o) as [who|] eqn:Ho.
  - destruct c as [v|].
    + split; [|intros w [= <-]; by apply Hc].
      apply storage_layer_commits. simpl. unfold do_something, deposit_event.
      by rewrite Ho.
    + destruct (Something s) as [old|] eqn:Hold.
      * pose proof (Hs old eq_refl) as [? ?].
        assert (Hbody : call_body o Call_cause_error s
          = if decide (old = 2 ^ 32 - 1) then (Err (Module StorageOverflow), s)
            else (Ok tt, mkState (Some (old + 1)) (events s))).
        { simpl. unfold cause_error. rewrite Ho. run. rewrite Hold. unfold checked_add, modulus.
          do 2 case_decide; run; done || lia. }
        case_decide.
        -- split; [by eapply storage_layer_reverts|by rewrite Hold].
        -- split; [by apply storage_layer_commits|].
           intros w [= <-]. unfold in_uint. lia.
      * split; [|by rewrite Hold]. eapply storage_layer_reverts. simpl.
        unfold cause_error. rewrite Ho. run. rewrite Hold. by run.
  - assert (Hbody : call_body o c s = (Err BadOrigin, s)).
    { destruct c; simpl; unfold do_something, cause_error; by rewrite Ho. }
    destruct c; (split; [by eapply storage_layer_reverts|done]).
Qed.
End Properties.

(** ** Evaluation *)

Definition full : State AccountId := mkState (Some (2 ^ 32 - 1)) [].

Lemma template_calls_outcome_witness :
  dispatch (signed 1) Call_cause_error full = (Err (Module StorageOverflow), full).
Proof.
  refine (proj1 (template_calls_outcome (signed 1) Call_cause_error full _ _)); [|done].
  intros v [= <-]. by vm_compute.
Defined.
