(* ===== verification/Assembly.v ===== *)
(** * The assembled runtime

    runtime/src/lib.rs: the pallets of the runtime with their indices, the calls
    of the two pallets of the repository among those of the library's, and the
    executive that runs a block over them.  The library pallets, the checks of
    [TxExtension] and the fees are the class [Library].  The runtime refines the
    transition system of Chain.v, so its properties hold of whole blocks. *)

From S2P Require Import Prelude RustInt Scale Types Interfaces Reference Difficulty Entropy.
From S2P Require Import Pow Selection Rewards Pallet Runtime Calls Slashing Safety Consensus.
From S2P Require Import Hooks Chain Blocks Template.
Local Open Scope Z_scope.
Local Open Scope ghost_scope.

(** ** Pallets *)

Inductive PalletName :=
  | System | Timestamp | Aura | Grandpa | BalancesPallet | TransactionPayment | Sudo
  | TemplatePallet | GhostConsensus.

(** [#[runtime::pallet_index(..)]] *)
Definition pallet_index (p : PalletName) : Z :=
  match p with
  | System => 0
  | Timestamp => 1
  | Aura => 2
  | Grandpa => 3
  | BalancesPallet => 4
  | TransactionPayment => 5
  | Sudo => 6
  | TemplatePallet => 7
  | GhostConsensus => 8
  end.

(** ** State and calls *)

Section State.
Context `{!Build, !ScalePrims, !Hashing, !Pqc, !Config}.
Context {AccountId : Type} `{Countable AccountId}.
Context `{!Frame AccountId, !Currency AccountId}.

(** The storage of the runtime: that of the consensus pallet, with the balances
    and the block number it shares with the library pallets; that of the
    template pallet; and the rest of the library's, [L]. *)
Record RuntimeState (L : Type) := mkRuntime {
  ghost_state : Pallet.State AccountId;
  template_state : Template.State AccountId;
  library_state : L;
}.
Arguments mkRuntime {L} _ _ _.
Arguments ghost_state {L} _.
Arguments template_state {L} _.
Arguments library_state {L} _.

Definition set_ghost {L} (g : Pallet.State AccountId) (s : RuntimeState L) : RuntimeState L :=
  mkRuntime g (template_state s) (library_state s).
Definition set_template {L} (t : Template.State AccountId) (s : RuntimeState L)
    : RuntimeState L :=
  mkRuntime (ghost_state s) t (library_state s).

Inductive RuntimeCall (C : Type) :=
  | RC_Template (c : Template.Call)
  | RC_GhostConsensus (c : Pallet.Call AccountId)
  | RC_Library (p : PalletName) (c : C).
Arguments RC_Template {C} c.
Arguments RC_GhostConsensus {C} c.
Arguments RC_Library {C} p c.

Definition call_pallet {C} (c : RuntimeCall C) : PalletName :=
  match c with
  | RC_Template _ => TemplatePallet
  | RC_GhostConsensus _ => GhostConsensus
  | RC_Library p _ => p
  end.

(** The pallets of the library: the checks and fees around an extrinsic, the calls
    and the hooks.  [None] is a panic: pallet_aura asserts in its [on_initialize]
    that the slot has advanced, pallet_timestamp in its call that the time is set
    once and in its [on_finalize] that it was set at all. *)
Class Library := {
  LibState : Type;
  LibCall : Type;
  Extrinsic : Type;
  TxError : Type;
  xt_call : Extrinsic → RuntimeCall LibCall;
  (** signature check, [TxExtension] and fees: the origin of the call, or the
      error of an extrinsic that is not valid *)
  pre_dispatch : Extrinsic → RuntimeState LibState →
                 TxError + (OriginFor * RuntimeState LibState);
  post_dispatch : Extrinsic → RuntimeState LibState → RuntimeState LibState;
  (** a call of a library pallet, reverted if it fails *)
  lib_dispatch : OriginFor → PalletName → LibCall → RuntimeState LibState →
                 option (RuntimeState LibState);
  lib_on_initialize : Z → RuntimeState LibState → option (RuntimeState LibState);
  lib_on_finalize : Z → RuntimeState LibState → option (RuntimeState LibState);
}.

Context `{!Library}.
Implicit Types (s : RuntimeState LibState) (xt : Extrinsic).

(** [RuntimeCall::dispatch]: [None] is a panic, which an error is not. *)
Definition dispatch_call (o : OriginFor) (c : RuntimeCall LibCall) s
    : option (RuntimeState LibState) :=
  match c with
  | RC_Template c =>
      match Template.dispatch o c (template_state s) with
      | (Panicked, _) => None
      | (_, t) => Some (set_template t s)
      end
  | RC_GhostConsensus c =>
      match Pallet.dispatch o c (ghost_state s) with
      | (Panicked, _) => None
      | (_, g) => Some (set_ghost g s)
      end
  | RC_Library p c => lib_dispatch o p c s
  end.

(** The hooks of [AllPalletsWithSystem], in the order of the pallets: the
    consensus pallet is the last, and the template pallet has none. *)
Definition on_initialize_all (n : Z) s : option (RuntimeState LibState) :=
  s ← lib_on_initialize n s;
  match on_initialize n (ghost_state s) with
  | (Ok _, g) => Some (set_ghost g s)
  | _ => None
  end.

Definition on_finalize_all (n : Z) s : option (RuntimeState LibState) :=
  s ← lib_on_finalize n s;
  match on_finalize n (ghost_state s) with
  | (Ok _, g) => Some (set_ghost g s)
  | _ => None
  end.

(** ** The contract of [frame_executive] *)

(** A block sets its number and runs the hooks, then its extrinsics, each checked,
    dispatched and settled, then the hooks again. *)
Definition frame_initialize (n : Z) s : option (RuntimeState LibState) :=
  on_initialize_all n (set_ghost (set_block_number n (ghost_state s)) s).

Definition frame_apply xt s : result TxError (RuntimeState LibState) :=
  match pre_dispatch xt s with
  | inl e => Err e
  | inr (o, s) =>
      match dispatch_call o (xt_call xt) s with
      | Some s => Ok (post_dispatch xt s)
      | None => Panicked
      end
  end.

(** In an executed block an extrinsic that is not valid is a panic. *)
Definition frame_apply_all s (xts : list Extrinsic) : option (RuntimeState LibState) :=
  foldM (λ s xt, match frame_apply xt s with Ok s => Some s | _ => None end) s xts.

Definition frame_block (n : Z) (xts : list Extrinsic) s : option (RuntimeState LibState) :=
  s ← frame_initialize n s;
  s ← frame_apply_all s xts;
  on_finalize_all n s.

(** [frame_executive::Executive] over the pallets of the runtime. *)
Class Executive := {
  Executive_initialize_block : Z → RuntimeState LibState → option (RuntimeState LibState);
  Executive_apply_extrinsic : Extrinsic → RuntimeState LibState →
                              result TxError (RuntimeState LibState);
  Executive_finalize_block : Z → RuntimeState LibState → option (RuntimeState LibState);
  Executive_execute_block : Z → list Extrinsic → RuntimeState LibState →
                            option (RuntimeState LibState);
}.

(** [execute_block] also compares the roots of the header with its result, so it
    can refuse a block that the hooks and extrinsics run through. *)
Class ExecutiveOk `{!Executive} : Prop := {
  initialize_block_contract n s : Executive_initialize_block n s = frame_initialize n s;
  apply_extrinsic_contract xt s : Executive_apply_extrinsic xt s = frame_apply xt s;
  finalize_block_contract n s : Executive_finalize_block n s = on_finalize_all n s;
  execute_block_contract n xts s s' :
    Executive_execute_block n xts s = Some s' → frame_block n xts s = Some s';
}.

(** ** What the library's pallets keep to *)

(** The consensus pallet's state changes in its balances only; the escrow account
    loses nothing and no money is created. *)
Definition only_balances s s' : Prop :=
  ∃ b, ghost_state s' = set_balances b (ghost_state s) ∧
    free_balance account_id (balances (ghost_state s)) ≤ free_balance account_id b ∧
    total_issuance b ≤ total_issuance (balances (ghost_state s)).

Class LibraryOk : Prop := {
  pre_dispatch_balances xt s o s' : pre_dispatch xt s = inr (o, s') → only_balances s s';
  post_dispatch_balances xt s : only_balances s (post_dispatch xt s);
  lib_on_initialize_balances n s s' : lib_on_initialize n s = Some s' → only_balances s s';
  lib_on_finalize_balances n s s' : lib_on_finalize n s = Some s' → only_balances s s';
}.

(** An extrinsic without the powers of the sudo key: it is not signed for the
    escrow account, its arguments are of their types, and a library call changes
    the consensus pallet only by balances or by one of the pallet's own calls (no
    pallet of the runtime batches calls). *)
Definition ordinary xt : Prop :=
  (∀ s o s', pre_dispatch xt s = inr (o, s') → ensure_signed_origin o ≠ Some account_id) ∧
  match xt_call xt with
  | RC_Template _ => True
  | RC_GhostConsensus c => call_wf c
  | RC_Library p c => ∀ o s s', lib_dispatch o p c s = Some s' →
      ghost_state s' = ghost_state s ∨
      ∃ l, in_body l = true ∧ step (ghost_state s) l (ghost_state s')
  end.
End State.

Arguments RuntimeState AccountId {_ _ _} L.
Arguments mkRuntime {AccountId _ _ _ L} _ _ _.
Arguments ghost_state {AccountId _ _ _ L} _.
Arguments template_state {AccountId _ _ _ L} _.
Arguments library_state {AccountId _ _ _ L} _.
Arguments RuntimeCall : clear implicits.
Arguments RC_Template {AccountId C} c.
Arguments RC_GhostConsensus {AccountId C} c.
Arguments RC_Library {AccountId C} p c.

(** ** Refinement *)

Section Refinement.
Context `{!Build, !ScalePrims, !Hashing, !Pqc, !Config}.
Context {AccountId : Type} `{Countable AccountId}.
Context `{!Frame AccountId, !FrameOk AccountId, !Currency AccountId}.
Context `{!Library, !LibraryOk}.
Implicit Types (s : RuntimeState AccountId LibState) (xt : Extrinsic).

Lemma only_balances_step s s' :
  only_balances s s' → step (ghost_state s) Environment (ghost_state s').
Proof. intros (b & -> & ? & ?). by constructor. Qed.

(** The steps of one extrinsic, with at most one accepted unstake. *)
Definition body_steps s (k : Z) s' : Prop :=
  ∃ tr, Forall (λ l, in_body l = true) tr ∧ count is_unstake tr ≤ k ∧
    steps (ghost_state s) tr (ghost_state s').

Lemma body_steps_refl s s' : ghost_state s' = ghost_state s → body_steps s 0 s'.
Proof. unfold body_steps. intros ->. exists []. split_and!; [done|by rewrite count_nil|constructor]. Qed.

Lemma body_steps_one s l s' :
  in_body l = true → step (ghost_state s) l (ghost_state s') → body_steps s 1 s'.
Proof.
  intros Hl Hs. exists [l]. split_and!; [by constructor| |by apply steps_one].
  rewrite count_cons, count_nil. destruct (is_unstake l); lia.
Qed.

Lemma body_steps_environment s s' : only_balances s s' → body_steps s 0 s'.
Proof.
  intros Hs%only_balances_step. exists [Environment].
  split_and!; [by constructor|by rewrite count_cons, count_nil|by apply steps_one].
Qed.

Lemma body_steps_trans s1 k1 s2 k2 s3 :
  body_steps s1 k1 s2 → body_steps s2 k2 s3 → body_steps s1 (k1 + k2) s3.
Proof.
  intros (tr1 & Hb1 & Hk1 & Hs1) (tr2 & Hb2 & Hk2 & Hs2). exists (tr1 ++ tr2).
  split_and!; [by apply Forall_app| |apply steps_app; eauto].
  rewrite count_app. lia.
Qed.

Lemma body_steps_mono s k k' s' : k ≤ k' → body_steps s k s' → body_steps s k' s'.
Proof. intros Hk (tr & ? & ? & ?). exists tr. split_and!; [done|lia|done]. Qed.

Lemma dispatch_call_steps o xt s s' :
  ordinary xt → ensure_signed_origin o ≠ Some account_id →
  dispatch_call o (xt_call xt) s = Some s' → body_steps s 1 s'.
Proof.
  intros [_ Hord] Ho. destruct (xt_call xt) as [c|c|p c]; simpl.
  - destruct (Template.dispatch o c (template_state s)) as [[u|e|] t]; intros [= <-];
      by apply (body_steps_mono _ 0), body_steps_refl.
  - destruct (Pallet.dispatch o c (ghost_state s)) as [[[]|e|] g] eqn:Hd; intros [= <-].
    + apply (body_steps_one _ (Accepted o c)); [done|]. by constructor.
    + apply (body_steps_one _ (Rejected o c)); [done|]. by econstructor.
  - intros Hs'. destruct (Hord o s s' Hs') as [Heq|(l & Hl & Hs)].
    + by apply (body_steps_mono _ 0), body_steps_refl.
    + by apply (body_steps_one _ l).
Qed.

Lemma frame_apply_steps xt s s' :
  ordinary xt → frame_apply xt s = Ok s' → body_steps s 1 s'.
Proof.
  intros Hord. unfold frame_apply. destruct (pre_dispatch xt s) as [e|[o s1]] eqn:Hpre; [done|].
  destruct (dispatch_call o (xt_call xt) s1) as [s2|] eqn:Hd; [|done]. intros [= <-].
  apply (body_steps_mono _ (0 + (1 + 0))); [lia|].
  eapply body_steps_trans; [by eapply body_steps_environment, pre_dispatch_balances|].
  eapply body_steps_trans; [|apply body_steps_environment, post_dispatch_balances].
  eapply dispatch_call_steps; [done| |exact Hd]. by eapply (proj1 Hord).
Qed.

Lemma frame_apply_all_cons s xt xts :
  frame_apply_all s (xt :: xts)
    = match frame_apply xt s with Ok s => frame_apply_all s xts | _ => None end.
Proof. unfold frame_apply_all. simpl. by destruct (frame_apply xt s). Qed.

Lemma frame_apply_all_steps xts s s' :
  Forall ordinary xts → frame_apply_all s xts = Some s' →
  body_steps s (Z.of_nat (length xts)) s'.
Proof.
  intros Hord. revert s. induction Hord as [|xt xts Hxt Hord IH]; intros s.
  - intros [= <-]. by apply body_steps_refl.
  - rewrite frame_apply_all_cons. destruct (frame_apply xt s) as [s1|e|] eqn:Hs1; [|done..].
    intros Hs'. simpl length.
    apply (body_steps_mono _ (1 + Z.of_nat (length xts))); [lia|].
    eapply body_steps_trans; [by eapply frame_apply_steps|by apply IH].
Qed.

(** A block of the runtime is a block of the transition system. *)
Lemma frame_block_steps n xts s s' :
  in_uint U32 n → Forall ordinary xts → frame_block n xts s = Some s' →
  ∃ tr, block_trace n tr ∧ count is_unstake tr ≤ Z.of_nat (length xts) ∧
    steps (ghost_state s) tr (ghost_state s').
Proof.
  intros Hn Hord. unfold frame_block, frame_initialize, on_initialize_all, on_finalize_all.
  set (s1 := set_ghost (set_block_number n (ghost_state s)) s).
  destruct (lib_on_initialize n s1) as [s1'|] eqn:Hli; [|done]. simpl.
  destruct (on_initialize n (ghost_state s1')) as [[w|e|] g] eqn:Hi;
    [|done..]. simpl. set (s2 := set_ghost g _).
  destruct (frame_apply_all s2 xts) as [s3|] eqn:Hx; [|done]. simpl.
  destruct (lib_on_finalize n s3) as [s3'|] eqn:Hlf; [|done]. simpl.
  destruct (on_finalize n (ghost_state s3')) as [[u|e|] g'] eqn:Hf;
    [|done..]. intros [= <-].
  destruct (frame_apply_all_steps _ _ _ Hord Hx) as (body & Hbody & Hk & Hbs).
  exists (NewBlock n :: [Environment] ++ Initialized n :: (body ++ [Environment])
            ++ Finalized n :: []).
  split_and!.
  - apply (block_intro n [Environment] (body ++ [Environment]) []); [by repeat constructor| |done].
    apply Forall_app. split; [exact Hbody|by repeat constructor].
  - simpl. rewrite !count_cons, !count_app, !count_cons, !count_nil. simpl. lia.
  - eapply steps_cons; [by constructor|]. eapply steps_cons.
    { by apply (only_balances_step s1), (lib_on_initialize_balances n). }
    eapply steps_cons; [by econstructor|]. apply steps_app. exists (ghost_state s3').
    split; [|apply steps_one; by econstructor].
    apply steps_app. exists (ghost_state s3). split; [exact Hbs|].
    by apply steps_one, only_balances_step, (lib_on_finalize_balances n).
Qed.

(** ** Absence of panics *)

Lemma template_no_panic o c (t : Template.State AccountId) :
  (Template.dispatch o c t).1 ≠ Panicked.
Proof.
  assert (Hb : no_panic (Template.call_body (AccountId := AccountId) o c)).
  { destruct c; simpl; unfold Template.do_something, Template.cause_error,
      Template.deposit_event; no_panic. }
  specialize (Hb t). unfold Template.dispatch.
  destruct (Template.call_body o c t) as [[u|e|] t'] eqn:He; [| |done].
  - by rewrite (storage_layer_commits _ _ _ _ He).
  - by rewrite (storage_layer_reverts _ _ _ _ He).
Qed.

Lemma dispatch_own_returns o c s :
  overflow_checks = false → is_Some (dispatch_call o (RC_GhostConsensus c) s).
Proof.
  intros Hrel. simpl. pose proof (no_panic_dispatch Hrel o c (ghost_state s)) as Hp.
  by destruct (Pallet.dispatch o c (ghost_state s)) as [[] ?].
Qed.

Lemma dispatch_template_returns o c s : is_Some (dispatch_call o (RC_Template c) s).
Proof.
  simpl. pose proof (template_no_panic o c (template_state s)) as Hp.
  by destruct (Template.dispatch o c (template_state s)) as [[] ?].
Qed.

(** In a release build only the library can panic. *)
Lemma on_initialize_all_panics n s s1 :
  overflow_checks = false → lib_on_initialize n s = Some s1 →
  Z.of_nat (length (RecentBlockProducers (ghost_state s))) < 2 ^ 32 →
  is_Some (on_initialize_all n s).
Proof.
  intros Hrel Hl Hlen. unfold on_initialize_all. rewrite Hl. simpl.
  destruct (lib_on_initialize_balances n s s1 Hl) as (b & Hg & _).
  pose proof (on_initialize_no_panic Hrel n (ghost_state s1)) as Hi.
  rewrite Hg in Hi at 1. specialize (Hi Hlen).
  destruct (on_initialize n (ghost_state s1)) as [[w|e|] g] eqn:E;
    [by eexists|exfalso; eapply no_error_on_initialize; by rewrite E|done].
Qed.
End Refinement.
