(* ===== verification/Apis.v ===== *)
(** * The runtime's version, configuration and APIs

    [VERSION] of runtime/src/lib.rs, the configurations of the library pallets in
    runtime/src/configs/mod.rs, and the functions of runtime/src/apis.rs by which
    the node drives the runtime; what holds of the blocks it imports through them.  What the library computes behind the APIs is the class
    [Queries]. *)

From stdpp Require Import strings.
From S2P Require Import Prelude RustInt Scale Types Interfaces Reference Difficulty Entropy.
From S2P Require Import Pow Selection Rewards Pallet Runtime Calls Slashing Safety Consensus.
From S2P Require Import Hooks Chain Blocks Template Assembly.
Local Open Scope Z_scope.
Local Open Scope ghost_scope.

(** ** Version *)

(** [RuntimeVersion], without the hashes of the APIs. *)
Record RuntimeVersion := {
  spec_name : string;
  impl_name : string;
  authoring_version : Z;
  spec_version : Z;
  impl_version : Z;
  transaction_version : Z;
  state_version : Z;
}.

Definition VERSION : RuntimeVersion :=
  {| spec_name := "ghost-runtime"; impl_name := "ghost-runtime"; authoring_version := 1;
     spec_version := 100; impl_version := 1; transaction_version := 1; state_version := 1 |}.

(** ** Configuration of the library pallets *)

(** [Perbill::from_percent(75)] *)
Definition NORMAL_DISPATCH_RATIO : Z := 75 * 10000000.

(** [frame_system::Config]: the limits it sets, for the library's time per second *)
Record SystemConfig := {
  c_BlockHashCount : Z; (* u32 *)
  c_max_block_weight : Z * Z; (* reference time and proof size *)
  c_max_block_length : Z;
  c_SS58Prefix : Z; (* u8 *)
  c_MaxConsumers : Z;
}.
Definition system_config (WEIGHT_REF_TIME_PER_SECOND : Z) : SystemConfig :=
  {| c_BlockHashCount := 2400;
     c_max_block_weight := (2 * WEIGHT_REF_TIME_PER_SECOND, 2 ^ 64 - 1);
     c_max_block_length := 5 * 1024 * 1024; c_SS58Prefix := 42; c_MaxConsumers := 16 |}.

(** [pallet_timestamp::Config] *)
Definition MinimumPeriod : Z := SLOT_DURATION / 2. (* u64 *)

(** [pallet_aura::Config]; [SlotDuration] is the library's [MinimumPeriodTimesTwo] *)
Record AuraConfig := {
  aura_MaxAuthorities : Z;
  aura_AllowMultipleBlocksPerSlot : bool;
  aura_SlotDuration : Z;
}.
Definition aura_config (MinimumPeriodTimesTwo : Z → Z) : AuraConfig :=
  {| aura_MaxAuthorities := 32; aura_AllowMultipleBlocksPerSlot := false;
     aura_SlotDuration := MinimumPeriodTimesTwo MinimumPeriod |}.

(** [pallet_grandpa::Config] *)
Record GrandpaPalletConfig := {
  grandpa_MaxAuthorities : Z;
  grandpa_MaxNominators : Z;
  grandpa_MaxSetIdSessionEntries : Z;
}.
Definition grandpa_pallet_config : GrandpaPalletConfig :=
  {| grandpa_MaxAuthorities := 32; grandpa_MaxNominators := 0;
     grandpa_MaxSetIdSessionEntries := 0 |}.

(** [pallet_balances::Config] *)
Record BalancesConfig := {
  balances_MaxLocks : Z;
  balances_ExistentialDeposit : Z;
}.
Definition balances_config : BalancesConfig :=
  {| balances_MaxLocks := 50; balances_ExistentialDeposit := EXISTENTIAL_DEPOSIT |}.

(** [pallet_transaction_payment::Config]; both fees are the identity *)
Record PaymentConfig := {
  payment_OperationalFeeMultiplier : Z; (* u8 *)
  payment_WeightToFee : Z → Z;
  payment_LengthToFee : Z → Z;
}.
Definition payment_config (IdentityFee : Z → Z) : PaymentConfig :=
  {| payment_OperationalFeeMultiplier := 5; payment_WeightToFee := IdentityFee;
     payment_LengthToFee := IdentityFee |}.

(** ** APIs *)

(** What the library answers to the queries of the APIs. *)
Class Queries (S AccountId AuraId GrandpaId C X : Type) := {
  InherentData : Type;
  CheckInherentsResult : Type;
  TransactionValidity : Type;
  RuntimeDispatchInfo : Type;
  FeeDetails : Type;
  OpaqueMetadata : Type;
  create_extrinsics : InherentData → S → list X;
  check_extrinsics : InherentData → list X → S → CheckInherentsResult;
  Executive_validate_transaction : X → H256 → S → TransactionValidity;
  Runtime_metadata : OpaqueMetadata;
  Runtime_metadata_at_version : Z → option OpaqueMetadata;
  Runtime_metadata_versions : list Z;
  Aura_slot_duration : Z → S → Z;
  Aura_authorities : S → list AuraId;
  Grandpa_authorities : S → list (GrandpaId * Z);
  Grandpa_current_set_id : S → Z;
  SessionKeys_generate : option (list Byte.byte) → list Byte.byte;
  SessionKeys_decode : list Byte.byte → option (list (list Byte.byte * Z));
  System_account_nonce : AccountId → S → Z;
  Payment_query_info : X → Z → S → RuntimeDispatchInfo;
  Payment_query_fee_details : X → Z → S → FeeDetails;
  Payment_query_call_info : C → Z → S → RuntimeDispatchInfo;
  Payment_query_call_fee_details : C → Z → S → FeeDetails;
  Payment_weight_to_fee : Z * Z → S → Z;
  Payment_length_to_fee : Z → S → Z;
  (** the helpers around the presets: from its JSON a preset becomes bytes *)
  helper_get_preset : (string → option GenesisConfig) → option string →
                      option (list Byte.byte);
}.

Section Apis.
Context `{!Build, !ScalePrims, !Hashing, !Pqc, !Config}.
Context {AccountId : Type} `{Countable AccountId}.
Context `{!Frame AccountId, !Currency AccountId, !Library, !Executive}.
Context {AuraId GrandpaId : Type}.
Context `{!Queries (RuntimeState AccountId LibState) AccountId AuraId GrandpaId
            (RuntimeCall AccountId LibCall) Extrinsic}.
Context (MinimumPeriodTimesTwo : Z → Z).
Implicit Types (s : RuntimeState AccountId LibState) (xt : Extrinsic).

(** A block, of whose header the number is kept. *)
Record Block := { b_number : Z (* u32 *); b_extrinsics : list Extrinsic }.

(** *** [sp_api::Core] *)
Definition Core_version : RuntimeVersion := VERSION.
Definition Core_execute_block (block : Block) s : option (RuntimeState AccountId LibState) :=
  Executive_execute_block (b_number block) (b_extrinsics block) s.
Definition Core_initialize_block (number : Z) s : option (RuntimeState AccountId LibState) :=
  Executive_initialize_block number s.

(** *** [sp_api::Metadata] *)
Definition Metadata_metadata : OpaqueMetadata := Runtime_metadata.
Definition Metadata_metadata_at_version (version : Z) : option OpaqueMetadata :=
  Runtime_metadata_at_version version.
Definition Metadata_metadata_versions : list Z := Runtime_metadata_versions.

(** *** [sp_block_builder::BlockBuilder] *)
Definition BlockBuilder_apply_extrinsic xt s
    : result TxError (RuntimeState AccountId LibState) := Executive_apply_extrinsic xt s.
Definition BlockBuilder_finalize_block (number : Z) s
    : option (RuntimeState AccountId LibState) := Executive_finalize_block number s.
Definition BlockBuilder_inherent_extrinsics (data : InherentData) s : list Extrinsic :=
  create_extrinsics data s.
Definition BlockBuilder_check_inherents (block : Block) (data : InherentData) s
    : CheckInherentsResult := check_extrinsics data (b_extrinsics block) s.

(** *** [TaggedTransactionQueue] *)
Definition validate_transaction xt (block_hash : H256) s : TransactionValidity :=
  Executive_validate_transaction xt block_hash s.

(** *** [sp_consensus_aura::AuraApi] *)
Definition AuraApi_slot_duration s : Z :=
  Aura_slot_duration (aura_SlotDuration (aura_config MinimumPeriodTimesTwo)) s.
Definition AuraApi_authorities s : list AuraId := Aura_authorities s.

(** *** [sp_session::SessionKeys] *)
Definition generate_session_keys (seed : option (list Byte.byte)) : list Byte.byte :=
  SessionKeys_generate seed.
Definition decode_session_keys (encoded : list Byte.byte)
    : option (list (list Byte.byte * Z)) := SessionKeys_decode encoded.

(** *** [sp_consensus_grandpa::GrandpaApi] *)
Definition GrandpaApi_grandpa_authorities s : list (GrandpaId * Z) := Grandpa_authorities s.
Definition GrandpaApi_current_set_id s : Z := Grandpa_current_set_id s.
(** Equivocations are not reported: both functions answer [None]. *)
Definition submit_report_equivocation_unsigned_extrinsic {Proof OwnerProof : Type}
    (_equivocation_proof : Proof) (_key_owner_proof : OwnerProof) : option unit := None.
Definition generate_key_ownership_proof {OwnerProof : Type} (_set_id : Z)
    (_authority_id : GrandpaId) : option OwnerProof := None.

(** *** [AccountNonceApi] *)
Definition account_nonce (account : AccountId) s : Z := System_account_nonce account s.

(** *** [TransactionPaymentApi] and [TransactionPaymentCallApi] *)
Definition query_info (uxt : Extrinsic) (len : Z) s : RuntimeDispatchInfo :=
  Payment_query_info uxt len s.
Definition query_fee_details (uxt : Extrinsic) (len : Z) s : FeeDetails :=
  Payment_query_fee_details uxt len s.
Definition query_call_info (call : RuntimeCall AccountId LibCall) (len : Z) s : RuntimeDispatchInfo :=
  Payment_query_call_info call len s.
Definition query_call_fee_details (call : RuntimeCall AccountId LibCall) (len : Z) s : FeeDetails :=
  Payment_query_call_fee_details call len s.
Definition query_weight_to_fee (weight : Z * Z) s : Z := Payment_weight_to_fee weight s.
Definition query_length_to_fee (length : Z) s : Z := Payment_length_to_fee length s.

(** *** [sp_genesis_builder::GenesisBuilder] *)
Definition GenesisBuilder_get_preset (id : option string) : option (list Byte.byte) :=
  helper_get_preset get_preset id.
Definition GenesisBuilder_preset_names : list string := preset_names.

(** ** Chains of blocks *)

(** What the theorems speak of: blocks that a node imports one after the other by
    [Core], and their numbers. *)
Fixpoint import_blocks (blocks : list Block) s : option (RuntimeState AccountId LibState) :=
  match blocks with
  | [] => Some s
  | block :: blocks => s ← Core_execute_block block s; import_blocks blocks s
  end.

(** The blocks carry the numbers after [n]. *)
Fixpoint numbered (n : Z) (blocks : list Block) : Prop :=
  match blocks with
  | [] => True
  | block :: blocks => b_number block = n + 1 ∧ numbered (n + 1) blocks
  end.

(** ** Lemmas *)

Context `{!FrameOk AccountId, !LibraryOk, !ExecutiveOk}.

Lemma import_blocks_steps n blocks s s' :
  0 ≤ n → n + Z.of_nat (length blocks) < 2 ^ 32 → numbered n blocks →
  Forall (Forall ordinary) (b_extrinsics <$> blocks) → import_blocks blocks s = Some s' →
  ∃ tr, chain_trace n tr (n + Z.of_nat (length blocks)) ∧
    count is_unstake tr ≤ Z.of_nat (length (mjoin (b_extrinsics <$> blocks))) ∧
    steps (ghost_state s) tr (ghost_state s').
Proof.
  revert n s. induction blocks as [|block blocks IH]; intros n s Hn Hmax Hnum Hord; simpl in *.
  - intros [= <-]. exists []. rewrite Z.add_0_r, count_nil. split_and!; [constructor|lia|constructor].
  - change (list_fmap _ _ b_extrinsics blocks) with (b_extrinsics <$> blocks) in *.
    destruct Hnum as [Hb Hnum]. apply Forall_cons in Hord as [Hxts Hord].
    unfold Core_execute_block. rewrite Hb.
    destruct (Executive_execute_block _ _ s) as [s1|] eqn:Hx; [|done]. simpl. intros Hs'.
    apply execute_block_contract in Hx.
    apply frame_block_steps in Hx as (tr1 & Ht1 & Hk1 & Hs1); [|unfold in_uint; lia|done].
    apply IH with (n := n + 1) in Hs' as (tr2 & Ht2 & Hk2 & Hs2); [|lia|lia|done|done].
    exists (tr1 ++ tr2). rewrite count_app, length_app. split_and!; [|lia|apply steps_app; eauto].
    replace (n + Z.of_nat (S (length blocks))) with (n + 1 + Z.of_nat (length blocks)) by lia.
    by constructor.
Qed.

Context `{!CurrencyOk AccountId, !CurrencyBooks AccountId, !ConfigOk}.

Lemma issuance_of_blocks n blocks s s' :
  0 ≤ n → n + Z.of_nat (length blocks) < 2 ^ 32 → numbered n blocks →
  Forall (Forall ordinary) (b_extrinsics <$> blocks) →
  state_wf (ghost_state s) → CurrentPhase (ghost_state s) ≠ Finalization →
  shortfall (ghost_state s) ≤ 0 →
  total_issuance (balances (ghost_state s)) + T_BlockReward * Z.of_nat (length blocks)
    + Z.max 0 (existential_deposit - 1)
      * Z.of_nat (length (mjoin (b_extrinsics <$> blocks))) < 2 ^ 128 →
  import_blocks blocks s = Some s' →
  total_issuance (balances (ghost_state s')) ≤
    total_issuance (balances (ghost_state s)) + T_BlockReward * Z.of_nat (length blocks).
Proof.
  intros Hn Hmax Hnum Hord Hwf Hne Hsh Hu Hrun.
  destruct (import_blocks_steps _ _ _ _ Hn Hmax Hnum Hord Hrun) as (tr & Htr & Hk & Hs).
  pose proof (steps_phase _ _ _ Hs) as Hp. destruct T_BlockReward_range as [? _].
  destruct (chain_rounds _ _ _ _ _ Htr Hp Hne) as (_ & _ & Hv & _).
  etransitivity; [apply (bounded_issuance 0 _ _ _ Hwf Hsh Hs); nia|nia].
Qed.
End Apis.

(** ** Properties *)

Section Properties.
Context `{!Build, !ScalePrims, !Hashing, !Pqc, !Config, !ConfigOk}.
Context {AccountId : Type} `{Countable AccountId}.
Context `{!Frame AccountId, !FrameOk AccountId, !Currency AccountId, !CurrencyOk AccountId}.
Context `{!Library, !LibraryOk, !Executive, !ExecutiveOk}.
Implicit Types (s : RuntimeState AccountId LibState) (blocks : list Block).

(** C4. The runtime refines the transition system of the consensus: importing any
    blocks of ordinary extrinsics is a run of it, made of one block trace per
    block under consecutive numbers, in which every extrinsic accounts for at
    most one call of the consensus pallet; the type invariant of the storage and
    the phase machine carry over to whole blocks. *)
Theorem runtime_refines_chain n blocks s s' :
  0 ≤ n → n + Z.of_nat (length blocks) < 2 ^ 32 → numbered n blocks →
  Forall (Forall ordinary) (b_extrinsics <$> blocks) → import_blocks blocks s = Some s' →
  (∃ tr, chain_trace n tr (n + Z.of_nat (length blocks)) ∧
    count is_unstake tr ≤ Z.of_nat (length (mjoin (b_extrinsics <$> blocks))) ∧
    steps (ghost_state s) tr (ghost_state s')) ∧
  (state_wf (ghost_state s) → state_wf (ghost_state s')) ∧
  (CurrentPhase (ghost_state s) ≠ Finalization → CurrentPhase (ghost_state s') ≠ Finalization).
Proof.
  intros Hn Hmax Hnum Hord Hrun.
  destruct (import_blocks_steps _ _ _ _ Hn Hmax Hnum Hord Hrun) as (tr & Htr & Hk & Hs).
  split_and!; [by exists tr| |].
  - intros Hwf. eapply steps_invariant; [apply step_wf|exact Hwf|exact Hs].
  - intros Hne. apply steps_phase in Hs.
    by destruct (chain_rounds _ _ _ _ _ Htr Hs Hne) as (_ & _ & _ & ?).
Qed.

(** C11. The issuance of the runtime: importing [k] blocks creates at most [k] block
    rewards, in every build and for every existential deposit, as long as these
    amounts and the dust that the extrinsics can lose fit in a [u128]. *)
Theorem runtime_issuance_schedule `{!CurrencyBooks AccountId} n blocks s s' :
  0 ≤ n → n + Z.of_nat (length blocks) < 2 ^ 32 → numbered n blocks →
  Forall (Forall ordinary) (b_extrinsics <$> blocks) →
  state_wf (ghost_state s) → CurrentPhase (ghost_state s) ≠ Finalization →
  shortfall (ghost_state s) ≤ 0 →
  total_issuance (balances (ghost_state s)) + T_BlockReward * Z.of_nat (length blocks)
    + Z.max 0 (existential_deposit - 1)
      * Z.of_nat (length (mjoin (b_extrinsics <$> blocks))) < 2 ^ 128 →
  import_blocks blocks s = Some s' →
  total_issuance (balances (ghost_state s')) ≤
    total_issuance (balances (ghost_state s)) + T_BlockReward * Z.of_nat (length blocks).
Proof. apply issuance_of_blocks. Qed.
(** The chain of a genesis preset: whatever blocks of ordinary extrinsics are
    imported on the genesis storage, the consensus never gets a header, its phase
    stays mining, and no money is ever created on top of the genesis balances, in
    any build and for any existential deposit. *)
Theorem genesis_blocks_pay_nothing (b : Balances) blocks s s' :
  ghost_state s = genesis_state b →
  Z.of_nat (length blocks) < 2 ^ 32 → numbered 0 blocks →
  Forall (Forall ordinary) (b_extrinsics <$> blocks) → import_blocks blocks s = Some s' →
  BlockHeaders (ghost_state s') = ∅ ∧ CurrentPhase (ghost_state s') = PowMining ∧
  total_issuance (balances (ghost_state s')) ≤ total_issuance b.
Proof.
  intros Hg Hmax Hnum Hord Hrun.
  destruct (import_blocks_steps 0 blocks s s' ltac:(lia) ltac:(lia) Hnum Hord Hrun) as (tr & _ & _ & Hs).
  rewrite Hg in Hs. assert (Hhl : headless (genesis_state b)) by done.
  destruct (steps_headless _ _ _ Hhl Hs) as ([Hh Hp] & _ & _).
  split_and!; [exact Hh|exact Hp|].
  exact (headless_issuance (genesis_state b) tr _ (genesis_wf b) Hhl Hs).
Qed.
End Properties.

(** A day of the configured runtime. *)
Section Day.
#[local] Existing Instance runtime_config.
#[local] Existing Instance runtime_config_ok.
Context `{!Build, !ScalePrims, !Hashing, !Pqc}.
Context {AccountId : Type} `{Countable AccountId}.
Context `{!Frame AccountId, !FrameOk AccountId, !Currency AccountId, !CurrencyOk AccountId}.
Context `{!CurrencyBooks AccountId, !Library, !LibraryOk, !Executive, !ExecutiveOk}.

(** A day of blocks creates at most 172800 tokens, with the runtime's block time,
    block reward and existential deposit. *)
Theorem daily_issuance n blocks (s s' : RuntimeState AccountId LibState) :
  existential_deposit = EXISTENTIAL_DEPOSIT →
  Z.of_nat (length blocks) = DAYS → 0 ≤ n → n + DAYS < 2 ^ 32 → numbered n blocks →
  Forall (Forall ordinary) (b_extrinsics <$> blocks) →
  Z.of_nat (length (mjoin (b_extrinsics <$> blocks))) ≤ 2 ^ 64 →
  state_wf (ghost_state s) → CurrentPhase (ghost_state s) ≠ Finalization →
  shortfall (ghost_state s) ≤ 0 →
  total_issuance (balances (ghost_state s)) ≤ 2 ^ 127 →
  import_blocks blocks s = Some s' →
  total_issuance (balances (ghost_state s')) ≤
    total_issuance (balances (ghost_state s)) + 172800 * UNIT.
Proof.
  intros Hed Hl Hn Hmax Hnum Hord Hx Hwf Hne Hsh Hi Hrun. change DAYS with 17280 in *.
  etransitivity; [eapply (issuance_of_blocks n blocks); try done; [by rewrite Hl| ]|];
    rewrite Hl; change T_BlockReward with 10000000000000.
  - rewrite Hed. change EXISTENTIAL_DEPOSIT with 1000000000. lia.
  - change UNIT with 1000000000000. lia.
Qed.
End Day.

(** The configuration fits together: Aura's slots have the block time that the
    constants promise and the comments name, an author has two seconds of it, the
    window of block hashes is the library's constant, both fee conversions agree,
    and every genesis preset fits the bounds of Aura and GRANDPA. *)
Theorem configuration_consistent (IdentityFee : Z → Z) (time_per_second : Z) :
  aura_SlotDuration (aura_config (λ p, saturating_mul U64 p 2)) = MILLI_SECS_PER_BLOCK ∧
  MINUTES * MILLI_SECS_PER_BLOCK = 60 * 1000 ∧
  c_BlockHashCount (system_config time_per_second) = BLOCK_HASH_COUNT ∧
  (0 < time_per_second →
   (c_max_block_weight (system_config time_per_second)).1 * 1000
     < MILLI_SECS_PER_BLOCK * time_per_second) ∧
  (∀ x, payment_WeightToFee (payment_config IdentityFee) x =
        payment_LengthToFee (payment_config IdentityFee) x) ∧
  Forall (λ id, match get_preset id with
    | Some g =>
        Z.of_nat (length (g_aura_authorities g))
          ≤ aura_MaxAuthorities (aura_config (λ p, saturating_mul U64 p 2)) ∧
        Z.of_nat (length (g_grandpa_authorities g))
          ≤ grandpa_MaxAuthorities grandpa_pallet_config ∧
        Forall (λ ab, balances_ExistentialDeposit balances_config ≤ ab.2) (g_balances g)
    | None => False
    end) GenesisBuilder_preset_names.
Proof.
  split_and!; try by vm_compute.
  - intros Ht. simpl. change MILLI_SECS_PER_BLOCK with 5000. lia.
  - assert (Hall : ∀ ias l root, Forall (λ ab, balances_ExistentialDeposit balances_config ≤ ab.2)
      (g_balances (testnet_genesis ias l root))).
    { intros ias l root. apply Forall_fmap, Forall_forall. intros a _. by vm_compute. }
    unfold GenesisBuilder_preset_names, preset_names. rewrite !Forall_cons, Forall_nil.
    change (get_preset "dev") with (Some development_config_genesis).
    change (get_preset "local_testnet") with (Some local_config_genesis). cbv beta iota.
    split_and!; try apply Hall; try done; by vm_compute.
Qed.

(** ** Evaluation *)

#[local] Existing Instance release_build.
#[local] Existing Instance runtime_config.
#[local] Existing Instance runtime_config_ok.
#[local] Instance milli_currency : Currency AccountId := sum_currency EXISTENTIAL_DEPOSIT.
#[local] Instance milli_currency_ok : CurrencyOk AccountId :=
  sum_currency_ok EXISTENTIAL_DEPOSIT ltac:(by vm_compute).
#[local] Instance milli_currency_books : CurrencyBooks AccountId :=
  sum_currency_books EXISTENTIAL_DEPOSIT.

(** A library with one call, a transfer, and extrinsics signed by a positive
    account, without fees. *)
Definition sample_transfer (o : option AccountId) (to value : Z)
    (s : RuntimeState AccountId unit) : RuntimeState AccountId unit :=
  match o with
  | Some from =>
      if decide (from = account_id ∨ to = account_id) then s
      else match transfer from to value KeepAlive (balances (ghost_state s)) with
           | inl _ => s
           | inr b => set_ghost (set_balances b (ghost_state s)) s
           end
  | None => s
  end.

#[local] Instance sample_library : Library (AccountId := AccountId) :=
  {| LibState := unit; LibCall := Z * Z;
     Extrinsic := AccountId * RuntimeCall AccountId (Z * Z); TxError := unit; xt_call := snd;
     pre_dispatch xt s := if decide (0 < xt.1) then inr (Some xt.1, s) else inl tt;
     post_dispatch _ s := s; lib_dispatch o _ c s := Some (sample_transfer o c.1 c.2 s);
     lib_on_initialize _ s := Some s; lib_on_finalize _ s := Some s |}.

#[local] Instance sample_executive : Executive :=
  {| Executive_initialize_block := frame_initialize; Executive_apply_extrinsic := frame_apply;
     Executive_finalize_block := on_finalize_all; Executive_execute_block := frame_block |}.
#[local] Instance sample_executive_ok : ExecutiveOk.
Proof. by split. Qed.

Lemma only_balances_refl (s : RuntimeState AccountId LibState) : only_balances s s.
Proof.
  exists (balances (ghost_state s)). split; [|done]. generalize (ghost_state s). by intros [].
Qed.

#[local] Instance sample_library_ok : LibraryOk.
Proof.
  split; simpl; intros; [case_decide|..]; simplify_eq; apply only_balances_refl.
Qed.

Lemma signer_ordinary a (c : RuntimeCall AccountId (Z * Z)) s o s' :
  a ≠ 112 → pre_dispatch ((a, c) : Extrinsic) s = inr (o, s') →
  ensure_signed_origin o ≠ Some account_id.
Proof.
  intros Hne. simpl. case_decide; [|done]. intros [= <- _] [= Heq]. by apply Hne.
Qed.

Lemma ordinary_own a (c : Pallet.Call AccountId) :
  a ≠ 112 → call_wf c → ordinary ((a, RC_GhostConsensus c) : Extrinsic).
Proof. intros Ha Hc. split; [intros s o s'; by apply signer_ordinary|exact Hc]. Qed.

Lemma ordinary_transfer a to value :
  a ≠ 112 → ordinary ((a, RC_Library BalancesPallet (to, value)) : Extrinsic).
Proof.
  intros Ha. split; [intros s o s'; by apply signer_ordinary|].
  intros o s s' [= <-]. unfold sample_transfer. destruct o as [from|]; [|by left].
  case_decide as Hd; [by left|]. destruct (transfer _ _ _ _ _) as [|b] eqn:Ht; [by left|].
  right. exists Environment. split; [done|]. constructor.
  - rewrite (transfer_other _ _ _ _ _ _ account_id Ht); [done|..]; intros <-; tauto.
  - by eapply transfer_issuance.
Qed.

(** Two blocks: a round of the consensus with a failing template call, then a
    transfer and a failing call. *)
Definition block1 : Block :=
  {| b_number := 1; b_extrinsics :=
       [(1, RC_GhostConsensus (Call_submit_block header1));
        (2, RC_GhostConsensus (Call_validate_block 1 PqcSignature_default));
        (3, RC_Template Template.Call_cause_error)] |}.
Definition block2 : Block :=
  {| b_number := 2; b_extrinsics :=
       [(1, RC_Library BalancesPallet (3, 2 * MILLI_UNIT));
        (3, RC_GhostConsensus (Call_unstake 1))] |}.

Lemma sample_ordinary : Forall (Forall ordinary) (b_extrinsics <$> [block1; block2]).
Proof.
  change (b_extrinsics <$> [block1; block2]) with [b_extrinsics block1; b_extrinsics block2].
  unfold block1, block2. cbn [b_extrinsics]. rewrite !Forall_cons, !Forall_nil. split_and!; try done.
  - apply ordinary_own; [done|split; by vm_compute].
  - apply ordinary_own; [done|by vm_compute].
  - split; [intros s o s'; by apply signer_ordinary|done].
  - by apply ordinary_transfer.
  - apply ordinary_own; [done|by vm_compute].
Qed.

Definition sample_ledger : Balances :=
  <[1 := 3 * UNIT]> (<[2 := 3 * UNIT]> (<[112 := UNIT]> ∅)).
Definition sample_start : RuntimeState AccountId LibState :=
  mkRuntime
    (set_Difficulty (2 ^ 63)
      (set_BlockHeaders {[0 := header0]}
        (set_ValidatorStakes {[2 := UNIT]} (genesis_state sample_ledger))))
    (Template.mkState None []) tt.
Definition sample_end : RuntimeState AccountId LibState :=
  default sample_start (import_blocks [block1; block2] sample_start).

Lemma sample_run : import_blocks [block1; block2] sample_start = Some sample_end.
Proof. apply some_default. by vm_compute. Defined.

Lemma sample_start_wf : state_wf (ghost_state sample_start).
Proof.
  split; cbn.
  - by vm_compute.
  - intros n h [<- <-]%lookup_singleton_Some. split; [done|split; by vm_compute].
  - intros n [? ?%lookup_empty_Some]. done.
  - intros v st Hst. apply (lookup_singleton_Some 2 v UNIT st) in Hst as [<- <-]. by vm_compute.
  - apply map_Forall_empty.
  - lia.
  - by vm_compute.
  - by vm_compute.
Qed.

(** The round is made, and the transfer too. *)
Example sample_end_state :
  CurrentPhase (ghost_state sample_end) = PowMining ∧
  Pallet.block_number (ghost_state sample_end) = 2 ∧
  length (Pallet.events (ghost_state sample_end)) = 3%nat ∧
  free_balance 3 (balances (ghost_state sample_end)) = 2 * MILLI_UNIT.
Proof. split_and!; by vm_compute. Qed.

Lemma runtime_refines_chain_witness : state_wf (ghost_state sample_end).
Proof.
  apply (runtime_refines_chain 0 [block1; block2] sample_start sample_end);
    [done|by vm_compute|done|exact sample_ordinary|exact sample_run|exact sample_start_wf].
Defined.

Lemma runtime_issuance_schedule_witness :
  total_issuance (balances (ghost_state sample_end)) ≤
    total_issuance (balances (ghost_state sample_start)) + T_BlockReward * 2.
Proof.
  apply (runtime_issuance_schedule 0 [block1; block2] sample_start sample_end);
    [done|by vm_compute|done|exact sample_ordinary|exact sample_start_wf|done|by vm_compute
    |by vm_compute|exact sample_run].
Defined.

(** Genesis, a stake and a submission in vain. *)
Definition genesis_start : RuntimeState AccountId LibState :=
  mkRuntime (genesis_state sample_ledger) (Template.mkState None []) tt.
Definition genesis_block1 : Block :=
  {| b_number := 1; b_extrinsics :=
       [(2, RC_GhostConsensus (Call_stake UNIT)); (1, RC_GhostConsensus (Call_submit_block header1))] |}.
Definition genesis_end : RuntimeState AccountId LibState :=
  default genesis_start (import_blocks [genesis_block1] genesis_start).

Lemma genesis_ordinary : Forall (Forall ordinary) (b_extrinsics <$> [genesis_block1]).
Proof.
  change (b_extrinsics <$> [genesis_block1]) with [b_extrinsics genesis_block1].
  unfold genesis_block1. cbn [b_extrinsics]. rewrite !Forall_cons, !Forall_nil. split_and!; try done.
  - apply ordinary_own; [done|by vm_compute].
  - apply ordinary_own; [done|split; by vm_compute].
Qed.

Lemma genesis_blocks_pay_nothing_witness :
  BlockHeaders (ghost_state genesis_end) = ∅ ∧ CurrentPhase (ghost_state genesis_end) = PowMining ∧
  total_issuance (balances (ghost_state genesis_end)) ≤ total_issuance sample_ledger.
Proof.
  apply (genesis_blocks_pay_nothing sample_ledger [genesis_block1] genesis_start genesis_end);
    [done|by vm_compute|done|exact genesis_ordinary|].
  apply some_default. by vm_compute.
Defined.
