(* ===== verification/Authors.v ===== *)
(** * Progress of the runtime

    Progress.v lifted to the assembled runtime: through the runtime APIs block after
    block can be filled with a round of the consensus, next to the inherents that
    the library's pallets ask for and under its fees, and a node that imports the
    blocks ends in the same state.  The library's hooks and calls may panic;
    [punctual] says when they do not. *)

From S2P Require Import Prelude RustInt Scale Types Interfaces Reference Difficulty Entropy.
From S2P Require Import Pow Selection Rewards Pallet Runtime Calls Slashing Safety Consensus.
From S2P Require Import Hooks Chain Blocks Progress Template Assembly Apis.
Local Open Scope Z_scope.
Local Open Scope ghost_scope.

Section Authors.
Context `{!Build, !ScalePrims, !Hashing, !Pqc, !Config}.
Context {AccountId : Type} `{Countable AccountId}.
Context `{!Frame AccountId, !FrameOk AccountId, !Currency AccountId}.
Context `{!Library, !LibraryOk, !Executive, !ExecutiveOk}.
Implicit Types (s : RuntimeState AccountId LibState) (xt : Extrinsic).

(** ** Balances between the calls *)

Lemma only_balances_same s s' : ghost_state s' = ghost_state s → only_balances s s'.
Proof.
  intros Heq. exists (balances (ghost_state s)). rewrite Heq. split; [|done].
  by destruct (ghost_state s).
Qed.

#[export] Instance only_balances_preorder : PreOrder (only_balances (AccountId := AccountId)).
Proof.
  split.
  - intros s. by apply only_balances_same.
  - intros s1 s2 s3 (b2 & Hb2 & ? & ?) (b3 & Hb3 & Hf & Hi). exists b3.
    rewrite Hb3, Hb2. rewrite Hb2 in Hf, Hi. simpl in *. split_and!; [done|lia|lia].
Qed.

Lemma only_balances_ghost s s' :
  only_balances s s' → ∃ b, ghost_state s' = set_balances b (ghost_state s).
Proof. intros (b & ? & _). by exists b. Qed.

(** ** Building a block *)

(** The calls of the block-builder API that make a block: it is initialized, takes
    extrinsics, each of which has to be valid, and is finalized. *)
Fixpoint apply_extrinsics (xts : list Extrinsic) s : option (RuntimeState AccountId LibState) :=
  match xts with
  | [] => Some s
  | xt :: xts =>
      match BlockBuilder_apply_extrinsic xt s with
      | Ok s => apply_extrinsics xts s
      | _ => None
      end
  end.

Definition open_block (n : Z) (xts : list Extrinsic) s : option (RuntimeState AccountId LibState) :=
  s ← Core_initialize_block n s; apply_extrinsics xts s.

Definition build_block (n : Z) (xts : list Extrinsic) s : option (RuntimeState AccountId LibState) :=
  s ← open_block n xts s; BlockBuilder_finalize_block n s.

Lemma apply_extrinsics_app xts1 xts2 s :
  apply_extrinsics (xts1 ++ xts2) s = (s ← apply_extrinsics xts1 s; apply_extrinsics xts2 s).
Proof.
  revert s. induction xts1 as [|xt xts1 IH]; intros s; simpl; [done|].
  by destruct (BlockBuilder_apply_extrinsic xt s).
Qed.

Lemma apply_extrinsics_frame xts s : apply_extrinsics xts s = frame_apply_all s xts.
Proof.
  revert s. induction xts as [|xt xts IH]; intros s; [done|].
  rewrite frame_apply_all_cons. simpl. unfold BlockBuilder_apply_extrinsic.
  rewrite apply_extrinsic_contract. by destruct (frame_apply xt s).
Qed.

(** A block that is built is one that the executive's contract describes. *)
Lemma build_block_frame n xts s : build_block n xts s = frame_block n xts s.
Proof.
  unfold build_block, open_block, frame_block, Core_initialize_block, BlockBuilder_finalize_block.
  rewrite initialize_block_contract. destruct (frame_initialize n s) as [s1|]; [|done]. simpl.
  rewrite apply_extrinsics_frame. destruct (frame_apply_all s1 xts) as [s2|]; [|done]. simpl.
  apply finalize_block_contract.
Qed.

(** A valid extrinsic whose consensus call succeeds. *)
Lemma frame_apply_own xt c o s s1 g :
  xt_call xt = RC_GhostConsensus c → pre_dispatch xt s = inr (o, s1) →
  Pallet.dispatch o c (ghost_state s1) = (Ok tt, g) →
  ∃ s2 b, frame_apply xt s = Ok s2 ∧ ghost_state s2 = set_balances b g.
Proof.
  intros Hxt Hpre Hd. unfold frame_apply. rewrite Hpre, Hxt. simpl. rewrite Hd.
  destruct (only_balances_ghost _ _ (post_dispatch_balances xt (set_ghost g s1))) as [b Hb].
  by exists (post_dispatch xt (set_ghost g s1)), b.
Qed.

(** ** Blocks with a round *)

(** Block [n] carries the [inherents], a submission and the validation of its header. *)
Definition round_block (inherents : list Extrinsic) (n : Z) (block : Block) : Prop :=
  ∃ xt xt' h sig,
    xt_call xt = RC_GhostConsensus (Call_submit_block h) ∧ number h = n ∧
    xt_call xt' = RC_GhostConsensus (Call_validate_block n sig) ∧
    block = {| b_number := n; b_extrinsics := inherents ++ [xt; xt'] |}.

(** The blocks up to number [m], each built on the one before. *)
Inductive rounds_built (inherents : Z → list Extrinsic)
    : Z → Z → list Block → RuntimeState AccountId LibState → RuntimeState AccountId LibState → Prop :=
  | built_none n s : rounds_built inherents n n [] s s
  | built_round n m block blocks s s1 s' :
      round_block (inherents (n + 1)) (n + 1) block →
      build_block (n + 1) (b_extrinsics block) s = Some s1 →
      rounds_built inherents (n + 1) m blocks s1 s' →
      rounds_built inherents n m (block :: blocks) s s'.

Lemma rounds_built_numbered inherents n m blocks s s' :
  rounds_built inherents n m blocks s s' →
  m = n + Z.of_nat (length blocks) ∧ numbered n blocks ∧
  ∀ s'', import_blocks blocks s = Some s'' → s'' = s'.
Proof.
  induction 1 as [n s|n m block blocks s s1 s' (xt & xt' & h & sig & _ & _ & _ & ->)
    Hb _ (Hm & Hnum & Himp)]; simpl.
  { split_and!; [lia|done|by intros ? [= ->]]. }
  split_and!; [lia|done|done|]. intros s''. rewrite build_block_frame in Hb.
  unfold Core_execute_block. destruct (Executive_execute_block _ _ s) as [s2|] eqn:Hx; [|done].
  simpl in *. apply execute_block_contract in Hx. assert (s2 = s1) as -> by congruence.
  apply Himp.
Qed.

(** ** The library in time *)

Inductive moment := Between | Opened | Settled.

(** [clock] follows the library's state over a block [n]: [Between] blocks it lets
    the next one open, once [Opened] it accepts the inherents of the block, which
    leave the consensus alone, and once [Settled], the calls of the consensus
    pallet not changing that, it lets the block close. *)
Record punctual (clock : moment → Z → LibState → Prop) (inherents : Z → list Extrinsic) : Prop := {
  pu_open n s : clock Between n (library_state s) →
    ∃ s', lib_on_initialize (n + 1) s = Some s' ∧ clock Opened (n + 1) (library_state s');
  pu_inherents n s : clock Opened n (library_state s) →
    ∃ s', apply_extrinsics (inherents n) s = Some s' ∧ only_balances s s' ∧
      clock Settled n (library_state s');
  pu_call n xt c s s' : clock Settled n (library_state s) → xt_call xt = RC_GhostConsensus c →
    frame_apply xt s = Ok s' → clock Settled n (library_state s');
  pu_close n s : clock Settled n (library_state s) →
    ∃ s', lib_on_finalize n s = Some s' ∧ clock Between n (library_state s');
}.

Context (clock : moment → Z → LibState → Prop) (inherents : Z → list Extrinsic).
Context (Hclock : punctual clock inherents).

Lemma finalize_block_ghost n s :
  clock Settled n (library_state s) →
  ∃ s' b, BlockBuilder_finalize_block n s = Some s' ∧ clock Between n (library_state s') ∧
    ghost_state s' = set_balances b (set_CurrentPhase
      (if decide (CurrentPhase (ghost_state s) = Finalization) then PowMining
       else CurrentPhase (ghost_state s)) (ghost_state s)).
Proof.
  intros Hs. unfold BlockBuilder_finalize_block. rewrite finalize_block_contract.
  unfold on_finalize_all.
  destruct (pu_close _ _ Hclock n s Hs) as (s1 & Hs1 & Hc). rewrite Hs1. simpl.
  destruct (only_balances_ghost _ _ (lib_on_finalize_balances n s s1 Hs1)) as [b Hb].
  rewrite on_finalize_eq, Hb. by eexists _, b.
Qed.

Context `{!ConfigOk, !CurrencyOk AccountId}.
Context (Hrelease : overflow_checks = false) (Hslash : T_DowntimeSlashPercentage < 100).

Lemma open_block_ready n s :
  clock Between n (library_state s) → ready n (ghost_state s) → 0 ≤ n → n + 1 < 2 ^ 32 →
  ∃ s1, open_block (n + 1) (inherents (n + 1)) s = Some s1 ∧
    clock Settled (n + 1) (library_state s1) ∧ ready n (ghost_state s1) ∧
    BlockHeaders (ghost_state s1) = BlockHeaders (ghost_state s).
Proof.
  intros Hs Hr Hn Hmax. unfold open_block, Core_initialize_block.
  rewrite initialize_block_contract. unfold frame_initialize, on_initialize_all.
  set (s0 := set_ghost _ s).
  destruct (pu_open _ _ Hclock n s0 Hs) as (s1 & Hs1 & Hopen). rewrite Hs1. simpl.
  destruct (only_balances_ghost _ _ (lib_on_initialize_balances _ _ _ Hs1)) as [b Hb].
  destruct (ready_initialized Hrelease Hslash n _ (ready_balances n b _ Hr) Hmax Hn)
    as (w & g & Hi & Hr1 & Hsame).
  change (set_block_number (n + 1) (set_balances b (ghost_state s)))
    with (set_balances b (ghost_state s0)) in Hi. rewrite Hb, Hi. simpl. set (s2 := set_ghost g _).
  destruct (pu_inherents _ _ Hclock (n + 1) s2 Hopen) as (s3 & Hp & Hs3 & Hset).
  destruct (only_balances_ghost _ _ Hs3) as [b3 Hg3].
  exists s3. rewrite Hg3. split_and!; [done|done| |done]. by apply ready_balances.
Qed.

(** Whom the library holds able to pay: it lets the call of such an account in. *)
Context (funded : AccountId → RuntimeState AccountId LibState → bool).
Context (Hfunded : ∀ a s c, a ≠ account_id → funded a s = true →
  ∃ xt o s', xt_call xt = RC_GhostConsensus c ∧ pre_dispatch xt s = inr (o, s') ∧
    ensure_signed_origin o = Some a).
Context (floor : Z) (Hpuzzles : puzzles_solvable floor).
Context (miner : AccountId) (Hminer : miner ≠ account_id).

(** What can keep a round out of block [n + 1]: the target is below the [floor], the
    miner cannot pay for the submission, or, once that is in, a staker cannot pay
    for the validation. *)
Definition stalled (n : Z) s : Prop :=
  ∃ s1, open_block (n + 1) (inherents (n + 1)) s = Some s1 ∧
    (easiest_target (ghost_state s1) < floor ∨ funded miner s1 = false ∨
     ∃ xt h s2 v, xt_call xt = RC_GhostConsensus (Call_submit_block h) ∧
       frame_apply xt s1 = Ok s2 ∧ 0 < stake_of v (ghost_state s2) ∧ funded v s2 = false).

(** A funded miner's submission is applied. *)
Lemma ready_submission n s :
  ready n (ghost_state s) → 0 ≤ n → n + 1 < 2 ^ 32 →
  floor ≤ easiest_target (ghost_state s) → funded miner s = true →
  ∃ xt h parent s1 b, xt_call xt = RC_GhostConsensus (Call_submit_block h) ∧
    number h = n + 1 ∧ state_wf (ghost_state s1) ∧
    BlockHeaders (ghost_state s) !! n = Some parent ∧
    parent_hash h = hash_of scale_header parent ∧ frame_apply xt s = Ok s1 ∧
    ghost_state s1 = set_balances b (submitted h miner (ghost_state s)).
Proof.
  intros Hr Hn Hmax Hfl Hf. destruct (rd_tip _ _ Hr) as [parent Hpar].
  pose proof (swf_headers _ (rd_wf _ _ Hr) _ _ Hpar) as [Hnum _].
  destruct (Hpuzzles (child_header (ghost_state s) parent 0)) as (x & Hx & Hpow);
    [split; simpl; [unfold in_uint; lia|done|apply easiest_target_range]|done|].
  destruct (Hfunded miner s (Call_submit_block (child_header (ghost_state s) parent x)) Hminer Hf)
    as (xt & o & s1 & Hxt & Hpre & Ho).
  destruct (only_balances_ghost _ _ (pre_dispatch_balances _ _ _ _ Hpre)) as [b1 Hb1].
  destruct (ready_submits n _ o miner parent x (ready_balances n b1 _ Hr) Ho Hmax Hpar Hx Hpow)
    as (Hwf & Hhn & Hd).
  change (child_header (set_balances b1 (ghost_state s)))
    with (child_header (ghost_state s)) in Hwf, Hhn, Hd. rewrite <-Hb1 in Hd.
  destruct (frame_apply_own _ _ _ _ _ _ Hxt Hpre Hd) as (s2 & b & Ha & Hg).
  exists xt, (child_header (ghost_state s) parent x), parent, s2, b.
  split_and!; try done; [|by rewrite Hg, Hb1].
  rewrite Hg. apply state_wf_balances. eapply (accepted_wf o (Call_submit_block _)); [exact Hwf|exact Hd|].
  rewrite Hb1. apply state_wf_balances, Hr.
Qed.

(** Somebody is selected whose validation, once funded, is applied. *)
Lemma submitted_validation n s h parent b s1 :
  ready n (ghost_state s) → in_uint U32 (n + 1) → number h = n + 1 →
  state_wf (ghost_state s1) →
  BlockHeaders (ghost_state s) !! n = Some parent → parent_hash h = hash_of scale_header parent →
  ghost_state s1 = set_balances b (submitted h miner (ghost_state s)) →
  ∃ v, 0 < stake_of v (ghost_state s1) ∧
    (funded v s1 = true →
     ∃ xt sig s2, xt_call xt = RC_GhostConsensus (Call_validate_block (n + 1) sig) ∧
       frame_apply xt s1 = Ok s2 ∧
       CurrentPhase (ghost_state s2) = Finalization ∧
       round_done n (ghost_state s) (set_CurrentPhase PowMining (ghost_state s2))).
Proof.
  intros Hr Hmax Hnum Hwf Hpar Hph Hg. set (g := submitted h miner (ghost_state s)) in Hg.
  destruct (staked_validates (n + 1) g h miner Hrelease) as (v & sel & sig & Hv & Hval);
    [apply Hr..|done| | |intros u; apply (rd_keys _ _ Hr)|].
  { unfold g. cbn [BlockHeaders submitted]. rewrite Hnum. apply lookup_insert_eq. }
  { unfold g. cbn [BlockProducers submitted]. rewrite Hnum. apply lookup_insert_eq. }
  exists v. split; [by rewrite Hg|]. intros Hf.
  destruct (Hfunded v s1 (Call_validate_block (n + 1) sig)) as (xt & o & s2 & Hxt & Hpre & Ho);
    [|done|].
  { intros ->. pose proof (rd_escrow _ _ Hr) as He. unfold stake_of in *. cbn in Hv. lia. }
  destruct (only_balances_ghost _ _ (pre_dispatch_balances _ _ _ _ Hpre)) as [b1 Hb1].
  destruct (Hval o b1 Ho) as (reward & b2 & Hd).
  assert (Hb1' : ghost_state s2 = set_balances b1 g) by (by rewrite Hb1, Hg).
  rewrite <-Hb1' in Hd. destruct (frame_apply_own _ _ _ _ _ _ Hxt Hpre Hd) as (s3 & b3 & Ha & Hg3).
  exists xt, sig, s3. rewrite Hg3. split_and!; [done|done|done|].
  change (round_done n (ghost_state s) (set_balances b3 (set_CurrentPhase PowMining
    (validated (n + 1) sig v miner sel h reward b2 (submitted h miner (ghost_state s)))))).
  apply round_done_balances.
  apply (round_leaves n _ (ghost_state s) miner v sel parent); try done.
  eapply (accepted_wf o (Call_validate_block _ _)); [exact Hmax|exact Hd|].
  rewrite Hb1. by apply state_wf_balances.
Qed.

(** After block [n] mining is stalled or a block with a round can be built. *)
Lemma ready_block n s :
  clock Between n (library_state s) → ready n (ghost_state s) → 0 ≤ n → n + 1 < 2 ^ 32 →
  stalled n s ∨
  ∃ block s', round_block (inherents (n + 1)) (n + 1) block ∧
    build_block (n + 1) (b_extrinsics block) s = Some s' ∧
    clock Between (n + 1) (library_state s') ∧ round_done n (ghost_state s) (ghost_state s').
Proof.
  intros Hs Hr Hn Hmax.
  destruct (open_block_ready n s Hs Hr Hn Hmax) as (s1 & Ho & Hs1 & Hr1 & Hsame).
  destruct (decide (floor ≤ easiest_target (ghost_state s1))) as [Hfl|]; cycle 1.
  { left. exists s1. split; [done|]. left. lia. }
  destruct (funded miner s1) eqn:Hf; cycle 1.
  { left. exists s1. split; [done|]. by right; left. }
  destruct (ready_submission n s1 Hr1 Hn Hmax Hfl Hf)
    as (xt & h & parent & s2 & b & Hxt & Hnum & Hwf & Hpar & Hph & Ha & Hg).
  destruct (submitted_validation n s1 h parent b s2) as (v & Hv & Hval);
    [done|unfold in_uint; lia|done..|].
  destruct (funded v s2) eqn:Hf2; cycle 1.
  { left. exists s1. split; [done|]. right; right. by exists xt, h, s2, v. }
  destruct (Hval eq_refl) as (xt' & sig & s3 & Hxt' & Ha' & Hfin & Hdone).
  assert (Hs3 : clock Settled (n + 1) (library_state s3)).
  { eapply (pu_call _ _ Hclock _ xt'); [|exact Hxt'|exact Ha'].
    by eapply (pu_call _ _ Hclock _ xt). }
  destruct (finalize_block_ghost (n + 1) s3 Hs3) as (s4 & b4 & Hs4 & Hc4 & Hg4).
  right. exists {| b_number := n + 1; b_extrinsics := inherents (n + 1) ++ [xt; xt'] |}, s4.
  split_and!; [by exists xt, xt', h, sig| |done|].
  - unfold build_block, open_block in *. destruct (Core_initialize_block (n + 1) s) as [s0|]; [|done].
    simpl in *. rewrite apply_extrinsics_app, Ho. simpl. unfold BlockBuilder_apply_extrinsic.
    by rewrite apply_extrinsic_contract, Ha, apply_extrinsic_contract, Ha'.
  - rewrite Hg4. rewrite decide_True by done. apply round_done_balances.
    destruct Hdone as [Hrd Hl Hoth]. split; [done|done|].
    intros i Hi. rewrite Hoth by done. by rewrite Hsame.
Qed.

(** A submission, accepted or not, leaves the stakes alone. *)
Lemma submission_keeps_stakes xt h s s1 v :
  xt_call xt = RC_GhostConsensus (Call_submit_block h) → frame_apply xt s = Ok s1 →
  stake_of v (ghost_state s1) = stake_of v (ghost_state s).
Proof.
  intros Hxt. unfold frame_apply. destruct (pre_dispatch xt s) as [e|[o s0]] eqn:Hpre; [done|].
  rewrite Hxt. simpl.
  destruct (only_balances_ghost _ _ (pre_dispatch_balances _ _ _ _ Hpre)) as [b0 Hb0].
  destruct (Pallet.dispatch o (Call_submit_block h) (ghost_state s0)) as [[[]|e|] g] eqn:Hd;
    intros [= <-];
    destruct (only_balances_ghost _ _ (post_dispatch_balances xt (set_ghost g s0))) as [b1 ->].
  - apply accepted_body in Hd as (m & parent & _ & _ & _ & _ & _ & -> & _)%submit_block_ok.
    by rewrite Hb0.
  - apply dispatch_err in Hd as ->. simpl. by rewrite Hb0.
Qed.

(** With a floor of at most 2 and accounts that can pay mining is not stalled. *)
Lemma not_stalled n s s1 :
  open_block (n + 1) (inherents (n + 1)) s = Some s1 → ready n (ghost_state s1) →
  floor ≤ 2 → (∀ a s, a ≠ account_id → funded a s = true) → ¬ stalled n s.
Proof.
  intros Ho Hr Hfl Hall (s1' & Ho' & Hst). rewrite Ho in Ho'. simplify_eq.
  pose proof (ready_target _ _ Hr). destruct Hst as [?|[Hf|(xt & h & s2 & v & Hxt & Ha & Hv & Hf)]];
    [lia|by rewrite Hall in Hf|].
  rewrite Hall in Hf; [done|]. intros ->. rewrite (submission_keeps_stakes _ _ _ _ _ Hxt Ha) in Hv.
  rewrite (rd_escrow _ _ Hr) in Hv. lia.
Qed.

(** [j] rounds from block [n], each in a block of its own. *)
Record mined_rounds (n j : Z) s (blocks : list Block) s' : Prop := {
  mr_built : rounds_built inherents n (n + j) blocks s s';
  mr_clock : clock Between (n + j) (library_state s');
  mr_ready : ready (n + j) (ghost_state s');
  mr_linked : ∀ i, n < i ≤ n + j → linked (ghost_state s') i;
  mr_kept : ∀ i, i ≤ n → BlockHeaders (ghost_state s') !! i = BlockHeaders (ghost_state s) !! i;
}.

Lemma mined_rounds_nil n s :
  clock Between n (library_state s) → ready n (ghost_state s) → mined_rounds n 0 s [] s.
Proof. intros Hs Hr. split; rewrite ?Z.add_0_r; [constructor|done|done|lia|done]. Qed.

Lemma mined_rounds_cons n j s block s1 blocks s' :
  0 ≤ j → round_block (inherents (n + 1)) (n + 1) block →
  build_block (n + 1) (b_extrinsics block) s = Some s1 →
  round_done n (ghost_state s) (ghost_state s1) → mined_rounds (n + 1) j s1 blocks s' →
  mined_rounds n (j + 1) s (block :: blocks) s'.
Proof.
  intros Hj Hblock Ha [_ Hl Hother] [Hb Hc Hr Hlink Hkept].
  replace (n + 1 + j) with (n + (j + 1)) in * by lia.
  split; [by econstructor|done|done| |].
  - intros i Hi. destruct (decide (i = n + 1)) as [->|]; [|apply Hlink; lia].
    eapply linked_same; [| |exact Hl]; apply Hkept; lia.
  - intros i Hi. rewrite Hkept by lia. apply Hother. lia.
Qed.

Lemma ready_blocks k n s :
  clock Between n (library_state s) → ready n (ghost_state s) →
  0 ≤ n → n + Z.of_nat k < 2 ^ 32 →
  ∃ j blocks s', 0 ≤ j ≤ Z.of_nat k ∧ mined_rounds n j s blocks s' ∧
    (j = Z.of_nat k ∨ stalled (n + j) s').
Proof.
  revert n s. induction k as [|k IH]; intros n s Hs Hr Hn Hmax.
  { exists 0, [], s. split; [lia|]. split; [by apply mined_rounds_nil|by left]. }
  destruct (ready_block n s Hs Hr Hn ltac:(lia)) as [Hst|(block & s1 & Hblock & Ha & Hs1 & Hdone)].
  { exists 0, [], s. rewrite Z.add_0_r. split; [lia|].
    split; [by apply mined_rounds_nil|by right]. }
  destruct (IH (n + 1) s1 Hs1 (rnd_ready _ _ _ Hdone) ltac:(lia) ltac:(lia))
    as (j & blocks & s' & Hj & Hrounds & Hor).
  exists (j + 1), (block :: blocks), s'. split; [lia|]. split.
  - eapply mined_rounds_cons; [lia|done..].
  - destruct Hor as [->|Hst]; [left; lia|right]. by replace (n + (j + 1)) with (n + 1 + j) by lia.
Qed.
End Authors.

(** ** Properties *)

Section Properties.
Context `{!Build, !ScalePrims, !Hashing, !Pqc, !Config, !ConfigOk}.
Context {AccountId : Type} `{Countable AccountId}.
Context `{!Frame AccountId, !FrameOk AccountId, !Currency AccountId, !CurrencyOk AccountId}.
Context `{!Library, !LibraryOk, !Executive, !ExecutiveOk}.
Implicit Types (s : RuntimeState AccountId LibState).

(** C6. Progress of the runtime.  In a release build whose downtime slash is below
    100%, on a state that is ready after block [n], block after block can be built
    by the calls of the runtime APIs, each with its inherents, a submission by the
    miner and the validation by whichever staker the draw selects.  The [k] blocks
    carry the two calls under consecutive numbers; every new header is validated
    and built on the one before it, the older headers stay, the state is ready
    again, and a node that imports the blocks ends in it.  Mining stops earlier
    only if the target has fallen below the [floor] above which puzzles have
    solutions, or if the miner or a staker cannot pay for the call; with a floor
    of at most 2 and accounts that can pay, never.  Of the library it is assumed
    that it lets in the calls of accounts that can pay, and that its own hooks and
    inherents do not panic in a block that has the inherents ([punctual]): nothing
    in the consensus pallet keeps a block from being finished. *)
Theorem authors_keep_mining (clock : moment → Z → LibState → Prop)
    (inherents : Z → list Extrinsic)
    (funded : AccountId → RuntimeState AccountId LibState → bool) floor (miner : AccountId) k n s :
  overflow_checks = false → T_DowntimeSlashPercentage < 100 → punctual clock inherents →
  (∀ a s c, a ≠ account_id → funded a s = true →
    ∃ xt o s', xt_call xt = RC_GhostConsensus c ∧ pre_dispatch xt s = inr (o, s') ∧
      ensure_signed_origin o = Some a) →
  puzzles_solvable floor → clock Between n (library_state s) → ready n (ghost_state s) →
  0 ≤ n → n + Z.of_nat k < 2 ^ 32 → miner ≠ account_id →
  ∃ j blocks s', 0 ≤ j ≤ Z.of_nat k ∧ mined_rounds clock inherents n j s blocks s' ∧
    Z.of_nat (length blocks) = j ∧ numbered n blocks ∧
    (∀ s'', import_blocks blocks s = Some s'' → s'' = s') ∧
    (j = Z.of_nat k ∨ stalled inherents funded floor miner (n + j) s') ∧
    (floor ≤ 2 → (∀ a s, a ≠ account_id → funded a s = true) → j = Z.of_nat k).
Proof.
  intros Hrel Hsl Hclock Hfund Hpuz Hs Hr Hn Hmax Hmin.
  destruct (ready_blocks clock inherents Hclock Hrel Hsl funded Hfund floor Hpuz miner Hmin
    k n s Hs Hr Hn Hmax) as (j & blocks & s' & Hj & Hrounds & Hor).
  destruct (rounds_built_numbered _ _ _ _ _ _ (mr_built _ _ _ _ _ _ _ Hrounds))
    as (Hlen & Hnum & Himp).
  exists j, blocks, s'. split_and!; [lia..|done|lia|done|done|done|]. intros Hfl Hall.
  destruct (decide (j = Z.of_nat k)) as [|Hne]; [done|].
  destruct Hor as [?|Hst]; [done|].
  destruct (open_block_ready clock inherents Hclock Hrel Hsl (n + j) s'
    (mr_clock _ _ _ _ _ _ _ Hrounds) (mr_ready _ _ _ _ _ _ _ Hrounds))
    as (s1 & Ho & _ & Hr1 & _); [lia|lia|].
  exfalso. by eapply not_stalled.
Qed.
End Properties.

(** ** Evaluation *)

#[local] Existing Instance release_build.
#[local] Existing Instance runtime_config.
#[local] Existing Instance runtime_config_ok.
#[local] Existing Instance unit_currency.
#[local] Existing Instance unit_currency_ok.
#[local] Existing Instance suffix_hashing.

(** A library that keeps the time, as pallet_timestamp does: its only call is an
    inherent, which panics when the time was set before in the block or does not
    advance, and a block without it cannot be finalized.  Other extrinsics are
    signed, without fees. *)
Record time := { now : Z; did_update : bool }.

#[local] Instance clock_library : Library (AccountId := AccountId) :=
  {| LibState := time; LibCall := Z; Extrinsic := option AccountId * RuntimeCall AccountId Z;
     TxError := unit; xt_call := snd; pre_dispatch xt s := inr (xt.1, s);
     post_dispatch _ s := s;
     lib_dispatch o _ t s :=
       if o is Some _ then Some s
       else if did_update (library_state s) || (t <=? now (library_state s)) then None
       else Some (mkRuntime (ghost_state s) (template_state s) {| now := t; did_update := true |});
     lib_on_initialize _ s := Some s;
     lib_on_finalize _ s :=
       if did_update (library_state s) then
         Some (mkRuntime (ghost_state s) (template_state s)
                 {| now := now (library_state s); did_update := false |})
       else None |}.

#[local] Instance clock_library_ok : LibraryOk.
Proof.
  split; simpl; intros; repeat case_match; simplify_eq; try reflexivity;
    by apply only_balances_same.
Qed.

#[local] Instance clock_executive : Executive :=
  {| Executive_initialize_block := frame_initialize; Executive_apply_extrinsic := frame_apply;
     Executive_finalize_block := on_finalize_all; Executive_execute_block := frame_block |}.
#[local] Instance clock_executive_ok : ExecutiveOk.
Proof. by split. Qed.

Definition set_time (n : Z) : list Extrinsic :=
  [(None, RC_Library Timestamp (n * MILLI_SECS_PER_BLOCK))].

(** Block [n] is timed at [n] block times. *)
Definition on_time (m : moment) (n : Z) (t : LibState) : Prop :=
  match m with
  | Between => t = {| now := n * MILLI_SECS_PER_BLOCK; did_update := false |}
  | Opened => t = {| now := (n - 1) * MILLI_SECS_PER_BLOCK; did_update := false |}
  | Settled => t = {| now := n * MILLI_SECS_PER_BLOCK; did_update := true |}
  end.

Lemma set_time_punctual : punctual on_time set_time.
Proof.
  split; unfold on_time.
  - intros n [g t l] Hs. simpl in Hs. subst l. eexists. split; [reflexivity|]. simpl. do 2 f_equal. lia.
  - intros n [g t l] Hs. simpl in Hs. subst l. unfold set_time. cbn [apply_extrinsics].
    unfold BlockBuilder_apply_extrinsic. cbn [Executive_apply_extrinsic clock_executive].
    unfold frame_apply. simpl.
    rewrite (proj2 (Z.leb_gt _ _)) by (unfold MILLI_SECS_PER_BLOCK; lia).
    eexists. split; [reflexivity|]. split; [by apply only_balances_same|done].
  - intros n [o c'] c s s' Hs Hxt. simpl in Hxt. subst c'. unfold frame_apply. simpl.
    intros Ha. repeat case_match; simplify_eq; exact Hs.
  - intros n [g t l] Hs. simpl in Hs. subst l. eexists. split; reflexivity.
Qed.

Definition clock_start : RuntimeState AccountId LibState :=
  mkRuntime start_state (Template.mkState None []) {| now := 0; did_update := false |}.

(** A thousand blocks, with the time in each. *)
Lemma authors_keep_mining_witness :
  ∃ blocks s', mined_rounds on_time set_time 0 1000 clock_start blocks s' ∧
    length blocks = 1000%nat.
Proof.
  destruct (authors_keep_mining on_time set_time (λ _ _, true) 0 1 1000 0 clock_start)
    as (j & blocks & s' & _ & Hdone & Hlen & _ & _ & _ & Hj);
    [done|by vm_compute|exact set_time_punctual| |exact suffix_puzzles|done
    |exact start_state_ready|done|by vm_compute|by vm_compute|].
  - intros a s c _ _. exists (Some a, RC_GhostConsensus c), (Some a), s. by split_and!.
  - rewrite (Hj ltac:(lia) ltac:(done)) in Hdone, Hlen. exists blocks, s'.
    split; [exact Hdone|by apply Nat2Z.inj].
Defined.

(** The first of these blocks, and what it leaves; without its inherent it cannot be
    finalized. *)
Definition first_round : list Extrinsic :=
  [(Some 1, RC_GhostConsensus (Call_submit_block (child_header start_state header0 0)));
   (Some 2, RC_GhostConsensus (Call_validate_block 1 PqcSignature_default))].

Example first_clock_block :
  match build_block 1 (set_time 1 ++ first_round) clock_start with
  | Some s' =>
      library_state s' = {| now := 5000; did_update := false |} ∧
      Pallet.block_number (ghost_state s') = 1 ∧ CurrentPhase (ghost_state s') = PowMining ∧
      is_Some (h ← BlockHeaders (ghost_state s') !! 1; validator_signature h)
  | None => False
  end ∧
  match open_block 1 first_round clock_start, build_block 1 first_round clock_start with
  | Some _, None => True
  | _, _ => False
  end.
Proof. vm_compute. split_and!; try done. by eexists. Qed.
