(* ===== verification/Weights.v ===== *)
(** * Weights

    The weights that the two pallets of the repository declare for their calls
    and that the consensus pallet returns from its hook, as the runtime's
    configuration instantiates them, and what they leave out: the work of the
    hook grows with the number of absent validators, its weight does not. *)

From S2P Require Import Prelude RustInt Scale Types Interfaces Reference Template Difficulty.
From S2P Require Import Entropy Pow Selection Rewards Pallet Runtime Calls Slashing Safety Consensus.
From S2P Require Import Hooks Chain Assembly Apis.
Local Open Scope Z_scope.
Local Open Scope ghost_scope.

(** ** Declared weights *)

(** [#[pallet::weight(..)]] of the consensus pallet's calls *)
Definition ghost_call_weight {AccountId} (w : Pallet.WeightInfo) (c : Pallet.Call AccountId) : Z * Z :=
  match c with
  | Call_submit_block _ => w_submit_block w
  | Call_stake _ => w_stake w
  | Call_unstake _ => w_unstake w
  | Call_validate_block _ _ => w_validate_block w
  | Call_report_misbehavior _ _ => w_report_misbehavior w
  | Call_register_pqc_key _ => w_register_pqc_key w
  end.

(** What the runtime takes from the library: the database weights of RocksDB,
    the library's calls, and the limits built from a block's weight and length. *)
Class LibraryWeights (LibCall : Type) := {
  RocksDb_read : Z * Z;
  RocksDb_write : Z * Z;
  lib_call_weight : PalletName → LibCall → Z * Z;
  WEIGHT_REF_TIME_PER_SECOND : Z; (* u64 *)
  BlockWeights : Type;
  with_sensible_defaults : Z * Z → Z → BlockWeights;
  BlockLength : Type;
  max_with_normal_ratio : Z → Z → BlockLength;
  (** the largest weight of a block *)
  max_block : BlockWeights → Z * Z;
}.

Section Weights.
Context {LibCall : Type} `{!LibraryWeights LibCall} {AccountId : Type}.

(** [frame_system::Config::DbWeight] of the runtime *)
Definition DbWeight : (Z * Z) * (Z * Z) := (RocksDb_read, RocksDb_write).

(** [impl pallet_template::Config for Runtime], and for the tests' [Test] *)
Definition runtime_template_config : TemplateWeights.Config :=
  {| TemplateWeights.T_WeightInfo := TemplateWeights.SubstrateWeight DbWeight.1 DbWeight.2 |}.
Definition test_template_config : TemplateWeights.Config :=
  {| TemplateWeights.T_WeightInfo := TemplateWeights.UnitWeight RocksDb_read RocksDb_write |}.

(** The weight of a call of the runtime: [WeightInfo = ()] for the consensus
    pallet, [SubstrateWeight] for the template pallet. *)
Definition runtime_call_weight (c : RuntimeCall AccountId LibCall) : Z * Z :=
  match c with
  | RC_Template c => @TemplateWeights.call_weight runtime_template_config c
  | RC_GhostConsensus c => ghost_call_weight default_weights c
  | RC_Library p c => lib_call_weight p c
  end.

(** [RuntimeBlockWeights] and [RuntimeBlockLength] *)
Definition RuntimeBlockWeights : BlockWeights :=
  with_sensible_defaults (2 * WEIGHT_REF_TIME_PER_SECOND, max_value U64) NORMAL_DISPATCH_RATIO.
Definition RuntimeBlockLength : BlockLength :=
  max_with_normal_ratio (5 * 1024 * 1024) NORMAL_DISPATCH_RATIO.

(** The accounted weight of a sequence of calls. *)
Definition total_weight (cs : list (RuntimeCall AccountId LibCall)) : Z * Z :=
  foldr (λ c w, weight_add (runtime_call_weight c) w) (0, 0) cs.

(** The tests' weights are the runtime's. *)
Lemma template_weights_agree (c : Template.Call) :
  @TemplateWeights.call_weight test_template_config c
  = @TemplateWeights.call_weight runtime_template_config c.
Proof. done. Qed.

Lemma ghost_weight_constant (c : Pallet.Call AccountId) :
  ghost_call_weight default_weights c = (10000, 0).
Proof. by destruct c. Qed.

Lemma weight_add_saturates a b : in_uint U64 (weight_add a b).1 ∧ in_uint U64 (weight_add a b).2.
Proof. split; by apply saturate_range. Qed.

Lemma total_weight_ghost (cs : list (Pallet.Call AccountId)) :
  Z.of_nat (length cs) < 2 ^ 50 →
  total_weight (RC_GhostConsensus <$> cs) = (10000 * Z.of_nat (length cs), 0).
Proof.
  induction cs as [|c cs IH]; intros Hl; [done|]. cbn [length] in Hl.
  change (total_weight (RC_GhostConsensus <$> c :: cs))
    with (weight_add (ghost_call_weight default_weights c) (total_weight (RC_GhostConsensus <$> cs))).
  rewrite IH by lia. rewrite ghost_weight_constant. unfold weight_add, saturating_add. cbn [fst snd length].
  rewrite !saturate_id by (unfold in_uint; lia). f_equal. lia.
Qed.
End Weights.

(** ** The work of the hook *)

Section Work.
Context `{!Build, !ScalePrims, !Hashing, !Pqc, !Config}.
Context {AccountId : Type} `{Countable AccountId}.
Context `{!Frame AccountId, !Currency AccountId}.
Implicit Types (s : State AccountId).

(** The entries of [LastActiveBlock] that the hook slashes: those down for more
    than the limit that have an entry in [ValidatorStakes]. *)
Definition absent s (e : AccountId * Z) : bool :=
  is_down (saturate U32 (block_number s)) e.2 && bool_decide (is_Some (ValidatorStakes s !! e.1)).
Definition absentees s : list (AccountId * Z) :=
  filter (λ e, absent s e = true) (map_to_list (LastActiveBlock s)).

(** A run of the loop computed the amount of every slash. *)
Lemma for_each_slash_amounts cur l s u s' :
  NoDup l.*1 → for_each l (slash_if_down cur T_MaxDowntimeBlocks) s = (Ok u, s') →
  ∀ e st, e ∈ l → is_down cur e.2 = true → ValidatorStakes s !! e.1 = Some st →
  is_Some (slash_amount_of st T_DowntimeSlashPercentage).
Proof.
  revert s; induction l as [|x l IH]; intros s Hnd Hrun e st Hin Hdown Hst; [by apply not_elem_of_nil in Hin|].
  csimpl in *. apply NoDup_cons in Hnd as [Hnot Hnd].
  apply bind_ok in Hrun as (? & s1 & [-> Hamount]%slash_if_down_ok & Hrun).
  apply elem_of_cons in Hin as [->|Hin]; [by apply Hamount|].
  apply (IH _ Hnd Hrun e st Hin Hdown). cbn. rewrite lookup_slash_stakes; [done|].
  destruct (downtime_entry cur s x) as [va|] eqn:Hd; simpl; [|by apply not_elem_of_nil].
  apply downtime_entry_key in Hd. rewrite list_elem_of_singleton. intros Heq. apply Hnot.
  rewrite <-Hd, <-Heq. by apply list_elem_of_fmap_2.
Qed.

Lemma omap_length_filter {A B} (f : A → option B) (P : A → bool) (l : list A) :
  (∀ x, x ∈ l → (is_Some (f x) ↔ P x = true)) →
  length (omap f l) = length (filter (λ x, P x = true) l).
Proof.
  induction l as [|x l IH]; intros Hf; [done|].
  assert (IHl : length (omap f l) = length (filter (λ x, P x = true) l))
    by (apply IH; intros y Hy; apply Hf; by right).
  specialize (Hf x ltac:(left)). rewrite filter_cons. csimpl.
  destruct (f x) as [y|]; case_decide as Hp; simpl; rewrite ?IHl; try done.
  - exfalso. apply Hp, Hf. by eexists.
  - apply Hf in Hp as [? ?]. done.
Qed.

Context `{!FrameOk AccountId}.

Lemma downtime_slashes_count s u s' :
  check_downtime_slashing s = (Ok u, s') → length (downtime_slashes s) = length (absentees s).
Proof.
  intros Hrun. unfold absentees. rewrite <-(storage_iter_perm (LastActiveBlock s)).
  apply (omap_length_filter _ (absent s)). intros e He. unfold absent, downtime_entry.
  unfold check_downtime_slashing in Hrun. rewrite !bind_gets in Hrun.
  pose proof (for_each_slash_amounts _ _ _ _ _ (storage_iter_keys (LastActiveBlock s)) Hrun e) as Ha.
  destruct (is_down _ e.2); simpl; [|split; [by intros [? ?]|done]].
  destruct (ValidatorStakes s !! e.1) as [st|]; simpl; [|split; [by intros [? ?]|done]].
  destruct (Ha st He eq_refl eq_refl) as [a ->]. simpl. split; [done|by eexists].
Qed.
End Work.

(** ** Properties *)

Section Properties.
Context `{!Build, !ScalePrims, !Hashing, !Pqc, !Config}.
Context {AccountId : Type} `{Countable AccountId}.
Context `{!Frame AccountId, !FrameOk AccountId, !Currency AccountId}.
Implicit Types (s : State AccountId).

(** C32. The weight of the hook does not account for its work.  In every tenth block
    [on_initialize] writes one slash, one record and one event for each absent
    validator, all of them in the one block and without a bound, and the
    records stay for ever; the weight it returns is the same (10000, 0). *)
Theorem hook_weight_ignores_work n s w s' :
  n mod 10 = 0 → on_initialize n s = (Ok w, s') →
  w = (10000, 0) ∧
  length (SlashingRecords s') = (length (SlashingRecords s) + length (absentees s))%nat ∧
  (length (events s) + length (absentees s) ≤ length (events s'))%nat.
Proof.
  intros Hn (Hw & s1 & Hsl & Had)%on_initialize_ok. split; [done|].
  rewrite decide_True in Hsl by done. rewrite <-(downtime_slashes_count _ _ _ Hsl).
  apply check_downtime_slashing_ok in Hsl as ->.
  assert (Hl : length (SlashingRecords s') = length (SlashingRecords (apply_slashes (downtime_slashes s) s)) ∧
    (length (events (apply_slashes (downtime_slashes s) s)) ≤ length (events s'))%nat).
  { case_decide; [|by subst]. apply adjust_difficulty_ok in Had as (e & _ & -> & _).
    split; [done|]. unfold adjusted. cbn -[apply_slashes calculate_difficulty_adjustment].
    case_decide; [done|]. rewrite length_app. lia. }
  destruct Hl as [-> Hev]. revert Hev. cbn. rewrite !length_app, !length_fmap. lia.
Qed.
End Properties.

(** ** Evaluation *)

#[local] Existing Instance release_build.
#[local] Existing Instance runtime_config.
#[local] Instance sample_currency : Currency AccountId := ref_currency EXISTENTIAL_DEPOSIT.

(** Fifty validators that have been away since block 0, at block 110. *)
Definition many_absent : State AccountId :=
  set_block_number 110
    (set_LastActiveBlock (list_to_map ((λ v, (v, 0)) <$> seqZ 1 50))
      (set_ValidatorStakes (list_to_map ((λ v, (v, UNIT)) <$> seqZ 1 50))
        (genesis_state (Currency0 := sample_currency) (Ledger ∅ 0)))).

Lemma hook_weight_ignores_work_witness :
  ∃ w, (on_initialize 110 many_absent).1 = Ok w ∧ w = (10000, 0) ∧
    length (SlashingRecords (on_initialize 110 many_absent).2) = 50%nat.
Proof.
  destruct (run_ok_value (on_initialize 110 many_absent)) as [w Hw]; [by vm_compute|].
  destruct (hook_weight_ignores_work 110 many_absent w _ eq_refl Hw) as (Hw0 & Hrec & _).
  exists w. split; [by rewrite Hw|]. split; [exact Hw0|]. etransitivity; [exact Hrec|by vm_compute].
Defined.
