(* ===== verification/ToolApis.v ===== *)
(** * Genesis, offchain workers, benchmarks and try-runtime

    The remaining functions of runtime/src/apis.rs: the genesis builder, by which a
    node makes its first state, the offchain worker, and the APIs behind the
    features [runtime-benchmarks] and [try-runtime]; the session keys and the
    native version of runtime/src/lib.rs; and the list of runtime/src/benchmarks.rs.
    What the library does behind them is the class [Tools]. *)

From stdpp Require Import strings.
From S2P Require Import Prelude RustInt Scale Types Interfaces Reference Difficulty Entropy.
From S2P Require Import Pow Selection Rewards Pallet Runtime Calls Slashing Safety Consensus.
From S2P Require Import Hooks Chain Blocks Assembly Apis Weights.
Local Open Scope Z_scope.
Local Open Scope ghost_scope.

(** ** Session keys and native version *)

(** [impl_opaque_keys! { pub struct SessionKeys { aura, grandpa } }]; a key is its
    bytes *)
Record SessionKeys := { sk_aura : array 32; sk_grandpa : array 32 }.

Section SessionKeysCodec.
Context `{!ScalePrims}.
(** the derived codec *)
Definition scale_session_keys : codec SessionKeys :=
  codec_iso (λ '(a, g), {| sk_aura := a; sk_grandpa := g |}) (λ k, (sk_aura k, sk_grandpa k))
    (scale_array 32 ⊗ scale_array 32).

Context `{!ScalePrimsOk}.
Lemma scale_session_keys_ok : codec_ok scale_session_keys.
Proof. apply codec_iso_ok; [by intros []|]. auto with ghost. Qed.
End SessionKeysCodec.

(** [NativeVersion]; no other version can be authored with *)
Record NativeVersion := { runtime_version : RuntimeVersion; can_author_with : list Z }.
Definition native_version : NativeVersion :=
  {| runtime_version := VERSION; can_author_with := [] |}.

(** ** Benchmarked pallets *)

(** [define_benchmarks!]: names and paths *)
Definition define_benchmarks : list (string * string) :=
  [("frame_benchmarking", "BaselineBench::<Runtime>"); ("frame_system", "SystemBench::<Runtime>");
   ("frame_system_extensions", "SystemExtensionsBench::<Runtime>");
   ("pallet_balances", "Balances"); ("pallet_timestamp", "Timestamp"); ("pallet_sudo", "Sudo");
   ("pallet_template", "Template")]%string.

(** ** The library *)

Class Tools (S Block : Type) := {
  OffchainEffects : Type;
  UpgradeCheckSelect : Type;
  TryStateSelect : Type;
  TryRuntimeError : Type;
  StorageInfo : Type;
  TrackedStorageKey : Type;
  BenchmarkConfig : Type;
  BenchmarkList : Type;
  BenchmarkBatch : Type;
  Executive_offchain_worker : Z → S → OffchainEffects;
  Executive_try_runtime_upgrade : UpgradeCheckSelect → S → TryRuntimeError + ((Z * Z) * S);
  Executive_try_execute_block : Block → bool → bool → TryStateSelect → S → string + ((Z * Z) * S);
  (** [genesis_builder_helper::build_state]: an error, or the state written *)
  helper_build_state : list Byte.byte → S → string + S;
  AllPallets_storage_info : list StorageInfo;
  AllPallets_whitelisted_storage_keys : list TrackedStorageKey;
  (** [list_benchmark!] and [add_benchmark!] for one entry of the list *)
  list_benchmark : bool → string * string → BenchmarkList;
  add_benchmark : BenchmarkConfig * list TrackedStorageKey → string * string →
                  string + list BenchmarkBatch;
}.

Section ToolApis.
Context `{!Build, !ScalePrims, !Hashing, !Pqc, !Config}.
Context {AccountId : Type} `{Countable AccountId}.
Context `{!Frame AccountId, !Currency AccountId, !Library, !Executive}.
Context `{!LibraryWeights LibCall}.
Context `{!Tools (RuntimeState AccountId LibState) Block}.
Context {AuraId GrandpaId : Type}.
Context `{!Queries (RuntimeState AccountId LibState) AccountId AuraId GrandpaId
            (RuntimeCall AccountId LibCall) Extrinsic}.
Implicit Types (s : RuntimeState AccountId LibState).

(** *** [sp_offchain::OffchainWorkerApi] *)
Definition offchain_worker (header_number : Z) s : OffchainEffects :=
  Executive_offchain_worker header_number s.

(** *** [TransactionPaymentCallApi], the conversions *)
Definition call_query_weight_to_fee (weight : Z * Z) s : Z := Payment_weight_to_fee weight s.
Definition call_query_length_to_fee (length : Z) s : Z := Payment_length_to_fee length s.

(** *** [frame_benchmarking::Benchmark] *)
Definition benchmark_metadata (extra : bool) : list BenchmarkList * list StorageInfo :=
  let list := list_benchmark extra <$> define_benchmarks in
  let storage_info := AllPallets_storage_info in
  (list, storage_info).

(** the batches of one entry after the other, up to the first error *)
Fixpoint add_benchmarks (params : BenchmarkConfig * list TrackedStorageKey)
    (batches : list BenchmarkBatch) (entries : list (string * string))
    : string + list BenchmarkBatch :=
  match entries with
  | [] => inr batches
  | entry :: entries =>
      match add_benchmark params entry with
      | inl e => inl e
      | inr more => add_benchmarks params (batches ++ more) entries
      end
  end.

Definition dispatch_benchmark (config : BenchmarkConfig) : string + list BenchmarkBatch :=
  let whitelist := AllPallets_whitelisted_storage_keys in
  let params := (config, whitelist) in
  add_benchmarks params [] define_benchmarks.

(** *** [frame_try_runtime::TryRuntime]: [None] is the panic of [unwrap] and
    [expect] *)
Definition TryRuntime_on_runtime_upgrade (checks : UpgradeCheckSelect) s
    : option (((Z * Z) * (Z * Z)) * RuntimeState AccountId LibState) :=
  match Executive_try_runtime_upgrade checks s with
  | inl _ => None
  | inr (weight, s) => Some ((weight, max_block RuntimeBlockWeights), s)
  end.

Definition TryRuntime_execute_block (block : Block) (state_root_check signature_check : bool)
    (select : TryStateSelect) s : option ((Z * Z) * RuntimeState AccountId LibState) :=
  match Executive_try_execute_block block state_root_check signature_check select s with
  | inl _ => None
  | inr r => Some r
  end.

(** *** [sp_genesis_builder::GenesisBuilder] *)
Definition GenesisBuilder_build_state (config : list Byte.byte) s
    : string + RuntimeState AccountId LibState := helper_build_state config s.

(** The genesis configuration has no part for the consensus pallet, which declares
    none: building the state leaves its storage, up to the balances. *)
Class ToolsOk : Prop := {
  build_state_contract config s s' :
    helper_build_state config s = inr s' →
    ∃ b, ghost_state s' = set_balances b (ghost_state s);
}.

(** A benchmark run returns the batches of all pallets, in order, or the error of
    the first that fails. *)
Lemma add_benchmarks_spec params entries batches :
  match add_benchmarks params batches entries with
  | inr all => ∃ more, all = batches ++ mjoin more ∧
                 Forall2 (λ entry m, add_benchmark params entry = inr m) entries more
  | inl e => ∃ before entry after done, entries = before ++ entry :: after ∧
               Forall2 (λ entry m, add_benchmark params entry = inr m) before done ∧
               add_benchmark params entry = inl e
  end.
Proof.
  revert batches. induction entries as [|entry entries IH]; intros batches; simpl.
  { exists []. split; [by rewrite app_nil_r|constructor]. }
  destruct (add_benchmark params entry) as [e|m] eqn:Hm.
  { exists [], entry, entries, []. split_and!; [done|constructor|done]. }
  specialize (IH (batches ++ m)). destruct (add_benchmarks _ _ _) as [e|all].
  - destruct IH as (before & x & after & ms & -> & Hbefore & Hx).
    exists (entry :: before), x, after, (m :: ms). split_and!; [done|by constructor|done].
  - destruct IH as (more & -> & Hmore). exists (m :: more).
    split; [simpl; by rewrite app_assoc|by constructor].
Qed.
End ToolApis.

(** ** Properties *)

Section Properties.
Context `{!Build, !ScalePrims, !Hashing, !Pqc, !Config, !ConfigOk}.
Context {AccountId : Type} `{Countable AccountId}.
Context `{!Frame AccountId, !FrameOk AccountId, !Currency AccountId, !CurrencyOk AccountId}.
Context `{!Library, !LibraryOk, !Executive, !ExecutiveOk}.
Context `{!Tools (RuntimeState AccountId LibState) Block, !ToolsOk}.
Implicit Types (s : RuntimeState AccountId LibState) (blocks : list Block).

(** C35. No genesis configuration starts the consensus.  Whatever configuration the
    genesis builder turns into a state, of a preset or of any chain
    specification, and whatever blocks of ordinary extrinsics are imported on it:
    there is never a header, the phase stays mining, and no money is created on
    top of the genesis balances, in any build and for any existential deposit. *)
Theorem any_genesis_pays_nothing (b : Balances) config blocks s s1 s' :
  ghost_state s = genesis_state b → GenesisBuilder_build_state config s = inr s1 →
  Z.of_nat (length blocks) < 2 ^ 32 → numbered 0 blocks →
  Forall (Forall ordinary) (b_extrinsics <$> blocks) → import_blocks blocks s1 = Some s' →
  BlockHeaders (ghost_state s') = ∅ ∧ CurrentPhase (ghost_state s') = PowMining ∧
  total_issuance (balances (ghost_state s')) ≤ total_issuance (balances (ghost_state s1)).
Proof.
  intros Hg (b1 & Hb)%build_state_contract Hmax Hnum Hord Hrun.
  assert (Hg1 : ghost_state s1 = genesis_state b1) by (by rewrite Hb, Hg).
  rewrite Hg1. exact (genesis_blocks_pay_nothing b1 blocks s1 s' Hg1 Hmax Hnum Hord Hrun).
Qed.

(** The session keys of a node survive their encoding, whatever follows it. *)
Theorem session_keys_roundtrip `{!ScalePrimsOk} (keys : SessionKeys) rest :
  dec scale_session_keys (enc scale_session_keys keys ++ rest) = Some (keys, rest).
Proof. apply scale_session_keys_ok. destruct keys. simpl. auto using scale_array_dom. Qed.
End Properties.

(** ** Evaluation *)

#[local] Existing Instance release_build.
#[local] Existing Instance runtime_config.
#[local] Existing Instance runtime_config_ok.
#[local] Existing Instance milli_currency.
#[local] Existing Instance milli_currency_ok.
#[local] Existing Instance sample_library.
#[local] Existing Instance sample_library_ok.
#[local] Existing Instance sample_executive.
#[local] Existing Instance sample_executive_ok.

(** A library whose configurations are one byte per endowed account. *)
Definition sample_build (config : list Byte.byte) (s : RuntimeState AccountId LibState)
    : string + RuntimeState AccountId LibState :=
  match config with
  | [] => inl "invalid config"%string
  | _ => inr (set_ghost (set_balances (list_to_map ((λ x, (Z_of_byte x, UNIT)) <$> config))
                           (ghost_state s)) s)
  end.

#[local] Instance sample_tools : Tools (RuntimeState AccountId LibState) Block :=
  {| OffchainEffects := unit; UpgradeCheckSelect := unit; TryStateSelect := unit;
     TryRuntimeError := unit; StorageInfo := unit; TrackedStorageKey := unit;
     BenchmarkConfig := string; BenchmarkList := string; BenchmarkBatch := string;
     Executive_offchain_worker _ _ := tt; Executive_try_runtime_upgrade _ s := inr ((0, 0), s);
     Executive_try_execute_block block _ _ _ s :=
       match frame_block (b_number block) (b_extrinsics block) s with
       | Some s => inr ((0, 0), s)
       | None => inl "execute"%string
       end;
     helper_build_state := sample_build; AllPallets_storage_info := [];
     AllPallets_whitelisted_storage_keys := []; list_benchmark _ entry := entry.1;
     add_benchmark params entry :=
       if decide (params.1 = entry.1) then inr [entry.2] else inr [] |}.
#[local] Instance sample_tools_ok : ToolsOk.
Proof.
  split. intros config s s'. destruct config; [done|]. intros [= <-]. by eexists.
Qed.

Definition boot_state : RuntimeState AccountId LibState :=
  mkRuntime (genesis_state ∅) (Template.mkState None []) tt.
Definition booted : RuntimeState AccountId LibState :=
  match GenesisBuilder_build_state [Byte.x01; Byte.x02] boot_state with
  | inr s => s
  | inl _ => boot_state
  end.
Definition booted_end : RuntimeState AccountId LibState :=
  default booted (import_blocks [genesis_block1] booted).

Lemma any_genesis_pays_nothing_witness :
  BlockHeaders (ghost_state booted_end) = ∅ ∧
  CurrentPhase (ghost_state booted_end) = PowMining ∧
  total_issuance (balances (ghost_state booted_end))
    ≤ total_issuance (balances (ghost_state booted)).
Proof.
  apply (any_genesis_pays_nothing ∅ [Byte.x01; Byte.x02] [genesis_block1] boot_state booted booted_end);
    [done|done|by vm_compute|done|exact genesis_ordinary|].
  apply some_default. by vm_compute.
Defined.

(** Only the selected pallet is benchmarked, and the consensus pallet never is. *)
Example benchmark_template :
  dispatch_benchmark "pallet_template"%string = inr ["Template"%string] ∧
  dispatch_benchmark "pallet_ghost_consensus"%string = inr [].
Proof. split; by vm_compute. Qed.
