(* ===== verification/Benchmarking.v ===== *)
(** * Benchmark extrinsics

    node/src/benchmarking.rs: the signed extrinsics that the benchmark commands of
    the node build, and their inherent data; and the benchmarks of the template
    pallet (pallets/template/src/benchmarking.rs).  Keys, encodings and eras of
    the library are the class [TxLibrary]. *)

From stdpp Require Import strings.
From S2P Require Import Prelude RustInt Scale Types Interfaces Reference Difficulty Entropy.
From S2P Require Import Pow Selection Rewards Pallet Runtime Template Assembly Apis.
Local Open Scope Z_scope.

(** ** The period of a mortal extrinsic *)

(** [u32::checked_next_power_of_two] *)
Definition checked_next_power_of_two (w x : Z) : option Z :=
  let p := if x <=? 1 then 1 else 2 ^ Z.log2_up x in
  if p <? 2 ^ w then Some p else None.

(** [BlockHashCount::get().checked_next_power_of_two().map(|c| c / 2).unwrap_or(2)
    as u64] *)
Definition mortal_period (block_hash_count : Z) : Z :=
  default 2 ((λ c, c / 2) <$> checked_next_power_of_two U32 block_hash_count).

(** ** The library *)

Class TxLibrary := {
  TxCall : Type;
  TxAccount : Type;
  SystemCall_remark : list Byte.byte → TxCall;
  BalancesCall_transfer_keep_alive : TxAccount → Z → TxCall;
  (** sr25519 key pairs, and the accounts of their public keys *)
  Pair : Type;
  Signature : Type;
  public_account : Pair → TxAccount;
  sign : Pair → list Byte.byte → Signature;
  verify_signature : Signature → list Byte.byte → TxAccount → bool;
  Alice : Pair;
  Bob : Pair;
  (** [Era::mortal(period, current)], and the block at which an era was born *)
  Era : Type;
  Era_mortal : Z → Z → Era;
  Era_birth : Era → Z → Z;
  InherentData : Type;
  InherentData_new : InherentData;
  (** [provide_inherent_data] of a timestamp in milliseconds *)
  provide_timestamp : Z → InherentData → string + InherentData;
}.

(** What the documentation of the keys and of mortal eras promises: a signature of
    a key verifies for its account, and an era whose period needs no quantization
    is born at the block it is made for. *)
Class TxLibraryOk `{!TxLibrary} : Prop := {
  sign_verifies p m : verify_signature (sign p m) m (public_account p) = true;
  Era_mortal_birth k n :
    2 ≤ k ≤ 12 → 0 ≤ n → Era_birth (Era_mortal (2 ^ k) n) n = n;
}.

(** The parts of a client that are read. *)
Record ClientView := {
  block_hash : Z → string + option H256;
  best_hash : H256;
  best_number : Z; (* u32 *)
}.

(** ** Extrinsics *)

Section Extrinsics.
Context `{!TxLibrary}.

(** [TxExtension], in its order; the extensions without data are units. *)
Record TxExtension := {
  CheckNonZeroSender : unit;
  CheckSpecVersion : unit;
  CheckTxVersion : unit;
  CheckGenesis : unit;
  CheckEra : Era;
  CheckNonce : Z; (* u32 *)
  CheckWeight : unit;
  ChargeTransactionPayment : Z; (* tip: u128 *)
  CheckMetadataHash : bool;
}.

(** The data that the extensions add to the signed payload. *)
Definition Implicit : Type := unit * Z * Z * H256 * H256 * unit * unit * unit * option H256.

Record SignedPayload := {
  p_call : TxCall;
  p_extension : TxExtension;
  p_implicit : Implicit;
}.

Record UncheckedExtrinsic := {
  x_call : TxCall;
  x_address : TxAccount;
  x_signature : Signature;
  x_extension : TxExtension;
}.

(** [using_encoded] of a signed payload *)
Context (encoded : SignedPayload → list Byte.byte).

(** [client.block_hash(0).ok().flatten()] *)
Definition flatten_hash (r : string + option H256) : option H256 :=
  match r with inr (Some h) => Some h | _ => None end.

(** [None] is the panic for want of a genesis block. *)
Definition create_benchmark_extrinsic (client : ClientView) (sender : Pair) (call : TxCall)
    (nonce : Z) : option UncheckedExtrinsic :=
  genesis_hash ← flatten_hash (block_hash client 0);
  let best_hash := best_hash client in
  let best_block := best_number client in
  let period := mortal_period (c_BlockHashCount (system_config 0)) in
  let tx_ext :=
    {| CheckNonZeroSender := tt; CheckSpecVersion := tt; CheckTxVersion := tt;
       CheckGenesis := tt; CheckEra := Era_mortal period best_block; CheckNonce := nonce;
       CheckWeight := tt; ChargeTransactionPayment := 0; CheckMetadataHash := false |} in
  let raw_payload :=
    {| p_call := call; p_extension := tx_ext;
       p_implicit := (tt, spec_version VERSION, transaction_version VERSION, genesis_hash,
                      best_hash, tt, tt, tt, None) |} in
  let signature := sign sender (encoded raw_payload) in
  Some {| x_call := call; x_address := public_account sender; x_signature := signature;
          x_extension := tx_ext |}.

(** The two builders of the benchmark commands. *)
Inductive ExtrinsicBuilder :=
  | RemarkBuilder (client : ClientView)
  | TransferKeepAliveBuilder (client : ClientView) (dest : TxAccount) (value : Z).

Definition builder_pallet (b : ExtrinsicBuilder) : string :=
  match b with RemarkBuilder _ => "system" | TransferKeepAliveBuilder _ _ _ => "balances" end.
Definition builder_extrinsic (b : ExtrinsicBuilder) : string :=
  match b with
  | RemarkBuilder _ => "remark"
  | TransferKeepAliveBuilder _ _ _ => "transfer_keep_alive"
  end.

Definition build (b : ExtrinsicBuilder) (nonce : Z) : option UncheckedExtrinsic :=
  match b with
  | RemarkBuilder client => create_benchmark_extrinsic client Bob (SystemCall_remark []) nonce
  | TransferKeepAliveBuilder client dest value =>
      create_benchmark_extrinsic client Bob (BalancesCall_transfer_keep_alive dest value) nonce
  end.

(** The inherent data of a benchmark: the timestamp 0. *)
Definition inherent_benchmark_data : string + InherentData :=
  match provide_timestamp 0 InherentData_new with
  | inl e => inl ("creating inherent data: " +:+ e)
  | inr d => inr d
  end.

(** The payload as a runtime of [VERSION] at block [current] rebuilds it from an
    extrinsic to check its signature: the extensions look up the hash of the
    genesis block and of the era's birth. *)
Definition checked_payload (hash_at : Z → H256) (current : Z) (x : UncheckedExtrinsic)
    : SignedPayload :=
  {| p_call := x_call x; p_extension := x_extension x;
     p_implicit := (tt, spec_version VERSION, transaction_version VERSION, hash_at 0,
                    hash_at (Era_birth (CheckEra (x_extension x)) current), tt, tt, tt, None) |}.

Definition signature_checks (hash_at : Z → H256) (current : Z) (x : UncheckedExtrinsic) : bool :=
  verify_signature (x_signature x) (encoded (checked_payload hash_at current x)) (x_address x).
End Extrinsics.

(** ** The template pallet's benchmarks *)

Section TemplateBenchmarks.
Context {AccountId : Type} `{Countable AccountId} `{!Frame AccountId}.
(** [RawOrigin::Signed(whitelisted_caller())] *)
Context (caller : OriginFor).

(** Each benchmark prepares the storage, calls the extrinsic and checks the value
    it leaves. *)
Definition benchmark_do_something (s : Template.State AccountId) : bool :=
  let value := 100 in
  match Template.dispatch caller (Call_do_something value) s with
  | (Ok _, s) => bool_decide (Something s = Some value)
  | _ => false
  end.

Definition benchmark_cause_error (s : Template.State AccountId) : bool :=
  match Template.dispatch caller Call_cause_error (put_Something 100 s) with
  | (Ok _, s) => bool_decide (Something s = Some 101)
  | _ => false
  end.
End TemplateBenchmarks.

(** ** Lemmas *)

(** The next power of two is the least one that is not smaller. *)
Lemma checked_next_power_of_two_spec w x p :
  0 ≤ w → checked_next_power_of_two w x = Some p →
  ∃ k, 0 ≤ k ∧ p = 2 ^ k ∧ x ≤ p < 2 ^ w ∧ (1 < x → p < 2 * x).
Proof.
  intros Hw. unfold checked_next_power_of_two.
  destruct (Z.leb_spec x 1) as [Hx|Hx].
  - destruct (Z.ltb_spec 1 (2 ^ w)); [|done]. intros [= <-]. exists 0. split_and!; lia.
  - destruct (Z.ltb_spec (2 ^ Z.log2_up x) (2 ^ w)); [|done]. intros [= <-].
    pose proof (Z.log2_up_spec x Hx) as [Hlo Hhi]. exists (Z.log2_up x).
    pose proof (Z.log2_up_nonneg x). split_and!; [done..|lia|lia|]. intros _.
    assert (0 < Z.log2_up x) by (apply Z.log2_up_pos; lia).
    replace (Z.log2_up x) with (Z.succ (Z.pred (Z.log2_up x))) by lia.
    rewrite Z.pow_succ_r by lia. lia.
Qed.

Lemma mortal_period_value : mortal_period (c_BlockHashCount (system_config 0)) = 2 ^ 11.
Proof. by vm_compute. Qed.

(** ** Properties *)

(** Whatever the number of block hashes that the runtime keeps, the period of a
    benchmark extrinsic is a power of two below it, so the block its era was born
    at is never forgotten; with the runtime's count it is 2048. *)
Theorem mortal_period_within_history (count : Z) :
  2 < count ≤ 2 ^ 31 →
  (∃ k, 0 ≤ k ∧ mortal_period count = 2 ^ k) ∧
  mortal_period count < count ≤ 2 * mortal_period count.
Proof.
  intros Hc. unfold mortal_period.
  destruct (checked_next_power_of_two U32 count) as [p|] eqn:Hp; simpl.
  - apply checked_next_power_of_two_spec in Hp as (k & Hk & -> & Hle & Hlt); [|done].
    assert (k ≠ 0) as Hk0 by (intros ->; lia).
    assert (Hpow : 2 ^ k = 2 ^ (k - 1) * 2).
    { rewrite Z.mul_comm, <-Z.pow_succ_r by lia. f_equal. lia. }
    rewrite Hpow in *.
    rewrite Z.div_mul by done. split; [exists (k - 1); split; [lia|done]|]. lia.
  - exfalso. unfold checked_next_power_of_two in Hp.
    destruct (Z.leb_spec count 1); [lia|].
    assert (Z.log2_up count ≤ 31) by (apply Z.log2_up_le_pow2; lia).
    assert (2 ^ Z.log2_up count ≤ 2 ^ 31) by (apply Z.pow_le_mono_r; lia).
    destruct (Z.ltb_spec (2 ^ Z.log2_up count) (2 ^ U32)) as [|Hge]; [done|].
    lia.
Qed.

Section Properties.
Context `{!TxLibrary, !TxLibraryOk}.
Implicit Types (client : ClientView).

(** A benchmark extrinsic passes the signature check of a runtime at the client's
    best block: it is signed by Bob over exactly the payload that the runtime
    rebuilds, with its versions, its genesis hash and the hash of the block its
    era was born at.  Without a genesis block, and only then, building one panics. *)
Theorem benchmark_extrinsic_verifies encoded client hash_at b nonce :
  (∀ genesis, flatten_hash (block_hash client 0) = Some genesis → hash_at 0 = genesis) →
  0 ≤ best_number client → hash_at (best_number client) = best_hash client →
  (match b with RemarkBuilder c | TransferKeepAliveBuilder c _ _ => c = client end) →
  match build encoded b nonce with
  | Some x =>
      signature_checks encoded hash_at (best_number client) x = true ∧
      x_address x = public_account Bob ∧ CheckNonce (x_extension x) = nonce
  | None => flatten_hash (block_hash client 0) = None
  end.
Proof.
  intros Hg Hn Hbest Hb.
  assert (Hcall : ∃ call, build encoded b nonce = create_benchmark_extrinsic encoded client Bob call nonce).
  { destruct b; subst; by eexists. }
  destruct Hcall as [call ->]. unfold create_benchmark_extrinsic. rewrite mortal_period_value.
  assert (Hbirth : Era_birth (Era_mortal (2 ^ 11) (best_number client)) (best_number client)
                   = best_number client) by (apply Era_mortal_birth; lia).
  set (era := Era_mortal (2 ^ 11) (best_number client)) in *.
  destruct (flatten_hash (block_hash client 0)) as [genesis|]; [|done]. simpl.
  split_and!; [|done..]. unfold signature_checks, checked_payload. cbn.
  rewrite Hbirth, (Hg genesis eq_refl), Hbest. apply sign_verifies.
Qed.

(** The benchmarks of the template pallet pass from every storage, for a signed
    caller. *)
Theorem template_benchmarks_pass {AccountId : Type} `{Countable AccountId} `{!Frame AccountId}
    `{!FrameOk AccountId} caller who (s : Template.State AccountId) :
  ensure_signed_origin caller = Some who →
  benchmark_do_something caller s = true ∧ benchmark_cause_error caller s = true.
Proof.
  intros Ho. unfold benchmark_do_something, benchmark_cause_error, Template.dispatch.
  assert (Hset : Template.call_body caller (Call_do_something 100) s
    = (Ok tt, Template.mkState (Some 100) (Template.events s ++ [SomethingStored 100 who]))).
  { simpl. unfold do_something, Template.deposit_event. by rewrite Ho. }
  assert (Hinc : Template.call_body caller Call_cause_error (put_Something 100 s)
    = (Ok tt, put_Something 101 s)).
  { simpl. unfold cause_error. by rewrite Ho. }
  rewrite (storage_layer_commits _ _ _ _ Hset), (storage_layer_commits _ _ _ _ Hinc).
  by rewrite !bool_decide_eq_true_2.
Qed.
End Properties.

(** ** Evaluation *)

(** Keys are their accounts, a signature is the key with the message, an era its
    period and phase. *)
#[export] Instance sample_tx : TxLibrary :=
  {| TxCall := string * Z; TxAccount := Z; SystemCall_remark _ := ("remark"%string, 0);
     BalancesCall_transfer_keep_alive _ v := ("transfer_keep_alive"%string, v);
     Pair := Z; Signature := Z * list Byte.byte; public_account := id;
     sign p m := (p, m); verify_signature s m a := bool_decide (s = (a, m)); Alice := 1; Bob := 2;
     Era := Z * Z; Era_mortal p n := (p, n mod p);
     Era_birth e n := (Z.max n e.2 - e.2) / e.1 * e.1 + e.2;
     InherentData := list Z; InherentData_new := []; provide_timestamp t d := inr (d ++ [t]) |}.

#[export] Instance sample_tx_ok : TxLibraryOk.
Proof.
  split; simpl.
  - intros p m. by apply bool_decide_eq_true_2.
  - intros k n Hk Hn. assert (0 < 2 ^ k) by (apply Z.pow_pos_nonneg; lia).
    pose proof (Z.mod_pos_bound n (2 ^ k) ltac:(lia)).
    pose proof (Z.mod_le n (2 ^ k) Hn ltac:(lia)).
    rewrite Z.max_l by lia. pose proof (Z.div_mod n (2 ^ k) ltac:(lia)) as Hd.
    replace (n - n mod 2 ^ k) with (n / 2 ^ k * 2 ^ k) by lia.
    rewrite Z.div_mul by lia. lia.
Qed.

Definition sample_encoded (p : SignedPayload) : list Byte.byte :=
  array_bytes (let '(_, _, _, _, h, _, _, _, _) := p_implicit p in h).
Definition sample_client : ClientView :=
  {| block_hash n := if decide (n = 0) then inr (Some (zeros 32)) else inr None;
     best_hash := zeros 32; best_number := 5000 |}.

Lemma mortal_period_within_history_witness :
  (∃ k, 0 ≤ k ∧ mortal_period 2400 = 2 ^ k) ∧
  mortal_period 2400 < 2400 ≤ 2 * mortal_period 2400.
Proof. apply (mortal_period_within_history 2400). lia. Defined.

Lemma benchmark_extrinsic_verifies_witness :
  match build sample_encoded (RemarkBuilder sample_client) 7 with
  | Some x => signature_checks sample_encoded (λ _, zeros 32) 5000 x = true ∧ x_address x = 2 ∧
              CheckNonce (x_extension x) = 7
  | None => flatten_hash (block_hash sample_client 0) = None
  end.
Proof.
  apply (benchmark_extrinsic_verifies sample_encoded sample_client (λ _, zeros 32)
           (RemarkBuilder sample_client) 7); [by intros g [= <-]|by vm_compute|done|done].
Defined.

Example tampered_extrinsic :
  match build sample_encoded (RemarkBuilder sample_client) 7 with
  | Some x => signature_checks sample_encoded
      (λ _, @Array 32 (replicate 32 Byte.x01) eq_refl) 5000 x = false
  | None => False
  end.
Proof. by vm_compute. Qed.
