(* ===== verification/Service.v ===== *)
(** * The node service

    node/src/service.rs: how the node assembles the client, the network, Aura and
    GRANDPA.  The libraries it wires together are not in the repository: their
    objects are the types of [NodeTypes], their functions the calls [fallible]
    and [infallible], and what they answer is the parameter [Answers].  The
    service is a computation of the dispatch monad whose state is the trace of
    calls made so far, so its control flow, its early returns and the arguments
    of each call are those of the source. *)

From stdpp Require Import strings.
From S2P Require Import Prelude RustInt.
Local Open Scope Z_scope.

(** ** Objects and configuration *)

Class NodeTypes := {
  ServiceError : Type;
  TelemetryEndpoints : Type;
  endpoints_is_empty : TelemetryEndpoints → bool;
  TelemetryWorker : Type;
  Telemetry : Type;
  Registry : Type;
  PoolConfig : Type;
  NetworkConfig : Type;
  node_name : NetworkConfig → string;
  ChainSpec : Type;
  Database : Type;
  Role : Type;
  is_authority : Role → bool;
  Executor : Type;
  Client : Type;
  Backend : Type;
  KeystoreContainer : Type;
  TaskManager : Type;
  SelectChain : Type;
  TransactionPool : Type;
  BlockImport : Type;
  GrandpaLink : Type;
  ImportQueue : Type;
  FullNetConfig : Type;
  Metrics : Type;
  PeerStoreHandle : Type;
  BlockHash : Type;
  ProtocolName : Type;
  ProtocolConfig : Type;
  NotificationService : Type;
  WarpSync : Type;
  Network : Type;
  SystemRpcTx : Type;
  TxHandlerController : Type;
  NetworkStarter : Type;
  SyncService : Type;
  OffchainWorkers : Type;
  RpcHandlers : Type;
  ProposerFactory : Type;
  SlotDuration : Type;
  Timestamp : Type;
  Slot : Type;
  AuraWorker : Type;
  GrandpaVoter : Type;
}.

Inductive NetworkBackendType := Libp2p | Litep2p.

(** The fields of [sc_service::Configuration] that the node reads. *)
Record Configuration `{!NodeTypes} := {
  telemetry_endpoints : option TelemetryEndpoints;
  transaction_pool_config : PoolConfig;
  prometheus_registry : option Registry;
  network_config : NetworkConfig;
  network_backend : NetworkBackendType;
  chain_spec : ChainSpec;
  database : Database;
  role : Role;
  force_authoring : bool;
  disable_grandpa : bool;
  offchain_worker_enabled : bool;
}.

Definition GRANDPA_JUSTIFICATION_PERIOD : Z := 512. (* u32 *)

(** ** Arguments of the calls *)

Section Calls.
Context `{!NodeTypes}.

(** [sc_service::PartialComponents], with its [other] triple. *)
Record PartialComponents := {
  client : Client;
  backend : Backend;
  task_manager : TaskManager;
  import_queue : ImportQueue;
  keystore_container : KeystoreContainer;
  select_chain : SelectChain;
  transaction_pool : TransactionPool;
  other : BlockImport * GrandpaLink * option Telemetry;
}.

Record ImportQueueParams := {
  iq_block_import : BlockImport;
  iq_justification_import : option BlockImport;
  iq_client : Client;
  iq_registry : option Registry;
  iq_telemetry : option Telemetry;
}.

Record BuildNetworkParams := {
  bn_config : Configuration;
  bn_net_config : FullNetConfig;
  bn_client : Client;
  bn_transaction_pool : TransactionPool;
  bn_import_queue : ImportQueue;
  bn_warp_sync : option WarpSync;
  bn_metrics : Metrics;
}.

Record OffchainWorkerOptions := {
  ow_client : Client;
  ow_is_validator : bool;
  ow_keystore : option KeystoreContainer;
  ow_backend : Backend;
  ow_transaction_pool : option TransactionPool;
  ow_network : Network;
  ow_enable_http_requests : bool;
}.

Record SpawnTasksParams := {
  st_network : Network;
  st_client : Client;
  st_keystore : KeystoreContainer;
  st_transaction_pool : TransactionPool;
  st_backend : Backend;
  st_system_rpc_tx : SystemRpcTx;
  st_tx_handler_controller : TxHandlerController;
  st_sync_service : SyncService;
  st_config : Configuration;
  st_telemetry : option Telemetry;
}.

(** [block_proposal_slot_portion] is the fraction [2f32 / 3f32]. *)
Record StartAuraParams := {
  au_slot_duration : SlotDuration;
  au_client : Client;
  au_select_chain : SelectChain;
  au_block_import : BlockImport;
  au_proposer_factory : ProposerFactory;
  au_force_authoring : bool;
  au_backoff_authoring_blocks : option unit;
  au_keystore : KeystoreContainer;
  au_sync_oracle : SyncService;
  au_slot_portion : Z * Z;
  au_max_slot_portion : option (Z * Z);
  au_telemetry : option Telemetry;
}.

Record GrandpaConfig := {
  gc_gossip_duration_ms : Z;
  gc_justification_generation_period : Z;
  gc_name : option string;
  gc_observer_enabled : bool;
  gc_keystore : option KeystoreContainer;
  gc_local_role : Role;
  gc_telemetry : option Telemetry;
  gc_protocol_name : ProtocolName;
}.

Record GrandpaParams := {
  gp_config : GrandpaConfig;
  gp_link : GrandpaLink;
  gp_network : Network;
  gp_sync : SyncService;
  gp_notification_service : NotificationService;
  gp_prometheus_registry : option Registry;
  gp_telemetry : option Telemetry;
  gp_transaction_pool : TransactionPool;
}.

(** What a spawned task runs. *)
Inductive Work :=
  | RunTelemetry (worker : TelemetryWorker)
  | RunOffchainWorkers (workers : OffchainWorkers)
  | RunAura (worker : AuraWorker)
  | RunGrandpaVoter (voter : GrandpaVoter).

(** A task: its name and group, whether its end takes the node down, and whether
    it blocks. *)
Record Task := {
  task_name : string;
  task_group : option string;
  task_essential : bool;
  task_blocking : bool;
  task_work : Work;
}.

(** ** Calls and answers *)

(** The functions of the libraries that return a [Result]. *)
Inductive fallible :=
  | TelemetryWorker_new (buffer_size : Z)
  | New_full_parts (config : Configuration) (telemetry : option Telemetry) (executor : Executor)
  | Grandpa_block_import (client : Client) (justification_import_period : Z)
      (select_chain : SelectChain) (telemetry : option Telemetry)
  | Aura_import_queue (params : ImportQueueParams)
  | Build_network (params : BuildNetworkParams)
  | Spawn_tasks (params : SpawnTasksParams)
  | Aura_slot_duration (client : Client)
  | Start_aura (params : StartAuraParams)
  | Run_grandpa_voter (params : GrandpaParams)
  | Slot_duration_at (client : Client) (parent_hash : BlockHash)
  | Client_block_hash (client : Client) (number : Z).

(** The value of the [Result]. *)
Definition fallible_answer (c : fallible) : Type :=
  match c with
  | TelemetryWorker_new _ => TelemetryWorker
  | New_full_parts _ _ _ => Client * Backend * KeystoreContainer * TaskManager
  | Grandpa_block_import _ _ _ _ => BlockImport * GrandpaLink
  | Aura_import_queue _ => ImportQueue
  | Build_network _ => Network * SystemRpcTx * TxHandlerController * NetworkStarter * SyncService
  | Spawn_tasks _ => RpcHandlers
  | Aura_slot_duration _ => SlotDuration
  | Start_aura _ => AuraWorker
  | Run_grandpa_voter _ => GrandpaVoter
  | Slot_duration_at _ _ => SlotDuration
  | Client_block_hash _ _ => option BlockHash
  end.

(** The functions that return a value. *)
Inductive infallible :=
  | New_telemetry (worker : TelemetryWorker) (endpoints : TelemetryEndpoints)
  | New_wasm_executor (config : Configuration)
  | Spawn (task_manager : TaskManager) (task : Task)
  | LongestChain_new (backend : Backend)
  | BasicPool_new_full (config : PoolConfig) (is_validator : bool)
      (registry : option Registry) (task_manager : TaskManager) (client : Client)
  | FullNetworkConfiguration_new (config : NetworkConfig)
  | Register_notification_metrics (registry : option Registry)
  | Peer_store_handle (net_config : FullNetConfig)
  | Protocol_standard_name (genesis_hash : BlockHash) (chain_spec : ChainSpec)
  | Grandpa_peers_set_config (name : ProtocolName) (metrics : Metrics) (peers : PeerStoreHandle)
  | Add_notification_protocol (net_config : FullNetConfig) (protocol : ProtocolConfig)
  | Warp_NetworkProvider_new (backend : Backend) (link : GrandpaLink)
  | OffchainWorkers_new (options : OffchainWorkerOptions)
  | Start_network (starter : NetworkStarter)
  | ProposerFactory_new (client : Client) (pool : TransactionPool) (registry : option Registry)
      (telemetry : option Telemetry)
  | Timestamp_from_system_time
  | Slot_from_timestamp_and_duration (timestamp : Timestamp) (slot_duration : SlotDuration).

Definition infallible_answer (c : infallible) : Type :=
  match c with
  | New_telemetry _ _ => Telemetry
  | New_wasm_executor _ => Executor
  | Spawn _ _ => unit
  | LongestChain_new _ => SelectChain
  | BasicPool_new_full _ _ _ _ _ => TransactionPool
  | FullNetworkConfiguration_new _ => FullNetConfig
  | Register_notification_metrics _ => Metrics
  | Peer_store_handle _ => PeerStoreHandle
  | Protocol_standard_name _ _ => ProtocolName
  | Grandpa_peers_set_config _ _ _ => ProtocolConfig * NotificationService
  | Add_notification_protocol _ _ => FullNetConfig
  | Warp_NetworkProvider_new _ _ => WarpSync
  | OffchainWorkers_new _ => OffchainWorkers
  | Start_network _ => unit
  | ProposerFactory_new _ _ _ _ => ProposerFactory
  | Timestamp_from_system_time => Timestamp
  | Slot_from_timestamp_and_duration _ _ => Slot
  end.

Inductive call := Try (c : fallible) | Do (c : infallible).

(** What the libraries answer to a call after the calls made before it. *)
Class Answers := {
  try_answer : list call → ∀ c : fallible, ServiceError + fallible_answer c;
  do_answer : list call → ∀ c : infallible, infallible_answer c;
}.
End Calls.

(** ** The computation of a node *)

Section Service.
Context `{!NodeTypes, !Answers}.

Local Abbreviation M := (dispatch_m (list call) ServiceError).

(** A call of a function that returns a [Result], with which the code can do what
    it likes. *)
Definition request (c : fallible) : M (ServiceError + fallible_answer c) := λ tr,
  (Ok (try_answer tr c), tr ++ [Try c]).

(** the operator [?] *)
Definition question {A} (r : ServiceError + A) : M A :=
  match r with
  | inl e => throw e
  | inr a => mret a
  end.

(** a call followed by [?] *)
Definition attempt (c : fallible) : M (fallible_answer c) :=
  r ← request c; question r.

Definition perform (c : infallible) : M (infallible_answer c) := λ tr,
  (Ok (do_answer tr c), tr ++ [Do c]).

(** [task_manager.spawn_handle().spawn(..)] *)
Definition spawn (tm : TaskManager) (name : string) (group : option string) (work : Work)
    : M unit :=
  perform (Spawn tm {| task_name := name; task_group := group; task_essential := false;
                       task_blocking := false; task_work := work |}).
(** [task_manager.spawn_essential_handle().spawn_blocking(..)] *)
Definition spawn_essential_blocking (tm : TaskManager) (name : string) (group : option string)
    (work : Work) : M unit :=
  perform (Spawn tm {| task_name := name; task_group := group; task_essential := true;
                       task_blocking := true; task_work := work |}).

(** The telemetry worker and its handle, if there are endpoints. *)
Definition start_telemetry (config : Configuration) : M (option (TelemetryWorker * Telemetry)) :=
  match telemetry_endpoints config with
  | Some endpoints =>
      if endpoints_is_empty endpoints then mret None
      else
        worker ← attempt (TelemetryWorker_new 16);
        telemetry ← perform (New_telemetry worker endpoints);
        mret (Some (worker, telemetry))
  | None => mret None
  end.

(** The inherent data of an imported block: the slot of the present time, for the
    slot duration in the state of the parent. *)
Definition import_inherents (cidp_client : Client) (parent_hash : BlockHash)
    : M (Slot * Timestamp) :=
  slot_duration ← attempt (Slot_duration_at cidp_client parent_hash);
  timestamp ← perform Timestamp_from_system_time;
  slot ← perform (Slot_from_timestamp_and_duration timestamp slot_duration);
  mret (slot, timestamp).

(** The inherent data of an authored block, for the slot duration at the start. *)
Definition authoring_inherents (slot_duration : SlotDuration) : M (Slot * Timestamp) :=
  timestamp ← perform Timestamp_from_system_time;
  slot ← perform (Slot_from_timestamp_and_duration timestamp slot_duration);
  mret (slot, timestamp).

Definition new_partial (config : Configuration) : M PartialComponents :=
  telemetry ← start_telemetry config;
  executor ← perform (New_wasm_executor config);
  '(client, backend, keystore_container, task_manager) ←
    attempt (New_full_parts config (snd <$> telemetry) executor);
  telemetry ←
    match telemetry with
    | Some (worker, telemetry) =>
        spawn task_manager "telemetry" None (RunTelemetry worker) ;; mret (Some telemetry)
    | None => mret None
    end;
  select_chain ← perform (LongestChain_new backend);
  transaction_pool ← perform
    (BasicPool_new_full (transaction_pool_config config) (is_authority (role config))
       (prometheus_registry config) task_manager client);
  '(grandpa_block_import, grandpa_link) ←
    attempt (Grandpa_block_import client GRANDPA_JUSTIFICATION_PERIOD select_chain telemetry);
  import_queue ← attempt (Aura_import_queue
    {| iq_block_import := grandpa_block_import;
       iq_justification_import := Some grandpa_block_import;
       iq_client := client; iq_registry := prometheus_registry config;
       iq_telemetry := telemetry |});
  mret {| client := client; backend := backend; task_manager := task_manager;
          import_queue := import_queue; keystore_container := keystore_container;
          select_chain := select_chain; transaction_pool := transaction_pool;
          other := (grandpa_block_import, grandpa_link, telemetry) |}.

(** [client.block_hash(0).ok().flatten().expect("Genesis block exists; qed")] *)
Definition genesis_hash_of (client : Client) : M BlockHash :=
  r ← request (Client_block_hash client 0);
  let ok := match r with inl _ => None | inr h => Some h end in
  may_panic (mjoin ok).

(** The block of [new_full] under [if role.is_authority()]. *)
Definition start_authoring (config : Configuration) (parts : PartialComponents)
    (sync_service : SyncService) : M unit :=
  let '(block_import, _, telemetry) := other parts in
  proposer_factory ← perform
    (ProposerFactory_new (client parts) (transaction_pool parts) (prometheus_registry config)
       telemetry);
  slot_duration ← attempt (Aura_slot_duration (client parts));
  aura ← attempt (Start_aura
    {| au_slot_duration := slot_duration; au_client := client parts;
       au_select_chain := select_chain parts; au_block_import := block_import;
       au_proposer_factory := proposer_factory;
       au_force_authoring := force_authoring config; au_backoff_authoring_blocks := None;
       au_keystore := keystore_container parts; au_sync_oracle := sync_service;
       au_slot_portion := (2, 3); au_max_slot_portion := None; au_telemetry := telemetry |});
  spawn_essential_blocking (task_manager parts) "aura" (Some "block-authoring"%string)
    (RunAura aura).

(** The block of [new_full] under [if enable_grandpa]. *)
Definition start_grandpa (config : Configuration) (parts : PartialComponents)
    (protocol_name : ProtocolName) (notification_service : NotificationService)
    (network : Network) (sync_service : SyncService) : M unit :=
  let '(_, grandpa_link, telemetry) := other parts in
  let keystore :=
    if is_authority (role config) then Some (keystore_container parts) else None in
  let grandpa_config :=
    {| gc_gossip_duration_ms := 333;
       gc_justification_generation_period := GRANDPA_JUSTIFICATION_PERIOD;
       gc_name := Some (node_name (network_config config)); gc_observer_enabled := false;
       gc_keystore := keystore; gc_local_role := role config; gc_telemetry := telemetry;
       gc_protocol_name := protocol_name |} in
  voter ← attempt (Run_grandpa_voter
    {| gp_config := grandpa_config; gp_link := grandpa_link; gp_network := network;
       gp_sync := sync_service; gp_notification_service := notification_service;
       gp_prometheus_registry := prometheus_registry config; gp_telemetry := telemetry;
       gp_transaction_pool := transaction_pool parts |});
  spawn_essential_blocking (task_manager parts) "grandpa-voter" None (RunGrandpaVoter voter).

(** The block of [new_full] under [if config.offchain_worker.enabled]. *)
Definition start_offchain_workers (config : Configuration) (parts : PartialComponents)
    (network : Network) : M unit :=
  workers ← perform (OffchainWorkers_new
    {| ow_client := client parts; ow_is_validator := is_authority (role config);
       ow_keystore := Some (keystore_container parts); ow_backend := backend parts;
       ow_transaction_pool := Some (transaction_pool parts); ow_network := network;
       ow_enable_http_requests := true |});
  spawn (task_manager parts) "offchain-workers-runner" (Some "offchain-worker"%string)
    (RunOffchainWorkers workers).

(** [if b { .. }] *)
Definition when (b : bool) (m : M unit) : M unit := if b then m else mret tt.

Definition new_full (config : Configuration) : M TaskManager :=
  parts ← new_partial config;
  let '(_, grandpa_link, telemetry) := other parts in
  net_config ← perform (FullNetworkConfiguration_new (network_config config));
  metrics ← perform (Register_notification_metrics (prometheus_registry config));
  peer_store_handle ← perform (Peer_store_handle net_config);
  genesis_hash ← genesis_hash_of (client parts);
  grandpa_protocol_name ← perform (Protocol_standard_name genesis_hash (chain_spec config));
  '(grandpa_protocol_config, grandpa_notification_service) ← perform
    (Grandpa_peers_set_config grandpa_protocol_name metrics peer_store_handle);
  net_config ← perform (Add_notification_protocol net_config grandpa_protocol_config);
  warp_sync ← perform (Warp_NetworkProvider_new (backend parts) grandpa_link);
  '(network, system_rpc_tx, tx_handler_controller, network_starter, sync_service) ← attempt
    (Build_network
      {| bn_config := config; bn_net_config := net_config; bn_client := client parts;
         bn_transaction_pool := transaction_pool parts; bn_import_queue := import_queue parts;
         bn_warp_sync := Some warp_sync; bn_metrics := metrics |});
  when (offchain_worker_enabled config) (start_offchain_workers config parts network) ;;
  _rpc_handlers ← attempt (Spawn_tasks
    {| st_network := network; st_client := client parts; st_keystore := keystore_container parts;
       st_transaction_pool := transaction_pool parts; st_backend := backend parts;
       st_system_rpc_tx := system_rpc_tx; st_tx_handler_controller := tx_handler_controller;
       st_sync_service := sync_service; st_config := config; st_telemetry := telemetry |});
  perform (Start_network network_starter) ;;
  when (is_authority (role config)) (start_authoring config parts sync_service) ;;
  when (negb (disable_grandpa config))
    (start_grandpa config parts grandpa_protocol_name grandpa_notification_service network
       sync_service) ;;
  mret (task_manager parts).
End Service.

(** ** Failures *)

Section FailFast.
Context `{!NodeTypes, !Answers}.
Local Abbreviation M := (dispatch_m (list call) ServiceError).
Implicit Types (tr : list call).

(** The value that the node needs of a call: of the genesis hash, that there is one. *)
Definition usable (c : fallible) : fallible_answer c → Prop :=
  match c with
  | Client_block_hash _ _ => λ h, is_Some h
  | _ => λ _, True
  end.

(** The call was answered with a value that the node can use. *)
Definition answered tr (c : fallible) : Prop := ∃ a, try_answer tr c = inr a ∧ usable c a.

(** Every call of a trace that can fail was. *)
Definition succeeded tr : Prop := ∀ tr1 c tr2, tr = tr1 ++ Try c :: tr2 → answered tr1 c.

Definition asks_hash (c : fallible) : bool :=
  match c with Client_block_hash _ _ => true | _ => false end.

(** How a trace ends whose computation stops at the first call that fails. *)
Definition stops {A} (r : result ServiceError A) tr : Prop :=
  match r with
  | Ok _ => succeeded tr
  | Err e => ∃ tr1 c, tr = tr1 ++ [Try c] ∧ succeeded tr1 ∧ asks_hash c = false ∧
      try_answer tr1 c = inl e
  | Panicked => ∃ tr1 cl, tr = tr1 ++ [Try (Client_block_hash cl 0)] ∧ succeeded tr1 ∧
      ¬ answered tr1 (Client_block_hash cl 0)
  end.

Definition fail_fast {A} (m : M A) : Prop := ∀ tr, succeeded tr → stops (m tr).1 (m tr).2.

Lemma succeeded_nil : succeeded [].
Proof. intros [|x tr1] c tr2; discriminate. Qed.

Lemma succeeded_snoc tr x :
  succeeded tr → (∀ c, x = Try c → answered tr c) → succeeded (tr ++ [x]).
Proof.
  intros Htr Hx tr1 c tr2. destruct tr2 as [|y tr2 _] using rev_ind.
  - intros [-> ->]%app_inj_tail. by apply Hx.
  - change (Try c :: tr2 ++ [y]) with ((Try c :: tr2) ++ [y]). rewrite app_assoc.
    intros [-> _]%app_inj_tail. by eapply Htr.
Qed.

Lemma fail_fast_ret {A} (a : A) : fail_fast (mret a).
Proof. by intros tr. Qed.

(** It takes the [?]: a call whose error is dropped does not fail fast. *)
Lemma fail_fast_attempt c : asks_hash c = false → fail_fast (attempt c).
Proof.
  intros Hc tr Htr. unfold attempt, request. cbv [mbind dispatch_bind].
  destruct (try_answer tr c) as [e|a] eqn:Ha; simpl; [by exists tr, c|].
  apply succeeded_snoc; [done|]. intros c' [= <-]. exists a. by destruct c.
Qed.

Lemma fail_fast_perform c : fail_fast (perform c).
Proof. intros tr Htr. by apply succeeded_snoc. Qed.

Lemma fail_fast_spawn tm name group work : fail_fast (spawn tm name group work).
Proof. apply fail_fast_perform. Qed.
Lemma fail_fast_spawn_essential tm name group work :
  fail_fast (spawn_essential_blocking tm name group work).
Proof. apply fail_fast_perform. Qed.

Lemma fail_fast_genesis cl : fail_fast (genesis_hash_of cl).
Proof.
  intros tr Htr. unfold genesis_hash_of, request. cbv [mbind dispatch_bind].
  destruct (try_answer tr (Client_block_hash cl 0)) as [e|[h|]] eqn:Ha; simpl.
  - exists tr, cl. split_and!; [done..|]. intros (a & Ha' & _). congruence.
  - apply succeeded_snoc; [done|]. intros c' [= <-]. exists (Some h). split; [exact Ha|by exists h].
  - exists tr, cl. split_and!; [done..|]. intros (a & Ha' & [h Hh]). simpl in Hh. congruence.
Qed.

Lemma fail_fast_bind {A B} (m : M A) (k : A → M B) :
  fail_fast m → (∀ a, fail_fast (k a)) → fail_fast (m ≫= k).
Proof.
  intros Hm Hk tr Htr. specialize (Hm tr Htr). unfold mbind, dispatch_bind.
  destruct (m tr) as [[a|e|] tr1]; [by apply Hk|done|done].
Qed.
End FailFast.

Create HintDb fail_fast discriminated.
#[export] Hint Constants Opaque : fail_fast.
#[export] Hint Resolve fail_fast_ret fail_fast_perform fail_fast_spawn
  fail_fast_spawn_essential fail_fast_genesis : fail_fast.

(** Split a computation into its calls. *)
Ltac fail_fast :=
  repeat first
    [ solve [eauto 2 with fail_fast]
    | match goal with
      | |- fail_fast (attempt ?c) => exact (fail_fast_attempt c eq_refl)
      | |- fail_fast (perform ?c) => exact (fail_fast_perform c)
      end
    | apply fail_fast_bind; [|intros ?]
    | progress cbv zeta
    | match goal with |- fail_fast (match ?x with _ => _ end) => destruct x end
    | match goal with |- fail_fast (when ?b _) => destruct b; unfold when end ].

(** ** Milestones *)

(** What an observer of a starting node sees: the tasks with whether their end
    takes the node down, the imports, the RPC, the network and the consensus
    engines with the options that matter. *)
Inductive milestone :=
  | TaskSpawned (name : string) (essential : bool)
  | FinalityImport (justification_period : Z)
  | OffchainWorkersCreated (is_validator : bool)
  | RpcServed
  | NetworkStarted
  | AuthoringStarted (force : bool)
  | VoterStarted (justification_period : Z) (with_keystore observer : bool).

Section Milestones.
Context `{!NodeTypes, !Answers}.
Local Abbreviation M := (dispatch_m (list call) ServiceError).
Implicit Types (tr : list call).

Definition observe (c : call) : option milestone :=
  match c with
  | Do (Spawn _ t) => Some (TaskSpawned (task_name t) (task_essential t))
  | Try (Grandpa_block_import _ period _ _) => Some (FinalityImport period)
  | Do (OffchainWorkers_new o) => Some (OffchainWorkersCreated (ow_is_validator o))
  | Try (Spawn_tasks _) => Some RpcServed
  | Do (Start_network _) => Some NetworkStarted
  | Try (Start_aura p) => Some (AuthoringStarted (au_force_authoring p))
  | Try (Run_grandpa_voter p) =>
      let c := gp_config p in
      Some (VoterStarted (gc_justification_generation_period c)
              (bool_decide (is_Some (gc_keystore c))) (gc_observer_enabled c))
  | _ => None
  end.
Definition milestones tr : list milestone := omap observe tr.

Definition has_telemetry (config : Configuration) : bool :=
  match telemetry_endpoints config with
  | Some endpoints => negb (endpoints_is_empty endpoints)
  | None => false
  end.

Definition if_list (b : bool) (l : list milestone) : list milestone := if b then l else [].

(** The start of a node, as its configuration determines it. *)
Definition startup (config : Configuration) : list milestone :=
  if_list (has_telemetry config) [TaskSpawned "telemetry" false] ++
  [FinalityImport 512] ++
  if_list (offchain_worker_enabled config)
    [OffchainWorkersCreated (is_authority (role config));
     TaskSpawned "offchain-workers-runner" false] ++
  [RpcServed; NetworkStarted] ++
  if_list (is_authority (role config))
    [AuthoringStarted (force_authoring config); TaskSpawned "aura" true] ++
  if_list (negb (disable_grandpa config))
    [VoterStarted 512 (is_authority (role config)) false; TaskSpawned "grandpa-voter" true].

(** A successful computation adds these milestones, and its value satisfies [Q];
    another one gets through some of them, in their order. *)
Definition adds {A} (m : M A) (l : list milestone) (Q : A → Prop) : Prop :=
  ∀ tr, match m tr with
        | (Ok a, tr') => milestones tr' = milestones tr ++ l ∧ Q a
        | (_, tr') => ∃ l', l' `prefix_of` l ∧ milestones tr' = milestones tr ++ l'
        end.

Lemma milestones_snoc tr c :
  milestones (tr ++ [c]) = milestones tr ++ option_list (observe c).
Proof. unfold milestones. rewrite omap_app. simpl. by destruct (observe c). Qed.

Lemma adds_ok {A} (m : M A) l Q tr a tr' :
  adds m l Q → m tr = (Ok a, tr') → milestones tr' = milestones tr ++ l ∧ Q a.
Proof. intros Hm Hr. specialize (Hm tr). by rewrite Hr in Hm. Qed.

Lemma adds_ret {A} (a : A) (Q : A → Prop) : Q a → adds (mret a) [] Q.
Proof. intros Ha tr. simpl. by rewrite app_nil_r. Qed.

Lemma adds_attempt c : adds (attempt c) (option_list (observe (Try c))) (λ _, True).
Proof.
  intros tr. unfold attempt, request. cbv [mbind dispatch_bind].
  destruct (try_answer tr c); simpl; rewrite milestones_snoc; [by eexists|done].
Qed.

Lemma adds_request c : adds (request c) (option_list (observe (Try c))) (λ _, True).
Proof. intros tr. simpl. by rewrite milestones_snoc. Qed.

Lemma adds_perform c : adds (perform c) (option_list (observe (Do c))) (λ _, True).
Proof. intros tr. simpl. by rewrite milestones_snoc. Qed.

Lemma adds_spawn tm name group work :
  adds (spawn tm name group work) [TaskSpawned name false] (λ _, True).
Proof. exact (adds_perform (Spawn tm _)). Qed.

Lemma adds_spawn_essential tm name group work :
  adds (spawn_essential_blocking tm name group work) [TaskSpawned name true] (λ _, True).
Proof. exact (adds_perform (Spawn tm _)). Qed.

Lemma adds_bind {A B} (m : M A) (k : A → M B) l1 l2 l (Q : A → Prop) (R : B → Prop) :
  adds m l1 Q → (∀ a, Q a → adds (k a) l2 R) → l = l1 ++ l2 → adds (m ≫= k) l R.
Proof.
  intros Hm Hk -> tr. specialize (Hm tr). unfold mbind, dispatch_bind.
  destruct (m tr) as [[a|e|] tr1].
  - destruct Hm as [Hl1 HQ]. specialize (Hk a HQ tr1). destruct (k a tr1) as [[b|e|] tr2].
    + destruct Hk as [-> HR]. by rewrite Hl1, app_assoc.
    + destruct Hk as (l & Hl & ->). exists (l1 ++ l). rewrite Hl1, app_assoc.
      split; [by apply prefix_app|done].
    + destruct Hk as (l & Hl & ->). exists (l1 ++ l). rewrite Hl1, app_assoc.
      split; [by apply prefix_app|done].
  - destruct Hm as (l & Hl & ->). exists l. split; [by apply prefix_app_r|done].
  - destruct Hm as (l & Hl & ->). exists l. split; [by apply prefix_app_r|done].
Qed.

(** A call that shows nothing. *)
Lemma adds_silent {A B} (m : M A) (k : A → M B) l (R : B → Prop) :
  adds m [] (λ _, True) → (∀ a, adds (k a) l R) → adds (m ≫= k) l R.
Proof. intros Hm Hk. by eapply adds_bind; [exact Hm|intros a _; apply Hk|]. Qed.

Lemma adds_weaken {A} (m : M A) l (Q R : A → Prop) :
  adds m l Q → (∀ a, Q a → R a) → adds m l R.
Proof.
  intros Hm HQ tr. specialize (Hm tr). destruct (m tr) as [[a|e|] tr']; [|done|done].
  destruct Hm as [? ?]. auto.
Qed.

Lemma adds_when b m l :
  adds m l (λ _, True) → adds (when b m) (if_list b l) (λ _, True).
Proof. destruct b; [done|]. intros _. by apply adds_ret. Qed.
End Milestones.

(** The milestones of a single call. *)
Ltac one_call :=
  lazymatch goal with
  | |- adds (attempt ?c) _ _ => exact (adds_attempt c)
  | |- adds (request ?c) _ _ => exact (adds_request c)
  | |- adds (perform ?c) _ _ => exact (adds_perform c)
  | |- adds (spawn ?tm ?n ?g ?w) _ _ => apply adds_spawn
  | |- adds (spawn_essential_blocking ?tm ?n ?g ?w) _ _ => apply adds_spawn_essential
  end.

(** Step over the calls that show nothing. *)
Ltac silent :=
  repeat first
    [ apply adds_silent; [one_call|intros ?]
    | match goal with |- adds (match ?x with _ => _ end) _ _ => destruct x end
    | progress cbv zeta ].

Section Extending.
Context `{!NodeTypes, !Answers}.

Lemma extends_attempt (Q : call → Prop) c : Q (Try c) → extends Q (attempt c).
Proof.
  intros Hc tr. exists [Try c]. unfold attempt, request. cbv [mbind dispatch_bind].
  by destruct (try_answer tr c); rewrite Forall_singleton.
Qed.
Lemma extends_request (Q : call → Prop) c : Q (Try c) → extends Q (request c).
Proof. intros Hc tr. exists [Try c]. by rewrite Forall_singleton. Qed.
Lemma extends_perform (Q : call → Prop) c : Q (Do c) → extends Q (perform c).
Proof. intros Hc tr. exists [Do c]. by rewrite Forall_singleton. Qed.

End Extending.

(** Split a computation into its calls, each allowed by the tactic. *)
Ltac extends tac :=
  repeat first
    [ lazymatch goal with
      | |- extends _ (attempt ?c) => apply (extends_attempt _ c); tac
      | |- extends _ (request ?c) => apply (extends_request _ c); tac
      | |- extends _ (perform ?c) => apply (extends_perform _ c); tac
      | |- extends _ (spawn ?tm ?n ?g ?w) => apply (extends_perform _ (Spawn tm _)); tac
      | |- extends _ (spawn_essential_blocking ?tm ?n ?g ?w) =>
          apply (extends_perform _ (Spawn tm _)); tac
      | |- extends _ (mret _) => apply extends_ret
      | |- extends _ (may_panic _) => apply extends_may_panic
      | |- extends _ (_ ≫= _) => apply extends_bind; [|intros ?]
      end
    | progress cbv zeta
    | match goal with |- extends _ (match ?x with _ => _ end) => destruct x end ].

Section Startup.
Context `{!NodeTypes, !Answers}.

Lemma adds_start_telemetry config :
  adds (start_telemetry config) [] (λ t, bool_decide (is_Some t) = has_telemetry config).
Proof.
  unfold start_telemetry, has_telemetry.
  destruct (telemetry_endpoints config) as [e|]; [|by apply adds_ret].
  destruct (endpoints_is_empty e); [by apply adds_ret|]. silent. by apply adds_ret.
Qed.

Lemma adds_new_partial config :
  adds (new_partial config)
    (if_list (has_telemetry config) [TaskSpawned "telemetry" false] ++ [FinalityImport 512])
    (λ _, True).
Proof.
  unfold new_partial.
  eapply adds_bind; [apply adds_start_telemetry|intros t Ht|by rewrite app_nil_l].
  apply adds_silent; [one_call|intros executor].
  apply adds_silent; [one_call|intros [[[cl be] ks] tm]].
  eapply (adds_bind _ _ (if_list (has_telemetry config) [TaskSpawned "telemetry" false])
            [FinalityImport 512] _ (λ _, True)); [|intros telemetry _|done].
  { rewrite <-Ht. destruct t as [[w te]|]; simpl; [|by apply adds_ret].
    eapply adds_bind; [one_call|intros u _; by apply adds_ret|done]. }
  apply adds_silent; [one_call|intros sc].
  apply adds_silent; [one_call|intros pool].
  eapply adds_bind; [one_call|intros [bi link] _|by rewrite app_nil_r].
  silent. by apply adds_ret.
Qed.

Lemma adds_genesis_hash cl : adds (genesis_hash_of cl) [] (λ _, True).
Proof.
  apply adds_silent; [one_call|intros h]. cbv zeta.
  destruct (mjoin _); [by apply adds_ret|]. intros tr. exists []. by rewrite app_nil_r.
Qed.

Lemma adds_start_offchain_workers config parts network :
  adds (start_offchain_workers config parts network)
    [OffchainWorkersCreated (is_authority (role config));
     TaskSpawned "offchain-workers-runner" false] (λ _, True).
Proof.
  eapply adds_bind; [one_call|intros w _; one_call|done].
Qed.

Lemma adds_start_authoring config parts sync :
  adds (start_authoring config parts sync)
    [AuthoringStarted (force_authoring config); TaskSpawned "aura" true] (λ _, True).
Proof.
  unfold start_authoring. destruct (other parts) as [[bi link] telemetry].
  apply adds_silent; [one_call|intros factory].
  apply adds_silent; [one_call|intros slot_duration].
  eapply adds_bind; [one_call|intros w _; one_call|done].
Qed.

Lemma adds_start_grandpa config parts name service network sync :
  adds (start_grandpa config parts name service network sync)
    [VoterStarted 512 (is_authority (role config)) false; TaskSpawned "grandpa-voter" true]
    (λ _, True).
Proof.
  unfold start_grandpa. destruct (other parts) as [[bi link] telemetry].
  eapply adds_bind; [one_call|intros w _; one_call|].
  simpl. by destruct (is_authority (role config)).
Qed.

Lemma adds_new_full config : adds (new_full config) (startup config) (λ _, True).
Proof.
  unfold new_full, startup. rewrite app_assoc.
  eapply adds_bind; [apply adds_new_partial|intros parts _|done].
  destruct (other parts) as [[bi link] telemetry].
  do 3 (apply adds_silent; [one_call|intros ?]).
  apply adds_silent; [apply adds_genesis_hash|intros genesis_hash].
  apply adds_silent; [one_call|intros name].
  apply adds_silent; [one_call|intros [protocol service]].
  do 2 (apply adds_silent; [one_call|intros ?]).
  apply adds_silent; [one_call|intros [[[[network tx] ctl] starter] sync]].
  eapply adds_bind; [apply adds_when, adds_start_offchain_workers|intros _ _|done].
  eapply (adds_bind _ _ [RpcServed]); [one_call|intros _ _|done].
  eapply (adds_bind _ _ [NetworkStarted]); [one_call|intros _ _|done].
  eapply adds_bind; [apply adds_when, adds_start_authoring|intros _ _|done].
  eapply adds_bind; [apply adds_when, adds_start_grandpa|intros _ _; by apply adds_ret|].
  by rewrite app_nil_r.
Qed.

(** What [new_partial] shows on any path, and that [new_full] only adds calls. *)
Definition preparation (c : call) : Prop :=
  ∀ x, observe c = Some x → x = TaskSpawned "telemetry" false ∨ x = FinalityImport 512.

Lemma extends_new_partial config : extends preparation (new_partial config).
Proof. unfold new_partial, start_telemetry. extends ltac:(intros x [= <-]; auto). Qed.

Lemma extends_new_full config : extends (λ _, True) (new_full config).
Proof.
  unfold new_full. apply extends_bind; [|intros parts].
  - eapply extends_weaken; [apply extends_new_partial|done].
  - unfold genesis_hash_of, start_offchain_workers, start_authoring, start_grandpa, when.
    extends done.
Qed.

Lemma fail_fast_new_partial config : fail_fast (new_partial config).
Proof. unfold new_partial, start_telemetry. fail_fast. Qed.

Lemma fail_fast_new_full config : fail_fast (new_full config).
Proof.
  unfold new_full. apply fail_fast_bind; [apply fail_fast_new_partial|intros parts].
  unfold start_offchain_workers, start_authoring, start_grandpa. fail_fast.
Qed.
End Startup.

(** ** Properties *)

Section Properties.
Context `{!NodeTypes, !Answers}.
Implicit Types (config : Configuration) (tr : list call).

(** C19. A node that starts has gone through exactly the milestones its configuration
    determines, in their order: the telemetry task if there are endpoints;
    finality imports; offchain workers if enabled; the RPC before the network;
    Aura on an authority only, and its task is essential; the GRANDPA voter unless
    disabled, with a keystore on an authority only, never as an observer, and
    with the justification period of the import. *)
Theorem new_full_startup config tm tr :
  new_full config [] = (Ok tm, tr) → milestones tr = startup config.
Proof. intros Hr. by destruct (adds_ok _ _ _ _ _ _ (adds_new_full config) Hr) as [-> _]. Qed.

(** C20. A node that does not start.  Whatever the libraries answer, every error that one of
    their calls returns ends the start: a node that starts has got a value from
    each call that can fail, and one that does not start stopped at the first call
    that failed, with the error of that call and no call after it.  The one
    exception is the genesis hash, for want of which the node panics, and nothing
    else makes it panic.  Up to there the start is that of the configuration: what
    was started is a prefix of the startup, so a failing start, too, starts nothing
    out of order and nothing that the configuration leaves out. *)
Theorem new_full_fails_fast config r tr :
  new_full config [] = (r, tr) →
  match r with
  | Ok _ => succeeded tr
  | Err e => ∃ tr1 c, tr = tr1 ++ [Try c] ∧ succeeded tr1 ∧ asks_hash c = false ∧
      try_answer tr1 c = inl e
  | Panicked => ∃ tr1 cl, tr = tr1 ++ [Try (Client_block_hash cl 0)] ∧ succeeded tr1 ∧
      ¬ answered tr1 (Client_block_hash cl 0)
  end ∧ milestones tr `prefix_of` startup config.
Proof.
  intros Hr. pose proof (fail_fast_new_full config [] succeeded_nil) as Hf.
  pose proof (adds_new_full config []) as Ha. rewrite Hr in Hf, Ha. split; [exact Hf|].
  destruct r as [tm|e|]; [by destruct Ha as [-> _]|by destruct Ha as (l & ? & ->)..].
Qed.
End Properties.

(** ** Evaluation *)

(** Objects without content; a role says whether the node is an authority. *)
#[export] Instance sample_types : NodeTypes :=
  {| ServiceError := string; TelemetryEndpoints := list string;
     endpoints_is_empty := λ l, match l with [] => true | _ => false end;
     TelemetryWorker := unit; Telemetry := unit; Registry := unit; PoolConfig := unit;
     NetworkConfig := string; node_name := id; ChainSpec := unit; Database := unit;
     Role := bool; is_authority := id; Executor := unit; Client := unit; Backend := unit;
     KeystoreContainer := unit; TaskManager := unit; SelectChain := unit;
     TransactionPool := unit; BlockImport := unit; GrandpaLink := unit; ImportQueue := unit;
     FullNetConfig := unit; Metrics := unit; PeerStoreHandle := unit; BlockHash := unit;
     ProtocolName := unit; ProtocolConfig := unit; NotificationService := unit;
     WarpSync := unit; Network := unit; SystemRpcTx := unit; TxHandlerController := unit;
     NetworkStarter := unit; SyncService := unit; OffchainWorkers := unit;
     RpcHandlers := unit; ProposerFactory := unit; SlotDuration := unit; Timestamp := unit;
     Slot := unit; AuraWorker := unit; GrandpaVoter := unit |}.

Definition good_fallible (c : fallible) : fallible_answer c :=
  match c with
  | TelemetryWorker_new _ => tt
  | New_full_parts _ _ _ => (tt, tt, tt, tt)
  | Grandpa_block_import _ _ _ _ => (tt, tt)
  | Aura_import_queue _ => tt
  | Build_network _ => (tt, tt, tt, tt, tt)
  | Spawn_tasks _ => tt
  | Aura_slot_duration _ => tt
  | Start_aura _ => tt
  | Run_grandpa_voter _ => tt
  | Slot_duration_at _ _ => tt
  | Client_block_hash _ _ => Some tt
  end.

Definition good_infallible (c : infallible) : infallible_answer c :=
  match c with
  | Grandpa_peers_set_config _ _ _ => (tt, tt)
  | New_telemetry _ _ => tt
  | New_wasm_executor _ => tt
  | Spawn _ _ => tt
  | LongestChain_new _ => tt
  | BasicPool_new_full _ _ _ _ _ => tt
  | FullNetworkConfiguration_new _ => tt
  | Register_notification_metrics _ => tt
  | Peer_store_handle _ => tt
  | Protocol_standard_name _ _ => tt
  | Add_notification_protocol _ _ => tt
  | Warp_NetworkProvider_new _ _ => tt
  | OffchainWorkers_new _ => tt
  | Start_network _ => tt
  | ProposerFactory_new _ _ _ _ => tt
  | Timestamp_from_system_time => tt
  | Slot_from_timestamp_and_duration _ _ => tt
  end.

(** Libraries that always succeed. *)
#[export] Instance good_answers : Answers :=
  {| try_answer _ c := inr (good_fallible c); do_answer _ c := good_infallible c |}.

(** An authority with telemetry, and a node that only follows the chain. *)
Definition authority : Configuration :=
  {| telemetry_endpoints := Some ["wss://telemetry"%string]; transaction_pool_config := tt;
     prometheus_registry := None; network_config := "alice"%string; network_backend := Libp2p;
     chain_spec := tt; database := tt; role := true; force_authoring := false;
     disable_grandpa := false; offchain_worker_enabled := true |}.
Definition follower : Configuration :=
  {| telemetry_endpoints := Some []; transaction_pool_config := tt;
     prometheus_registry := None; network_config := "bob"%string; network_backend := Libp2p;
     chain_spec := tt; database := tt; role := false; force_authoring := false;
     disable_grandpa := true; offchain_worker_enabled := false |}.

Lemma authority_starts : new_full authority [] = (Ok tt, (new_full authority []).2).
Proof. by vm_compute. Defined.

Lemma new_full_startup_witness :
  milestones (new_full authority []).2 =
    [TaskSpawned "telemetry" false; FinalityImport 512; OffchainWorkersCreated true;
     TaskSpawned "offchain-workers-runner" false; RpcServed; NetworkStarted;
     AuthoringStarted false; TaskSpawned "aura" true; VoterStarted 512 true false;
     TaskSpawned "grandpa-voter" true].
Proof. exact (new_full_startup authority tt _ authority_starts). Defined.

Example follower_startup :
  milestones (new_full follower []).2 = [FinalityImport 512; RpcServed; NetworkStarted].
Proof. by vm_compute. Qed.

(** Libraries whose RPC server cannot start, and an authority over them: nothing of
    the network, the authoring and the voter is started. *)
Definition no_rpc : Answers :=
  {| try_answer _ c :=
       match c as c return ServiceError + fallible_answer c with
       | Spawn_tasks _ => inl "address in use"%string
       | c => inr (good_fallible c)
       end;
     do_answer _ c := good_infallible c |}.

Lemma new_full_fails_fast_witness :
  (∃ tr1 c, (@new_full _ no_rpc authority []).2 = tr1 ++ [Try c] ∧
    @succeeded _ no_rpc tr1 ∧ asks_hash c = false ∧
    @try_answer _ no_rpc tr1 c = inl "address in use"%string) ∧
  milestones (@new_full _ no_rpc authority []).2 =
    [TaskSpawned "telemetry" false; FinalityImport 512; OffchainWorkersCreated true;
     TaskSpawned "offchain-workers-runner" false; RpcServed].
Proof.
  split; [|by vm_compute].
  exact (proj1 (@new_full_fails_fast _ no_rpc authority (Err "address in use"%string)
    (@new_full _ no_rpc authority []).2 ltac:(by vm_compute))).
Defined.

(** Without a genesis block the node panics. *)
Definition no_genesis : Answers :=
  {| try_answer _ c :=
       match c as c return ServiceError + fallible_answer c with
       | Client_block_hash _ _ => inl "database"%string
       | c => inr (good_fallible c)
       end;
     do_answer _ c := good_infallible c |}.

Example no_genesis_panics : (@new_full _ no_genesis follower []).1 = Panicked.
Proof. by vm_compute. Qed.
