(* ===== verification/Command.v ===== *)
(** * The command line

    node/src/cli.rs, command.rs, chain_spec.rs, and what Miner::start prints: which
    commands there are, what each does with the node and the libraries, and the
    lines it prints.  The functions of [sc_cli] and of the benchmarks are the calls
    [cli_call] with the answers of [CliAnswers]; the trace of a run is its printed
    lines, the service's calls and these. *)

From stdpp Require Import strings pretty.
From S2P Require Import Prelude RustInt Scale Types Interfaces Reference Difficulty Entropy.
From S2P Require Import Pow Selection Rewards Pallet Runtime Miner Benchmarking Service.
Local Open Scope Z_scope.
Local Open Scope string_scope.
Local Open Scope list_scope.

(** ** Chain specifications *)

Inductive ChainType := Development | Local.

(** What the builder of a [ChainSpec] is given. *)
Record ChainSpecParts := {
  spec_wasm : list Byte.byte;
  chain_name : string;
  chain_id : string;
  chain_type : ChainType;
  genesis_preset : PresetId;
}.

Definition wasm_missing : string := "Development wasm not available".

Definition development_chain_spec (WASM_BINARY : option (list Byte.byte))
    : string + ChainSpecParts :=
  match WASM_BINARY with
  | None => inl wasm_missing
  | Some wasm =>
      inr {| spec_wasm := wasm; chain_name := "Ghost Development"; chain_id := "ghost-dev";
             chain_type := Development; genesis_preset := "dev" |}
  end.

Definition local_chain_spec (WASM_BINARY : option (list Byte.byte))
    : string + ChainSpecParts :=
  match WASM_BINARY with
  | None => inl wasm_missing
  | Some wasm =>
      inr {| spec_wasm := wasm; chain_name := "Ghost Local Testnet"; chain_id := "ghost-local";
             chain_type := Local; genesis_preset := "local_testnet" |}
  end.

(** The specification that a [--chain] argument selects: a built one or, from its
    path, the one of a JSON file. *)
Definition load_spec {JsonSpec} (WASM_BINARY : option (list Byte.byte))
    (from_json_file : string → string + JsonSpec) (id : string)
    : string + (ChainSpecParts + JsonSpec) :=
  if decide (id = "dev") then
    match development_chain_spec WASM_BINARY with inl e => inl e | inr s => inr (inl s) end
  else if decide (id = "" ∨ id = "local") then
    match local_chain_spec WASM_BINARY with inl e => inl e | inr s => inr (inl s) end
  else match from_json_file id with inl e => inl e | inr s => inr (inr s) end.

(** [impl SubstrateCli for Cli] *)
Definition impl_name : string := "Ghost Node".
Definition description : string := "Ghost blockchain node".
Definition author : string := "Ghost Blockchain Team".
Definition support_url : string := "https://github.com/devnull37/ghost-blockchain".
Definition copyright_start_year : Z := 2025.

(** ** Ghost commands *)

Inductive GhostCommands :=
  | Mine (threads : nat) (difficulty : option Z)
  | Stake (amount : Z) (account : option string)
  | Unstake (amount : Z) (account : option string)
  | Balance (account : option string)
  | Status (detailed : bool)
  | Validators (active_only : bool).

(** The escape for a new line. *)
Definition nl : string := String (Ascii.ascii_of_nat 10) "".

Definition rule : string := "═══════════════════════════════════════════════".

Section Output.
Context `{!Floats}.

(** What [Miner::start] prints before it spawns the threads and after it has joined
    them. *)
Definition start_banner (self : Miner) (block_header : MiningBlockHeader) : list string :=
  [ "🚀 Starting Ghost PoW mining...";
    "   Block Number: " +:+ pretty (mb_number block_header);
    "   Target Difficulty: " +:+ pretty (start_target self block_header);
    "   Mining Threads: " +:+ pretty (Z.of_nat (m_threads self));
    "   Algorithm: Enhanced Blake2-256 (ASIC-resistant)" +:+ nl ].

Definition start_report (result : option (Z * MiningStats)) (total_hashes : Z)
    (elapsed : Duration) : list string :=
  match result with
  | Some (nonce, stats) =>
      [ nl +:+ "✅ Block mined successfully!";
        "   Nonce: " +:+ pretty nonce;
        "   Hashes computed: " +:+ pretty total_hashes;
        "   Hash rate: " +:+ fmt_2 (hash_rate stats) +:+ " H/s";
        "   Time elapsed: " +:+ fmt_2 (as_secs_f64 elapsed) +:+ "s" ]
  | None =>
      [ nl +:+ "❌ Mining stopped without finding solution";
        "   Hashes computed: " +:+ pretty total_hashes;
        "   Time elapsed: " +:+ fmt_2 (as_secs_f64 elapsed) +:+ "s" ]
  end.

Definition mine_result (result : option (Z * MiningStats)) : list string :=
  match result with
  | Some (nonce, stats) =>
      [ nl +:+ "📦 Local mining result:";
        "   Use this nonce: " +:+ pretty nonce;
        "   Hashes computed: " +:+ pretty (hashes_computed stats);
        "   Blocks found: " +:+ pretty (blocks_found stats);
        "   Hash rate: " +:+ fmt_2 (hash_rate stats) +:+ " H/s";
        "   Time elapsed: " +:+ fmt_2 (as_secs_f64 (elapsed_time stats)) +:+ "s";
        "   This build does not wire the miner into live block submission yet." ]
  | None => [ nl +:+ "⚠️  Local mining was interrupted or failed" ]
  end.
End Output.

Definition account_line (account : option string) : string :=
  match account with
  | Some acc => "   Account: " +:+ acc
  | None => "   Using default account (Alice)"
  end.

Definition stake_preview (amount : Z) (account : option string) : list string :=
  [ "🔒 Staking call preview...";
    "   Amount: " +:+ pretty amount +:+ " Ghost tokens";
    account_line account;
    "   Minimum stake: 1 Ghost token";
    nl +:+ "📝 The pallet prototype defines stake handling,";
    "   but the node does not expose a live staking extrinsic flow yet." ].

Definition unstake_preview (amount : Z) (account : option string) : list string :=
  [ "🔓 Unstaking call preview...";
    "   Amount: " +:+ pretty amount +:+ " Ghost tokens";
    account_line account;
    nl +:+ "📝 The pallet prototype defines unstake handling,";
    "   but the node does not expose a live unstaking extrinsic flow yet." ].

Definition balance_lines (account : option string) : list string :=
  [ "💰 Checking balance and staking information..." ] ++
  match account with
  | Some acc => [ "   Account: " +:+ acc ]
  | None =>
      [ "   Showing default development accounts:";
        nl +:+ "   Alice:";
        "      Address: 5GrwvaEF5zXb26Fz9rcQpDWS57CtERHpNehXCPcNoHGKutQY";
        "      Balance: 100 Ghost tokens (genesis)";
        nl +:+ "   Bob:";
        "      Address: 5FHneW46xGXgs5mUiveU4sbTyGBzmstUspZC92UhjJM694ty";
        "      Balance: 100 Ghost tokens (genesis)" ]
  end ++
  [ nl +:+ "💡 To check live balance, connect to your running node via:";
    "   Polkadot.js Apps UI: https://polkadot.js.org/apps/#/accounts" ].

Definition status_lines (detailed : bool) : list string :=
  [ "📊 Ghost Consensus Summary";
    rule;
    "   Consensus design: Hybrid PoW + PoS + PQC";
    "   Live node authoring: Aura";
    "   Live finality: GRANDPA";
    "   Ghost pallet/runtime: informational prototype only";
    "   Block Time: 5 seconds";
    "   PoW Algorithm: Enhanced Blake2-256 (ASIC-resistant)";
    "   Reward Distribution: 40% miner, 60% stakers (prototype)";
    "   Block Reward: 10 Ghost tokens per block (prototype)" ] ++
  (if detailed then
     [ nl +:+ "📈 Detailed Information:";
       rule;
       "   Minimum Stake: 1 Ghost token (prototype)";
       "   Slashing Conditions:";
       "      - Double Signing: 100% stake slash";
       "      - Invalid Block: 50% stake slash";
       "      - Downtime (>100 blocks): 10% stake slash";
       nl +:+ "   Phase Flow:";
       "      1. PoW Mining - pallet/demo logic";
       "      2. PoS Validation - pallet/demo logic";
       "      3. Finalization - rewards bookkeeping prototype";
       nl +:+ "   Network Info:";
       "      Chain: Ghost Development Chain";
       "      Runtime: FRAME-based (Substrate)";
       "      Token: Ghost (GHTM)";
       "      PQC: Dilithium5 support is not wired into the live node RPC surface" ]
   else []) ++
  [ nl +:+ "💡 Connect your node to inspect live Aura/GRANDPA state." ].

Definition validators_lines (active_only : bool) : list string :=
  [ "👥 Validator Information";
    rule;
    (if active_only then "   Filter: Active validators only" else "   Filter: All validators");
    nl +:+ "   Default Genesis Validators:";
    "      - Alice (5GrwvaEF5zXb26Fz9rcQpDWS57CtERHpNehXCPcNoHGKutQY)";
    "      - Bob (5FHneW46xGXgs5mUiveU4sbTyGBzmstUspZC92UhjJM694ty)";
    nl +:+ "💡 Live validator state still comes from the active runtime." ].

Section Ghost.
Context `{!ScalePrims, !Hashing, !Floats}.
(** [H256::from_low_u64_be] of [primitive_types] *)
Context (from_low_u64_be : Z → H256).

Definition command_header (target_difficulty : Z) : MiningBlockHeader :=
  {| mb_number := 1; mb_parent_hash := zeros 32; mb_state_root := from_low_u64_be 1;
     mb_extrinsics_root := from_low_u64_be 2; mb_difficulty := target_difficulty |}.

Definition command_target (difficulty : option Z) : Z :=
  default ((2 ^ 64 - 1) / 1000000) difficulty.

(** [ghost mine] under a schedule of the miner's threads: [None] while [start] has
    not returned, else the lines it and the command print. *)
Definition mine_output (threads : nat) (difficulty : option Z) (schedule : list event)
    (elapsed : Duration) : option (list string) :=
  let target_difficulty := command_target difficulty in
  let block_header := command_header target_difficulty in
  let miner := Miner_new threads target_difficulty in
  result ← start miner block_header schedule elapsed;
  Some (start_banner miner block_header ++
        start_report result (hashes (shared (run_threads miner block_header schedule))) elapsed ++
        mine_result result).

(** The lines that a command prints.  It returns [Ok(())] whatever happens. *)
Definition handle_ghost_command (cmd : GhostCommands) (schedule : list event)
    (elapsed : Duration) : option (list string) :=
  match cmd with
  | Mine threads difficulty => mine_output threads difficulty schedule elapsed
  | Stake amount account => Some (stake_preview amount account)
  | Unstake amount account => Some (unstake_preview amount account)
  | Balance account => Some (balance_lines account)
  | Status detailed => Some (status_lines detailed)
  | Validators active_only => Some (validators_lines active_only)
  end.
End Ghost.

(** ** Running the node *)

(** The arguments of the library's commands, once parsed, and the errors of a
    command; [From] makes a string and a service's error one. *)
Class CliTypes `{!NodeTypes} := {
  CliError : Type;
  Error_Input : string → CliError;
  Error_Service : ServiceError → CliError;
  CommandArgs : Type;
  DbHandle : Type;
  StorageHandle : Type;
  expose_db : Backend → DbHandle;
  expose_storage : Backend → StorageHandle;
  (** what the extrinsic builders read of a client *)
  client_view : Client → ClientView;
}.

Inductive BenchmarkCmd `{!NodeTypes, !CliTypes} :=
  | BenchPallet (cmd : CommandArgs)
  | BenchBlock (cmd : CommandArgs)
  | BenchStorage (cmd : CommandArgs)
  | BenchOverhead (cmd : CommandArgs)
  | BenchExtrinsic (cmd : CommandArgs)
  | BenchMachine (cmd : CommandArgs).

Inductive Subcommand `{!NodeTypes, !CliTypes} :=
  | Key (cmd : CommandArgs)
  | BuildSpec (cmd : CommandArgs)
  | CheckBlock (cmd : CommandArgs)
  | ExportBlocks (cmd : CommandArgs)
  | ExportState (cmd : CommandArgs)
  | ImportBlocks (cmd : CommandArgs)
  | PurgeChain (cmd : CommandArgs)
  | Revert (cmd : CommandArgs)
  | Benchmark (cmd : BenchmarkCmd)
  | ChainInfo (cmd : CommandArgs)
  | Ghost (cmd : GhostCommands).

Record Cli `{!NodeTypes, !CliTypes} := {
  subcommand : option Subcommand;
  run_cmd : CommandArgs;
}.

Section Calls.
Context `{!NodeTypes, !CliTypes, !TxLibrary}.

(** The closure given to [revert]: it calls GRANDPA's. *)
Inductive AuxRevert := GrandpaRevert.

(** The futures that the asynchronous commands return. *)
Inductive AsyncWork :=
  | CheckBlock_run (cmd : CommandArgs) (client : Client) (import_queue : ImportQueue)
  | ExportBlocks_run (cmd : CommandArgs) (client : Client) (database : Database)
  | ExportState_run (cmd : CommandArgs) (client : Client) (chain_spec : ChainSpec)
  | ImportBlocks_run (cmd : CommandArgs) (client : Client) (import_queue : ImportQueue)
  | Revert_run (cmd : CommandArgs) (client : Client) (backend : Backend)
      (aux_revert : option AuxRevert).

(** The calls of the command line.  A runner calls the closure it is given once,
    with its configuration; [Block_on] runs a future to its end or the user's
    signal, [Run_until_exit] the tasks of a node. *)
Inductive cli_call :=
  | Create_runner (cmd : CommandArgs)
  | Key_run (cmd : CommandArgs)
  | BuildSpec_run (cmd : CommandArgs) (chain_spec : ChainSpec) (network : NetworkConfig)
  | Block_on (work : AsyncWork) (task_manager : TaskManager)
  | PurgeChain_run (cmd : CommandArgs) (database : Database)
  | BenchPallet_run (cmd : CommandArgs) (chain_spec : option ChainSpec)
  | BenchBlock_run (cmd : CommandArgs) (client : Client)
  | BenchStorage_run (cmd : CommandArgs) (config : Configuration) (client : Client)
      (db : DbHandle) (storage : StorageHandle)
  | BenchOverhead_run (cmd : CommandArgs) (config : Configuration) (client : Client)
      (inherent_data : InherentData) (digest_items : list (list Byte.byte))
      (ext_builder : ExtrinsicBuilder)
  | BenchExtrinsic_run (cmd : CommandArgs) (client : Client) (inherent_data : InherentData)
      (digest_items : list (list Byte.byte)) (ext_factory : list ExtrinsicBuilder)
  | BenchMachine_run (cmd : CommandArgs) (config : Configuration)
  | ChainInfo_run (cmd : CommandArgs) (config : Configuration)
  | Run_until_exit (task_manager : TaskManager).

Definition cli_answer (c : cli_call) : Type :=
  match c with Create_runner _ => Configuration | _ => unit end.

(** What a run of the program does: it prints, it makes calls of the service and
    calls of the command line. *)
Inductive command_event := Println (line : string) | ServiceCall (c : call) | CliCall (c : cli_call).

Class CliAnswers := {
  cli_answer_to : list command_event → ∀ c : cli_call, CliError + cli_answer c;
}.
End Calls.

Section Run.
Context `{!NodeTypes, !Answers, !CliTypes, !TxLibrary, !CliAnswers}.
Context `{!ScalePrims, !Hashing, !Floats}.
Context (from_low_u64_be : Z → H256).
(** whether the node is built with [--features runtime-benchmarks] *)
Context (runtime_benchmarks : bool).

Local Abbreviation M := (dispatch_m (list command_event) CliError).

Definition cli_attempt (c : cli_call) : M (cli_answer c) := λ tr,
  match cli_answer_to tr c with
  | inl e => (Err e, tr ++ [CliCall c])
  | inr a => (Ok a, tr ++ [CliCall c])
  end.

Definition println (line : string) : M unit := modify (λ tr, tr ++ [Println line]).

Definition service_call (e : command_event) : option call :=
  match e with ServiceCall c => Some c | _ => None end.
Definition service_trace (tr : list command_event) : list call := omap service_call tr.

(** A computation of the service within a command, its errors mapped to
    [Error::Service]. *)
Definition lift_service {A} (m : dispatch_m (list call) ServiceError A) : M A := λ tr,
  let '(r, tr') := m (service_trace tr) in
  (match r with Ok a => Ok a | Err e => Err (Error_Service e) | Panicked => Panicked end,
   tr ++ (ServiceCall <$> drop (length (service_trace tr)) tr')).

(** a result with a string for its error, followed by [?] *)
Definition input_error {A} (r : string + A) : M A :=
  match r with inl e => throw (Error_Input e) | inr a => mret a end.

(** The asynchronous commands: the closure builds the client and returns the
    future with the task manager. *)
Definition async_command (cmd : CommandArgs)
    (work : Configuration → PartialComponents → AsyncWork) : M unit :=
  config ← cli_attempt (Create_runner cmd);
  parts ← lift_service (new_partial config);
  cli_attempt (Block_on (work config parts) (task_manager parts)).

Definition benchmarks_disabled : string :=
  "Runtime benchmarking wasn't enabled when building the node. " +:+
  "You can enable it with `--features runtime-benchmarks`.".
Definition storage_disabled : string :=
  "Storage benchmarking can be enabled with `--features runtime-benchmarks`.".

(** The closure of [Subcommand::Benchmark]. *)
Definition run_benchmark (config : Configuration) (cmd : BenchmarkCmd) : M unit :=
  match cmd with
  | BenchPallet cmd =>
      if negb runtime_benchmarks then throw (Error_Input benchmarks_disabled)
      else cli_attempt (BenchPallet_run cmd (Some (Service.chain_spec config)))
  | BenchBlock cmd =>
      parts ← lift_service (new_partial config);
      cli_attempt (BenchBlock_run cmd (client parts))
  | BenchStorage cmd =>
      if runtime_benchmarks then
        parts ← lift_service (new_partial config);
        cli_attempt (BenchStorage_run cmd config (client parts) (expose_db (backend parts))
          (expose_storage (backend parts)))
      else throw (Error_Input storage_disabled)
  | BenchOverhead cmd =>
      parts ← lift_service (new_partial config);
      let ext_builder := RemarkBuilder (client_view (client parts)) in
      inherent_data ← input_error inherent_benchmark_data;
      cli_attempt (BenchOverhead_run cmd config (client parts) inherent_data [] ext_builder)
  | BenchExtrinsic cmd =>
      parts ← lift_service (new_partial config);
      let ext_factory :=
        [ RemarkBuilder (client_view (client parts));
          TransferKeepAliveBuilder (client_view (client parts)) (public_account Alice)
            EXISTENTIAL_DEPOSIT ] in
      inherent_data ← input_error inherent_benchmark_data;
      cli_attempt (BenchExtrinsic_run cmd (client parts) inherent_data [] ext_factory)
  | BenchMachine cmd => cli_attempt (BenchMachine_run cmd config)
  end.

(** The arguments that [create_runner] reads. *)
Definition benchmark_args (cmd : BenchmarkCmd) : CommandArgs :=
  match cmd with
  | BenchPallet c | BenchBlock c | BenchStorage c | BenchOverhead c | BenchExtrinsic c
  | BenchMachine c => c
  end.

(** The default command: a node on either network backend. *)
Definition run_node (cmd : CommandArgs) : M unit :=
  config ← cli_attempt (Create_runner cmd);
  task_manager ←
    match network_backend config with
    | Libp2p => lift_service (new_full config)
    | Litep2p => lift_service (new_full config)
    end;
  cli_attempt (Run_until_exit task_manager).

(** [command::run], which is all of [main].  [None] while [ghost mine] mines. *)
Definition run (cli : Cli) (schedule : list event) (elapsed : Duration) : option (M unit) :=
  match subcommand cli with
  | Some (Key cmd) => Some (cli_attempt (Key_run cmd))
  | Some (BuildSpec cmd) => Some (
      config ← cli_attempt (Create_runner cmd);
      cli_attempt (BuildSpec_run cmd (Service.chain_spec config) (network_config config)))
  | Some (CheckBlock cmd) => Some (async_command cmd (λ _ parts,
      CheckBlock_run cmd (client parts) (import_queue parts)))
  | Some (ExportBlocks cmd) => Some (async_command cmd (λ config parts,
      ExportBlocks_run cmd (client parts) (database config)))
  | Some (ExportState cmd) => Some (async_command cmd (λ config parts,
      ExportState_run cmd (client parts) (Service.chain_spec config)))
  | Some (ImportBlocks cmd) => Some (async_command cmd (λ _ parts,
      ImportBlocks_run cmd (client parts) (import_queue parts)))
  | Some (PurgeChain cmd) => Some (
      config ← cli_attempt (Create_runner cmd);
      cli_attempt (PurgeChain_run cmd (database config)))
  | Some (Revert cmd) => Some (async_command cmd (λ _ parts,
      Revert_run cmd (client parts) (backend parts) (Some GrandpaRevert)))
  | Some (Benchmark cmd) => Some (
      config ← cli_attempt (Create_runner (benchmark_args cmd));
      run_benchmark config cmd)
  | Some (ChainInfo cmd) => Some (
      config ← cli_attempt (Create_runner cmd);
      cli_attempt (ChainInfo_run cmd config))
  | Some (Ghost cmd) =>
      lines ← handle_ghost_command from_low_u64_be cmd schedule elapsed;
      Some (for_each lines println)
  | None => Some (run_node (run_cmd cli))
  end.
End Run.

(** ** Lemmas *)

Lemma lift_service_eq `{!NodeTypes, !CliTypes, !TxLibrary} {A}
    (m : dispatch_m (list call) ServiceError A) (tr : list command_event) l :
  (m (service_trace tr)).2 = service_trace tr ++ l →
  (lift_service m tr).2 = tr ++ (ServiceCall <$> l).
Proof.
  unfold lift_service. destruct (m (service_trace tr)) as [r tr']. simpl. intros ->.
  by rewrite drop_app_length.
Qed.

(** A property of the service's calls, as one of events. *)
Definition on_service `{!NodeTypes, !CliTypes, !TxLibrary} (Q : call → Prop)
    (e : command_event) : Prop :=
  match e with ServiceCall c => Q c | _ => True end.

Section Lemmas.
Context `{!NodeTypes, !Answers, !CliTypes, !TxLibrary, !CliAnswers}.
Implicit Types (tr : list command_event).

Lemma extends_cli_attempt (Q : command_event → Prop) c :
  Q (CliCall c) → extends Q (cli_attempt c).
Proof.
  intros Hc tr. exists [CliCall c]. unfold cli_attempt.
  by destruct (cli_answer_to tr c); rewrite Forall_singleton.
Qed.

Lemma extends_input_error Q {A} (r : string + A) : extends Q (input_error r).
Proof. destruct r; [apply extends_throw|apply extends_ret]. Qed.

Lemma extends_lift_service (Q : call → Prop) {A} (m : dispatch_m (list call) ServiceError A) :
  extends Q m → extends (on_service Q) (lift_service m).
Proof.
  intros Hm tr. destruct (Hm (service_trace tr)) as (l & Heq & Hl).
  exists (ServiceCall <$> l). split; [by apply lift_service_eq|].
  apply Forall_fmap. by eapply Forall_impl.
Qed.

Lemma service_trace_app tr l : service_trace (tr ++ l) = service_trace tr ++ service_trace l.
Proof. apply omap_app. Qed.
Lemma service_trace_calls l : service_trace (ServiceCall <$> l) = l.
Proof. unfold service_trace. induction l as [|x l IH]; simpl; [done|]. by f_equal. Qed.

(** A computation of the service within a command has its result and its trace. *)
Lemma lift_service_ok {A} (m : dispatch_m (list call) ServiceError A) tr a tr' :
  extends (λ _, True) m → lift_service m tr = (Ok a, tr') →
  m (service_trace tr) = (Ok a, service_trace tr').
Proof.
  intros Hm Hr. destruct (Hm (service_trace tr)) as (l & Heq & _).
  pose proof (lift_service_eq m tr l Heq) as Htr. rewrite Hr in Htr. simpl in Htr. subst tr'.
  rewrite service_trace_app, service_trace_calls, <-Heq. unfold lift_service in Hr.
  destruct (m (service_trace tr)) as [[a'|e|] tr1]; simplify_eq; done.
Qed.

Lemma for_each_println (lines : list string) tr :
  for_each lines println tr = (Ok tt, tr ++ (Println <$> lines)).
Proof.
  revert tr; induction lines as [|x l IH]; intros tr; [by rewrite app_nil_r|].
  change (for_each l println (tr ++ [Println x]) = (Ok tt, tr ++ (Println <$> x :: l))).
  by rewrite IH, <-app_assoc.
Qed.

End Lemmas.

(** Split a command into its calls. *)
Ltac prepare :=
  repeat first
    [ lazymatch goal with
      | |- extends _ (cli_attempt ?c) => exact (extends_cli_attempt _ c I)
      | |- extends _ (throw _) => apply extends_throw
      | |- extends _ (input_error _) => apply extends_input_error
      | |- extends _ (lift_service (new_partial _)) => apply extends_lift_service, extends_new_partial
      | |- extends _ (_ ≫= _) => apply extends_bind; [|intros ?]
      end
    | progress cbv zeta ].

Section Preparation.
Context `{!NodeTypes, !Answers, !CliTypes, !TxLibrary, !CliAnswers}.
Implicit Types (tr : list command_event).

(** The commands that prepare a client never go further than [new_partial]. *)
Lemma extends_async_command cmd work : extends (on_service preparation) (async_command cmd work).
Proof. unfold async_command. prepare. Qed.

Lemma extends_run_benchmark feature config cmd :
  extends (on_service preparation) (run_benchmark feature config cmd).
Proof. destruct cmd, feature; simpl; prepare. Qed.

(** The events of the preparation show the node only those two milestones. *)
Lemma preparation_milestones l :
  Forall (on_service preparation) l →
  milestones (service_trace l) ⊆ [TaskSpawned "telemetry" false; FinalityImport 512].
Proof.
  intros Hl x. unfold milestones, service_trace.
  intros (c & (e & He & Hc)%list_elem_of_omap & Hx)%list_elem_of_omap.
  rewrite Forall_forall in Hl. specialize (Hl e He). destruct e; simplify_eq/=.
  destruct (Hl x Hx) as [-> | ->]; set_solver.
Qed.
End Preparation.

(** ** Properties *)

Section Properties.
Context `{!NodeTypes, !Answers, !CliTypes, !TxLibrary, !CliAnswers}.
Context `{!ScalePrims, !Hashing, !Floats}.
Context (from_low_u64_be : Z → H256) (runtime_benchmarks : bool).
Implicit Types (cli : Cli) (schedule : list event) (elapsed : Duration).

(** C21. Only the default command runs a node: when it ends well it built the node
    that the runner's configuration determines and ran it until exit.  Every other
    command, whether it succeeds or fails, at most imports the GRANDPA block import
    and spawns the telemetry task: it serves no RPC, starts no network, no authoring
    and no voter. *)
Theorem only_default_runs_node cli schedule elapsed m :
  run from_low_u64_be runtime_benchmarks cli schedule elapsed = Some m →
  match subcommand cli with
  | Some _ =>
      milestones (service_trace (m []).2) ⊆ [TaskSpawned "telemetry" false; FinalityImport 512]
  | None => ∀ tr, m [] = (Ok tt, tr) →
      ∃ config tm tr0, cli_answer_to [] (Create_runner (run_cmd cli)) = inr config ∧
        milestones (service_trace tr) = startup config ∧
        tr = tr0 ++ [CliCall (Run_until_exit tm)]
  end.
Proof.
  intros Hrun. destruct (subcommand cli) as [s|] eqn:Hs.
  - assert (Hm : extends (on_service preparation) m).
    { unfold run in Hrun. rewrite Hs in Hrun. destruct s; simplify_eq;
        prepare; try apply extends_async_command; try apply extends_run_benchmark.
      apply bind_Some in Hrun as (lines & _ & [= <-]). intros tr.
      exists (Println <$> lines). rewrite for_each_println.
      split; [done|]. by apply Forall_fmap, Forall_true. }
    destruct (Hm []) as (l & -> & Hl). by apply preparation_milestones.
  - unfold run in Hrun. rewrite Hs in Hrun. simplify_eq. intros tr.
    unfold run_node. intros (config & tr1 & Hcr & Hr)%bind_ok.
    assert (Hlift : match network_backend config with
      | Libp2p => lift_service (new_full config) | Litep2p => lift_service (new_full config) end
      = lift_service (new_full config)) by (by destruct (network_backend config)).
    rewrite Hlift in Hr. apply bind_ok in Hr as (tm & tr2 & Hn & Hu).
    unfold cli_attempt in Hcr, Hu.
    destruct (cli_answer_to [] (Create_runner (run_cmd cli))) as [e|config'] eqn:Hc; [done|].
    destruct (cli_answer_to tr2 (Run_until_exit tm)); [done|]. simplify_eq/=.
    apply lift_service_ok in Hn; [|apply extends_new_full].
    exists config, tm, tr2. split_and!; [done| |done].
    rewrite service_trace_app. simpl. rewrite app_nil_r.
    by destruct (adds_ok _ _ _ _ _ _ (adds_new_full config) Hn) as [-> _].
Qed.

(** The Ghost commands print and do nothing else: they succeed without a call of
    the service or of the libraries, and all but the miner's return at once. *)
Theorem ghost_commands_only_print cli cmd schedule elapsed :
  subcommand cli = Some (Ghost cmd) →
  match run from_low_u64_be runtime_benchmarks cli schedule elapsed with
  | Some m => ∃ lines, ∀ tr, m tr = (Ok tt, tr ++ (Println <$> lines))
  | None => ∃ threads difficulty, cmd = Mine threads difficulty ∧
      start (Miner_new threads (command_target difficulty))
        (command_header from_low_u64_be (command_target difficulty)) schedule elapsed = None
  end.
Proof.
  intros Hs. unfold run. rewrite Hs.
  destruct (handle_ghost_command from_low_u64_be cmd schedule elapsed) as [lines|] eqn:Hl; simpl.
  - exists lines. intros tr. apply for_each_println.
  - destruct cmd as [threads difficulty| | | | |]; try discriminate. exists threads, difficulty.
    split; [done|]. simpl in Hl. unfold mine_output in Hl.
    destruct (start _ _ schedule elapsed); [discriminate|done].
Qed.

(** The command of the README, one thread and the largest difficulty, finds the
    nonce 0 with its first hash, whatever the hash function: six steps of the
    thread and [ghost mine] has printed it. *)
Theorem readme_command_mines elapsed :
  ∃ lines, handle_ghost_command from_low_u64_be (Mine 1 (Some 18446744073709551615))
      (replicate 6 (Run 0)) elapsed = Some lines ∧
    "   Use this nonce: 0" ∈ lines ∧ "   Hashes computed: 1" ∈ lines.
Proof.
  set (h := command_header from_low_u64_be 18446744073709551615).
  set (m := Miner_new 1 18446744073709551615).
  assert (Hrun : run_threads m h (replicate 6 (Run 0)) =
    {| shared := {| running := false; found_solution := true; found_nonce := 0; hashes := 1 |};
       workers := [Finished] |}).
  { unfold run_threads, execute, start_pool. simpl.
    assert (Hle : (nonce_hash_value h (Z.of_nat 0) <=? start_target m h)%Z = true).
    { apply Z.leb_le. change (start_target m h) with 18446744073709551615.
      match goal with |- (nonce_hash_value ?h ?n ≤ _)%Z =>
        pose proof (hash_value_u64 (hash_of (scale_array 32) (hash_of scale_hash_input
          (mb_number h, mb_parent_hash h, mb_state_root h, mb_extrinsics_root h, n))))
        as [_ Hlt] end.
      unfold nonce_hash_value. apply Z.lt_succ_r. exact Hlt. }
    by rewrite Hle. }
  assert (Hmine : mine_output from_low_u64_be 1 (Some 18446744073709551615)
      (replicate 6 (Run 0)) elapsed =
    (result ← start m h (replicate 6 (Run 0)) elapsed;
     Some (start_banner m h ++
       start_report result (hashes (shared (run_threads m h (replicate 6 (Run 0))))) elapsed ++
       mine_result result))) by done.
  unfold start in Hmine. rewrite Hrun in Hmine.
  eexists. split; [exact Hmine|]. unfold start_result, start_report, mine_result. cbn [shared found_solution].
  split; rewrite !elem_of_app; right; [right|left]; rewrite !elem_of_cons; auto.
Qed.

(** Without the feature the pallet and storage benchmarks fail as soon as there is
    a runner: they touch neither the service nor a database. *)
Theorem benchmarks_need_feature cli schedule elapsed args config m :
  subcommand cli = Some (Benchmark (BenchPallet args)) ∨
  subcommand cli = Some (Benchmark (BenchStorage args)) →
  cli_answer_to [] (Create_runner args) = inr config →
  run from_low_u64_be false cli schedule elapsed = Some m →
  ∃ message, m [] = (Err (Error_Input message), [CliCall (Create_runner args)]) ∧
    (message = benchmarks_disabled ∨ message = storage_disabled).
Proof.
  intros Hs Hc Hr. unfold run in Hr.
  assert (Hcr : cli_attempt (Create_runner args) [] = (Ok config, [CliCall (Create_runner args)]))
    by (unfold cli_attempt; by rewrite Hc).
  destruct Hs as [Hs|Hs]; rewrite Hs in Hr; simplify_eq;
    [exists benchmarks_disabled|exists storage_disabled];
    (split; [|by auto]); exact (bind_run _ _ _ _ _ Hcr).
Qed.

(** The nonce that [ghost mine] tells its user to use is a solution: the pallet's
    verifier accepts the command's header with it at the command's difficulty. *)
Theorem printed_nonce_is_valid threads difficulty schedule elapsed lines n :
  handle_ghost_command from_low_u64_be (Mine threads difficulty) schedule elapsed = Some lines →
  "   Use this nonce: " +:+ pretty n ∈ lines →
  verify_pow_enhanced
    (pallet_header (command_header from_low_u64_be (command_target difficulty)) n)
    (command_target difficulty) = true.
Proof.
  simpl. unfold mine_output. intros (r & Hr & [= <-])%bind_Some Hin.
  assert (Hn : ∃ stats, r = Some (n, stats)).
  { revert Hin. unfold start_banner, start_report, mine_result.
    destruct r as [[n' stats]|]; cbn [app]; rewrite !elem_of_cons, elem_of_nil;
      intros Hin; destruct_or?; simplify_eq/=; by eauto. }
  destruct Hn as [stats ->]. apply start_solution in Hr as [Hle _].
  unfold verify_pow_enhanced. rewrite Z.leb_le. etransitivity; [exact Hle|].
  unfold start_target. simpl. lia.
Qed.
End Properties.

(** The lines of [ghost status] and [ghost stake] say what the runtime is
    configured to do: the block time, the reward with its split, the minimum
    stake, and the slashes with the downtime they wait for. *)
Theorem status_matches_runtime :
  let c := runtime_config in
  (∀ detailed,
    "   Block Time: " +:+ pretty (SLOT_DURATION / 1000) +:+ " seconds" ∈ status_lines detailed ∧
    "   Block Reward: " +:+ pretty (@T_BlockReward c / UNIT) +:+
      " Ghost tokens per block (prototype)" ∈ status_lines detailed ∧
    match @calculate_block_reward Selection.debug_build 100 with
    | Some r => "   Reward Distribution: " +:+ pretty (miner_reward r) +:+ "% miner, " +:+
                pretty (stakers_reward r) +:+ "% stakers (prototype)" ∈ status_lines detailed
    | None => False
    end) ∧
  "   Minimum Stake: " +:+ pretty (@T_MinStake c / UNIT) +:+ " Ghost token (prototype)"
    ∈ status_lines true ∧
  "      - Double Signing: " +:+ pretty (@T_DoubleSignSlashPercentage c) +:+ "% stake slash"
    ∈ status_lines true ∧
  "      - Invalid Block: " +:+ pretty (@T_InvalidBlockSlashPercentage c) +:+ "% stake slash"
    ∈ status_lines true ∧
  "      - Downtime (>" +:+ pretty (@T_MaxDowntimeBlocks c) +:+ " blocks): " +:+
    pretty (@T_DowntimeSlashPercentage c) +:+ "% stake slash" ∈ status_lines true ∧
  (∀ amount account, "   Minimum stake: " +:+ pretty (@T_MinStake c / UNIT) +:+ " Ghost token"
    ∈ stake_preview amount account).
Proof.
  cbv zeta. split_and!; [intros []; split_and!|..|intros amount account];
    try (apply list_elem_of_In; vm_compute; tauto).
Qed.

(** Every chain specification that is built in starts from a preset that the
    runtime has, and with the runtime's code; the other identifiers are paths. *)
Theorem chain_specs_have_presets {JsonSpec} (wasm : list Byte.byte)
    (from_json_file : string → string + JsonSpec) id :
  match load_spec (Some wasm) from_json_file id with
  | inr (inl spec) => is_Some (get_preset (genesis_preset spec)) ∧
      genesis_preset spec ∈ preset_names ∧ spec_wasm spec = wasm ∧
      id ∈ ["dev"; ""; "local"]
  | inr (inr json) => from_json_file id = inr json
  | inl e => from_json_file id = inl e ∧ id ∉ ["dev"; ""; "local"]
  end.
Proof.
  unfold load_spec. simpl.
  destruct (decide (id = "dev")) as [->|Hd]; simpl.
  { split_and!; [by eexists|by left|done|by left]. }
  destruct (decide _) as [Hl|Hl]; simpl.
  { split_and!; [by eexists|by right; left|done|]. rewrite !elem_of_cons. tauto. }
  destruct (from_json_file id); [split; [done|]|done].
  rewrite !elem_of_cons, elem_of_nil. tauto.
Qed.

(** The balance that [ghost balance] prints for the development accounts is not
    the one of the presets. *)
Lemma printed_balance_differs :
  "      Balance: 100 Ghost tokens (genesis)" ∈ balance_lines None ∧
  endowment / UNIT = 1152921 ∧
  Forall (λ g, Forall (λ kb, kb.2 = endowment) (g_balances g))
    [development_config_genesis; local_config_genesis].
Proof.
  split_and!; [apply list_elem_of_In; vm_compute; tauto|by vm_compute|].
  repeat constructor.
Qed.

(** ** Evaluation *)

(** Errors are strings, and so are arguments: [follow] is the configuration of a
    node that only follows the chain. *)
#[export] Instance sample_cli : CliTypes :=
  {| CliError := string; Error_Input := id; Error_Service := id; CommandArgs := string;
     DbHandle := unit; StorageHandle := unit; expose_db := id; expose_storage := id;
     client_view _ := sample_client |}.

#[export] Instance sample_cli_answers : CliAnswers :=
  {| cli_answer_to _ c :=
       match c as c return (CliError + cli_answer c) with
       | Create_runner cmd =>
           inr (if decide ((cmd : string) = "follow") then follower else authority)
       | _ => inr tt
       end |}.

Definition command (s : option Subcommand) : Cli := {| subcommand := s; run_cmd := "follow" |}.
Definition no_u64 (_ : Z) : H256 := zeros 32.
Definition solo : list event := replicate 6 (Run 0).
Definition run_sample (s : option Subcommand) : option (dispatch_m (list command_event) CliError unit) :=
  run no_u64 false (command s) solo one_second.

(** Arguments of the library's types. *)
Definition args (s : string) : CommandArgs := s.

Lemma only_default_runs_node_witness :
  milestones (service_trace (default (mret tt) (run_sample (Some (CheckBlock (args "check")))) []).2)
    ⊆ [TaskSpawned "telemetry" false; FinalityImport 512].
Proof.
  exact (only_default_runs_node no_u64 false (command (Some (CheckBlock (args "check")))) solo
           one_second _ eq_refl).
Defined.

Lemma ghost_commands_only_print_witness :
  match run_sample (Some (Ghost (Status true))) with
  | Some m => ∃ lines, ∀ tr, m tr = (Ok tt, tr ++ (Println <$> lines))
  | None => ∃ threads difficulty, Status true = Mine threads difficulty ∧
      start (Miner_new threads (command_target difficulty))
        (command_header no_u64 (command_target difficulty)) solo one_second = None
  end.
Proof.
  exact (ghost_commands_only_print no_u64 false (command (Some (Ghost (Status true))))
           (Status true) solo one_second eq_refl).
Defined.

Lemma benchmarks_need_feature_witness :
  ∃ message, default (mret tt) (run_sample (Some (Benchmark (BenchStorage (args "storage"))))) []
      = (Err (Error_Input message), [CliCall (Create_runner (args "storage"))]) ∧
    (message = benchmarks_disabled ∨ message = storage_disabled).
Proof.
  exact (benchmarks_need_feature no_u64
           (command (Some (Benchmark (BenchStorage (args "storage"))))) solo one_second
           (args "storage") authority _ (or_intror eq_refl) eq_refl eq_refl).
Defined.

Lemma printed_nonce_is_valid_witness :
  verify_pow_enhanced (pallet_header (command_header no_u64 (2 ^ 64 - 1)) 0) (2 ^ 64 - 1) = true.
Proof.
  apply (printed_nonce_is_valid no_u64 1 (Some (2 ^ 64 - 1)) solo one_second
           (default [] (mine_output no_u64 1 (Some (2 ^ 64 - 1)) solo one_second)) 0).
  - apply some_default. by vm_compute.
  - apply list_elem_of_In. vm_compute. tauto.
Defined.

(** The default command on a follower, a zero-thread miner, and a missing client. *)
Example follower_runs :
  milestones (service_trace (default (mret tt) (run_sample None) []).2) =
    [FinalityImport 512; RpcServed; NetworkStarted].
Proof. by vm_compute. Qed.

Example no_threads_no_nonce :
  last <$> handle_ghost_command no_u64 (Mine 0 None) [] one_second =
    Some (Some (nl +:+ "⚠️  Local mining was interrupted or failed")).
Proof. by vm_compute. Qed.
