(* ===== verification/Node.v ===== *)
(** * Seal, RPC and engine

    The proof-of-work seal of primitives/ghost-pow/src/lib.rs; the consensus RPC of
    pallets/pallet-ghost-consensus/src/rpc.rs; the engine, the block import and the
    proposer of consensus.rs there; the RPC module of the node, node/src/rpc.rs,
    over the library [RpcLibrary]. *)

From stdpp Require Import gmap strings.
From S2P Require Import Prelude RustInt Scale Types Interfaces Reference Pow.
Local Open Scope Z_scope.
Local Open Scope ghost_scope.

(** ** [GhostSeal] *)

(** [*b"pow_"] *)
Definition POW_ENGINE_ID : array 4 :=
  @Array 4 [Byte.x70; Byte.x6f; Byte.x77; Byte.x5f] eq_refl.

Record GhostSeal := { seal_nonce : Z (* u64 *) }.

Section Seal.
Context `{!ScalePrims}.

(** [#[derive(Encode, Decode)]] on a struct of one field *)
Definition scale_seal : codec GhostSeal := codec_iso Build_GhostSeal seal_nonce scale_u64.
End Seal.

(** [decl_runtime_apis! { pub trait GhostPowApi }]: a declaration, which no runtime
    of the repository implements *)
Class GhostPowApi (RuntimeState : Type) := {
  next_difficulty : RuntimeState → Z; (* U256 *)
}.

(** ** The consensus RPC *)

Section Rpc.
Context {Hash AccountId Balance ApiError : Type}.

(** The runtime API, which no runtime of the repository implements, and the best
    block of the client. *)
Record RpcClient := {
  best_hash : Hash;
  api_difficulty : Hash → ApiError + Z;
  api_current_phase : Hash → ApiError + Z; (* u8 *)
  api_validator_stake : Hash → AccountId → ApiError + option Balance;
  api_all_validators : Hash → ApiError + list (AccountId * Balance);
  api_slashing_records_count : Hash → ApiError + Z;
}.

Variable err_to_string : ApiError → string.

Record ErrorObject := { code : Z; message : string; data : string }.
Definition runtime_error_into_rpc_error (err : ApiError) : ErrorObject :=
  {| code := 1; message := "Runtime error"; data := err_to_string err |}.

Definition map_err {A} (r : ApiError + A) : ErrorObject + A :=
  match r with inl e => inl (runtime_error_into_rpc_error e) | inr a => inr a end.

Definition at_or_best (self : RpcClient) (at_ : option Hash) : Hash :=
  default (best_hash self) at_.

Definition get_difficulty (self : RpcClient) (at_ : option Hash) : ErrorObject + Z :=
  map_err (api_difficulty self (at_or_best self at_)).

Definition phase_name (phase_num : Z) : string :=
  if phase_num =? 0 then "PowMining"
  else if phase_num =? 1 then "PosValidation"
  else if phase_num =? 2 then "Finalization"
  else "Unknown".

Definition get_current_phase (self : RpcClient) (at_ : option Hash) : ErrorObject + string :=
  match map_err (api_current_phase self (at_or_best self at_)) with
  | inl e => inl e
  | inr phase_num => inr (phase_name phase_num)
  end.

Definition get_validator_stake (self : RpcClient) (validator : AccountId)
    (at_ : option Hash) : ErrorObject + option Balance :=
  map_err (api_validator_stake self (at_or_best self at_) validator).

Definition get_all_validators (self : RpcClient) (at_ : option Hash)
    : ErrorObject + list (AccountId * Balance) :=
  map_err (api_all_validators self (at_or_best self at_)).

Definition get_slashing_records (self : RpcClient) (at_ : option Hash) : ErrorObject + Z :=
  map_err (api_slashing_records_count self (at_or_best self at_)).
End Rpc.

(** The index that the derived codec of [ConsensusPhase] gives a phase. *)
Definition phase_index (p : ConsensusPhase) : Z :=
  match p with PowMining => 0 | PosValidation => 1 | Finalization => 2 end.

(** The names under which the consensus RPC registers its methods. *)
Definition consensus_rpc_methods : list string :=
  ["ghost_getDifficulty"; "ghost_getCurrentPhase"; "ghost_getValidatorStake";
   "ghost_getAllValidators"; "ghost_getSlashingRecords"]%string.

(** ** The RPC of the node *)

(** What [jsonrpsee] and the two RPC crates provide: modules with their method
    names, the answer of a method without parameters, and the merge of two. *)
Class RpcLibrary := {
  RpcModule : Type;
  RegisterError : Type;
  RpcModule_new : RpcModule;
  merge : RpcModule → RpcModule → RegisterError + RpcModule;
  method_names : RpcModule → list string;
  call_method : RpcModule → string → option string;
  (** [into_rpc] of a server, from its methods *)
  into_rpc : list (string * string) → RpcModule;
  RpcClientRef : Type;
  RpcPool : Type;
  DenyUnsafe : Type;
  System_rpc : RpcClientRef → RpcPool → DenyUnsafe → RpcModule;
  TransactionPayment_rpc : RpcClientRef → RpcModule;
}.

(** Their documentation: a merge fails exactly when a method is already present,
    and keeps the methods of both sides. *)
Class RpcLibraryOk `{!RpcLibrary} : Prop := {
  new_names : method_names RpcModule_new = [];
  merge_ok m1 m2 : method_names m1 ## method_names m2 →
    ∃ m, merge m1 m2 = inr m ∧ method_names m = method_names m1 ++ method_names m2 ∧
      ∀ n, n ∈ method_names m2 → call_method m n = call_method m2 n;
  merge_fails m1 m2 n : n ∈ method_names m1 → n ∈ method_names m2 →
    ∃ e, merge m1 m2 = inl e;
  into_rpc_names l : NoDup l.*1 → method_names (into_rpc l) = l.*1;
  into_rpc_call l n a : NoDup l.*1 → (n, a) ∈ l → call_method (into_rpc l) n = Some a;
}.

Section NodeRpc.
Context `{!RpcLibrary}.

(** [FullDeps] *)
Record FullDeps := { d_client : RpcClientRef; d_pool : RpcPool; d_deny_unsafe : DenyUnsafe }.

(** [GhostNodeRpc]; its methods never fail. *)
Definition get_node_status : string :=
  "Ghost node uses Aura for authoring and GRANDPA for finality in this build.".
Definition get_consensus_mode : string :=
  "Aura + GRANDPA live; Ghost hybrid PoW + PoS remains informational/prototype code.".
Definition get_pqc_status : string :=
  "Dilithium5 support is not wired into the live node RPC surface yet.".
Definition GhostNodeRpc : list (string * string) :=
  [ ("ghost_getNodeStatus"%string, get_node_status);
    ("ghost_getConsensusMode"%string, get_consensus_mode);
    ("ghost_getPqcStatus"%string, get_pqc_status) ].

Definition create_full (deps : FullDeps) : RegisterError + RpcModule :=
  match merge RpcModule_new (System_rpc (d_client deps) (d_pool deps) (d_deny_unsafe deps)) with
  | inl e => inl e
  | inr module =>
      match merge module (TransactionPayment_rpc (d_client deps)) with
      | inl e => inl e
      | inr module => merge module (into_rpc GhostNodeRpc)
      end
  end.
End NodeRpc.

(** ** Consensus engine, block import and proposer *)

Inductive ForkChoiceStrategy := LongestChain | Custom (best : bool).

Record GhostConsensusEngine (C : Type) := { engine_client : C }.
Record GhostBlockImport (C : Type) := { import_client : C }.
Record GhostProposer (C : Type) := { proposer_client : C }.
Arguments engine_client {C}.
Arguments Build_GhostBlockImport {C}.

Definition engine_name : string := "GhostConsensus".
Definition engine_version : Z * Z * Z := (1, 0, 0).
Definition fork_choice_strategy : ForkChoiceStrategy := LongestChain.
Definition engine_block_import {C} (self : GhostConsensusEngine C) : GhostBlockImport C :=
  Build_GhostBlockImport (engine_client self).

(** [ImportedAux], the flags of an imported block. *)
Record ImportedAux := {
  header_only : bool;
  clear_justification_requests : bool;
  needs_justification : bool;
  bad_justification : bool;
  is_new_best : bool;
}.

Definition imported : ImportedAux :=
  {| header_only := false; clear_justification_requests := false;
     needs_justification := false; bad_justification := false; is_new_best := true |}.

Inductive ConsensusError := CannotPropose.

(** Neither looks at the block it is given. *)
Definition check_block {Block} (_ : Block) : ConsensusError + ImportedAux := inr imported.
Definition import_block {Block} (_ : Block) : ConsensusError + ImportedAux := inr imported.
(** No proposal is ever made. *)
Definition propose {Params Proposal} (_ : Params) : ConsensusError + Proposal := inl CannotPropose.

(** ** Properties *)

(** The seal survives its encoding, with any trailing bytes, and two seals with
    the same encoding carry the same nonce. *)
Theorem seal_roundtrip `{!ScalePrims, !ScalePrimsOk} s s' rest :
  in_uint U64 (seal_nonce s) → in_uint U64 (seal_nonce s') →
  dec scale_seal (enc scale_seal s ++ rest) = Some (s, rest) ∧
  (enc scale_seal s = enc scale_seal s' → s = s').
Proof.
  intros Hs Hs'.
  assert (Hok : codec_ok scale_seal) by (apply codec_iso_ok; [by intros []|apply scale_u64_ok]).
  assert (Hdom : ∀ x, in_uint U64 (seal_nonce x) → dom scale_seal x)
    by (intros x Hx; by apply scale_u64_dom).
  split; [by apply Hok, Hdom|]. intros Heq.
  eapply (codec_ok_inj scale_seal _ _ [] []); [done|by auto..|by rewrite !app_nil_r].
Qed.

(** The phase the RPC names is the phase of the runtime: the three indices of the
    phase's codec have three different names, and no other index has one of them. *)
Theorem rpc_phase_names_faithful (p : ConsensusPhase) (n : Z) :
  phase_name n = phase_name (phase_index p) ↔ n = phase_index p.
Proof.
  split; [|by intros ->]. unfold phase_name.
  destruct (Z.eqb_spec n 0), (Z.eqb_spec n 1), (Z.eqb_spec n 2); destruct p; simpl;
    intros; first [discriminate | lia].
Qed.

(** A merge succeeds with both sides' methods, or they share one. *)
Lemma merge_cases `{!RpcLibrary, !RpcLibraryOk} (m1 m2 : RpcModule) :
  (∃ m, merge m1 m2 = inr m ∧ method_names m = method_names m1 ++ method_names m2 ∧
     ∀ n, n ∈ method_names m2 → call_method m n = call_method m2 n) ∨
  (∃ e, merge m1 m2 = inl e ∧ ∃ n, n ∈ method_names m1 ∧ n ∈ method_names m2).
Proof.
  destruct (decide (Exists (λ n, n ∈ method_names m2) (method_names m1))) as [He|He].
  - right. apply Exists_exists in He as (n & Hl & Hr).
    destruct (merge_fails m1 m2 n Hl Hr) as [e ->]. by eauto.
  - left. apply merge_ok. intros n Hl Hr. apply He, Exists_exists. by exists n.
Qed.

Lemma status_methods_distinct n : n ∈ consensus_rpc_methods → n ∉ GhostNodeRpc.*1.
Proof.
  revert n. apply Forall_forall. eapply (bool_decide_unpack _). by vm_compute.
Qed.

(** C34. The node's RPC module exists exactly when no two of its three parts share a
    method; then its methods are those of the parts, and the status methods of the
    node answer with their messages.  None of the status methods has a name of the
    consensus RPC: that RPC is served only if a library part serves it. *)
Theorem create_full_correct `{!RpcLibrary, !RpcLibraryOk} (deps : FullDeps) :
  let system := method_names (System_rpc (d_client deps) (d_pool deps) (d_deny_unsafe deps)) in
  let payment := method_names (TransactionPayment_rpc (d_client deps)) in
  match create_full deps with
  | inr module =>
      method_names module = system ++ payment ++ GhostNodeRpc.*1 ∧
      Forall (λ na, call_method module na.1 = Some na.2) GhostNodeRpc ∧
      (∀ n, n ∈ consensus_rpc_methods → n ∈ method_names module → n ∈ system ++ payment)
  | inl _ => ∃ n, (n ∈ system ∧ n ∈ payment) ∨ (n ∈ system ++ payment ∧ n ∈ GhostNodeRpc.*1)
  end.
Proof.
  cbv zeta. unfold create_full.
  set (sys := System_rpc _ _ _). set (pay := TransactionPayment_rpc _).
  assert (Hnd : NoDup GhostNodeRpc.*1) by (apply (bool_decide_unpack _); by vm_compute).
  destruct (merge_ok RpcModule_new sys) as (m1 & -> & Hn1 & _);
    [rewrite new_names; intros n []%not_elem_of_nil|].
  rewrite new_names in Hn1. simpl in Hn1.
  destruct (merge_cases m1 pay) as [(m2 & -> & Hn2 & _)|(e & -> & n & Hl & Hr)];
    [|exists n; left; by rewrite Hn1 in Hl].
  rewrite Hn1 in Hn2.
  destruct (merge_cases m2 (into_rpc GhostNodeRpc)) as [(m & -> & Hn & Hc)|(e & -> & n & Hl & Hr)];
    rewrite (into_rpc_names _ Hnd) in *;
    [|exists n; right; by rewrite Hn2 in Hl].
  rewrite Hn2, <-app_assoc in Hn. split_and!; [done| |].
  - apply Forall_forall. intros [n a] Hin. simpl. rewrite (Hc n).
    + by apply into_rpc_call.
    + apply list_elem_of_fmap. by exists (n, a).
  - intros n Hin. rewrite Hn, app_assoc, elem_of_app. intros [?|Hg]; [done|].
    by eapply status_methods_distinct in Hg.
Qed.

(** ** Evaluation *)

(** Modules as association lists. *)
#[export] Instance sample_rpc : RpcLibrary :=
  {| RpcModule := list (string * string); RegisterError := string; RpcModule_new := [];
     merge m1 m2 := if decide (Forall (λ n, n ∉ m2.*1) m1.*1) then inr (m1 ++ m2) else inl "taken"%string;
     method_names m := m.*1; call_method m n := (list_to_map m : gmap string string) !! n;
     into_rpc := id; RpcClientRef := unit; RpcPool := unit; DenyUnsafe := unit;
     System_rpc _ _ _ := [("system_dryRun"%string, "ok"%string)];
     TransactionPayment_rpc _ := [("payment_queryInfo"%string, "info"%string)] |}.

#[export] Instance sample_rpc_ok : RpcLibraryOk.
Proof.
  split; simpl.
  - done.
  - intros m1 m2 Hd. rewrite decide_True by (by apply Forall_forall; intros n ??; eapply Hd). exists (m1 ++ m2).
    split_and!; [done|by rewrite fmap_app|]. intros n Hn.
    rewrite list_to_map_app, lookup_union_r; [done|].
    apply not_elem_of_list_to_map. intros Hn1. by eapply Hd.
  - intros m1 m2 n H1 H2. rewrite decide_False; [by eexists|].
    intros Hd. rewrite Forall_forall in Hd. by eapply Hd.
  - done.
  - intros l n a Hnd Hin. by apply elem_of_list_to_map.
Qed.

Lemma create_full_correct_witness :
  let deps := {| d_client := tt; d_pool := tt; d_deny_unsafe := tt |} : FullDeps in
  match create_full deps with
  | inr module =>
      method_names module = ["system_dryRun"; "payment_queryInfo"]%string ++ GhostNodeRpc.*1 ∧
      Forall (λ na, call_method module na.1 = Some na.2) GhostNodeRpc ∧
      (∀ n, n ∈ consensus_rpc_methods → n ∈ method_names module →
         n ∈ ["system_dryRun"; "payment_queryInfo"]%string)
  | inl _ => ∃ n, (n ∈ ["system_dryRun"%string] ∧ n ∈ ["payment_queryInfo"%string]) ∨
      (n ∈ ["system_dryRun"; "payment_queryInfo"]%string ∧ n ∈ GhostNodeRpc.*1)
  end.
Proof. intros deps. exact (create_full_correct deps). Defined.

Lemma seal_roundtrip_witness :
  dec scale_seal (enc scale_seal {| seal_nonce := 42 |} ++ [Byte.x01])
    = Some ({| seal_nonce := 42 |}, [Byte.x01]).
Proof.
  apply (seal_roundtrip {| seal_nonce := 42 |} {| seal_nonce := 42 |} [Byte.x01]);
    by vm_compute.
Defined.
