(* ===== verification/Tests.v ===== *)
(** * The unit tests of the pallets

    The scenarios of pallets/pallet-ghost-consensus/src/tests.rs on the mock
    runtime of mock.rs: its configuration, an existential deposit of 1, overflow
    checks and [std]; and those of pallets/template/src/tests.rs.
    Each is a boolean that the model evaluates.  The three that depend on the
    values of the hash functions are stated for any of them, with the values for
    which they pass. *)

From stdpp Require Import strings.
From S2P Require Import Prelude RustInt Scale Types Interfaces Reference Difficulty Entropy.
From S2P Require Import Pow Selection Rewards Pallet Runtime Calls Slashing Safety Consensus.
From S2P Require Template.
Local Open Scope Z_scope.
Local Open Scope ghost_scope.

#[local] Existing Instance debug_build.
#[local] Existing Instance mock_config.
#[local] Instance mock_currency : Currency AccountId := ref_currency 1.

(** The pallets of the two mock runtimes, with their indices. *)
Definition mock_pallets : list (Z * string) :=
  [(0, "System"); (1, "Balances"); (2, "GhostConsensus")]%string.
Definition template_mock_pallets : list (Z * string) := [(0, "System"); (1, "Template")]%string.

(** [ExtBuilder::build]: the endowed accounts and the initial values. *)
Definition GHOST : Z := 1000000000000000000.
Definition ext_balances : gmap AccountId Z :=
  <[1 := 100 * GHOST]> (<[2 := 100 * GHOST]> (<[3 := 100 * GHOST]>
    (<[4 := 50 * GHOST]> (<[5 := 25 * GHOST]> ∅)))).
Definition ext_build : State AccountId :=
  set_CurrentPhase PowMining
    (set_Difficulty 1000000000000 (genesis_state (Ledger ext_balances (375 * GHOST)))).

(** [run_test]: a test starts from this state. *)
Definition run_test {T} (f : State AccountId → T) : T := f ext_build.

(** [create_block_header]; the codec of strings is the library's, here their
    bytes. *)
Definition scale_str : codec string :=
  {| dom _ := True; enc x := String.list_byte_of_string x; dec _ := None |}.
Definition create_block_header `{!ScalePrims, !Hashing} (number nonce : Z) : GhostBlockHeader :=
  {| number := number;
     parent_hash := if decide (number = 0) then zeros 32 else hash_of scale_u32 (number - 1);
     state_root := hash_of (scale_u32 ⊗ scale_str) (number, "state"%string);
     extrinsics_root := hash_of (scale_u32 ⊗ scale_str) (number, "extrinsics"%string);
     nonce := nonce;
     difficulty := 1000000000000; validator_signature := None; pqc_signature := None |}.

Definition escrow : AccountId := account_id.

(** [assert_ok!] and [assert_err!] *)
Definition assert_ok (o : @OriginFor AccountId _ _ ref_frame) (c : Call AccountId)
    (s : State AccountId) (k : State AccountId → bool) : bool :=
  match dispatch o c s with (Ok _, s') => k s' | _ => false end.
Definition assert_err (o : @OriginFor AccountId _ _ ref_frame) (c : Call AccountId)
    (s : State AccountId) (e : Error) : bool :=
  match dispatch o c s, e with
  | (Err (Module InsufficientStake), _), InsufficientStake
  | (Err (Module NotAValidator), _), NotAValidator => true
  | _, _ => false
  end.

Definition free (a : AccountId) (s : State AccountId) : Z := free_balance a (balances s).
Definition stake_is (a : AccountId) (v : Z) (s : State AccountId) : bool :=
  bool_decide (ValidatorStakes s !! a = Some v).

Definition test_genesis_config : bool :=
  (Difficulty ext_build =? 1000000000000) && bool_decide (CurrentPhase ext_build = PowMining).

Definition test_difficulty_adjustment_increase : bool :=
  calculate_difficulty_adjustment 1000000 3 5 4000000 =? 600000.

Definition test_difficulty_adjustment_decrease : bool :=
  calculate_difficulty_adjustment 1000000 10 5 4000000 =? 2000000.

Definition test_staking_basic : bool :=
  assert_ok (signed 1) (Call_stake (10 * GHOST)) ext_build (λ s,
    stake_is 1 (10 * GHOST) s && (free 1 s =? 90 * GHOST) && (free escrow s =? 10 * GHOST)).

Definition test_staking_escrow_and_unstaking_returns_funds : bool :=
  assert_ok (signed 1) (Call_stake (10 * GHOST)) ext_build (λ s,
    (free 1 s =? 90 * GHOST) && (free escrow s =? 10 * GHOST) &&
    assert_ok (signed 1) (Call_unstake (4 * GHOST)) s (λ s',
      stake_is 1 (10 * GHOST - 4 * GHOST) s' && (free 1 s' =? 94 * GHOST) &&
      (free escrow s' =? 10 * GHOST - 4 * GHOST))).

Definition test_staking_below_minimum : bool :=
  assert_err (signed 1) (Call_stake (GHOST / 2)) ext_build InsufficientStake.

Definition test_staking_multiple_times : bool :=
  assert_ok (signed 1) (Call_stake (5 * GHOST)) ext_build (λ s,
    assert_ok (signed 1) (Call_stake (3 * GHOST)) s (stake_is 1 (5 * GHOST + 3 * GHOST))).

Definition test_unstaking_basic : bool :=
  assert_ok (signed 1) (Call_stake (10 * GHOST)) ext_build (λ s,
    assert_ok (signed 1) (Call_unstake (3 * GHOST)) s (stake_is 1 (10 * GHOST - 3 * GHOST))).

Definition test_unstaking_without_stake : bool :=
  assert_err (signed 1) (Call_unstake GHOST) ext_build NotAValidator.

Definition test_unstaking_more_than_staked : bool :=
  assert_ok (signed 1) (Call_stake (5 * GHOST)) ext_build (λ s,
    assert_err (signed 1) (Call_unstake (10 * GHOST)) s InsufficientStake).

(** For every seed. *)
Definition test_validator_selection_weighted (seed : H256) : bool :=
  let stakers : list (ValidatorStake AccountId) :=
    [ {| account := 1; Types.stake := 50 * GHOST; weight := 50 |};
      {| account := 2; Types.stake := 30 * GHOST; weight := 30 |};
      {| account := 3; Types.stake := 20 * GHOST; weight := 20 |} ] in
  match select_pos_validator 0 stakers seed with
  | Some (Some selected) =>
      (1 <=? selected_validator selected) && (selected_validator selected <=? 3) &&
      (0 <? selected_weight selected)
  | _ => false
  end.

Definition test_validator_selection_empty (seed : H256) : bool :=
  match select_pos_validator 0 ([] : list (ValidatorStake AccountId)) seed with
  | Some None => true
  | _ => false
  end.

Definition test_block_reward_calculation : bool :=
  match calculate_block_reward (10 * GHOST) with
  | Some reward =>
      (miner_reward reward =? 4 * GHOST) && (stakers_reward reward =? 6 * GHOST) &&
      (total reward =? 10 * GHOST) &&
      (miner_reward reward + stakers_reward reward =? 10 * GHOST)
  | None => false
  end.

(** The two failing header validations, in the state of [ext_build] with the
    parent stored. *)
Definition with_parent (h : GhostBlockHeader) : State AccountId :=
  set_BlockHeaders (<[0 := h]> (BlockHeaders ext_build)) ext_build.
Definition with_parent_hash (h : GhostBlockHeader) (p : H256) : GhostBlockHeader :=
  {| number := number h; parent_hash := p; state_root := state_root h;
     extrinsics_root := extrinsics_root h; nonce := nonce h; difficulty := difficulty h;
     validator_signature := validator_signature h; pqc_signature := pqc_signature h |}.

Definition test_block_header_validation_wrong_number : bool :=
  let parent_header := create_block_header 0 100 in
  let child_header := with_parent_hash (create_block_header 5 200)
                        (hash_of scale_header parent_header) in
  match validate_block_header child_header parent_header (with_parent parent_header) with
  | (Err (Module InvalidBlockNumber), _) => true
  | _ => false
  end.

Definition test_block_header_validation_wrong_parent : bool :=
  let parent_header := create_block_header 0 100 in
  let child_header := with_parent_hash (create_block_header 1 200) (zeros 32) in
  match validate_block_header child_header parent_header (with_parent parent_header) with
  | (Err (Module InvalidParentHash), _) => true
  | _ => false
  end.

(** *** The tests that depend on hash values *)

Section HashTests.
Context `{!ScalePrims, !Hashing}.

Definition test_pow_verification_enhanced : bool :=
  let header := set_difficulty (create_block_header 1 0) (2 ^ 64 - 1) in
  verify_pow_enhanced header (2 ^ 64 - 1) && negb (verify_pow_enhanced header 1).

Definition test_pow_verification_different_algorithms : bool :=
  let header := create_block_header 1 12345 in
  let easy_difficulty := 2 ^ 64 - 1 in
  let hard_difficulty := 1000 in
  verify_pow header easy_difficulty && verify_pow_enhanced header easy_difficulty &&
  verify_pow_sha256 header easy_difficulty && verify_pow_keccak header easy_difficulty &&
  negb (verify_pow header hard_difficulty) && negb (verify_pow_enhanced header hard_difficulty) &&
  negb (verify_pow_sha256 header hard_difficulty) &&
  negb (verify_pow_keccak header hard_difficulty).

(** the result is ignored, so that it fails only by a panic *)
Definition test_block_header_validation_sequence : bool :=
  let parent_header := create_block_header 0 100 in
  let child_header := set_difficulty (with_parent_hash (create_block_header 1 200)
                        (hash_of scale_header parent_header)) 1000000000000 in
  match validate_block_header child_header parent_header (with_parent parent_header) with
  | (Panicked, _) => false
  | _ => true
  end.

Lemma verify_pow_easy h :
  verify_pow h (2 ^ 64 - 1) = true ∧ verify_pow_enhanced h (2 ^ 64 - 1) = true ∧
  verify_pow_sha256 h (2 ^ 64 - 1) = true ∧ verify_pow_keccak h (2 ^ 64 - 1) = true.
Proof.
  assert (Hle : ∀ a, (hash_value a <=? 2 ^ 64 - 1) = true).
  { intros a. apply Z.leb_le. destruct (hash_value_u64 a). lia. }
  split_and!; apply Hle.
Qed.

(** The tests that depend on hash values: the validation of a sequence passes for
    every hash, and each of the others passes exactly when no verifier that it
    names accepts its header at the hard target. *)
Theorem hash_tests_outcome :
  test_block_header_validation_sequence = true ∧
  (test_pow_verification_enhanced = true ↔
   verify_pow_enhanced (create_block_header 1 0) 1 = false) ∧
  (test_pow_verification_different_algorithms = true ↔
   verify_pow (create_block_header 1 12345) 1000 = false ∧
   verify_pow_enhanced (create_block_header 1 12345) 1000 = false ∧
   verify_pow_sha256 (create_block_header 1 12345) 1000 = false ∧
   verify_pow_keccak (create_block_header 1 12345) 1000 = false).
Proof.
  split; [|split].
  - unfold test_block_header_validation_sequence. rewrite validate_block_header_run by done.
    by destruct (first_failing _).
  - unfold test_pow_verification_enhanced.
    destruct (verify_pow_easy (set_difficulty (create_block_header 1 0) (2 ^ 64 - 1))) as (_ & -> & _).
    apply negb_true_iff.
  - unfold test_pow_verification_different_algorithms.
    destruct (verify_pow_easy (create_block_header 1 12345)) as (-> & -> & -> & ->).
    rewrite !andb_true_iff, !negb_true_iff. tauto.
Qed.
End HashTests.

(** The whole way of a block: the validator stakes and registers a key, the miner
    submits, the validator signs and validates.  The reference platform accepts a
    signature that starts like the key. *)
Definition easy_header (h : GhostBlockHeader) (p : H256) : GhostBlockHeader :=
  {| number := number h; parent_hash := p; state_root := state_root h;
     extrinsics_root := extrinsics_root h; nonce := nonce h; difficulty := 2 ^ 64 - 1;
     validator_signature := None; pqc_signature := None |}.

Definition test_submit_block_tracks_miner_and_validate_block_distributes_rewards : bool :=
  let parent_header := create_block_header 0 99 in
  let child_header := easy_header (create_block_header 1 123)
                        (hash_of scale_header parent_header) in
  let start := set_CurrentPhase PowMining (set_Difficulty (2 ^ 64 - 1) ext_build) in
  assert_ok (signed 2) (Call_stake (10 * GHOST)) start (λ s,
  assert_ok (signed 2) (Call_register_pqc_key (zeros pqc_public_key_len)) s (λ s,
  let s := set_BlockHeaders (<[0 := parent_header]> (BlockHeaders s)) s in
  (free escrow s =? 10 * GHOST) &&
  assert_ok (signed 1) (Call_submit_block child_header) s (λ s1,
    bool_decide (BlockProducers s1 !! 1 = Some 1) &&
    bool_decide (CurrentPhase s1 = PosValidation) &&
    assert_ok (signed 2) (Call_validate_block 1 PqcSignature_default) s1 (λ s2,
      bool_decide (CurrentPhase s2 = Finalization) &&
      match BlockHeaders s2 !! 1 with
      | Some h => match validator_signature h with Some _ => true | None => false end
      | None => false
      end &&
      bool_decide (BlockProducers s2 !! 1 = Some 1) &&
      (free 1 s2 =? free 1 s1 + 4 * GHOST) && (free 2 s2 =? free 2 s1 + 6 * GHOST) &&
      (free escrow s2 =? 10 * GHOST))))).

Definition test_multiple_validators_staking : bool :=
  assert_ok (signed 1) (Call_stake (10 * GHOST)) ext_build (λ s,
  assert_ok (signed 2) (Call_stake (20 * GHOST)) s (λ s,
  assert_ok (signed 3) (Call_stake (15 * GHOST)) s (λ s,
    stake_is 1 (10 * GHOST) s && stake_is 2 (20 * GHOST) s && stake_is 3 (15 * GHOST) s))).

Definition test_phase_transitions : bool :=
  bool_decide (CurrentPhase ext_build = PowMining) &&
  (let s := set_CurrentPhase PosValidation ext_build in
   bool_decide (CurrentPhase s = PosValidation) &&
   (let s := set_CurrentPhase Finalization s in
    bool_decide (CurrentPhase s = Finalization) &&
    (let s := set_CurrentPhase PowMining s in bool_decide (CurrentPhase s = PowMining)))).

Definition test_last_active_block_tracking : bool :=
  let s := set_LastActiveBlock (<[1 := 100]> (LastActiveBlock ext_build)) ext_build in
  default 0 (LastActiveBlock s !! 1) =? 100.

Definition test_difficulty_storage : bool :=
  Difficulty (set_Difficulty 5000000000000 ext_build) =? 5000000000000.

Definition test_slashing_records_storage : bool :=
  let records := SlashingRecords ext_build ++ [(1, DoubleSigning, 5 * GHOST, 100)] in
  let stored_records := SlashingRecords (set_SlashingRecords records ext_build) in
  bool_decide (length stored_records = 1%nat) &&
  match stored_records with
  | (validator, _, amount, _) :: _ => (validator =? 1) && (amount =? 5 * GHOST)
  | [] => false
  end.

Definition test_double_sign_reports : bool :=
  let s := set_DoubleSignReports (<[1 := true]> (DoubleSignReports ext_build)) ext_build in
  default false (DoubleSignReports s !! 1).

Definition test_invalid_block_reports : bool :=
  let s := set_InvalidBlockReports (<[1 := true]> (InvalidBlockReports ext_build)) ext_build in
  default false (InvalidBlockReports s !! 1).

(** The tests of the template pallet; [new_test_ext] is the empty storage. *)
Definition new_test_ext : Template.State AccountId := Template.mkState None [].

Definition it_works_for_default_value : bool :=
  match Template.dispatch (signed 1) (Template.Call_do_something 42) new_test_ext with
  | (Ok _, s) =>
      bool_decide (Template.Something s = Some 42) &&
      match last (Template.events s) with
      | Some (Template.SomethingStored something who) => (something =? 42) && (who =? 1)
      | None => false
      end
  | _ => false
  end.

(** [assert_noop!]: the error, and an unchanged storage *)
Definition correct_error_for_none_value : bool :=
  match Template.dispatch (signed 1) Template.Call_cause_error new_test_ext with
  | (Err (Template.Module Template.NoneValue), s) =>
      bool_decide (Template.Something s = None) && bool_decide (length (Template.events s) = 0%nat)
  | _ => false
  end.

Definition unit_tests : list bool :=
  [ test_genesis_config; test_difficulty_adjustment_increase;
    test_difficulty_adjustment_decrease; test_staking_basic;
    test_staking_escrow_and_unstaking_returns_funds; test_staking_below_minimum;
    test_staking_multiple_times; test_unstaking_basic; test_unstaking_without_stake;
    test_unstaking_more_than_staked; test_block_reward_calculation;
    test_pow_verification_enhanced; test_pow_verification_different_algorithms;
    test_block_header_validation_sequence;
    test_block_header_validation_wrong_number; test_block_header_validation_wrong_parent;
    test_submit_block_tracks_miner_and_validate_block_distributes_rewards;
    test_multiple_validators_staking; test_phase_transitions; test_last_active_block_tracking;
    test_difficulty_storage; test_slashing_records_storage; test_double_sign_reports;
    test_invalid_block_reports; it_works_for_default_value; correct_error_for_none_value ].

(** The model passes the unit tests; the two tests of the selection pass for every
    seed, not only for the one the tests use. *)
Theorem unit_tests_pass :
  forallb id unit_tests = true ∧
  ∀ seed, test_validator_selection_weighted seed = true ∧
          test_validator_selection_empty seed = true.
Proof.
  split; [by vm_compute|]. intros seed. split; [|done].
  unfold test_validator_selection_weighted.
  match goal with |- match select_pos_validator 0 ?l seed with _ => _ end = true =>
    pose proof (select_pos_correct (AccountId := AccountId) 0 l seed ltac:(by repeat constructor) ltac:(by vm_compute))
      as Hsel; destruct (select_pos_validator (AccountId := AccountId) 0 l seed) as [[sel|]|]; [|done|done]
  end.
  destruct Hsel as (l1 & x & l2 & Heq & -> & _).
  assert (Hin : x ∈ l1 ++ x :: l2) by (apply elem_of_app; right; left).
  rewrite <-Heq in Hin. rewrite !elem_of_cons, elem_of_nil in Hin.
  by destruct Hin as [->|[->|[->|[]]]].
Qed.
